(** * Assistance-operation orchestration engine of the assistance backbone

    A shallow embedding of the engine of [model/service/assistance.py],
    the dispatcher of [service/assistance.py] and the persistence gateway
    of [service/db/], with the properties the specification states about
    them.

    Conventions of the embedding.
    - Python objects are records; a field that may hold [None] is an
      [option]. Record fields carry a short prefix because Rocq has one
      name space for all fields.
    - Python dictionaries used as maps are [gmap string _]; MongoDB
      collections are lists of documents in natural (insertion) order,
      so that [find_one] is the first match.
    - Code that reads or writes the database, draws a UUID or reads the
      clock is a computation in the monad [M], which threads the [World]
      and may raise an exception [Exn].
    - Datetimes, delays in seconds and the debug time factor are integers
      ([Z]); fractional values and the rounding of floats are outside
      the model. *)

From Stdlib Require Import ZArith Lia.
From stdpp Require Import base option strings list gmap.

Open Scope string_scope.
Open Scope list_scope.

(** ** Enumerations of [model/core/tutorial_module.py] *)

Inductive AssistanceStateStatus :=
| INITIATED
| IN_PROGRESS
| ABORTED
| COMPLETED.

Inductive AssistanceObjectType :=
| ASSISTANCE_OBJECT
| ASSISTANCE_RESPONSE_OBJECT.

Inductive SubsequentAssistanceOperationType :=
| TRIGGERED_OPERATION
| SCHEDULED_OPERATION.

#[global] Instance AssistanceStateStatus_eq_dec : EqDecision AssistanceStateStatus.
Proof. solve_decision. Defined.

#[global] Instance AssistanceObjectType_eq_dec : EqDecision AssistanceObjectType.
Proof. solve_decision. Defined.

#[global] Instance SubsequentAssistanceOperationType_eq_dec :
  EqDecision SubsequentAssistanceOperationType.
Proof. solve_decision. Defined.

(** The [value] of each enumeration member, as [to_dict] writes it. *)
Definition status_value (s : AssistanceStateStatus) : string :=
  match s with
  | INITIATED => "initiated"
  | IN_PROGRESS => "in_progress"
  | ABORTED => "aborted"
  | COMPLETED => "completed"
  end.

(** ** Parameter values

    The generic parameter bag holds strings, numbers, booleans, nested
    dictionaries and lists. A dictionary key is a string or [None]
    (Python accepts [None] as a key, the database driver does not).
    [VObject m c d] is an instance of the class [c] defined in module
    [m], with the attributes [d] (for example an [AssistanceObject]
    placed in a context by [update_assistance]); such a value has no
    BSON encoding. *)

#[warnings="-register-all"]
Inductive Value :=
| VNone
| VBool (b : bool)
| VInt (z : Z)
| VStr (s : string)
| VList (l : list Value)
| VDict (d : list (option string * Value))
| VObject (module_name class_name : string) (attributes : list (option string * Value)).

(** [v.__class__.__module__] under Python 3: every built-in type lives
    in the module [builtins]. *)
Definition class_module (v : Value) : string :=
  match v with
  | VObject m _ _ => m
  | _ => "builtins"
  end.

Definition is_Some_key (k : option string) : bool :=
  match k with
  | Some _ => true
  | None => false
  end.

(** What the MongoDB driver can encode: built-in scalars and containers
    of encodable values under string keys; an instance of a user class
    is refused. *)
Fixpoint bson_encodable (v : Value) : bool :=
  match v with
  | VObject _ _ _ => false
  | VList l => forallb bson_encodable l
  | VDict d => forallb (fun kv => is_Some_key (fst kv) && bson_encodable (snd kv)) d
  | _ => true
  end.

(** ** Exceptions *)

Inductive Exn :=
| AssistanceParameterException
| AssistanceOperationException
| AssistanceOperationCanNotBeScheduledException
| AssistanceNotExistsException
| CompletedAssistanceModifyException
| StudentModelNotExistsError
| AttributeError
| TypeError
| IndexError
| RecursionError
| KeyError
| InvalidDocument
| DuplicateKeyError
| OverflowError
| ValidationError.

#[global] Instance Exn_eq_dec : EqDecision Exn.
Proof. solve_decision. Defined.

(** ** Models of [model/core/tutorial_module.py] *)

Record AssistanceParameter := {
  key : string;
  value : Value
}.

Record AssistanceState := {
  status : option AssistanceStateStatus;
  phase : option Z;
  step : option string
}.

(** [ao_oid] is the document's [_id], set by the driver on insertion. A
    reference [{"_id": x}] stored in an assistance document is parsed by
    [AssistanceObject(d)] into an object with only [ao_oid] set. *)
Record AssistanceObject := {
  ao_a_id : option string;
  ao_assistance_type : option string;
  ao_id : option string;
  ao_user_id : option string;
  ao_timestamp : option Z;
  ao_parameters : list AssistanceParameter;
  ao_type : option AssistanceObjectType;
  ao_oid : option nat
}.

Record Assistance := {
  a_id : option string;
  a_user_id : option string;
  a_type_key : option string;
  a_timestamp : option Z;
  a_assistance_state : option AssistanceState;
  a_parameters : list AssistanceParameter;
  a_assistance_objects : list AssistanceObject;
  a_next_operation_keys : list string
}.

Record AssistanceContext := {
  parameter_dict : gmap string Value;
  context_can_be_persisted : bool
}.

(** [AssistanceContext(parameter_dict)]: the flag is a class attribute
    with value [True]. *)
Definition new_context (d : gmap string Value) : AssistanceContext :=
  {| parameter_dict := d; context_can_be_persisted := true |}.

(** A scheduled invocation, [AssistanceOperation] of the model layer. *)
Record AssistanceOperationModel := {
  so_assistance_type_key : string;
  so_assistance_operation_key : string;
  so_a_id : option string;
  so_ctx : AssistanceContext;
  so_time_of_invocation : option Z;
  so_oid : option nat
}.

(** ** Documents of the other collections *)

(** [models/core/administration.py], [Setting]: the value as
    [Setting._init] parses it. *)
Record Setting := {
  stg_key : string;
  stg_value : Value
}.

(** What the attribute path [statement.actor.account.name] evaluates
    to. [Statement] keeps [actor] as a [DotDict] ([None] for a
    statement without actor), and a [DotDict] answers a key it does not
    have by creating it with an empty [DotDict] as value.
    - [name_stored s]: the account has the name [s];
    - [name_null]: the statement has no actor, or [account] or [name]
      is stored as null, so that the path ends in, or runs through,
      [None];
    - [name_absent]: the actor has no [account], or the account no
      [name]: the path evaluates to the empty [DotDict] it creates. *)
Inductive AccountName :=
| name_stored (s : string)
| name_null
| name_absent.

(** The parts of an xAPI statement the engine reads:
    [statement.verb.id] ([None] for a statement without verb) and
    [statement.actor.account.name]. *)
Record Statement := {
  st_id : string;
  st_verb_id : option string;
  st_actor : AccountName
}.

(** The name of the account of the actor, when one is stored. *)
Definition st_actor_account_name (statement : Statement) : option string :=
  match st_actor statement with
  | name_stored s => Some s
  | _ => None
  end.

(** The student model as [read_student_model_by_user_id] returns it,
    with the experience references loaded. *)
Record StudentModel := {
  sm_user_id : string;
  sm_experiences : option (list Value)
}.

(** ** The world: database, environment, clock and delivery sink

    [env_debug] and [disabled_assistance_type_keys] are the environment
    variables [DEBUG] and [DISABLED_ASSISTANCE_TYPES]; [clock] is what
    [current_datetime()] returns, in seconds; [uuid_supply] and [oid_supply] count
    the UUIDs and document ids drawn so far; [sent] is the delivery
    sink, the bundles handed to [send_assistance] in order. [sweep_log]
    is a ghost field without a counterpart in the code: the scheduler
    sweep notes in it the [_id] of every scheduled document it hands to
    the engine and whether that call returned ([true]) or raised. *)

Record World := {
  assistance_collection : list Assistance;
  assistance_objects_collection : list AssistanceObject;
  assistance_operations_collection : list AssistanceOperationModel;
  settings_collection : list Setting;
  statements_collection : list Statement;
  student_models_collection : list StudentModel;
  env_debug : bool;
  disabled_assistance_type_keys : list string;
  clock : Z;
  uuid_supply : nat;
  oid_supply : nat;
  sent : list (list Assistance);
  sweep_log : list (option nat * bool)
}.

Definition set_assistance_collection (c : list Assistance) (w : World) : World :=
  {| assistance_collection := c;
     assistance_objects_collection := assistance_objects_collection w;
     assistance_operations_collection := assistance_operations_collection w;
     settings_collection := settings_collection w;
     statements_collection := statements_collection w;
     student_models_collection := student_models_collection w;
     env_debug := env_debug w;
     disabled_assistance_type_keys := disabled_assistance_type_keys w;
     clock := clock w;
     uuid_supply := uuid_supply w;
     oid_supply := oid_supply w;
     sent := sent w;
     sweep_log := sweep_log w |}.

Definition set_assistance_objects_collection (c : list AssistanceObject) (w : World) : World :=
  {| assistance_collection := assistance_collection w;
     assistance_objects_collection := c;
     assistance_operations_collection := assistance_operations_collection w;
     settings_collection := settings_collection w;
     statements_collection := statements_collection w;
     student_models_collection := student_models_collection w;
     env_debug := env_debug w;
     disabled_assistance_type_keys := disabled_assistance_type_keys w;
     clock := clock w;
     uuid_supply := uuid_supply w;
     oid_supply := oid_supply w;
     sent := sent w;
     sweep_log := sweep_log w |}.

Definition set_assistance_operations_collection (c : list AssistanceOperationModel)
    (w : World) : World :=
  {| assistance_collection := assistance_collection w;
     assistance_objects_collection := assistance_objects_collection w;
     assistance_operations_collection := c;
     settings_collection := settings_collection w;
     statements_collection := statements_collection w;
     student_models_collection := student_models_collection w;
     env_debug := env_debug w;
     disabled_assistance_type_keys := disabled_assistance_type_keys w;
     clock := clock w;
     uuid_supply := uuid_supply w;
     oid_supply := oid_supply w;
     sent := sent w;
     sweep_log := sweep_log w |}.

Definition set_uuid_supply (n : nat) (w : World) : World :=
  {| assistance_collection := assistance_collection w;
     assistance_objects_collection := assistance_objects_collection w;
     assistance_operations_collection := assistance_operations_collection w;
     settings_collection := settings_collection w;
     statements_collection := statements_collection w;
     student_models_collection := student_models_collection w;
     env_debug := env_debug w;
     disabled_assistance_type_keys := disabled_assistance_type_keys w;
     clock := clock w;
     uuid_supply := n;
     oid_supply := oid_supply w;
     sent := sent w;
     sweep_log := sweep_log w |}.

Definition set_oid_supply (n : nat) (w : World) : World :=
  {| assistance_collection := assistance_collection w;
     assistance_objects_collection := assistance_objects_collection w;
     assistance_operations_collection := assistance_operations_collection w;
     settings_collection := settings_collection w;
     statements_collection := statements_collection w;
     student_models_collection := student_models_collection w;
     env_debug := env_debug w;
     disabled_assistance_type_keys := disabled_assistance_type_keys w;
     clock := clock w;
     uuid_supply := uuid_supply w;
     oid_supply := n;
     sent := sent w;
     sweep_log := sweep_log w |}.

Definition set_clock (t : Z) (w : World) : World :=
  {| assistance_collection := assistance_collection w;
     assistance_objects_collection := assistance_objects_collection w;
     assistance_operations_collection := assistance_operations_collection w;
     settings_collection := settings_collection w;
     statements_collection := statements_collection w;
     student_models_collection := student_models_collection w;
     env_debug := env_debug w;
     disabled_assistance_type_keys := disabled_assistance_type_keys w;
     clock := t;
     uuid_supply := uuid_supply w;
     oid_supply := oid_supply w;
     sent := sent w;
     sweep_log := sweep_log w |}.

Definition set_sent (l : list (list Assistance)) (w : World) : World :=
  {| assistance_collection := assistance_collection w;
     assistance_objects_collection := assistance_objects_collection w;
     assistance_operations_collection := assistance_operations_collection w;
     settings_collection := settings_collection w;
     statements_collection := statements_collection w;
     student_models_collection := student_models_collection w;
     env_debug := env_debug w;
     disabled_assistance_type_keys := disabled_assistance_type_keys w;
     clock := clock w;
     uuid_supply := uuid_supply w;
     oid_supply := oid_supply w;
     sent := l;
     sweep_log := sweep_log w |}.

Definition set_sweep_log (l : list (option nat * bool)) (w : World) : World :=
  {| assistance_collection := assistance_collection w;
     assistance_objects_collection := assistance_objects_collection w;
     assistance_operations_collection := assistance_operations_collection w;
     settings_collection := settings_collection w;
     statements_collection := statements_collection w;
     student_models_collection := student_models_collection w;
     env_debug := env_debug w;
     disabled_assistance_type_keys := disabled_assistance_type_keys w;
     clock := clock w;
     uuid_supply := uuid_supply w;
     oid_supply := oid_supply w;
     sent := sent w;
     sweep_log := l |}.

(** ** The monad of effectful code

    A computation receives the world and returns either the exception it
    raised or its result, with the world as it then is. Writes made
    before a [raise] stay: the gateway has no transactions. *)

Definition M (A : Type) : Type := World -> (Exn + A) * World.

Definition ret {A : Type} (a : A) : M A := fun w => (inr a, w).

Definition bind {A B : Type} (m : M A) (f : A -> M B) : M B := fun w =>
  match m w with
  | (inr a, w') => f a w'
  | (inl e, w') => (inl e, w')
  end.

Notation "'let*' x ':=' m 'in' k" := (bind m (fun x => k))
  (at level 10, x pattern, m at level 100, k at level 200).

Definition raise {A : Type} (e : Exn) : M A := fun w => (inl e, w).

Definition gets {A : Type} (f : World -> A) : M A := fun w => (inr (f w), w).

Definition modify (f : World -> World) : M unit := fun w => (inr tt, f w).

(** [try: m except e if handles e: h e]. *)
Definition try_except {A : Type} (m : M A) (handles : Exn -> bool) (h : Exn -> M A) : M A :=
  fun w =>
    match m w with
    | (inl e, w') => if handles e then h e w' else (inl e, w')
    | r => r
    end.

(** A pure computation that may raise, run inside [M]. *)
Definition lift {A : Type} (r : Exn + A) : M A := fun w => (r, w).

(** The same for pure code that may raise. *)
Definition bindE {A B : Type} (r : Exn + A) (f : A -> Exn + B) : Exn + B :=
  match r with
  | inr a => f a
  | inl e => inl e
  end.

Notation "'let+' x ':=' r 'in' k" := (bindE r (fun x => k))
  (at level 10, x pattern, r at level 100, k at level 200).

(** A [for] loop whose body may raise: the body runs on each element in
    order, threading the loop state [acc]. *)
Fixpoint for_each {A S : Type} (l : list A) (body : A -> S -> M S) (acc : S) : M S :=
  match l with
  | [] => ret acc
  | x :: l' => let* acc' := body x acc in for_each l' body acc'
  end.

(** ** Helpers for collections

    [find_one], [replace_one], [update_one] and [delete_one] act on the
    first document that matches the filter. *)

Fixpoint replace_first {A : Type} (p : A -> bool) (f : A -> A) (l : list A) : list A :=
  match l with
  | [] => []
  | x :: l' => if p x then f x :: l' else x :: replace_first p f l'
  end.

Fixpoint remove_first {A : Type} (p : A -> bool) (l : list A) : list A :=
  match l with
  | [] => []
  | x :: l' => if p x then l' else x :: remove_first p l'
  end.

(** An [a_id] as a filter value. A context parameter that is a string or
    [None] is compared with the stored field; a value of another type
    matches no document. *)
Definition a_id_matches (q : Value) (stored : option string) : bool :=
  match q, stored with
  | VStr s, Some s' => bool_decide (s = s')
  | VNone, None => true
  | _, _ => false
  end.

Definition opt_str_value (o : option string) : Value :=
  match o with
  | Some s => VStr s
  | None => VNone
  end.

(** ** [service/datetime.py] and identifiers

    A datetime is the number of seconds since 1970-01-01T00:00:00Z.
    Python's [datetime] covers the years 1 to 9999 and a [timedelta] at
    most 999999999 days in either direction; outside these ranges the
    constructor of the duration and the addition raise
    [OverflowError]. *)

Definition current_datetime : M Z := gets clock.

Definition DATETIME_MIN : Z := (-62135596800)%Z.
Definition DATETIME_MAX : Z := 253402300799%Z.
Definition TIMEDELTA_MAX_DAYS : Z := 999999999%Z.

(** [timedelta(seconds=s)]: the duration is normalised to days and
    seconds of the day; the days are [s // 86400]. *)
Definition timedelta (seconds : Z) : Exn + Z :=
  if (Z.abs (seconds / 86400) <=? TIMEDELTA_MAX_DAYS)%Z then inr seconds
  else inl OverflowError.

(** [d + delta] for a datetime [d] and a duration [delta]. *)
Definition datetime_add (d delta : Z) : Exn + Z :=
  if ((DATETIME_MIN <=? d + delta) && (d + delta <=? DATETIME_MAX))%Z
  then inr (d + delta)%Z
  else inl OverflowError.

(** [str(uuid.uuid4())]: the n-th draw, written as a string; distinct
    draws give distinct strings. *)
Fixpoint uuid_str (n : nat) : string :=
  match n with
  | O => "uuid"
  | S n' => "-" +:+ uuid_str n'
  end.

Definition uuid4 : M string :=
  fun w => (inr (uuid_str (uuid_supply w)), set_uuid_supply (S (uuid_supply w)) w).

(** The [_id] the driver gives to an inserted document. *)
Definition fresh_oid : M nat :=
  fun w => (inr (oid_supply w), set_oid_supply (S (oid_supply w)) w).

(** ** [assistance/__init__.py] *)

Definition get_first_assistance_parameter_by_key
    (parameters : list AssistanceParameter) (parameter_key : string)
    : Exn + AssistanceParameter :=
  match find (fun parameter => bool_decide (key parameter = parameter_key)) parameters with
  | Some parameter => inr parameter
  | None => inl AssistanceParameterException
  end.

Definition replace_or_add_assistance_parameters_by_key
    (replacement : AssistanceParameter) (parameters : option (list AssistanceParameter))
    : list AssistanceParameter :=
  match parameters with
  | None => []
  | Some parameters =>
      let filtered_parameters :=
        filter (fun parameter => key parameter ≠ key replacement) parameters in
      filtered_parameters ++ [replacement]
  end.

(** ** [AssistanceContext] *)

Definition get_parameter (ctx : AssistanceContext) (parameter_key : string) : Exn + Value :=
  match parameter_dict ctx !! parameter_key with
  | None => inl AssistanceParameterException
  | Some v => inr v
  end.

Definition add_parameter (ctx : AssistanceContext) (parameter_key : string)
    (parameter_value : Value) : Exn + AssistanceContext :=
  match parameter_dict ctx !! parameter_key with
  | Some _ => inl AssistanceParameterException
  | None =>
      inr {| parameter_dict := <[parameter_key := parameter_value]> (parameter_dict ctx);
             context_can_be_persisted :=
               if bool_decide (class_module parameter_value = "__builtin__")
               then false
               else context_can_be_persisted ctx |}
  end.

(** ** [service/db/setting.py] and [service/administration.py] *)

Definition SETTING_KEY_DEBUG := "debug".
Definition SETTING_KEY_DEBUG_SCHEDULED_ASSISTANCE_TIME_FACTOR :=
  "debug_scheduled_assistance_time_factor".
Definition SETTING_KEY_SCHEDULED_ASSISTANCE_DISABLED := "scheduled_assistance_disabled".

Definition read_setting_by_key (setting_key : string) : M (option Setting) :=
  gets (fun w =>
    find (fun s => bool_decide (stg_key s = setting_key)) (settings_collection w)).

(** Python truth value of a setting. *)
Definition truthy (v : Value) : bool :=
  match v with
  | VNone => false
  | VBool b => b
  | VInt z => negb (z =? 0)%Z
  | VStr s => negb (bool_decide (s = ""))
  | VList l => match l with [] => false | _ => true end
  | VDict d => match d with [] => false | _ => true end
  | VObject _ _ _ => true
  end.

Definition debug : M bool :=
  let* debug_enabled_by_env_var := gets env_debug in
  if debug_enabled_by_env_var then ret true
  else
    let* debug_setting := read_setting_by_key SETTING_KEY_DEBUG in
    match debug_setting with
    | Some s => if truthy (stg_value s) then ret true else ret false
    | None => ret false
    end.

(** ** [service/db/assistance_object.py]

    The driver refuses a document it cannot encode ([InvalidDocument]),
    refuses an empty [insert_many] ([TypeError]), gives a fresh [_id] to
    a document that has none and refuses a second document with an [_id]
    already in the collection ([DuplicateKeyError], the documents before
    it staying written). *)

Definition parameters_encodable (parameters : list AssistanceParameter) : bool :=
  forallb (fun parameter => bson_encodable (value parameter)) parameters.

Definition oid_in_objects (i : nat) (c : list AssistanceObject) : bool :=
  existsb (fun o => bool_decide (ao_oid o = Some i)) c.

Definition insert_assistance_object (d : AssistanceObject) (inserted : list AssistanceObject)
    : M (list AssistanceObject) :=
  match ao_oid d with
  | None =>
      let* i := fresh_oid in
      let d' := {| ao_a_id := ao_a_id d; ao_assistance_type := ao_assistance_type d;
                   ao_id := ao_id d; ao_user_id := ao_user_id d;
                   ao_timestamp := ao_timestamp d; ao_parameters := ao_parameters d;
                   ao_type := ao_type d; ao_oid := Some i |} in
      let* _ := modify (fun w =>
        set_assistance_objects_collection (assistance_objects_collection w ++ [d']) w) in
      ret (inserted ++ [d'])
  | Some i =>
      let* c := gets assistance_objects_collection in
      if oid_in_objects i c then raise DuplicateKeyError
      else
        let* _ := modify (fun w =>
          set_assistance_objects_collection (assistance_objects_collection w ++ [d]) w) in
        ret (inserted ++ [d])
  end.

Definition insert_many_assistance_objects (docs : list AssistanceObject)
    : M (list AssistanceObject) :=
  match docs with
  | [] => raise TypeError
  | _ =>
      if forallb (fun d => parameters_encodable (ao_parameters d)) docs
      then for_each docs insert_assistance_object []
      else raise InvalidDocument
  end.

Definition create_assistance_objects (assistance_objects : list AssistanceObject)
    (a_id : option string) : M (list AssistanceObject) :=
  let* assistance_object_dicts :=
    for_each assistance_objects (fun assistance_object dicts =>
      let* new_ao_id := uuid4 in
      let* now := current_datetime in
      ret (dicts ++ [ {| ao_a_id := a_id;
                         ao_assistance_type := ao_assistance_type assistance_object;
                         ao_id := Some new_ao_id;
                         ao_user_id := ao_user_id assistance_object;
                         ao_timestamp := Some now;
                         ao_parameters := ao_parameters assistance_object;
                         ao_type := ao_type assistance_object;
                         ao_oid := ao_oid assistance_object |} ])) [] in
  insert_many_assistance_objects assistance_object_dicts.

(** ** [service/db/assistance.py]

    An assistance document stores its objects as references; the record
    [ref_object i] is what [Assistance(document)] makes of the reference
    [{"_id": i}]. The [_id] of assistance documents is not modelled:
    nothing in the engine reads it. *)

Definition ref_object (i : option nat) : AssistanceObject :=
  {| ao_a_id := None; ao_assistance_type := None; ao_id := None; ao_user_id := None;
     ao_timestamp := None; ao_parameters := []; ao_type := None; ao_oid := i |}.

Definition with_assistance_objects (objects : list AssistanceObject) (a : Assistance)
    : Assistance :=
  {| a_id := a_id a; a_user_id := a_user_id a; a_type_key := a_type_key a;
     a_timestamp := a_timestamp a; a_assistance_state := a_assistance_state a;
     a_parameters := a_parameters a; a_assistance_objects := objects;
     a_next_operation_keys := a_next_operation_keys a |}.

Definition with_next_operation_keys (keys : list string) (a : Assistance) : Assistance :=
  {| a_id := a_id a; a_user_id := a_user_id a; a_type_key := a_type_key a;
     a_timestamp := a_timestamp a; a_assistance_state := a_assistance_state a;
     a_parameters := a_parameters a; a_assistance_objects := a_assistance_objects a;
     a_next_operation_keys := keys |}.

Definition __load_assistance_objects (assistance : Assistance) : M Assistance :=
  match a_assistance_objects assistance with
  | [] => ret assistance
  | refs =>
      let ids := omap ao_oid refs in
      let* found := gets (fun w =>
        List.filter (fun o => match ao_oid o with
                              | Some i => bool_decide (i ∈ ids)
                              | None => false
                              end) (assistance_objects_collection w)) in
      ret (with_assistance_objects found assistance)
  end.

Definition find_one_assistance (q : Value) : M (option Assistance) :=
  gets (fun w => find (fun a => a_id_matches q (a_id a)) (assistance_collection w)).

Definition insert_one_assistance (assistance_dict : Assistance) : M unit :=
  if parameters_encodable (a_parameters assistance_dict)
  then modify (fun w => set_assistance_collection (assistance_collection w ++ [assistance_dict]) w)
  else raise InvalidDocument.

Definition replace_one_assistance (q : Value) (assistance_dict : Assistance) : M unit :=
  if parameters_encodable (a_parameters assistance_dict)
  then modify (fun w =>
         set_assistance_collection
           (replace_first (fun a => a_id_matches q (a_id a)) (fun _ => assistance_dict)
              (assistance_collection w)) w)
  else raise InvalidDocument.

Definition is_empty {A : Type} (l : list A) : bool :=
  match l with
  | [] => true
  | _ => false
  end.

Definition create_assistance (assistance : Assistance) : M Assistance :=
  let* new_a_id := uuid4 in
  let* now := current_datetime in
  let* refs :=
    if is_empty (a_assistance_objects assistance) then ret []
    else
      let* created := create_assistance_objects (a_assistance_objects assistance)
                        (Some new_a_id) in
      ret (map (fun created_ao => ref_object (ao_oid created_ao)) created) in
  let assistance_dict :=
    {| a_id := Some new_a_id; a_user_id := a_user_id assistance;
       a_type_key := a_type_key assistance; a_timestamp := Some now;
       a_assistance_state := a_assistance_state assistance;
       a_parameters := a_parameters assistance; a_assistance_objects := refs;
       a_next_operation_keys := a_next_operation_keys assistance |} in
  let* _ := insert_one_assistance assistance_dict in
  __load_assistance_objects assistance_dict.

Definition read_assistance_by_a_id (q : Value) : M (option Assistance) :=
  let* find_one_result := find_one_assistance q in
  match find_one_result with
  | None => ret None
  | Some doc => let* a := __load_assistance_objects doc in ret (Some a)
  end.

Definition is_terminal (s : option AssistanceStateStatus) : bool :=
  bool_decide (s = Some COMPLETED) || bool_decide (s = Some ABORTED).

Definition existing_status (existing_assistance : Assistance)
    : Exn + option AssistanceStateStatus :=
  match a_assistance_state existing_assistance with
  | None => inl AttributeError
  | Some st => inr (status st)
  end.

Definition update_assistance_adding_assistance_objects (assistance : Assistance)
    : M Assistance :=
  let* find_one_result := find_one_assistance (opt_str_value (a_id assistance)) in
  match find_one_result with
  | None => raise AssistanceNotExistsException
  | Some existing_assistance =>
      let* existing_state_status := lift (existing_status existing_assistance) in
      if is_terminal existing_state_status then raise CompletedAssistanceModifyException
      else
        let* objects :=
          if is_empty (a_assistance_objects assistance)
          then ret (a_assistance_objects existing_assistance)
          else
            let* created := create_assistance_objects (a_assistance_objects assistance)
                              (a_id existing_assistance) in
            ret (a_assistance_objects existing_assistance
                 ++ map (fun created_ao => ref_object (ao_oid created_ao)) created) in
        let assistance_dict := with_assistance_objects objects assistance in
        let* _ := replace_one_assistance (opt_str_value (a_id assistance)) assistance_dict in
        __load_assistance_objects assistance_dict
  end.

Definition update_assistance_by_a_id_adding_assistance_objects (a_id_arg : string)
    (assistance_objects : list AssistanceObject) : M Assistance :=
  let* find_one_result := find_one_assistance (VStr a_id_arg) in
  match find_one_result with
  | None => raise AssistanceNotExistsException
  | Some existing_assistance =>
      let* existing_state_status := lift (existing_status existing_assistance) in
      if is_terminal existing_state_status then raise CompletedAssistanceModifyException
      else
        let* created := create_assistance_objects assistance_objects
                          (a_id existing_assistance) in
        let assistance_dict :=
          with_assistance_objects
            (a_assistance_objects existing_assistance
             ++ map (fun created_ao => ref_object (ao_oid created_ao)) created)
            existing_assistance in
        let* _ := replace_one_assistance
                    (opt_str_value (a_id existing_assistance)) assistance_dict in
        __load_assistance_objects assistance_dict
  end.

Definition update_assistance_by_a_id_reset_next_operation_keys (q : Value) : M unit :=
  modify (fun w =>
    set_assistance_collection
      (replace_first (fun a => a_id_matches q (a_id a)) (with_next_operation_keys [])
         (assistance_collection w)) w).

(** ** [service/db/assistance_operation.py] *)

Definition oid_in_operations (i : nat) (c : list AssistanceOperationModel) : bool :=
  existsb (fun o => bool_decide (so_oid o = Some i)) c.

Definition context_encodable (ctx : AssistanceContext) : bool :=
  forallb (fun kv => bson_encodable (snd kv)) (map_to_list (parameter_dict ctx)).

(** [AssistanceOperation(document)]: the context is rebuilt from the
    stored dictionary, so its flag is the class default again. *)
Definition stored_operation (o : AssistanceOperationModel) (t : Z) (i : nat)
    : AssistanceOperationModel :=
  {| so_assistance_type_key := so_assistance_type_key o;
     so_assistance_operation_key := so_assistance_operation_key o;
     so_a_id := so_a_id o;
     so_ctx := new_context (parameter_dict (so_ctx o));
     so_time_of_invocation := Some t;
     so_oid := Some i |}.

Definition create_assistance_operation_for_scheduled_invocation
    (assistance_operation : AssistanceOperationModel) (time_to_invocation_in_s : Z)
    : M AssistanceOperationModel :=
  let* now := current_datetime in
  let* time_of_invocation :=
    lift (let+ delta := timedelta time_to_invocation_in_s in datetime_add now delta) in
  if context_encodable (so_ctx assistance_operation) then
    let* i :=
      match so_oid assistance_operation with
      | None => fresh_oid
      | Some i =>
          let* c := gets assistance_operations_collection in
          if oid_in_operations i c then raise DuplicateKeyError else ret i
      end in
    let document := stored_operation assistance_operation time_of_invocation i in
    let* _ := modify (fun w =>
      set_assistance_operations_collection
        (assistance_operations_collection w ++ [document]) w) in
    ret document
  else raise InvalidDocument.

Definition delete_assistance_operation (assistance_operation : AssistanceOperationModel)
    : M unit :=
  modify (fun w =>
    set_assistance_operations_collection
      (remove_first (fun o => bool_decide (so_oid o = so_oid assistance_operation))
         (assistance_operations_collection w)) w).

Definition delete_assistance_operations_by_a_id (q : Value) : M unit :=
  modify (fun w =>
    set_assistance_operations_collection
      (List.filter (fun o => negb (a_id_matches q (so_a_id o)))
         (assistance_operations_collection w)) w).

Definition due_before (date : Z) (o : AssistanceOperationModel) : bool :=
  match so_time_of_invocation o with
  | Some t => (t <=? date)%Z
  | None => false
  end.

Definition read_assistance_operation_by_time_of_invocation_before_date (date : Z)
    : M (list AssistanceOperationModel) :=
  gets (fun w => List.filter (due_before date) (assistance_operations_collection w)).

(** ** [model/service/assistance.py]: operations, results, processes *)

Definition ASSISTANCE_CONTEXT_PARAMETER_KEY_A_ID := "a_id".
Definition ASSISTANCE_CONTEXT_PARAMETER_KEY_ASSISTANCE_OBJECTS := "assistance_objects".
Definition ASSISTANCE_CONTEXT_PARAMETER_KEY_STATEMENT_ID := "statement_id".
Definition ASSISTANCE_OPERATION_KEY_INITIATION := "initiation".
Definition ASSISTANCE_OBJECT_PARAMETER_KEY_MESSAGE := "message".
Definition ASSISTANCE_OBJECT_PARAMETER_KEY_STATE_UPDATE := "state_update".
Definition ASSISTANCE_OBJECT_PARAMETER_KEY_URI := "uri".
Definition ASSISTANCE_PARAMETER_KEY_RELATED_USER_IDS := "related_user_ids".
Definition ASSISTANCE_PARAMETER_KEY_USER_ID_TO_STATE := "user_states".

Record SubsequentAssistanceOperation := {
  sub_type : SubsequentAssistanceOperationType;
  operation_key : string;
  time_to_invocation_in_s : option Z
}.

Record AssistanceRequest := {
  assistance_type_key : string;
  assistance_operation_key : string;
  ctx : AssistanceContext
}.

Record AssistanceResult := {
  assistance : list Assistance;
  assistance_requests : list AssistanceRequest;
  prepend_assistance_from_requests : bool
}.

(** The field [assistance], for places where a local variable of the
    code has the same name. *)
Definition result_assistance (r : AssistanceResult) : list Assistance := assistance r.

(** [AssistanceResult(assistance, assistance_requests, prepend)]. *)
Definition new_result (assistance : option (list Assistance))
    (assistance_requests : option (list AssistanceRequest))
    (prepend_assistance_from_requests : bool) : AssistanceResult :=
  {| assistance := default [] assistance;
     assistance_requests := default [] assistance_requests;
     prepend_assistance_from_requests := prepend_assistance_from_requests |}.

(** The attributes of an operation object. [execute] and [_execute]
    assign to them, so every method receives them and returns them as
    they are afterwards. *)
Record OperationAttributes := {
  target_status : option AssistanceStateStatus;
  parameters : list AssistanceParameter;
  subsequent_operations : option (list SubsequentAssistanceOperation);
  assistance_in_progress_required : bool;
  delete_scheduled_operations : bool;
  reset_next_operation_keys : bool;
  prevent_progress : bool;
  related_user_ids : option (list string);
  op_phase : option Z;
  op_step : option string;
  state_update_status_to_send : option (list AssistanceStateStatus);
  send_state_update_to_related_users : bool
}.

(** The constructor [AssistanceOperation.__init__] with its defaults. *)
Definition default_attributes : OperationAttributes :=
  {| target_status := None; parameters := []; subsequent_operations := None;
     assistance_in_progress_required := false; delete_scheduled_operations := false;
     reset_next_operation_keys := false; prevent_progress := false;
     related_user_ids := None; op_phase := None; op_step := None;
     state_update_status_to_send := None; send_state_update_to_related_users := true |}.

(** An operation: its attributes, the [is_applicable] of its class when
    the class overrides the one of [AssistanceOperation] ([None]
    otherwise), and its [_execute]. *)
Record AssistanceOperation := {
  self : OperationAttributes;
  is_applicable_override : option (OperationAttributes -> AssistanceContext -> M bool);
  _execute : OperationAttributes -> AssistanceContext
             -> M (OperationAttributes * option AssistanceResult)
}.

(** [AssistanceOperation._execute]: returns [None]. *)
Definition base_execute (s : OperationAttributes) (c : AssistanceContext)
    : M (OperationAttributes * option AssistanceResult) :=
  ret (s, None).

Record AssistanceOperationSchedule := {
  schedule_time_to_invocation_in_s : Z
}.

Record AssistancePhaseStep := {
  step_operation_key : string;
  step_parameters : list AssistanceParameter;
  step_operation : AssistanceOperation;
  schedule : option AssistanceOperationSchedule
}.

Record AssistancePhase := {
  phase_parameters : list AssistanceParameter;
  steps : list AssistancePhaseStep
}.

Record AssistanceProcess := {
  get_key : string;
  _registered_phases : list AssistancePhase;
  _registered_operations : gmap string AssistanceOperation;
  _registered_operation_keys_to_phase_number : gmap string Z;
  registered_operation_keys_to_step_number : gmap string Z
}.

(** *** [AssistanceOperation.is_applicable] *)

Definition is_applicable (self : OperationAttributes) (ctx : AssistanceContext) : M bool :=
  if negb (assistance_in_progress_required self) then ret true
  else
    try_except
      (let* _ := lift (get_parameter ctx ASSISTANCE_CONTEXT_PARAMETER_KEY_A_ID) in
       let* q := lift (get_parameter ctx ASSISTANCE_CONTEXT_PARAMETER_KEY_A_ID) in
       let* _ := read_assistance_by_a_id q in
       ret true)
      (fun e => bool_decide (e = AssistanceParameterException))
      (fun _ => ret false).

(** *** [AssistanceOperation._filter_subsequent_operations_by_type] *)

Definition _filter_subsequent_operations_by_type
    (subsequent_operations : option (list SubsequentAssistanceOperation))
    (type : SubsequentAssistanceOperationType) : list SubsequentAssistanceOperation :=
  match subsequent_operations with
  | None => []
  | Some l => List.filter (fun o => bool_decide (sub_type o = type)) l
  end.

(** *** [AssistanceProcess.schedule_operation] *)

(** A value used as a number: [bool] is a subclass of [int]; anything
    else makes the product, or [timedelta], raise [TypeError]. *)
Definition as_number (v : Value) : Exn + Z :=
  match v with
  | VInt z => inr z
  | VBool b => inr (if b then 1 else 0)%Z
  | _ => inl TypeError
  end.

Definition __is_operation_registered (process : AssistanceProcess) (operation_key : string)
    : bool :=
  bool_decide (is_Some (_registered_operations process !! operation_key)).

Definition schedule_operation (process : AssistanceProcess) (operation_key : string)
    (ctx : AssistanceContext) (time_to_invocation_in_s : option Z) (a_id : option string)
    : M unit :=
  if negb (__is_operation_registered process operation_key)
  then raise AssistanceOperationException
  else if negb (context_can_be_persisted ctx)
  then raise AssistanceOperationCanNotBeScheduledException
  else
    let* debugging := debug in
    let* debug_scheduled_assistance_time_factor :=
      if debugging then
        let* stored := read_setting_by_key SETTING_KEY_DEBUG_SCHEDULED_ASSISTANCE_TIME_FACTOR in
        match stored with
        | Some s => ret (stg_value s)
        | None => ret (VInt 1)
        end
      else ret (VInt 1) in
    let* delay :=
      lift (match time_to_invocation_in_s with
            | None => inl TypeError
            | Some t =>
                let+ f := as_number debug_scheduled_assistance_time_factor in
                inr (t * f)%Z
            end) in
    let* _ := create_assistance_operation_for_scheduled_invocation
                {| so_assistance_type_key := get_key process;
                   so_assistance_operation_key := operation_key;
                   so_a_id := a_id;
                   so_ctx := ctx;
                   so_time_of_invocation := None;
                   so_oid := None |}
                delay in
    ret tt.

(** *** [AssistanceOperation._compute_state_update_assistance_objects] *)

(** [AssistanceState(status, phase, step).to_dict()], which leaves out
    the attributes that are [None]. *)
Definition state_to_dict (status_update : AssistanceStateStatus) (phase_update : option Z)
    (step_update : option string) : Value :=
  VDict ([(Some "status", VStr (status_value status_update))]
         ++ match phase_update with
            | Some p => [(Some "phase", VInt p)]
            | None => []
            end
         ++ match step_update with
            | Some s => [(Some "step", VStr s)]
            | None => []
            end).

(** A user id taken out of a parameter value. The writers of
    [related_user_ids] store strings; an element of another type is
    outside the declared [List[str]] and raises [TypeError] here. *)
Definition as_user_id (v : Value) : Exn + option string :=
  match v with
  | VStr s => inr (Some s)
  | VNone => inr None
  | _ => inl TypeError
  end.

Fixpoint as_user_ids (l : list Value) : Exn + list (option string) :=
  match l with
  | [] => inr []
  | v :: l' =>
      let+ u := as_user_id v in
      let+ us := as_user_ids l' in
      inr (u :: us)
  end.

(** [for id_of_user_to_update in v]: a list gives its elements, a string
    its characters, a dictionary its keys; other values are not
    iterable. *)
Definition iterate_user_ids (v : Value) : Exn + list (option string) :=
  match v with
  | VList l => as_user_ids l
  | VStr s => inr (map (fun c => Some (String c EmptyString)) (String.list_ascii_of_string s))
  | VDict d => inr (map fst d)
  | _ => inl TypeError
  end.

Definition create_with_default_parameters_object (user_id : option string)
    (parameters : list AssistanceParameter) : AssistanceObject :=
  {| ao_a_id := None; ao_assistance_type := None; ao_id := None; ao_user_id := user_id;
     ao_timestamp := None; ao_parameters := parameters; ao_type := None; ao_oid := None |}.

Definition _compute_state_update_assistance_objects (self : OperationAttributes)
    (assistance : Assistance) (status_update : AssistanceStateStatus)
    (phase_update : option Z) (step_update : option string)
    : Exn + list AssistanceObject :=
  let suppressed :=
    match state_update_status_to_send self with
    | Some to_send => negb (bool_decide (status_update ∈ to_send))
    | None => false
    end in
  if suppressed then inr []
  else
    let+ ids_of_users_to_update :=
      if send_state_update_to_related_users self then
        match related_user_ids self with
        | Some ids => inr (map Some ids)
        | None =>
            match a_parameters assistance with
            | [] => inr [a_user_id assistance]
            | ps =>
                match find (fun parameter =>
                              bool_decide (key parameter
                                           = ASSISTANCE_PARAMETER_KEY_RELATED_USER_IDS)) ps with
                | None => inr [a_user_id assistance]
                | Some parameter =>
                    match value parameter with
                    | VNone => inr [a_user_id assistance]
                    | v => iterate_user_ids v
                    end
                end
            end
        end
      else inr [a_user_id assistance] in
    inr (map (fun id_of_user_to_update =>
                create_with_default_parameters_object id_of_user_to_update
                  [ {| key := ASSISTANCE_OBJECT_PARAMETER_KEY_STATE_UPDATE;
                       value := state_to_dict status_update phase_update step_update |} ])
             ids_of_users_to_update).

(** *** The state update of [_process_assistance_result] *)

(** [new if current is not None and new != current else current if
    current is not None else fallback]. *)
Definition update_or_keep {A : Type} `{EqDecision A} (new : A) (current : option A)
    (fallback : A) : A :=
  match current with
  | Some c => if bool_decide (new ≠ c) then new else c
  | None => fallback
  end.

(** [user_states[user_id] = state]. *)
Fixpoint dict_set (d : list (option string * Value)) (k : option string) (v : Value)
    : list (option string * Value) :=
  match d with
  | [] => [(k, v)]
  | (k', v') :: d' => if bool_decide (k' = k) then (k, v) :: d' else (k', v') :: dict_set d' k v
  end.

Definition set_user_states (user_states : Value)
    (status_update_assistance_objects : list AssistanceObject) : Exn + Value :=
  foldl (fun acc status_update_assistance_object =>
           let+ states := acc in
           let+ parameter :=
             get_first_assistance_parameter_by_key
               (ao_parameters status_update_assistance_object)
               ASSISTANCE_OBJECT_PARAMETER_KEY_STATE_UPDATE in
           match states with
           | VDict d =>
               inr (VDict (dict_set d (ao_user_id status_update_assistance_object)
                             (value parameter)))
           | _ => inl TypeError
           end)
        (inr user_states) status_update_assistance_objects.

Definition with_parameters (ps : list AssistanceParameter) (a : Assistance) : Assistance :=
  {| a_id := a_id a; a_user_id := a_user_id a; a_type_key := a_type_key a;
     a_timestamp := a_timestamp a; a_assistance_state := a_assistance_state a;
     a_parameters := ps; a_assistance_objects := a_assistance_objects a;
     a_next_operation_keys := a_next_operation_keys a |}.

Definition with_assistance_state (st : option AssistanceState) (a : Assistance) : Assistance :=
  {| a_id := a_id a; a_user_id := a_user_id a; a_type_key := a_type_key a;
     a_timestamp := a_timestamp a; a_assistance_state := st;
     a_parameters := a_parameters a; a_assistance_objects := a_assistance_objects a;
     a_next_operation_keys := a_next_operation_keys a |}.

Definition with_type_key (k : option string) (a : Assistance) : Assistance :=
  {| a_id := a_id a; a_user_id := a_user_id a; a_type_key := k;
     a_timestamp := a_timestamp a; a_assistance_state := a_assistance_state a;
     a_parameters := a_parameters a; a_assistance_objects := a_assistance_objects a;
     a_next_operation_keys := a_next_operation_keys a |}.

Definition with_state_update_status_to_send (l : option (list AssistanceStateStatus))
    (s : OperationAttributes) : OperationAttributes :=
  {| target_status := target_status s; parameters := parameters s;
     subsequent_operations := subsequent_operations s;
     assistance_in_progress_required := assistance_in_progress_required s;
     delete_scheduled_operations := delete_scheduled_operations s;
     reset_next_operation_keys := reset_next_operation_keys s;
     prevent_progress := prevent_progress s; related_user_ids := related_user_ids s;
     op_phase := op_phase s; op_step := op_step s;
     state_update_status_to_send := l;
     send_state_update_to_related_users := send_state_update_to_related_users s |}.

Definition with_target_status (t : option AssistanceStateStatus) (s : OperationAttributes)
    : OperationAttributes :=
  {| target_status := t; parameters := parameters s;
     subsequent_operations := subsequent_operations s;
     assistance_in_progress_required := assistance_in_progress_required s;
     delete_scheduled_operations := delete_scheduled_operations s;
     reset_next_operation_keys := reset_next_operation_keys s;
     prevent_progress := prevent_progress s; related_user_ids := related_user_ids s;
     op_phase := op_phase s; op_step := op_step s;
     state_update_status_to_send := state_update_status_to_send s;
     send_state_update_to_related_users := send_state_update_to_related_users s |}.

Definition with_subsequent_operations (l : option (list SubsequentAssistanceOperation))
    (s : OperationAttributes) : OperationAttributes :=
  {| target_status := target_status s; parameters := parameters s;
     subsequent_operations := l;
     assistance_in_progress_required := assistance_in_progress_required s;
     delete_scheduled_operations := delete_scheduled_operations s;
     reset_next_operation_keys := reset_next_operation_keys s;
     prevent_progress := prevent_progress s; related_user_ids := related_user_ids s;
     op_phase := op_phase s; op_step := op_step s;
     state_update_status_to_send := state_update_status_to_send s;
     send_state_update_to_related_users := send_state_update_to_related_users s |}.

Definition with_assistance_in_progress_required (b : bool) (s : OperationAttributes)
    : OperationAttributes :=
  {| target_status := target_status s; parameters := parameters s;
     subsequent_operations := subsequent_operations s;
     assistance_in_progress_required := b;
     delete_scheduled_operations := delete_scheduled_operations s;
     reset_next_operation_keys := reset_next_operation_keys s;
     prevent_progress := prevent_progress s; related_user_ids := related_user_ids s;
     op_phase := op_phase s; op_step := op_step s;
     state_update_status_to_send := state_update_status_to_send s;
     send_state_update_to_related_users := send_state_update_to_related_users s |}.

(** The first three assignments of [execute]. *)
Definition entering (phase : option Z) (step : option string) (s : OperationAttributes)
    : OperationAttributes :=
  {| target_status := target_status s; parameters := parameters s;
     subsequent_operations := subsequent_operations s;
     assistance_in_progress_required := assistance_in_progress_required s;
     delete_scheduled_operations := delete_scheduled_operations s;
     reset_next_operation_keys :=
       reset_next_operation_keys s || bool_decide (is_Some (subsequent_operations s));
     prevent_progress := prevent_progress s; related_user_ids := related_user_ids s;
     op_phase := phase; op_step := step;
     state_update_status_to_send := state_update_status_to_send s;
     send_state_update_to_related_users := send_state_update_to_related_users s |}.

(** The block "Determine state update" of [_process_assistance_result]. *)
Definition determine_state_update (self : OperationAttributes) (assistance : Assistance)
    : Exn + (OperationAttributes * Assistance) :=
  let current := a_assistance_state assistance in
  match target_status self with
  | None => inr (self, assistance)
  | Some target =>
      let assistance_state_status_update :=
        update_or_keep target (current ≫= status) INITIATED in
      match op_phase self, op_step self with
      | Some ph, Some st =>
          let assistance_state_phase_update :=
            update_or_keep ph (current ≫= phase) 1%Z in
          let assistance_state_step_update :=
            update_or_keep st (current ≫= step) ASSISTANCE_OPERATION_KEY_INITIATION in
          let+ status_update_assistance_objects :=
            _compute_state_update_assistance_objects self assistance
              assistance_state_status_update (Some assistance_state_phase_update)
              (Some assistance_state_step_update) in
          let assistance :=
            with_assistance_objects
              (status_update_assistance_objects ++ a_assistance_objects assistance)
              assistance in
          if is_empty status_update_assistance_objects then inr (self, assistance)
          else
            let user_states :=
              match get_first_assistance_parameter_by_key (a_parameters assistance)
                      ASSISTANCE_PARAMETER_KEY_USER_ID_TO_STATE with
              | inr parameter => value parameter
              | inl _ => VDict []
              end in
            let+ user_states := set_user_states user_states status_update_assistance_objects in
            inr (self,
                 with_parameters
                   (replace_or_add_assistance_parameters_by_key
                      {| key := ASSISTANCE_PARAMETER_KEY_USER_ID_TO_STATE;
                         value := user_states |}
                      (Some (a_parameters assistance)))
                   assistance)
      | _, _ =>
          let self :=
            match state_update_status_to_send self with
            | None => with_state_update_status_to_send (Some [ABORTED; COMPLETED]) self
            | Some _ => self
            end in
          let+ status_update_assistance_objects :=
            _compute_state_update_assistance_objects self assistance
              assistance_state_status_update None None in
          inr (self,
               with_assistance_objects
                 (status_update_assistance_objects ++ a_assistance_objects assistance)
                 assistance)
      end
  end.

Definition with_object_type (t : option AssistanceObjectType) (o : AssistanceObject)
    : AssistanceObject :=
  {| ao_a_id := ao_a_id o; ao_assistance_type := ao_assistance_type o; ao_id := ao_id o;
     ao_user_id := ao_user_id o; ao_timestamp := ao_timestamp o;
     ao_parameters := ao_parameters o; ao_type := t; ao_oid := ao_oid o |}.

(** An [AssistanceObject] as a context value: an instance of the class
    of [model/core/tutorial_module.py], with the attributes operations
    read from a response object. *)
Definition assistance_object_value (o : AssistanceObject) : Value :=
  VObject "model.core.tutorial_module" "AssistanceObject"
    [(Some "user_id", opt_str_value (ao_user_id o));
     (Some "type",
      match ao_type o with
      | Some ASSISTANCE_OBJECT => VStr "assistance_object"
      | Some ASSISTANCE_RESPONSE_OBJECT => VStr "assistance_response_object"
      | None => VNone
      end);
     (Some "parameters",
      VList (map (fun parameter =>
                    VDict [(Some "key", VStr (key parameter));
                           (Some "value", value parameter)])
               (ao_parameters o)))].

(** The loop "Set type of new assistance objects". *)
Definition set_object_type (process_key : string) (o : AssistanceObject) : AssistanceObject :=
  {| ao_a_id := ao_a_id o; ao_assistance_type := Some process_key; ao_id := ao_id o;
     ao_user_id := ao_user_id o; ao_timestamp := ao_timestamp o;
     ao_parameters := ao_parameters o;
     ao_type := match ao_type o with
                | Some t => Some t
                | None => Some ASSISTANCE_OBJECT
                end;
     ao_oid := ao_oid o |}.

(** The block "Set assistance properties". *)
Definition set_assistance_properties (self : OperationAttributes)
    (subsequent_triggered_operations : list SubsequentAssistanceOperation)
    (assistance : Assistance) : Assistance :=
  if prevent_progress self then assistance
  else
    with_next_operation_keys (map operation_key subsequent_triggered_operations)
      (with_assistance_state
         (Some {| status := target_status self; phase := op_phase self;
                  step := op_step self |})
         assistance).

(** The blocks "Create new assistance" and "or update existing
    assistance". *)
Definition persist (process : AssistanceProcess) (assistance : Assistance) : M Assistance :=
  match a_id assistance with
  | None => create_assistance (with_type_key (Some (get_key process)) assistance)
  | Some _ =>
      let* previous := read_assistance_by_a_id (opt_str_value (a_id assistance)) in
      match previous with
      | None => raise AttributeError
      | Some previous_assistance =>
          let previous_assistance_object_ao_ids :=
            map ao_id (a_assistance_objects previous_assistance) in
          let* persisted_assistance := update_assistance_adding_assistance_objects assistance in
          ret (with_assistance_objects
                 (List.filter
                    (fun assistance_object =>
                       negb (bool_decide (ao_id assistance_object
                                          ∈ previous_assistance_object_ao_ids)))
                    (a_assistance_objects persisted_assistance))
                 persisted_assistance)
      end
  end.

(** *** [AssistanceOperation._process_assistance_result] *)

Definition _process_assistance_result (process : AssistanceProcess)
    (self : OperationAttributes) (assistance_to_process : option Assistance)
    (ctx : AssistanceContext)
    (subsequent_scheduled_operations subsequent_triggered_operations
       : list SubsequentAssistanceOperation)
    : M (OperationAttributes * option Assistance) :=
  let* to_process :=
    match assistance_to_process with
    | None =>
        if assistance_in_progress_required self then
          let* q := lift (get_parameter ctx ASSISTANCE_CONTEXT_PARAMETER_KEY_A_ID) in
          let* read := read_assistance_by_a_id q in
          match read with
          | None => raise AttributeError
          | Some assistance => ret (Some (with_assistance_objects [] assistance))
          end
        else ret None
    | Some assistance => ret (Some assistance)
    end in
  match to_process with
  | None => ret (self, None)
  | Some assistance =>
      let* (self, assistance) := lift (determine_state_update self assistance) in
      let assistance :=
        set_assistance_properties self subsequent_triggered_operations assistance in
      let assistance :=
        with_assistance_objects
          (map (set_object_type (get_key process)) (a_assistance_objects assistance))
          assistance in
      let* persisted_assistance := persist process assistance in
      let* _ :=
        for_each subsequent_scheduled_operations
          (fun subsequent_scheduled_operation _ =>
             schedule_operation process (operation_key subsequent_scheduled_operation)
               (new_context
                  {[ ASSISTANCE_CONTEXT_PARAMETER_KEY_A_ID :=
                       opt_str_value (a_id persisted_assistance) ]})
               (time_to_invocation_in_s subsequent_scheduled_operation)
               (a_id persisted_assistance))
          tt in
      ret (self, Some persisted_assistance)
  end.

(** *** [AssistanceOperation.execute] *)

Definition when (b : bool) (m : M unit) : M unit := if b then m else ret tt.

Definition execute (process : AssistanceProcess) (operation : AssistanceOperation)
    (ctx : AssistanceContext) (phase : option Z) (step : option string)
    : M (OperationAttributes * option AssistanceResult) :=
  let self := entering phase step (self operation) in
  let* (self, result) := _execute operation self ctx in
  let subsequent_triggered_operations :=
    if prevent_progress self then []
    else _filter_subsequent_operations_by_type (subsequent_operations self)
           TRIGGERED_OPERATION in
  let subsequent_scheduled_operations :=
    if prevent_progress self then []
    else _filter_subsequent_operations_by_type (subsequent_operations self)
           SCHEDULED_OPERATION in
  let* _ :=
    when (assistance_in_progress_required self && reset_next_operation_keys self
          && negb (prevent_progress self))
      (let* q := lift (get_parameter ctx ASSISTANCE_CONTEXT_PARAMETER_KEY_A_ID) in
       update_assistance_by_a_id_reset_next_operation_keys q) in
  let* _ :=
    when (assistance_in_progress_required self && delete_scheduled_operations self
          && negb (prevent_progress self))
      (let* q := lift (get_parameter ctx ASSISTANCE_CONTEXT_PARAMETER_KEY_A_ID) in
       delete_assistance_operations_by_a_id q) in
  let* (self, assistance_to_return) :=
    match result with
    | Some {| assistance := (_ :: _) as produced |} =>
        for_each produced
          (fun assistance '(self, assistance_to_return) =>
             let* (self, processed_assistance_result) :=
               _process_assistance_result process self (Some assistance) ctx
                 subsequent_scheduled_operations subsequent_triggered_operations in
             match processed_assistance_result with
             | None => ret (self, assistance_to_return)
             | Some processed => ret (self, assistance_to_return ++ [processed])
             end)
          (self, [])
    | _ =>
        let* (self, _) :=
          _process_assistance_result process self None ctx
            subsequent_scheduled_operations subsequent_triggered_operations in
        ret (self, [])
    end in
  match result with
  | None => ret (self, None)
  | Some result =>
      ret (self,
           Some {| assistance := assistance_to_return;
                   assistance_requests := assistance_requests result;
                   prepend_assistance_from_requests :=
                     prepend_assistance_from_requests result |})
  end.

(** *** [AssistanceProcess.check_applicability_and_execute_operation] *)

Definition check_applicability_and_execute_operation (process : AssistanceProcess)
    (operation_key : string) (ctx : AssistanceContext) : M (option AssistanceResult) :=
  match _registered_operations process !! operation_key with
  | None => raise AssistanceOperationException
  | Some operation =>
      let* applicable :=
        match is_applicable_override operation with
        | Some override => override (self operation) ctx
        | None => is_applicable (self operation) ctx
        end in
      if negb applicable then ret None
      else
        let* (_, result) :=
          execute process operation ctx
            (_registered_operation_keys_to_phase_number process !! operation_key)
            (Some operation_key) in
        ret result
  end.

(** ** [service/backend.py]

    [send_assistance] validates every instance against the transport
    schema and hands the bundle to the message broker; the sending
    itself is fire and forget, the sink is the log [sent]. The schema,
    [model/api/assistance.py], is not among the sources: whether an
    instance passes [AssistanceSchema.model_validate] is the parameter
    [model_validate]. A bundle with an instance that does not pass is
    not sent; the validation raises. *)

Section Backend.

Variable model_validate : Assistance -> bool.

Definition send_assistance (assistance_list : list Assistance) : M unit :=
  if forallb model_validate assistance_list
  then modify (fun w => set_sent (sent w ++ [assistance_list]) w)
  else raise ValidationError.

End Backend.

(** ** [service/assistance.py]: the dispatcher *)

Section Dispatcher.

(** The table of process types. The code stores constructors and
    builds a new process object for every request; a process of the
    model is a value, so the table holds the processes themselves. *)
Variable ASSISTANCE_TYPES : gmap string AssistanceProcess.

(** The validation of [service/backend.py]. *)
Variable model_validate : Assistance -> bool.

Definition all_type_keys : list string :=
  map (fun kp => get_key (snd kp)) (map_to_list ASSISTANCE_TYPES).

(** *** [__handle_assistance_request]

    [depth] is the number of nested calls the interpreter still
    allows; when it is used up the call raises [RecursionError]. *)
Fixpoint __handle_assistance_request (depth : nat) (assistance_request : AssistanceRequest)
    (supported_assistance_type_keys : list string) : M (option AssistanceResult) :=
  match depth with
  | O => raise RecursionError
  | S depth' =>
      let* disabled := gets disabled_assistance_type_keys in
      if bool_decide (assistance_type_key assistance_request ∈ disabled)
         || negb (bool_decide (assistance_type_key assistance_request
                               ∈ supported_assistance_type_keys))
      then ret None
      else
        match ASSISTANCE_TYPES !! assistance_type_key assistance_request with
        | None => raise KeyError
        | Some process =>
            let* executed :=
              check_applicability_and_execute_operation process
                (assistance_operation_key assistance_request)
                (ctx assistance_request) in
            match executed with
            | None => ret None
            | Some assistance_result =>
                if is_empty (assistance_requests assistance_result)
                then ret (Some assistance_result)
                else
                  let assistance :=
                    if prepend_assistance_from_requests assistance_result then []
                    else result_assistance assistance_result in
                  let* assistance :=
                    for_each (assistance_requests assistance_result)
                      (fun chained_request assistance =>
                         let* chained :=
                           __handle_assistance_request depth' chained_request
                             supported_assistance_type_keys in
                         match chained with
                         | None => raise AttributeError
                         | Some chained_result =>
                             ret (assistance ++ result_assistance chained_result)
                         end)
                      assistance in
                  let assistance :=
                    if prepend_assistance_from_requests assistance_result
                    then assistance ++ result_assistance assistance_result
                    else assistance in
                  ret (Some (new_result (Some assistance) None false))
            end
        end
  end.

Definition supported_type_keys : M (list string) :=
  let* disabled := gets disabled_assistance_type_keys in
  ret (map (fun kp => get_key (snd kp))
         (List.filter (fun kp => negb (bool_decide (fst kp ∈ disabled)))
            (map_to_list ASSISTANCE_TYPES))).

(** *** [update_assistance] *)
Definition update_assistance (depth : nat) (a_id_arg : string)
    (assistance_response_objects : list AssistanceObject) : M (option AssistanceResult) :=
  let assistance_response_objects :=
    map (with_object_type (Some ASSISTANCE_RESPONSE_OBJECT)) assistance_response_objects in
  let* assistance :=
    update_assistance_by_a_id_adding_assistance_objects a_id_arg
      assistance_response_objects in
  let ctx :=
    new_context
      {[ ASSISTANCE_CONTEXT_PARAMETER_KEY_A_ID := VStr a_id_arg;
         ASSISTANCE_CONTEXT_PARAMETER_KEY_ASSISTANCE_OBJECTS :=
           VList (map assistance_object_value assistance_response_objects) ]} in
  let* supported_assistance_type_keys := supported_type_keys in
  let* assistance_update_result :=
    for_each (a_next_operation_keys assistance)
      (fun next_operation_key assistance_update_result =>
         match a_type_key assistance with
         | None => ret assistance_update_result
         | Some type_key =>
             try_except
               (let* assistance_result :=
                  __handle_assistance_request depth
                    {| assistance_type_key := type_key;
                       assistance_operation_key := next_operation_key;
                       ctx := ctx |}
                    supported_assistance_type_keys in
                match assistance_result with
                | None => ret assistance_update_result
                | Some r => ret (assistance_update_result ++ result_assistance r)
                end)
               (fun e => bool_decide (e = AssistanceOperationException))
               (fun _ => ret assistance_update_result)
         end)
      [] in
  if is_empty assistance_update_result then ret None
  else ret (Some (new_result (Some assistance_update_result) None false)).

(** *** [check_scheduled_assistance_operations]

    [except Exception] catches every exception of the model; the
    handler only writes to the application log. [noting] is ghost: it
    runs the engine call and notes in [sweep_log] for which document
    the call was made and whether it returned. *)
Definition noting {A : Type} (o : AssistanceOperationModel) (m : M A) : M A := fun w =>
  match m w with
  | (inr a, w') => (inr a, set_sweep_log (sweep_log w' ++ [(so_oid o, true)]) w')
  | (inl e, w') => (inl e, set_sweep_log (sweep_log w' ++ [(so_oid o, false)]) w')
  end.

Definition sweep_one (depth : nat) (assistance_operation : AssistanceOperationModel)
    : M unit :=
  try_except
    (let* result :=
       noting assistance_operation
         (__handle_assistance_request depth
            {| assistance_type_key := so_assistance_type_key assistance_operation;
               assistance_operation_key := so_assistance_operation_key assistance_operation;
               ctx := so_ctx assistance_operation |}
            all_type_keys) in
     let* _ :=
       match result with
       | Some r => send_assistance model_validate (result_assistance r)
       | None => ret tt
       end in
     delete_assistance_operation assistance_operation)
    (fun _ => true)
    (fun _ => ret tt).

Definition check_scheduled_assistance_operations (depth : nat) : M unit :=
  let* debugging := debug in
  let* disabled :=
    if debugging then
      let* scheduled_assistance_disabled :=
        read_setting_by_key SETTING_KEY_SCHEDULED_ASSISTANCE_DISABLED in
      match scheduled_assistance_disabled with
      | Some s => ret (truthy (stg_value s))
      | None => ret false
      end
    else ret false in
  if disabled then ret tt
  else
    let* now := current_datetime in
    let* assistance_operations :=
      read_assistance_operation_by_time_of_invocation_before_date now in
    for_each assistance_operations
      (fun assistance_operation _ => sweep_one depth assistance_operation) tt.

End Dispatcher.

(** ** [AssistanceProcess._register_operation] *)

Definition with_registered_operations (ops : gmap string AssistanceOperation)
    (process : AssistanceProcess) : AssistanceProcess :=
  {| get_key := get_key process;
     _registered_phases := _registered_phases process;
     _registered_operations := ops;
     _registered_operation_keys_to_phase_number :=
       _registered_operation_keys_to_phase_number process;
     registered_operation_keys_to_step_number :=
       registered_operation_keys_to_step_number process |}.

Definition _register_operation (process : AssistanceProcess) (operation_key : string)
    (operation : AssistanceOperation) : Exn + AssistanceProcess :=
  if __is_operation_registered process operation_key
  then inl AssistanceOperationException
  else inr (with_registered_operations
              (<[operation_key := operation]> (_registered_operations process)) process).

(** [AssistanceProcess.__init__]. *)
Definition new_process (process_key : string) : AssistanceProcess :=
  {| get_key := process_key; _registered_phases := [];
     _registered_operations := ∅;
     _registered_operation_keys_to_phase_number := ∅;
     registered_operation_keys_to_step_number := ∅ |}.

(** ** [service/db/statement.py], [service/db/student_model.py],
       [service/statement.py] *)

Definition read_statement_by_id (q : Value) : M (option Statement) :=
  gets (fun w =>
    find (fun statement => match q with
                           | VStr s => bool_decide (st_id statement = s)
                           | _ => false
                           end) (statements_collection w)).

(** The user id of a student model is a string; the filter
    [{"user_id": user_id}] with a value that is not a string, such as
    the empty [DotDict], matches no student model. *)
Definition read_student_model_by_user_id (user_id : Value) : M (option StudentModel) :=
  gets (fun w =>
    find (fun m => match user_id with
                   | VStr s => bool_decide (sm_user_id m = s)
                   | _ => false
                   end) (student_models_collection w)).

(** [get_user_id]: the path [statement.actor.account.name] raises
    [AttributeError] when it runs through [None] (also for [statement]
    itself), the function raises it when the path ends in [None], and
    it returns what the path evaluates to otherwise: the name or the
    empty [DotDict]. *)
Definition get_user_id (statement : option Statement) : Exn + Value :=
  match statement with
  | None => inl AttributeError
  | Some statement =>
      match st_actor statement with
      | name_stored user_id => inr (VStr user_id)
      | name_null => inl AttributeError
      | name_absent => inr (VDict [])
      end
  end.

(** ** [assistance/reactive_assistance/greeting.py] *)

Definition StatementVerbId_LOGGED_IN := "https://brindlewaye.com/xAPITerms/verbs/loggedin/".
Definition LOCALE_IDENTIFIER_DE := "de".
Definition TOOLCHECK_SCREENCAST_HINT_OPERATION_KEY := "screencast_hint_operation".

(** [Assistance.create_with_default_parameters(user_id, assistance_objects)]. *)
Definition create_with_default_parameters_assistance (user_id : option string)
    (assistance_objects : list AssistanceObject) : Assistance :=
  {| a_id := None; a_user_id := user_id; a_type_key := None; a_timestamp := None;
     a_assistance_state := None; a_parameters := [];
     a_assistance_objects := assistance_objects; a_next_operation_keys := [] |}.

Section Greeting.

(** The translation function of [service/i18n.py]. *)
Variable t : string -> string -> string.

(** [GreetingAssistanceInitiationOperation.is_applicable]. The clause
    [except (AssistanceParameterException | AttributeError)] names a
    union type, not a class or a tuple of classes: when an exception
    reaches it, matching raises [TypeError]. *)
Definition greeting_is_applicable (self : OperationAttributes) (ctx : AssistanceContext)
    : M bool :=
  try_except
    (let* q := lift (get_parameter ctx ASSISTANCE_CONTEXT_PARAMETER_KEY_STATEMENT_ID) in
     let* statement := read_statement_by_id q in
     match statement with
     | None => ret false
     | Some statement =>
         match st_verb_id statement with
         | None => raise AttributeError
         | Some verb_id => ret (bool_decide (verb_id = StatementVerbId_LOGGED_IN))
         end
     end)
    (fun _ => true)
    (fun _ => raise TypeError).

(** [GreetingAssistanceInitiationOperation._execute]. A student model
    is found only under a user id that is a string, which then is the
    [user_id] of the instance and of its object. *)
Definition greeting_execute (self : OperationAttributes) (ctx : AssistanceContext)
    : M (OperationAttributes * option AssistanceResult) :=
  let* q := lift (get_parameter ctx ASSISTANCE_CONTEXT_PARAMETER_KEY_STATEMENT_ID) in
  let* statement := read_statement_by_id q in
  let* user_id := lift (get_user_id statement) in
  let* student_model := read_student_model_by_user_id user_id in
  match student_model, user_id with
  | Some student_model, VStr user_id =>
      let first_login :=
        match sm_experiences student_model with
        | None => true
        | Some experiences => bool_decide (length experiences <= 1)
        end in
      let message :=
        if first_login
        then t LOCALE_IDENTIFIER_DE "assistance.greeting.operation.greeting"
        else t LOCALE_IDENTIFIER_DE "assistance.greeting.operation.welcome_back" in
      let self :=
        if first_login
        then with_subsequent_operations
               (Some [ {| sub_type := SCHEDULED_OPERATION;
                          operation_key := TOOLCHECK_SCREENCAST_HINT_OPERATION_KEY;
                          time_to_invocation_in_s := Some 5%Z |} ])
               (with_target_status (Some IN_PROGRESS) self)
        else self in
      ret (self,
           Some (new_result
                   (Some [ create_with_default_parameters_assistance (Some user_id)
                             [ create_with_default_parameters_object (Some user_id)
                                 [ {| key := ASSISTANCE_OBJECT_PARAMETER_KEY_MESSAGE;
                                      value := VStr message |} ] ] ])
                   None false))
  | _, _ => raise StudentModelNotExistsError
  end.

(** [ToolcheckScreencastHintOperation._execute]. *)
Definition screencast_hint_execute (self : OperationAttributes) (ctx : AssistanceContext)
    : M (OperationAttributes * option AssistanceResult) :=
  let* q := lift (get_parameter ctx ASSISTANCE_CONTEXT_PARAMETER_KEY_A_ID) in
  let* read := read_assistance_by_a_id q in
  match read with
  | None => raise AttributeError
  | Some assistance =>
      let assistance :=
        with_assistance_objects
          [ create_with_default_parameters_object (a_user_id assistance)
              [ {| key := ASSISTANCE_OBJECT_PARAMETER_KEY_MESSAGE;
                   value := VStr (t LOCALE_IDENTIFIER_DE
                                    "assistance.greeting.operation.toolcheck_screencast_hint") |};
                {| key := ASSISTANCE_OBJECT_PARAMETER_KEY_URI;
                   value := VStr "https://youtu.be/AJPM0PD0kx4" |} ] ]
          assistance in
      ret (self, Some (new_result (Some [assistance]) None false))
  end.

Definition GreetingAssistanceInitiationOperation : AssistanceOperation :=
  {| self := with_target_status (Some COMPLETED) default_attributes;
     is_applicable_override := Some greeting_is_applicable;
     _execute := greeting_execute |}.

(** The constructor arguments, then [post_init]. *)
Definition ToolcheckScreencastHintOperation : AssistanceOperation :=
  {| self :=
       with_assistance_in_progress_required true
         {| target_status := Some COMPLETED; parameters := [];
            subsequent_operations := Some [];
            assistance_in_progress_required := true;
            delete_scheduled_operations := true;
            reset_next_operation_keys := false; prevent_progress := false;
            related_user_ids := None; op_phase := None; op_step := None;
            state_update_status_to_send := None;
            send_state_update_to_related_users := false |};
     is_applicable_override := None;
     _execute := screencast_hint_execute |}.

(** [GreetingAssistance.__init__]. *)
Definition GreetingAssistance_init : Exn + AssistanceProcess :=
  let+ process :=
    _register_operation (new_process "greeting") ASSISTANCE_OPERATION_KEY_INITIATION
      GreetingAssistanceInitiationOperation in
  _register_operation process TOOLCHECK_SCREENCAST_HINT_OPERATION_KEY
    ToolcheckScreencastHintOperation.

(** The process the constructor returns. *)
Definition GreetingAssistance : AssistanceProcess :=
  with_registered_operations
    (<[TOOLCHECK_SCREENCAST_HINT_OPERATION_KEY := ToolcheckScreencastHintOperation]>
       (<[ASSISTANCE_OPERATION_KEY_INITIATION := GreetingAssistanceInitiationOperation]> ∅))
    (new_process "greeting").

End Greeting.

(** ** [AssistanceProcess._register_phases] *)

(** A [for] loop of pure code whose body may raise. *)
Fixpoint foldE {A S : Type} (body : A -> S -> Exn + S) (l : list A) (s : S) : Exn + S :=
  match l with
  | [] => inr s
  | x :: l' => let+ s' := body x s in foldE body l' s'
  end.

(** [enumerate(l)], counting from [i]. *)
Fixpoint enumerate_from {A : Type} (i : nat) (l : list A) : list (nat * A) :=
  match l with
  | [] => []
  | x :: l' => (i, x) :: enumerate_from (S i) l'
  end.

Definition enumerate {A : Type} (l : list A) : list (nat * A) := enumerate_from 0 l.

(** [l[i]], raising [IndexError] out of range. *)
Definition index {A : Type} (l : list A) (i : nat) : Exn + A :=
  match l !! i with
  | Some x => inr x
  | None => inl IndexError
  end.

(** The local dictionaries and the counter of [_register_phases]. *)
Record Registration := {
  operations_to_register : gmap string AssistanceOperation;
  keys_of_operations_to_register_to_phase_number : gmap string Z;
  keys_of_operations_to_register_to_step_number : gmap string Z;
  step_number : Z
}.

Definition with_self (s : OperationAttributes) (o : AssistanceOperation)
    : AssistanceOperation :=
  {| self := s; is_applicable_override := is_applicable_override o;
     _execute := _execute o |}.

(** The subsequent operation that leads to [next_step]. *)
Definition link_to (next_step : AssistancePhaseStep) : SubsequentAssistanceOperation :=
  match schedule next_step with
  | None =>
      {| sub_type := TRIGGERED_OPERATION;
         operation_key := step_operation_key next_step;
         time_to_invocation_in_s := None |}
  | Some s =>
      {| sub_type := SCHEDULED_OPERATION;
         operation_key := step_operation_key next_step;
         time_to_invocation_in_s := Some (schedule_time_to_invocation_in_s s) |}
  end.

(** The body of the inner loop. *)
Definition register_step (phases : list AssistancePhase) (phase_index : nat)
    (phase : AssistancePhase) (step_index : nat) (step : AssistancePhaseStep)
    (r : Registration) : Exn + Registration :=
  let step_number := (step_number r + 1)%Z in
  if bool_decide (is_Some (operations_to_register r !! step_operation_key step))
  then inl AssistanceOperationException
  else
    let to_phase_number :=
      <[step_operation_key step := (Z.of_nat phase_index + 1)%Z]>
        (keys_of_operations_to_register_to_phase_number r) in
    let to_step_number :=
      <[step_operation_key step := step_number]>
        (keys_of_operations_to_register_to_step_number r) in
    let operation_to_register :=
      if negb (bool_decide (phase_index = 0)) || negb (bool_decide (step_index = 0))
      then with_assistance_in_progress_required true (self (step_operation step))
      else self (step_operation step) in
    if bool_decide (phase_index = length phases - 1)
       && bool_decide (step_index = length (steps phase) - 1)
    then
      inr {| operations_to_register :=
               <[step_operation_key step :=
                   with_self operation_to_register (step_operation step)]>
                 (operations_to_register r);
             keys_of_operations_to_register_to_phase_number := to_phase_number;
             keys_of_operations_to_register_to_step_number := to_step_number;
             step_number := step_number |}
    else
      let+ next_step :=
        if negb (bool_decide (step_index = length (steps phase) - 1))
        then index (steps phase) (step_index + 1)
        else
          let+ next_phase := index phases (phase_index + 1) in
          index (steps next_phase) 0 in
      let operation_to_register :=
        with_subsequent_operations
          (Some (default [] (subsequent_operations operation_to_register)
                 ++ [link_to next_step]))
          operation_to_register in
      inr {| operations_to_register :=
               <[step_operation_key step :=
                   with_self operation_to_register (step_operation step)]>
                 (operations_to_register r);
             keys_of_operations_to_register_to_phase_number := to_phase_number;
             keys_of_operations_to_register_to_step_number := to_step_number;
             step_number := step_number |}.

Definition register_phase (phases : list AssistancePhase)
    (indexed_phase : nat * AssistancePhase) (r : Registration) : Exn + Registration :=
  foldE (fun indexed_step =>
           register_step phases (fst indexed_phase) (snd indexed_phase)
             (fst indexed_step) (snd indexed_step))
        (enumerate (steps (snd indexed_phase))) r.

Definition _register_phases (process : AssistanceProcess) (phases : list AssistancePhase)
    : Exn + AssistanceProcess :=
  let+ r :=
    foldE (register_phase phases) (enumerate phases)
      {| operations_to_register := ∅;
         keys_of_operations_to_register_to_phase_number := ∅;
         keys_of_operations_to_register_to_step_number := ∅;
         step_number := 0 |} in
  inr {| get_key := get_key process;
         _registered_phases := phases;
         _registered_operations :=
           operations_to_register r ∪ _registered_operations process;
         _registered_operation_keys_to_phase_number :=
           keys_of_operations_to_register_to_phase_number r;
         registered_operation_keys_to_step_number :=
           keys_of_operations_to_register_to_step_number r |}.

(** * Concrete inputs

    Small worlds, contexts and processes on which the definitions are
    evaluated. *)

Definition empty_world : World :=
  {| assistance_collection := []; assistance_objects_collection := [];
     assistance_operations_collection := []; settings_collection := [];
     statements_collection := []; student_models_collection := [];
     env_debug := false; disabled_assistance_type_keys := [];
     clock := 1000; uuid_supply := 0; oid_supply := 0; sent := [];
     sweep_log := [] |}.

(** A stored process instance of user [u1] with id [a1], one triggered
    continuation [next] and the given status. *)
Definition stored_instance (s : AssistanceStateStatus) : Assistance :=
  {| a_id := Some "a1"; a_user_id := Some "u1"; a_type_key := Some "demo";
     a_timestamp := Some 900%Z;
     a_assistance_state :=
       Some {| status := Some s; phase := None; step := Some "initiation" |};
     a_parameters := []; a_assistance_objects := [];
     a_next_operation_keys := ["next"] |}.

Definition world_with_instance (s : AssistanceStateStatus) : World :=
  set_assistance_collection [stored_instance s] empty_world.

Definition ctx_a1 : AssistanceContext :=
  new_context {[ ASSISTANCE_CONTEXT_PARAMETER_KEY_A_ID := VStr "a1" ]}.

Definition ctx_empty : AssistanceContext := new_context ∅.

(** An operation that requires an assistance in progress and is
    otherwise the base class. *)
Definition in_progress_attributes : OperationAttributes :=
  with_assistance_in_progress_required true default_attributes.

(** A process [demo] with an initiation that is the base class and a
    continuation [next] that requires an assistance in progress. *)
Definition demo_process : AssistanceProcess :=
  with_registered_operations
    (<["next" := {| self := in_progress_attributes; is_applicable_override := None;
                    _execute := base_execute |}]>
       (<["initiation" := {| self := default_attributes; is_applicable_override := None;
                             _execute := base_execute |}]> ∅))
    (new_process "demo").

(** A response object of user [u1], and a context that received it
    through [add_parameter]. *)
Definition response_object : AssistanceObject :=
  create_with_default_parameters_object (Some "u1")
    [ {| key := "options_response"; value := VStr "yes" |} ].

Definition ctx_with_object : Exn + AssistanceContext :=
  add_parameter ctx_a1 "response" (assistance_object_value response_object).

(** What resolving a list of chained requests produces: the instances
    of the first request, then those of the second, and so on. A
    request without result has no [assistance] attribute to read. *)
Fixpoint chained_instances (resolve : AssistanceRequest -> M (option AssistanceResult))
    (requests : list AssistanceRequest) : M (list Assistance) :=
  match requests with
  | [] => ret []
  | request :: requests' =>
      let* chained := resolve request in
      match chained with
      | None => raise AttributeError
      | Some chained_result =>
          let* rest := chained_instances resolve requests' in
          ret (result_assistance chained_result ++ rest)
      end
  end.

(** Two processes for chaining: the initiation of [outer] produces an
    instance for user [u1] and requests the initiation of [inner], with
    the flag to put the chained instances first; the initiation of
    [inner] produces an instance for user [u2]. *)
Definition inner_process : AssistanceProcess :=
  with_registered_operations
    (<["initiation" :=
         {| self := with_target_status (Some COMPLETED) default_attributes;
            is_applicable_override := None;
            _execute := fun s _ =>
              ret (s, Some {| assistance :=
                                [create_with_default_parameters_assistance (Some "u2") []];
                              assistance_requests := [];
                              prepend_assistance_from_requests := false |}) |}]> ∅)
    (new_process "inner").

Definition outer_process (prepend : bool) : AssistanceProcess :=
  with_registered_operations
    (<["initiation" :=
         {| self := with_target_status (Some COMPLETED) default_attributes;
            is_applicable_override := None;
            _execute := fun s c =>
              ret (s, Some {| assistance :=
                                [create_with_default_parameters_assistance (Some "u1") []];
                              assistance_requests :=
                                [ {| assistance_type_key := "inner";
                                     assistance_operation_key := "initiation";
                                     ctx := c |} ];
                              prepend_assistance_from_requests := prepend |}) |}]> ∅)
    (new_process "outer").

Definition chaining_types (prepend : bool) : gmap string AssistanceProcess :=
  <["outer" := outer_process prepend]> (<["inner" := inner_process]> ∅).

Definition outer_request : AssistanceRequest :=
  {| assistance_type_key := "outer"; assistance_operation_key := "initiation";
     ctx := ctx_empty |}.

(** The users of the instances a call returned. *)
Definition users_of (r : (Exn + option AssistanceResult) * World)
    : Exn + option (list (option string)) :=
  match fst r with
  | inl e => inl e
  | inr None => inr None
  | inr (Some x) => inr (Some (map a_user_id (assistance x)))
  end.

(** ** The steps of a process definition in order

    The words of the specification for [_register_phases]: the steps of
    all phases in one sequence, the place of a step in it, and the
    operation a step is registered with. *)

Definition all_steps (phases : list AssistancePhase) : list AssistancePhaseStep :=
  concat (map steps phases).

(** The place of step [step_index] of phase [phase_index], counted from
    0, in [all_steps]. *)
Definition position (phases : list AssistancePhase) (phase_index step_index : nat) : nat :=
  length (all_steps (take phase_index phases)) + step_index.

(** Three phases for the examples: [a], [b]; [c] after 30 seconds; and a
    phase list that names [a] twice. *)
Definition plain_step (k : string) (s : option AssistanceOperationSchedule)
    : AssistancePhaseStep :=
  {| step_operation_key := k; step_parameters := [];
     step_operation := {| self := default_attributes; is_applicable_override := None;
                          _execute := base_execute |};
     schedule := s |}.

Definition example_phases : list AssistancePhase :=
  [ {| phase_parameters := []; steps := [plain_step "a" None; plain_step "b" None] |};
    {| phase_parameters := [];
       steps := [plain_step "c" (Some {| schedule_time_to_invocation_in_s := 30 |})] |} ].

Definition duplicate_phases : list AssistancePhase :=
  [ {| phase_parameters := []; steps := [plain_step "a" None; plain_step "b" None] |};
    {| phase_parameters := []; steps := [plain_step "a" None] |} ].

(** ** Words of the specification for the engine *)

(** The keys [execute] hands to [_process_assistance_result] as
    same-cycle continuations: the TRIGGERED subsequent operations of
    the operation as they are after [_execute]. *)
Definition triggered_keys (self : OperationAttributes) : list string :=
  map operation_key
    (_filter_subsequent_operations_by_type (subsequent_operations self)
       TRIGGERED_OPERATION).

(** The keys of the document stored under the id [s]. *)
Definition stored_next_operation_keys (s : string) (w : World) : option (list string) :=
  a_next_operation_keys
    <$> find (fun d => a_id_matches (VStr s) (a_id d)) (assistance_collection w).

(** The last instance with the id [s] in a list of instances. *)
Definition last_with_id (s : string) (l : list Assistance) : option Assistance :=
  last (List.filter (fun p => bool_decide (a_id p = Some s)) l).

(** The ids of the stored instances were drawn earlier: no stored
    instance has an id that [uuid4] will still draw. *)
Definition instances_well_formed (w : World) : Prop :=
  forall d u, d ∈ assistance_collection w -> uuid_supply w <= u ->
              a_id d ≠ Some (uuid_str u).

(** [m] does not lower the supply of UUIDs, whether it returns or
    raises. *)
Definition grows {A : Type} (m : M A) : Prop :=
  forall w r w', m w = (r, w') -> uuid_supply w <= uuid_supply w'.

(** An operation that parks the process: it requires an assistance in
    progress, prevents progress and is otherwise the base class. *)
Definition parking_attributes : OperationAttributes :=
  {| target_status := None; parameters := []; subsequent_operations := None;
     assistance_in_progress_required := true; delete_scheduled_operations := false;
     reset_next_operation_keys := false; prevent_progress := true;
     related_user_ids := None; op_phase := None; op_step := None;
     state_update_status_to_send := None; send_state_update_to_related_users := true |}.

Definition parking_operation : AssistanceOperation :=
  {| self := parking_attributes; is_applicable_override := None;
     _execute := base_execute |}.

Definition parking_process : AssistanceProcess :=
  with_registered_operations (<["forward" := parking_operation]> ∅) (new_process "demo").

(** An operation that opens an instance for user [u2] and declares the
    triggered continuation [next]. *)
Definition triggering_operation : AssistanceOperation :=
  {| self := with_subsequent_operations
               (Some [ {| sub_type := TRIGGERED_OPERATION; operation_key := "next";
                          time_to_invocation_in_s := None |} ])
               (with_target_status (Some IN_PROGRESS) default_attributes);
     is_applicable_override := None;
     _execute := fun s _ =>
       ret (s, Some {| assistance :=
                         [create_with_default_parameters_assistance (Some "u2") []];
                       assistance_requests := [];
                       prepend_assistance_from_requests := false |}) |}.

Definition triggering_process : AssistanceProcess :=
  with_registered_operations (<["initiation" := triggering_operation]> ∅)
    (new_process "demo").

(** Whether the system is in debug mode, and the factor by which
    [schedule_operation] then scales a delay: the stored setting in
    debug mode, 1 otherwise. *)
Definition debug_enabled (w : World) : bool :=
  env_debug w
  || match find (fun s => bool_decide (stg_key s = SETTING_KEY_DEBUG))
             (settings_collection w) with
     | Some s => truthy (stg_value s)
     | None => false
     end.

Definition debug_time_factor (w : World) : Value :=
  if debug_enabled w then
    match find (fun s => bool_decide
                           (stg_key s = SETTING_KEY_DEBUG_SCHEDULED_ASSISTANCE_TIME_FACTOR))
            (settings_collection w) with
    | Some s => stg_value s
    | None => VInt 1
    end
  else VInt 1.

(** A delay for which Python can compute the due time at the time
    [now]: the duration has at most 999999999 days and the due time
    lies in the years 1 to 9999. *)
Definition schedulable (now delay : Z) : Prop :=
  (Z.abs (delay / 86400) <= TIMEDELTA_MAX_DAYS)%Z
  /\ (DATETIME_MIN <= now + delay <= DATETIME_MAX)%Z.

(** The scheduled-operation document [schedule_operation] writes. *)
Definition scheduled_document (process : AssistanceProcess) (operation_key : string)
    (ctx : AssistanceContext) (a_id : option string) (due : Z) (i : nat)
    : AssistanceOperationModel :=
  {| so_assistance_type_key := get_key process;
     so_assistance_operation_key := operation_key;
     so_a_id := a_id;
     so_ctx := new_context (parameter_dict ctx);
     so_time_of_invocation := Some due;
     so_oid := Some i |}.

(** Whether the sweep is switched off: in debug mode, by the setting
    [scheduled_assistance_disabled]. *)
Definition sweep_disabled (w : World) : bool :=
  debug_enabled w
  && match find (fun s => bool_decide
                            (stg_key s = SETTING_KEY_SCHEDULED_ASSISTANCE_DISABLED))
             (settings_collection w) with
     | Some s => truthy (stg_value s)
     | None => false
     end.

(** ** The login scenarios of the greeting process *)

(** The request the dispatcher builds for the initiation of the
    greeting process when the statement [statement_id] arrives. *)
Definition login_request (statement_id : string) : AssistanceRequest :=
  {| assistance_type_key := "greeting";
     assistance_operation_key := ASSISTANCE_OPERATION_KEY_INITIATION;
     ctx := new_context
              {[ ASSISTANCE_CONTEXT_PARAMETER_KEY_STATEMENT_ID := VStr statement_id ]} |}.

(** A user with at most one prior experience. *)
Definition first_login (model : StudentModel) : bool :=
  match sm_experiences model with
  | Some experiences => bool_decide (length experiences <= 1)
  | None => true
  end.

(** A world with the statement [s1], a login of user [u1], and a student
    model of [u1] with the given experiences. *)
Definition login_world (experiences : list Value) : World :=
  {| assistance_collection := []; assistance_objects_collection := [];
     assistance_operations_collection := []; settings_collection := [];
     statements_collection :=
       [ {| st_id := "s1"; st_verb_id := Some StatementVerbId_LOGGED_IN;
            st_actor := name_stored "u1" |} ];
     student_models_collection :=
       [ {| sm_user_id := "u1"; sm_experiences := Some experiences |} ];
     env_debug := false; disabled_assistance_type_keys := [];
     clock := 1000; uuid_supply := 0; oid_supply := 0; sent := [];
     sweep_log := [] |}.

(** A translation function for the examples: locale and path, joined. *)
Definition example_t (locale path : string) : string := locale +:+ ":" +:+ path.

Definition greeting_only (t : string -> string -> string)
    : gmap string AssistanceProcess :=
  {[ "greeting" := GreetingAssistance t ]}.

(** ** The store of scheduled operations

    The driver gives every inserted document an [_id] no other document
    has or had. In the model the ids are drawn from [oid_supply]: a
    store is well formed when its ids are distinct and below the
    supply. *)

Definition operations_well_formed (w : World) : Prop :=
  NoDup (map so_oid (assistance_operations_collection w))
  /\ Forall (fun o => exists i, so_oid o = Some i /\ i < oid_supply w)
       (assistance_operations_collection w).

(** What code that goes through the gateway does to the store of
    scheduled operations: it keeps it well formed, only draws new ids,
    and a document that is in the store afterwards was there before or
    has a new id. It does not write the ghost log of the sweep. *)
Definition operations_step (w w' : World) : Prop :=
  operations_well_formed w ->
  operations_well_formed w'
  /\ oid_supply w <= oid_supply w'
  /\ (forall o, o ∈ assistance_operations_collection w' ->
        o ∈ assistance_operations_collection w
        \/ exists i, so_oid o = Some i /\ oid_supply w <= i)
  /\ sweep_log w' = sweep_log w.

Definition operations_safe {A : Type} (m : M A) : Prop :=
  forall w r w', m w = (r, w') -> operations_step w w'.

(** Every operation of every process of a table goes through the
    gateway. *)
Definition types_safe (types : gmap string AssistanceProcess) : Prop :=
  forall type_key process operation_key operation,
    types !! type_key = Some process ->
    _registered_operations process !! operation_key = Some operation ->
    (forall s c, operations_safe (_execute operation s c))
    /\ (forall override, is_applicable_override operation = Some override ->
          forall s c, operations_safe (override s c)).

(** The request the sweep makes of a scheduled document. *)
Definition request_of (o : AssistanceOperationModel) : AssistanceRequest :=
  {| assistance_type_key := so_assistance_type_key o;
     assistance_operation_key := so_assistance_operation_key o;
     ctx := so_ctx o |}.

(** How a call ended: [outcome] is the exception it raised or what it
    returned. *)
Definition returned {A : Type} (outcome : Exn + A) : bool :=
  match outcome with
  | inr _ => true
  | inl _ => false
  end.

(** Whether an engine call returned and its result, when it has one,
    passes the validation of the delivery. *)
Definition delivered (model_validate : Assistance -> bool)
    (outcome : Exn + option AssistanceResult) : bool :=
  match outcome with
  | inr (Some result) => forallb model_validate (assistance result)
  | inr None => true
  | inl _ => false
  end.

(** What the sweep makes of the world [w] that the engine call for the
    document [o] left when it ended with [outcome]: when the call
    returned and the result is delivered, the bundle is in the sink and
    the document is deleted; when the call or the validation raised,
    nothing is sent and nothing deleted. The ghost log has the note of
    the call. *)
Definition settled (model_validate : Assistance -> bool) (o : AssistanceOperationModel)
    (outcome : Exn + option AssistanceResult) (w : World) : World :=
  let noted := set_sweep_log (sweep_log w ++ [(so_oid o, returned outcome)]) w in
  if delivered model_validate outcome then
    set_assistance_operations_collection
      (remove_first (fun d => bool_decide (so_oid d = so_oid o))
         (assistance_operations_collection w))
      (match outcome with
       | inr (Some result) => set_sent (sent w ++ [assistance result]) noted
       | _ => noted
       end)
  else noted.

(** How often the sweep handed the document with id [i] to the engine,
    according to the ghost log. *)
Definition sweeps_of (i : nat) (log : list (option nat * bool)) : nat :=
  length (List.filter (fun entry => bool_decide (fst entry = Some i)) log).

Definition demo_types : gmap string AssistanceProcess := {[ "demo" := demo_process ]}.

(** The entries of the ghost log for the document with id [i]. *)
Definition entries_of (i : nat) (log : list (option nat * bool))
    : list (option nat * bool) :=
  List.filter (fun entry => bool_decide (fst entry = Some i)) log.

(** * Predicates of the proofs *)

(** [m] raises only exceptions with the property [P]. *)
Definition raises_only {A : Type} (P : Exn -> Prop) (m : M A) : Prop :=
  forall w e w', m w = (inl e, w') -> P e.

(** The exceptions of the database driver. *)
Definition db_error (e : Exn) : Prop :=
  e = TypeError \/ e = InvalidDocument \/ e = DuplicateKeyError.

(** [m] leaves the part [f] of the world as it is, whether it returns
    or raises. *)
Definition preserves {A X : Type} (f : World -> X) (m : M A) : Prop :=
  forall w r w', m w = (r, w') -> f w' = f w.

(** ** The registration loop, step by step *)

(** What the code takes as the step after step [step_index] of the
    phase [phase] with index [phase_index]. *)
Definition code_next_step (phases : list AssistancePhase) (phase_index : nat) (phase : AssistancePhase) (step_index : nat)
    : Exn + AssistancePhaseStep :=
  if negb (bool_decide (step_index = length (steps phase) - 1))
  then index (steps phase) (step_index + 1)
  else
    let+ next_phase := index phases (phase_index + 1) in
    index (steps next_phase) 0.

Definition code_last_step (phases : list AssistancePhase) (phase_index : nat) (phase : AssistancePhase) (step_index : nat)
    : bool :=
  bool_decide (phase_index = length phases - 1)
  && bool_decide (step_index = length (steps phase) - 1).

(** The operation registered for a step, in the terms of the code. *)
Definition registered_as (phases : list AssistancePhase) (phase_index : nat) (phase : AssistancePhase) (step_index : nat)
    (step : AssistancePhaseStep) (operation : AssistanceOperation) : Prop :=
  (phase_index ≠ 0 \/ step_index ≠ 0 ->
   assistance_in_progress_required (self operation) = true)
  /\ (if code_last_step phases phase_index phase step_index
      then subsequent_operations (self operation)
           = subsequent_operations (self (step_operation step))
      else exists next_step,
             code_next_step phases phase_index phase step_index = inr next_step
             /\ subsequent_operations (self operation)
                = Some (default [] (subsequent_operations (self (step_operation step)))
                        ++ [link_to next_step])).

(** * More of the parameter helpers and of the dispatcher

    [get_assistance_parameters_by_key] and
    [get_assistance_parameters_by_keys] of [assistance/__init__.py]: the
    loop appends every parameter that matches, in order. *)

Definition get_assistance_parameters_by_key
    (parameters : list AssistanceParameter) (parameter_key : string)
    : Exn + list AssistanceParameter :=
  let assistance_parameters :=
    foldl (fun assistance_parameters parameter =>
             if bool_decide (key parameter = parameter_key)
             then assistance_parameters ++ [parameter]
             else assistance_parameters) [] parameters in
  if bool_decide (length assistance_parameters = 0)
  then inl AssistanceParameterException
  else inr assistance_parameters.

Definition get_assistance_parameters_by_keys
    (parameters : list AssistanceParameter) (parameter_keys : list string)
    : Exn + list AssistanceParameter :=
  let assistance_parameters :=
    foldl (fun assistance_parameters parameter =>
             if bool_decide (key parameter ∈ parameter_keys)
             then assistance_parameters ++ [parameter]
             else assistance_parameters) [] parameters in
  if bool_decide (length assistance_parameters = 0)
  then inl AssistanceParameterException
  else inr assistance_parameters.

(** [get_assistance_initiation_parameters_dict] of [service/assistance.py]:
    a dictionary comprehension, in which a later parameter overwrites an
    earlier one with the same key. *)
Definition get_assistance_initiation_parameters_dict
    (assistance_initiation_parameters : list AssistanceParameter) : gmap string Value :=
  foldl (fun d parameter => <[key parameter := value parameter]> d) ∅
    assistance_initiation_parameters.

(** A world with one scheduled operation of the process [demo], due at
    time 2000, and the clock at 1000. *)
Definition waiting_operation : AssistanceOperationModel :=
  {| so_assistance_type_key := "demo"; so_assistance_operation_key := "next";
     so_a_id := Some "a1"; so_ctx := ctx_a1; so_time_of_invocation := Some 2000%Z;
     so_oid := Some 0 |}.

Definition world_with_waiting_operation : World :=
  set_oid_supply 1
    (set_assistance_operations_collection [waiting_operation]
       (world_with_instance IN_PROGRESS)).

(** The same world later, at time 3000, with the type [demo] disabled;
    and a world with a due operation of [demo] under a key the process
    does not register. *)
Definition world_with_disabled_type : World :=
  {| assistance_collection := [stored_instance IN_PROGRESS];
     assistance_objects_collection := [];
     assistance_operations_collection := [waiting_operation]; settings_collection := [];
     statements_collection := []; student_models_collection := [];
     env_debug := false; disabled_assistance_type_keys := ["demo"];
     clock := 3000; uuid_supply := 0; oid_supply := 1; sent := [];
     sweep_log := [] |}.

Definition unregistered_operation : AssistanceOperationModel :=
  {| so_assistance_type_key := "demo"; so_assistance_operation_key := "missing";
     so_a_id := Some "a1"; so_ctx := ctx_a1; so_time_of_invocation := Some 500%Z;
     so_oid := Some 0 |}.

Definition world_with_unregistered_operation : World :=
  set_oid_supply 1
    (set_assistance_operations_collection [unregistered_operation]
       (world_with_instance IN_PROGRESS)).

(** ** What the gateway writes

    The document [create_assistance_objects] writes for an object: the
    object with the id of the instance, the [ao_id] drawn for it, the
    time of the call and the [_id] the driver gave it. The documents of
    a list of objects take consecutive UUIDs and [_id]s. *)

Definition created_object (a_id : option string) (now : Z) (u i : nat)
    (o : AssistanceObject) : AssistanceObject :=
  {| ao_a_id := a_id; ao_assistance_type := ao_assistance_type o;
     ao_id := Some (uuid_str u); ao_user_id := ao_user_id o; ao_timestamp := Some now;
     ao_parameters := ao_parameters o; ao_type := ao_type o; ao_oid := Some i |}.

Fixpoint created_objects (a_id : option string) (now : Z) (u i : nat)
    (objects : list AssistanceObject) : list AssistanceObject :=
  match objects with
  | [] => []
  | o :: objects' =>
      created_object a_id now u i o :: created_objects a_id now (S u) (S i) objects'
  end.

(** The world after [n] objects were written. *)
Definition with_created_objects (created : list AssistanceObject) (w : World) : World :=
  set_assistance_objects_collection (assistance_objects_collection w ++ created)
    (set_oid_supply (oid_supply w + length created)
       (set_uuid_supply (uuid_supply w + length created) w)).

(** A document with the [_id] the driver gave it. *)
Definition with_oid (i : nat) (d : AssistanceObject) : AssistanceObject :=
  {| ao_a_id := ao_a_id d; ao_assistance_type := ao_assistance_type d;
     ao_id := ao_id d; ao_user_id := ao_user_id d;
     ao_timestamp := ao_timestamp d; ao_parameters := ao_parameters d;
     ao_type := ao_type d; ao_oid := Some i |}.

(** ** The state a state-update object announces

    The list of statuses for which an operation sends a state update,
    as [_process_assistance_result] uses it: an operation without phase
    or step that has no list of its own takes ABORTED and COMPLETED. *)
Definition effective_status_to_send (self : OperationAttributes)
    : option (list AssistanceStateStatus) :=
  match op_phase self, op_step self with
  | Some _, Some _ => state_update_status_to_send self
  | _, _ => Some (default [ABORTED; COMPLETED] (state_update_status_to_send self))
  end.

(** The state that the state-update objects of an operation with the
    target status [target] carry, for an instance in the state
    [current]. *)
Definition announced_state (self : OperationAttributes) (target : AssistanceStateStatus)
    (current : option AssistanceState) : Value :=
  let announced_status :=
    match current ≫= status with Some _ => target | None => INITIATED end in
  match op_phase self, op_step self with
  | Some ph, Some st =>
      state_to_dict announced_status
        (Some (match current ≫= phase with Some _ => ph | None => 1%Z end))
        (Some (match current ≫= step with
               | Some _ => st
               | None => ASSISTANCE_OPERATION_KEY_INITIATION
               end))
  | _, _ => state_to_dict announced_status None None
  end.

(** An operation of phase 2, step [b], with the target status COMPLETED,
    as [execute] enters it; and an instance of user [u1] that was just
    produced and has no state yet. *)
Definition phase_two_attributes : OperationAttributes :=
  entering (Some 2%Z) (Some "b") (with_target_status (Some COMPLETED) default_attributes).

Definition produced_instance : Assistance :=
  create_with_default_parameters_assistance (Some "u1") [].

(** The request to initiate the greeting process with the context [c]. *)
Definition greeting_initiation_request (c : AssistanceContext) : AssistanceRequest :=
  {| assistance_type_key := "greeting";
     assistance_operation_key := ASSISTANCE_OPERATION_KEY_INITIATION;
     ctx := c |}.

(** A world with the login statement [s1] of user [u1], the statement
    [s2] of the same user with another verb, the login statements [s3],
    whose actor has no account, and [s4], which has no actor, and no
    student model. *)
Definition world_without_student_model : World :=
  {| assistance_collection := []; assistance_objects_collection := [];
     assistance_operations_collection := []; settings_collection := [];
     statements_collection :=
       [ {| st_id := "s1"; st_verb_id := Some StatementVerbId_LOGGED_IN;
            st_actor := name_stored "u1" |};
         {| st_id := "s2"; st_verb_id := Some "http://adlnet.gov/expapi/verbs/experienced";
            st_actor := name_stored "u1" |};
         {| st_id := "s3"; st_verb_id := Some StatementVerbId_LOGGED_IN;
            st_actor := name_absent |};
         {| st_id := "s4"; st_verb_id := Some StatementVerbId_LOGGED_IN;
            st_actor := name_null |} ];
     student_models_collection := [];
     env_debug := false; disabled_assistance_type_keys := [];
     clock := 1000; uuid_supply := 0; oid_supply := 0; sent := [];
     sweep_log := [] |}.

(** ** [AssistanceProcess.get_type]

    The description of a process type that the provisioning interface
    returns: [AssistanceType], [AssistancePhase] and
    [AssistancePhaseStep] of [model/core/tutorial_module.py], with the
    attributes [get_type] sets. *)

Inductive KindOfAssistanceType :=
| COOPERATIVE_ASSISTANCE
| INFORMATIONAL_FEEDBACK
| PROACTIVE_ASSISTANCE
| REACTIVE_ASSISTANCE.

Record AssistanceParameterCondition := {
  condition_key : string;
  required_values : list Value
}.

Record AssistancePhaseStepModel := {
  psm_operation_key : string;
  psm_parameters : list AssistanceParameter;
  psm_duration : option Z
}.

Record AssistancePhaseModel := {
  pm_phase_number : Z;
  pm_parameters : list AssistanceParameter;
  pm_duration : option Z;
  pm_steps : list AssistancePhaseStepModel
}.

Record AssistanceType := {
  at_key : string;
  at_description : string;
  at_kind : KindOfAssistanceType;
  at_parameters : option (list AssistanceParameter);
  at_preconditions : option (list AssistanceParameterCondition);
  at_phases : list AssistancePhaseModel
}.

(** The static methods of a process class besides [get_key]; the last
    two return [None] unless the class overrides them. *)
Record ProcessClass := {
  get_kind : KindOfAssistanceType;
  get_parameters : option (list AssistanceParameter);
  get_preconditions : option (list AssistanceParameterCondition)
}.

(** The body of the inner loop of [get_type]; the loop state is the
    list [steps] and [steps_duration_sum]. *)
Definition get_type_step (registered_phases : list AssistancePhase) (phase_index : nat)
    (phase : AssistancePhase) (indexed_step : nat * AssistancePhaseStep)
    (acc : list AssistancePhaseStepModel * Z)
    : Exn + (list AssistancePhaseStepModel * Z) :=
  let step_index := fst indexed_step in
  let step := snd indexed_step in
  let step_spec duration :=
    {| psm_operation_key := step_operation_key step;
       psm_parameters := step_parameters step;
       psm_duration := duration |} in
  if bool_decide (step_index = length (steps phase) - 1)
     && bool_decide (phase_index = length registered_phases - 1)
  then inr (fst acc ++ [step_spec None], snd acc)
  else
    let+ next_step :=
      if negb (bool_decide (step_index = length (steps phase) - 1))
      then index (steps phase) (step_index + 1)
      else
        let+ next_phase := index registered_phases (phase_index + 1) in
        index (steps next_phase) 0 in
    match schedule next_step with
    | None => inr (fst acc ++ [step_spec None], snd acc)
    | Some s =>
        inr (fst acc ++ [step_spec (Some (schedule_time_to_invocation_in_s s))],
             (snd acc + schedule_time_to_invocation_in_s s)%Z)
    end.

(** The body of the outer loop. *)
Definition get_type_phase (registered_phases : list AssistancePhase)
    (indexed_phase : nat * AssistancePhase) (phases : list AssistancePhaseModel)
    : Exn + list AssistancePhaseModel :=
  let+ steps_and_sum :=
    foldE (get_type_step registered_phases (fst indexed_phase) (snd indexed_phase))
      (enumerate (steps (snd indexed_phase))) ([], 0%Z) in
  let steps_duration_sum := snd steps_and_sum in
  inr (phases
       ++ [ {| pm_phase_number := (Z.of_nat (fst indexed_phase) + 1)%Z;
               pm_parameters := phase_parameters (snd indexed_phase);
               pm_duration :=
                 if bool_decide (steps_duration_sum ≠ 0%Z) then Some steps_duration_sum
                 else None;
               pm_steps := fst steps_and_sum |} ]).

Definition get_type (t : string -> string -> string) (class : ProcessClass)
    (process : AssistanceProcess) : Exn + AssistanceType :=
  let+ phases :=
    foldE (get_type_phase (_registered_phases process))
      (enumerate (_registered_phases process)) [] in
  inr {| at_key := get_key process;
         at_description :=
           t "en" ("assistance." +:+ get_key process +:+ ".description");
         at_kind := get_kind class;
         at_parameters := get_parameters class;
         at_preconditions := get_preconditions class;
         at_phases := phases |}.

(** ** Words for the process definitions

    The delay after which the step that follows the step [step_index]
    of the phase [phase_index] is scheduled, if there is a next step
    and it has a schedule; the sum of the durations of step
    descriptions; and a phase list in which every step but the last has
    a successor the code can reach: no phase without steps follows a
    step. *)

Definition step_duration (phases : list AssistancePhase) (phase_index step_index : nat)
    : option Z :=
  schedule_time_to_invocation_in_s
    <$> (all_steps phases !! S (position phases phase_index step_index) ≫= schedule).

Definition durations_sum (step_specs : list AssistancePhaseStepModel) : Z :=
  foldl (fun sum step_spec => (sum + default 0 (psm_duration step_spec))%Z) 0%Z step_specs.

Definition step_description (phases : list AssistancePhase) (phase_index step_index : nat)
    (step : AssistancePhaseStep) : AssistancePhaseStepModel :=
  {| psm_operation_key := step_operation_key step;
     psm_parameters := step_parameters step;
     psm_duration := step_duration phases phase_index step_index |}.

Definition well_linked (phases : list AssistancePhase) : Prop :=
  forall phase_index phase step_index step,
    phases !! phase_index = Some phase ->
    steps phase !! step_index = Some step ->
    code_last_step phases phase_index phase step_index = false ->
    exists next_step, code_next_step phases phase_index phase step_index = inr next_step.

(** The static methods of the process of the examples. *)
Definition demo_class : ProcessClass :=
  {| get_kind := REACTIVE_ASSISTANCE; get_parameters := None; get_preconditions := None |}.

(** ** [service/assistance.py]: the provisioning functions

    [get_assistance_types] takes the table of types when no kind is
    given and, for a kind, the module-level list of the types of that
    kind, and then asks the collection for its keys: a dictionary has
    them, a list has no attribute [keys]. *)

#[global] Instance KindOfAssistanceType_eq_dec : EqDecision KindOfAssistanceType.
Proof. solve_decision. Defined.

Inductive TypeCollection :=
| TypeDict (d : gmap string AssistanceProcess)
| TypeList (l : list AssistanceProcess).

Definition collection_keys (assistance_types : TypeCollection) : Exn + list string :=
  match assistance_types with
  | TypeDict d => inr (map fst (map_to_list d))
  | TypeList _ => inl AttributeError
  end.

Section Provisioning.

Variable t : string -> string -> string.

Variable ASSISTANCE_TYPES : gmap string AssistanceProcess.

(** The class of a process object, for its static methods. *)
Variable class_of : AssistanceProcess -> ProcessClass.

(** [COOPERATIVE_ASSISTANCE_TYPES] and the three other lists. *)
Definition types_of_kind (kind : KindOfAssistanceType) : list AssistanceProcess :=
  List.filter (fun assistance_type => bool_decide (get_kind (class_of assistance_type) = kind))
    (map snd (map_to_list ASSISTANCE_TYPES)).

Definition get_assistance_types (kind : option KindOfAssistanceType)
    : M (list AssistanceType) :=
  let assistance_types :=
    match kind with
    | None => TypeDict ASSISTANCE_TYPES
    | Some k => TypeList (types_of_kind k)
    end in
  let* keys := lift (collection_keys assistance_types) in
  let* disabled := gets disabled_assistance_type_keys in
  let supported_assistance_type_keys :=
    List.filter (fun assistance_type_key => negb (bool_decide (assistance_type_key ∈ disabled)))
      keys in
  for_each supported_assistance_type_keys
    (fun supported_assistance_type_key described =>
       match ASSISTANCE_TYPES !! supported_assistance_type_key with
       | None => raise KeyError
       | Some process =>
           let* assistance_type := lift (get_type t (class_of process) process) in
           ret (described ++ [assistance_type])
       end)
    [].

Definition get_assistance_type_keys : M (list string) :=
  let* assistance_types := get_assistance_types None in
  ret (map at_key assistance_types).

Definition get_assistance_type (key : string) : M (option AssistanceType) :=
  let* assistance_types := get_assistance_types None in
  ret (find (fun assistance_type => bool_decide (at_key assistance_type = key))
         assistance_types).

End Provisioning.

(** ** The store of objects

    The objects [__load_assistance_objects] finds for a document; and
    what the gateway keeps of the collection of objects: every stored
    object has an [_id] and an [ao_id] that were drawn from the
    supplies. *)

Definition loaded_objects (doc : Assistance) (w : World) : list AssistanceObject :=
  List.filter (fun o => match ao_oid o with
                        | Some i => bool_decide (i ∈ omap ao_oid (a_assistance_objects doc))
                        | None => false
                        end) (assistance_objects_collection w).

Definition objects_well_formed (w : World) : Prop :=
  Forall (fun o => (exists i, ao_oid o = Some i /\ i < oid_supply w)
                   /\ (exists u, ao_id o = Some (uuid_str u) /\ u < uuid_supply w))
    (assistance_objects_collection w).

(** A world in which the instance [a1], of the greeting process, is
    COMPLETED while the screencast hint scheduled for it is still in
    the store, due at 1005. *)
Definition late_hint : AssistanceOperationModel :=
  scheduled_document (GreetingAssistance example_t) TOOLCHECK_SCREENCAST_HINT_OPERATION_KEY
    ctx_a1 (Some "a1") 1005 0.

Definition world_with_late_hint : World :=
  set_oid_supply 1
    (set_assistance_operations_collection [late_hint]
       (set_assistance_collection [with_type_key (Some "greeting") (stored_instance COMPLETED)]
          empty_world)).

(** A world in which the instance [a1] already has one stored object. *)
Definition world_with_stored_object : World :=
  set_assistance_collection
    [with_assistance_objects [ref_object (Some 0)] (stored_instance IN_PROGRESS)]
    (with_created_objects (created_objects (Some "a1") 900 0 0 [response_object])
       empty_world).

(** * Properties *)

(** ** Reasoning about computations *)

Ltac unfold_monad :=
  unfold bind, ret, raise, gets, modify, lift, try_except, when, bindE in *.

Lemma bind_inr {A B : Type} (m : M A) (f : A -> M B) (w w' : World) (a : A) :
  m w = (inr a, w') -> bind m f w = f a w'.
Proof. intros H. unfold bind. now rewrite H. Qed.

Lemma bind_inl {A B : Type} (m : M A) (f : A -> M B) (w w' : World) (e : Exn) :
  m w = (inl e, w') -> bind m f w = (inl e, w').
Proof. intros H. unfold bind. now rewrite H. Qed.

Lemma bind_assoc {A B C : Type} (m : M A) (f : A -> M B) (g : B -> M C) (w : World) :
  bind (bind m f) g w = bind m (fun a => bind (f a) g) w.
Proof. unfold bind. destruct (m w) as [[e|a] w']; reflexivity. Qed.

Lemma bind_ret_l {A B : Type} (a : A) (f : A -> M B) (w : World) :
  bind (ret a) f w = f a w.
Proof. reflexivity. Qed.

Lemma bind_raise {A B : Type} (e : Exn) (f : A -> M B) (w : World) :
  bind (raise e) f w = (inl e, w).
Proof. reflexivity. Qed.

Lemma bind_lift_inr {A B : Type} (a : A) (f : A -> M B) (w : World) :
  bind (lift (inr a)) f w = f a w.
Proof. reflexivity. Qed.

Lemma bind_lift_inl {A B : Type} (e : Exn) (f : A -> M B) (w : World) :
  bind (lift (inl e)) f w = (inl e, w).
Proof. reflexivity. Qed.

(** ** [replace_or_add_assistance_parameters_by_key] *)

(** C9. With [parameters = None] the function returns the empty list,
    so the replacement is dropped; with a list it returns that list
    without the parameters that have the key of the replacement,
    followed by the replacement as last element. *)
Theorem replace_or_add_assistance_parameters_by_key_spec
    (replacement : AssistanceParameter) :
  replace_or_add_assistance_parameters_by_key replacement None = []
  /\ (replacement ∉ replace_or_add_assistance_parameters_by_key replacement None)
  /\ forall parameters : list AssistanceParameter,
       let result :=
         replace_or_add_assistance_parameters_by_key replacement (Some parameters) in
       result
       = filter (fun parameter => key parameter ≠ key replacement) parameters
         ++ [replacement]
       /\ last result = Some replacement
       /\ (forall i parameter,
             result !! i = Some parameter -> S i < length result ->
             parameter ∈ parameters /\ key parameter ≠ key replacement)
       /\ (forall parameter,
             parameter ∈ parameters -> key parameter ≠ key replacement ->
             parameter ∈ result).
Proof.
  split; [reflexivity|]. split; [apply not_elem_of_nil|].
  intros parameters result. subst result. simpl.
  split; [reflexivity|]. split; [apply last_snoc|]. split.
  - intros i parameter Hi Hlt. rewrite length_app in Hlt. simpl in Hlt.
    rewrite lookup_app_l in Hi by lia.
    apply list_elem_of_lookup_2 in Hi. apply list_elem_of_filter in Hi. tauto.
  - intros parameter Hin Hkey. apply elem_of_app. left.
    apply list_elem_of_filter. tauto.
Qed.

(** ** [AssistanceOperation.is_applicable] *)

Lemma is_applicable_not_required (self : OperationAttributes) (ctx : AssistanceContext)
    (w : World) :
  assistance_in_progress_required self = false ->
  is_applicable self ctx w = (inr true, w).
Proof. intros H. unfold is_applicable. now rewrite H. Qed.

Lemma read_assistance_by_a_id_pure (q : Value) (w : World) :
  exists r, read_assistance_by_a_id q w = (inr r, w).
Proof.
  unfold read_assistance_by_a_id, find_one_assistance, __load_assistance_objects.
  unfold_monad.
  destruct (find _ _) as [doc|]; [|eauto].
  destruct (a_assistance_objects doc); eauto.
Qed.

(** The status of the instance does not decide: for an operation that
    requires an assistance in progress and a context whose [a_id]
    resolves to a COMPLETED instance, [is_applicable] returns true. *)
Lemma is_applicable_terminal_counterexample :
  ~ (forall (self : OperationAttributes) (ctx : AssistanceContext) (w : World)
            (q : Value) (a : Assistance) (st : AssistanceState),
       assistance_in_progress_required self = true ->
       get_parameter ctx ASSISTANCE_CONTEXT_PARAMETER_KEY_A_ID = inr q ->
       fst (read_assistance_by_a_id q w) = inr (Some a) ->
       a_assistance_state a = Some st ->
       is_terminal (status st) = true ->
       fst (is_applicable self ctx w) = inr false).
Proof.
  intros H.
  specialize (H in_progress_attributes ctx_a1 (world_with_instance COMPLETED)
                (VStr "a1") (stored_instance COMPLETED)
                {| status := Some COMPLETED; phase := None; step := Some "initiation" |}
                eq_refl eq_refl eq_refl eq_refl eq_refl).
  vm_compute in H. discriminate H.
Qed.

(** What the code returns: for an operation that requires an
    assistance in progress, [is_applicable] returns false when the
    context has no [a_id] parameter and true when it has one, whatever
    the [a_id] resolves to; it never raises and leaves the world as it
    is. *)
Lemma is_applicable_in_progress_required (self : OperationAttributes)
    (ctx : AssistanceContext) (w : World) :
  assistance_in_progress_required self = true ->
  is_applicable self ctx w
  = (inr (bool_decide (is_Some (parameter_dict ctx
                                  !! ASSISTANCE_CONTEXT_PARAMETER_KEY_A_ID))), w).
Proof.
  intros Hreq. unfold is_applicable. rewrite Hreq. simpl.
  unfold try_except, get_parameter.
  destruct (parameter_dict ctx !! ASSISTANCE_CONTEXT_PARAMETER_KEY_A_ID) as [q|] eqn:Hq.
  - rewrite bool_decide_eq_true_2 by eauto.
    unfold bind at 1. unfold lift at 1. unfold bind at 1. unfold lift at 1.
    destruct (read_assistance_by_a_id_pure q w) as [r Hr].
    rewrite (bind_inr _ _ _ _ _ Hr). reflexivity.
  - rewrite bool_decide_eq_false_2 by (intros [? ?]; discriminate).
    reflexivity.
Qed.

Lemma is_applicable_in_progress_required_witness :
  is_applicable in_progress_attributes ctx_empty (world_with_instance COMPLETED)
  = (inr false, world_with_instance COMPLETED)
  /\ is_applicable in_progress_attributes ctx_a1 (world_with_instance IN_PROGRESS)
     = (inr true, world_with_instance IN_PROGRESS).
Proof.
  split.
  - exact (is_applicable_in_progress_required in_progress_attributes ctx_empty
             (world_with_instance COMPLETED) eq_refl).
  - exact (is_applicable_in_progress_required in_progress_attributes ctx_a1
             (world_with_instance IN_PROGRESS) eq_refl).
Defined.

(** C1, evaluated at the failing input. The screencast hint of the
    greeting process requires an assistance in progress; the context
    names the instance [a1], which is COMPLETED. [is_applicable] reads
    the instance, drops it without looking at its status, and returns
    true. The engine therefore executes the operation: [execute] empties
    the stored [next_operation_keys] of the instance and deletes its
    scheduled operations, and only then the write of the result is
    refused with [CompletedAssistanceModifyException]. *)
Theorem is_applicable_terminal_instance :
  is_applicable (self (ToolcheckScreencastHintOperation example_t)) ctx_a1
    world_with_late_hint
  = (inr true, world_with_late_hint)
  /\ exists w',
       check_applicability_and_execute_operation (GreetingAssistance example_t)
         TOOLCHECK_SCREENCAST_HINT_OPERATION_KEY ctx_a1 world_with_late_hint
       = (inl CompletedAssistanceModifyException, w')
       /\ (a_assistance_state <$> assistance_collection world_with_late_hint)
          = [Some {| status := Some COMPLETED; phase := None; step := Some "initiation" |}]
       /\ stored_next_operation_keys "a1" world_with_late_hint = Some ["next"]
       /\ stored_next_operation_keys "a1" w' = Some []
       /\ assistance_operations_collection world_with_late_hint = [late_hint]
       /\ assistance_operations_collection w' = [].
Proof.
  split; [reflexivity|].
  eexists. split; [vm_compute; reflexivity|]. repeat split; reflexivity.
Qed.

(** ** Appending to a terminal instance *)

Lemma load_assistance_objects_state (doc : Assistance) (w : World) :
  exists a, __load_assistance_objects doc w = (inr a, w)
            /\ a_assistance_state a = a_assistance_state doc
            /\ a_id a = a_id doc
            /\ a_next_operation_keys a = a_next_operation_keys doc
            /\ a_type_key a = a_type_key doc
            /\ a_user_id a = a_user_id doc
            /\ a_parameters a = a_parameters doc.
Proof.
  unfold __load_assistance_objects. unfold_monad.
  destruct (a_assistance_objects doc); eexists; split; try reflexivity; simpl; tauto.
Qed.

Lemma read_assistance_by_a_id_found (q : Value) (w : World) (a : Assistance) :
  fst (read_assistance_by_a_id q w) = inr (Some a) ->
  exists doc,
    find (fun d => a_id_matches q (a_id d)) (assistance_collection w) = Some doc
    /\ a_assistance_state a = a_assistance_state doc.
Proof.
  unfold read_assistance_by_a_id, find_one_assistance. unfold_monad.
  destruct (find _ _) as [doc|]; [|discriminate].
  destruct (load_assistance_objects_state doc w) as (a' & Hl & Hs & _).
  rewrite Hl. simpl. intros [= <-]. eauto.
Qed.

Lemma update_by_a_id_terminal (a_id_arg : string) (objects : list AssistanceObject)
    (w : World) (doc : Assistance) (st : AssistanceState) :
  find (fun d => a_id_matches (VStr a_id_arg) (a_id d)) (assistance_collection w) = Some doc ->
  a_assistance_state doc = Some st ->
  is_terminal (status st) = true ->
  update_assistance_by_a_id_adding_assistance_objects a_id_arg objects w
  = (inl CompletedAssistanceModifyException, w).
Proof.
  intros Hf Hs Ht.
  unfold update_assistance_by_a_id_adding_assistance_objects, find_one_assistance.
  unfold bind at 1. unfold gets at 1. rewrite Hf.
  unfold bind at 1. unfold lift, existing_status. rewrite Hs, Ht. reflexivity.
Qed.

Section AppendResponse.

Variable ASSISTANCE_TYPES : gmap string AssistanceProcess.

(** C2. When the instance that [a_id] resolves to has the status
    COMPLETED or ABORTED, [update_assistance] raises
    [CompletedAssistanceModifyException] and the world, hence every
    collection, is as before: nothing was appended. *)
Theorem update_assistance_terminal (depth : nat) (a_id_arg : string)
    (assistance_response_objects : list AssistanceObject) (w : World)
    (a : Assistance) (st : AssistanceState) :
  fst (read_assistance_by_a_id (VStr a_id_arg) w) = inr (Some a) ->
  a_assistance_state a = Some st ->
  status st = Some COMPLETED \/ status st = Some ABORTED ->
  update_assistance ASSISTANCE_TYPES depth a_id_arg assistance_response_objects w
  = (inl CompletedAssistanceModifyException, w).
Proof.
  intros Hread Hst Hterminal.
  destruct (read_assistance_by_a_id_found _ _ _ Hread) as (doc & Hfind & Hsame).
  unfold update_assistance.
  apply bind_inl.
  apply update_by_a_id_terminal with (doc := doc) (st := st); [assumption|congruence|].
  unfold is_terminal. destruct Hterminal as [-> | ->]; reflexivity.
Qed.

End AppendResponse.

Lemma update_assistance_terminal_witness :
  update_assistance ∅ 10 "a1" [create_with_default_parameters_object (Some "u1") []]
    (world_with_instance ABORTED)
  = (inl CompletedAssistanceModifyException, world_with_instance ABORTED).
Proof.
  apply (update_assistance_terminal ∅ 10 "a1" _ (world_with_instance ABORTED)
           (stored_instance ABORTED)
           {| status := Some ABORTED; phase := None; step := Some "initiation" |}).
  - reflexivity.
  - reflexivity.
  - right. reflexivity.
Defined.

(** ** Which exceptions the gateway raises *)

Lemma raises_only_ret {A : Type} (P : Exn -> Prop) (a : A) : raises_only P (ret a).
Proof. intros w e w' H. discriminate H. Qed.

Lemma raises_only_gets {A : Type} (P : Exn -> Prop) (f : World -> A) :
  raises_only P (gets f).
Proof. intros w e w' H. discriminate H. Qed.

Lemma raises_only_modify (P : Exn -> Prop) (f : World -> World) :
  raises_only P (modify f).
Proof. intros w e w' H. discriminate H. Qed.

Lemma raises_only_raise {A : Type} (P : Exn -> Prop) (e : Exn) :
  P e -> raises_only P (@raise A e).
Proof. intros He w e' w' [= <- _]. exact He. Qed.

Lemma raises_only_bind {A B : Type} (P : Exn -> Prop) (m : M A) (f : A -> M B) :
  raises_only P m -> (forall a, raises_only P (f a)) -> raises_only P (bind m f).
Proof.
  intros Hm Hf w e w' H. unfold bind in H.
  destruct (m w) as [[e1|a] w1] eqn:Hmw.
  - injection H as <- <-. eapply Hm, Hmw.
  - eapply Hf, H.
Qed.

Lemma raises_only_for_each {A S : Type} (P : Exn -> Prop) (l : list A)
    (body : A -> S -> M S) :
  (forall x acc, raises_only P (body x acc)) ->
  forall acc, raises_only P (for_each l body acc).
Proof.
  intros Hbody. induction l as [|x l IH]; intros acc; simpl.
  - apply raises_only_ret.
  - apply raises_only_bind; [apply Hbody | intros acc'; apply IH].
Qed.

Lemma uuid4_raises (P : Exn -> Prop) : raises_only P uuid4.
Proof. intros w e w' H. discriminate H. Qed.

Lemma fresh_oid_raises (P : Exn -> Prop) : raises_only P fresh_oid.
Proof. intros w e w' H. discriminate H. Qed.

Lemma insert_assistance_object_raises (d : AssistanceObject)
    (inserted : list AssistanceObject) :
  raises_only db_error (insert_assistance_object d inserted).
Proof.
  unfold insert_assistance_object. destruct (ao_oid d).
  - apply raises_only_bind; [apply raises_only_gets|]. intros c.
    destruct (oid_in_objects n c).
    + apply raises_only_raise. unfold db_error. tauto.
    + apply raises_only_bind; [apply raises_only_modify|]. intros _.
      apply raises_only_ret.
  - apply raises_only_bind; [apply fresh_oid_raises|]. intros i.
    apply raises_only_bind; [apply raises_only_modify|]. intros _.
    apply raises_only_ret.
Qed.

Lemma create_assistance_objects_raises (objects : list AssistanceObject)
    (a : option string) :
  raises_only db_error (create_assistance_objects objects a).
Proof.
  unfold create_assistance_objects.
  apply raises_only_bind.
  - apply raises_only_for_each. intros x acc.
    apply raises_only_bind; [apply uuid4_raises|]. intros u.
    apply raises_only_bind; [apply raises_only_gets|]. intros now.
    apply raises_only_ret.
  - intros docs. unfold insert_many_assistance_objects.
    destruct docs as [|d docs'].
    + apply raises_only_raise. unfold db_error. tauto.
    + destruct (forallb _ _).
      * apply raises_only_for_each. intros x acc. apply insert_assistance_object_raises.
      * apply raises_only_raise. unfold db_error. tauto.
Qed.

Lemma replace_one_assistance_raises (q : Value) (d : Assistance) :
  raises_only db_error (replace_one_assistance q d).
Proof.
  unfold replace_one_assistance. destruct (parameters_encodable _).
  - apply raises_only_modify.
  - apply raises_only_raise. unfold db_error. tauto.
Qed.

Lemma load_assistance_objects_raises (P : Exn -> Prop) (d : Assistance) :
  raises_only P (__load_assistance_objects d).
Proof.
  intros w e w' H. destruct (load_assistance_objects_state d w) as (a & Hl & _).
  rewrite Hl in H. discriminate H.
Qed.

(** C10. When [update_assistance_by_a_id_adding_assistance_objects]
    raises [AssistanceNotExistsException] or
    [CompletedAssistanceModifyException], the world it leaves is the
    world it received: no assistance object was created and no
    assistance record replaced. The first is raised exactly when no
    document has the id, the second when the document found is
    terminal. *)
Theorem update_by_a_id_failure_leaves_store (a_id_arg : string)
    (assistance_objects : list AssistanceObject) (w w' : World) (e : Exn) :
  update_assistance_by_a_id_adding_assistance_objects a_id_arg assistance_objects w
  = (inl e, w') ->
  e = AssistanceNotExistsException \/ e = CompletedAssistanceModifyException ->
  w' = w
  /\ (e = AssistanceNotExistsException ->
      find (fun d => a_id_matches (VStr a_id_arg) (a_id d)) (assistance_collection w) = None)
  /\ (e = CompletedAssistanceModifyException ->
      exists doc st,
        find (fun d => a_id_matches (VStr a_id_arg) (a_id d)) (assistance_collection w)
        = Some doc
        /\ a_assistance_state doc = Some st /\ is_terminal (status st) = true).
Proof.
  intros Hrun He.
  unfold update_assistance_by_a_id_adding_assistance_objects, find_one_assistance in Hrun.
  unfold bind at 1 in Hrun. unfold gets at 1 in Hrun.
  destruct (find _ _) as [doc|] eqn:Hfind.
  - unfold bind at 1 in Hrun. unfold lift, existing_status in Hrun.
    destruct (a_assistance_state doc) as [st|] eqn:Hst.
    + destruct (is_terminal (status st)) eqn:Hterminal.
      * injection Hrun as <- <-.
        split; [reflexivity|]. split; [discriminate|]. intros _. eauto.
      * exfalso.
        assert (Hdb : raises_only db_error
                  (let* created := create_assistance_objects assistance_objects (a_id doc) in
                   let assistance_dict :=
                     with_assistance_objects
                       (a_assistance_objects doc
                        ++ map (fun created_ao => ref_object (ao_oid created_ao)) created)
                       doc in
                   let* _ := replace_one_assistance (opt_str_value (a_id doc))
                               assistance_dict in
                   __load_assistance_objects assistance_dict)).
        { apply raises_only_bind; [apply create_assistance_objects_raises|].
          intros created. apply raises_only_bind; [apply replace_one_assistance_raises|].
          intros _. apply load_assistance_objects_raises. }
        apply Hdb in Hrun. unfold db_error in Hrun.
        destruct He as [-> | ->]; intuition discriminate.
    + injection Hrun as <- <-. destruct He; discriminate.
  - injection Hrun as <- <-.
    split; [reflexivity|]. split; [reflexivity|]. discriminate.
Qed.

Lemma update_by_a_id_failure_leaves_store_witness :
  (world_with_instance COMPLETED = world_with_instance COMPLETED
   /\ (CompletedAssistanceModifyException = AssistanceNotExistsException ->
       find (fun d => a_id_matches (VStr "a1") (a_id d))
         (assistance_collection (world_with_instance COMPLETED)) = None)
   /\ (CompletedAssistanceModifyException = CompletedAssistanceModifyException ->
       exists doc st,
         find (fun d => a_id_matches (VStr "a1") (a_id d))
           (assistance_collection (world_with_instance COMPLETED)) = Some doc
         /\ a_assistance_state doc = Some st /\ is_terminal (status st) = true))
  /\ (empty_world = empty_world
      /\ (AssistanceNotExistsException = AssistanceNotExistsException ->
          find (fun d => a_id_matches (VStr "a1") (a_id d))
            (assistance_collection empty_world) = None)
      /\ (AssistanceNotExistsException = CompletedAssistanceModifyException ->
          exists doc st,
            find (fun d => a_id_matches (VStr "a1") (a_id d))
              (assistance_collection empty_world) = Some doc
            /\ a_assistance_state doc = Some st /\ is_terminal (status st) = true)).
Proof.
  split.
  - apply (update_by_a_id_failure_leaves_store "a1"
             [create_with_default_parameters_object (Some "u1") []]
             (world_with_instance COMPLETED) (world_with_instance COMPLETED)
             CompletedAssistanceModifyException).
    + reflexivity.
    + right. reflexivity.
  - apply (update_by_a_id_failure_leaves_store "a1"
             [create_with_default_parameters_object (Some "u1") []]
             empty_world empty_world AssistanceNotExistsException).
    + reflexivity.
    + left. reflexivity.
Defined.

(** ** Scheduling with a context that cannot be serialized *)

Lemma add_parameter_keeps_flag (ctx ctx' : AssistanceContext) (k : string) (v : Value) :
  add_parameter ctx k v = inr ctx' ->
  class_module v ≠ "__builtin__" ->
  context_can_be_persisted ctx' = context_can_be_persisted ctx.
Proof.
  unfold add_parameter. destruct (parameter_dict ctx !! k); [discriminate|].
  intros [= <-] Hm. simpl. now rewrite bool_decide_eq_false_2.
Qed.

(** C6, evaluated at the failing input. A context that received an
    [AssistanceObject] through [add_parameter] still has
    [context_can_be_persisted = True], although the value has no
    encoding: the guard of [add_parameter] compares the module of the
    value's class with ["__builtin__"], which no class has under
    Python 3. [schedule_operation] therefore does not raise
    [AssistanceOperationCanNotBeScheduledException]; the call reaches
    the insertion, where the driver refuses the document. *)
Lemma schedule_operation_unserializable_context :
  exists ctx,
    ctx_with_object = inr ctx
    /\ context_encodable ctx = false
    /\ context_can_be_persisted ctx = true
    /\ schedule_operation demo_process "next" ctx (Some 5%Z) (Some "a1")
         (world_with_instance IN_PROGRESS)
       = (inl InvalidDocument, world_with_instance IN_PROGRESS).
Proof.
  eexists. split; [reflexivity|]. split; [reflexivity|]. split; reflexivity.
Qed.

(** ** The chaining resolver *)

Section Chaining.

Variable ASSISTANCE_TYPES : gmap string AssistanceProcess.

Lemma for_each_chained (resolve : AssistanceRequest -> M (option AssistanceResult))
    (requests : list AssistanceRequest) (acc : list Assistance) (w : World) :
  for_each requests
    (fun chained_request assistance =>
       let* chained := resolve chained_request in
       match chained with
       | None => raise AttributeError
       | Some chained_result => ret (assistance ++ result_assistance chained_result)
       end)
    acc w
  = match chained_instances resolve requests w with
    | (inr chained, w') => (inr (acc ++ chained), w')
    | (inl e, w') => (inl e, w')
    end.
Proof.
  revert acc w. induction requests as [|request requests IH]; intros acc w; simpl.
  - unfold ret. now rewrite app_nil_r.
  - rewrite bind_assoc.
    destruct (resolve request w) as [[e|[chained_result|]] w1] eqn:Hresolve.
    + rewrite !(bind_inl _ _ _ _ _ Hresolve). reflexivity.
    + rewrite !(bind_inr _ _ _ _ _ Hresolve). rewrite bind_ret_l, IH.
      destruct (chained_instances resolve requests w1) as [[e|rest] w2] eqn:Hrest.
      * rewrite (bind_inl _ _ _ _ _ Hrest). reflexivity.
      * rewrite (bind_inr _ _ _ _ _ Hrest).
        unfold ret. now rewrite app_assoc.
    + rewrite !(bind_inr _ _ _ _ _ Hresolve). rewrite !bind_raise. reflexivity.
Qed.

(** C7. When the executed operation returns a result with chained
    requests, [__handle_assistance_request] resolves the requests in
    order and returns a result whose instances are, with the flag
    [prepend_assistance_from_requests] set, the instances of the
    chained requests followed by the instances of the operation
    itself, and with the flag unset the instances of the operation
    followed by those of the chained requests; the result carries no
    further requests. It returns this result exactly when every chained
    request is resolved with a result; an exception of a chained
    request is the exception of the call. *)
Theorem handle_assistance_request_chaining_order (depth : nat)
    (assistance_request : AssistanceRequest) (supported : list string)
    (process : AssistanceProcess) (own : AssistanceResult) (w w1 : World) :
  assistance_type_key assistance_request ∉ disabled_assistance_type_keys w ->
  assistance_type_key assistance_request ∈ supported ->
  ASSISTANCE_TYPES !! assistance_type_key assistance_request = Some process ->
  check_applicability_and_execute_operation process
    (assistance_operation_key assistance_request) (ctx assistance_request) w
  = (inr (Some own), w1) ->
  assistance_requests own ≠ [] ->
  __handle_assistance_request ASSISTANCE_TYPES (S depth) assistance_request supported w
  = match chained_instances
            (fun chained_request =>
               __handle_assistance_request ASSISTANCE_TYPES depth chained_request supported)
            (assistance_requests own) w1 with
    | (inr chained, w2) =>
        (inr (Some {| assistance :=
                        if prepend_assistance_from_requests own
                        then chained ++ assistance own
                        else assistance own ++ chained;
                      assistance_requests := [];
                      prepend_assistance_from_requests := false |}), w2)
    | (inl e, w2) => (inl e, w2)
    end.
Proof.
  intros Hdisabled Hsupported Hprocess Hexecuted Hrequests.
  simpl. unfold bind at 1. unfold gets at 1.
  rewrite bool_decide_eq_false_2 by assumption.
  rewrite bool_decide_eq_true_2 by assumption. simpl.
  rewrite Hprocess. unfold bind at 1. rewrite Hexecuted.
  destruct (assistance_requests own) as [|request requests] eqn:Hreqs; [congruence|].
  cbn [is_empty]. rewrite <- Hreqs. unfold bind at 1.
  rewrite for_each_chained.
  destruct (chained_instances _ _ w1) as [[e|chained] w2]; [reflexivity|].
  unfold ret, result_assistance.
  destruct (prepend_assistance_from_requests own); reflexivity.
Qed.

End Chaining.

Lemma handle_assistance_request_chaining_order_witness :
  (exists chained own w2,
     a_user_id chained = Some "u2" /\ a_user_id own = Some "u1"
     /\ __handle_assistance_request (chaining_types true) 3 outer_request
          ["outer"; "inner"] empty_world
        = (inr (Some {| assistance := [chained; own]; assistance_requests := [];
                        prepend_assistance_from_requests := false |}), w2))
  /\ (exists chained own w2,
        a_user_id chained = Some "u2" /\ a_user_id own = Some "u1"
        /\ __handle_assistance_request (chaining_types false) 3 outer_request
             ["outer"; "inner"] empty_world
           = (inr (Some {| assistance := [own; chained]; assistance_requests := [];
                           prepend_assistance_from_requests := false |}), w2)).
Proof.
  split.
  - match goal with
    | |- context [chaining_types true] =>
        pose proof (fun own w1 =>
                      handle_assistance_request_chaining_order (chaining_types true) 2
                        outer_request ["outer"; "inner"] (outer_process true) own
                        empty_world w1) as Hchain
    end.
    match type of Hchain with
    | forall own w1, _ -> _ -> _ -> ?exec = _ -> _ =>
        destruct exec as [[e|[own|]] w1] eqn:Hrun; vm_compute in Hrun;
          try discriminate Hrun
    end.
    specialize (Hchain own w1 (not_elem_of_nil _) (list_elem_of_here _ _) eq_refl eq_refl).
    injection Hrun as <- <-.
    assert (Hrequests : forall A (x : A), [x] ≠ []) by discriminate.
    specialize (Hchain (Hrequests _ _)).
    vm_compute in Hchain.
    eexists _, _, _. split; [|split; [|exact Hchain]]; reflexivity.
  - match goal with
    | |- context [chaining_types false] =>
        pose proof (fun own w1 =>
                      handle_assistance_request_chaining_order (chaining_types false) 2
                        outer_request ["outer"; "inner"] (outer_process false) own
                        empty_world w1) as Hchain
    end.
    match type of Hchain with
    | forall own w1, _ -> _ -> _ -> ?exec = _ -> _ =>
        destruct exec as [[e|[own|]] w1] eqn:Hrun; vm_compute in Hrun;
          try discriminate Hrun
    end.
    specialize (Hchain own w1 (not_elem_of_nil _) (list_elem_of_here _ _) eq_refl eq_refl).
    injection Hrun as <- <-.
    assert (Hrequests : forall A (x : A), [x] ≠ []) by discriminate.
    specialize (Hchain (Hrequests _ _)).
    vm_compute in Hchain.
    eexists _, _, _. split; [|split; [|exact Hchain]]; reflexivity.
Defined.

(** The two orders on the processes [outer] and [inner]: the instance
    of user [u2] is the chained one. *)
Example chained_first_when_prepend_set :
  users_of
    (__handle_assistance_request (chaining_types true) 3 outer_request ["outer"; "inner"]
       empty_world)
  = inr (Some [Some "u2"; Some "u1"]).
Proof. vm_compute. reflexivity. Qed.

Example own_first_when_prepend_unset :
  users_of
    (__handle_assistance_request (chaining_types false) 3 outer_request ["outer"; "inner"]
       empty_world)
  = inr (Some [Some "u1"; Some "u2"]).
Proof. vm_compute. reflexivity. Qed.

(** ** Registration of phases *)

Lemma foldE_cons_inr {A S : Type} (body : A -> S -> Exn + S) (x : A) (l : list A)
    (s s' : S) :
  foldE body (x :: l) s = inr s' ->
  exists s1, body x s = inr s1 /\ foldE body l s1 = inr s'.
Proof.
  simpl. unfold bindE. destruct (body x s) as [e|s1]; [discriminate|]. eauto.
Qed.

Section RegisterPhases.

Variable phases : list AssistancePhase.

Lemma register_step_inr (phase_index : nat) (phase : AssistancePhase) (step_index : nat)
    (step : AssistancePhaseStep) (r r' : Registration) :
  register_step phases phase_index phase step_index step r = inr r' ->
  operations_to_register r !! step_operation_key step = None
  /\ exists operation,
       operations_to_register r'
       = <[step_operation_key step := operation]> (operations_to_register r)
       /\ registered_as phases phase_index phase step_index step operation.
Proof.
  unfold register_step, registered_as.
  destruct (operations_to_register r !! step_operation_key step) as [o|] eqn:Hfree.
  { rewrite bool_decide_eq_true_2 by eauto. discriminate. }
  rewrite bool_decide_eq_false_2 by (intros [? ?]; discriminate).
  fold (code_last_step phases phase_index phase step_index).
  fold (code_next_step phases phase_index phase step_index).
  intros Hrun. split; [reflexivity|].
  assert (Hmark : forall b,
    b = negb (bool_decide (phase_index = 0)) || negb (bool_decide (step_index = 0)) ->
    phase_index ≠ 0 \/ step_index ≠ 0 ->
    assistance_in_progress_required
      (if b then with_assistance_in_progress_required true (self (step_operation step))
       else self (step_operation step)) = true).
  { intros b -> Hne. destruct Hne as [Hne|Hne].
    - rewrite (bool_decide_eq_false_2 _ Hne). reflexivity.
    - rewrite (bool_decide_eq_false_2 (step_index = 0) Hne).
      rewrite orb_true_r. reflexivity. }
  assert (Hsubs : forall b : bool,
    subsequent_operations
      (if b then with_assistance_in_progress_required true (self (step_operation step))
       else self (step_operation step))
    = subsequent_operations (self (step_operation step))).
  { intros []; reflexivity. }
  destruct (code_last_step phases phase_index phase step_index).
  - injection Hrun as <-. eexists. split; [reflexivity|]. simpl.
    split; [apply Hmark; reflexivity | apply Hsubs].
  - unfold bindE in Hrun.
    destruct (code_next_step phases phase_index phase step_index) as [e|next_step];
      [discriminate|].
    injection Hrun as <-. eexists. split; [reflexivity|]. simpl.
    split; [apply Hmark; reflexivity|].
    exists next_step. split; [reflexivity|]. now rewrite Hsubs.
Qed.

(** The inner loop, started at step [k] of the phase. *)
Lemma register_steps_inr (phase_index : nat) (phase : AssistancePhase)
    (remaining : list AssistancePhaseStep) :
  forall (k : nat) (r r' : Registration),
    foldE (fun indexed_step =>
             register_step phases phase_index phase (fst indexed_step) (snd indexed_step))
          (enumerate_from k remaining) r = inr r' ->
    operations_to_register r ⊆ operations_to_register r'
    /\ NoDup (map step_operation_key remaining)
    /\ (forall step, step ∈ remaining ->
          operations_to_register r !! step_operation_key step = None)
    /\ (forall key, is_Some (operations_to_register r' !! key) ->
          is_Some (operations_to_register r !! key)
          \/ key ∈ map step_operation_key remaining)
    /\ (forall j step, remaining !! j = Some step ->
          exists operation,
            operations_to_register r' !! step_operation_key step = Some operation
            /\ registered_as phases phase_index phase (k + j) step operation).
Proof.
  induction remaining as [|step remaining IH]; intros k r r' Hrun.
  - injection Hrun as <-. split; [reflexivity|]. split; [constructor|].
    split; [intros ? Hin; inversion Hin|]. split; [tauto|]. intros j ? Hj. discriminate Hj.
  - apply foldE_cons_inr in Hrun as (r1 & Hstep & Hrest). simpl in Hstep.
    apply register_step_inr in Hstep as (Hfree & operation & Hops & Has).
    apply IH in Hrest as (Hsub & Hnodup & Hfresh & Hdom & Hall).
    assert (Hr1 : operations_to_register r ⊆ operations_to_register r1).
    { rewrite Hops. now apply insert_subseteq. }
    assert (Hhere : operations_to_register r1 !! step_operation_key step = Some operation).
    { rewrite Hops. apply lookup_insert_eq. }
    split; [etransitivity; eassumption|]. split; [|split; [|split]].
    + simpl. constructor; [|assumption]. intros Hin.
      apply list_elem_of_fmap in Hin as (step' & Hkey & Hin).
      specialize (Hfresh step' Hin). rewrite <- Hkey in Hfresh. congruence.
    + intros step' Hin. apply elem_of_cons in Hin as [-> | Hin]; [assumption|].
      specialize (Hfresh step' Hin). rewrite Hops in Hfresh.
      apply lookup_insert_None in Hfresh. tauto.
    + intros key Hkey. apply Hdom in Hkey as [Hkey | Hkey].
      * rewrite Hops in Hkey. destruct (decide (step_operation_key step = key)) as [<- | Hne].
        -- right. simpl. apply list_elem_of_here.
        -- rewrite lookup_insert_ne in Hkey by assumption. now left.
      * right. simpl. now apply list_elem_of_further.
    + intros [|j] step' Hj.
      * injection Hj as <-. exists operation. rewrite Nat.add_0_r. split; [|assumption].
        eapply lookup_weaken; eassumption.
      * simpl in Hj. destruct (Hall j step' Hj) as (operation' & Hlook & Has').
        exists operation'. split; [assumption|].
        now replace (k + S j) with (S k + j) by lia.
Qed.

(** The outer loop, started at phase [k]. *)
Lemma register_phases_inr (remaining : list AssistancePhase) :
  forall (k : nat) (r r' : Registration),
    foldE (register_phase phases) (enumerate_from k remaining) r = inr r' ->
    operations_to_register r ⊆ operations_to_register r'
    /\ NoDup (map step_operation_key (all_steps remaining))
    /\ (forall step, step ∈ all_steps remaining ->
          operations_to_register r !! step_operation_key step = None)
    /\ (forall key, is_Some (operations_to_register r' !! key) ->
          is_Some (operations_to_register r !! key)
          \/ key ∈ map step_operation_key (all_steps remaining))
    /\ (forall j phase i step,
          remaining !! j = Some phase -> steps phase !! i = Some step ->
          exists operation,
            operations_to_register r' !! step_operation_key step = Some operation
            /\ registered_as phases (k + j) phase i step operation).
Proof.
  induction remaining as [|phase remaining IH]; intros k r r' Hrun.
  - injection Hrun as <-. split; [reflexivity|]. split; [constructor|].
    split; [intros ? Hin; inversion Hin|]. split; [tauto|].
    intros j ? ? ? Hj. discriminate Hj.
  - apply foldE_cons_inr in Hrun as (r1 & Hphase & Hrest).
    unfold register_phase, enumerate in Hphase. simpl in Hphase.
    apply register_steps_inr in Hphase as (Hsub1 & Hnodup1 & Hfresh1 & Hdom1 & Hall1).
    apply IH in Hrest as (Hsub & Hnodup & Hfresh & Hdom & Hall).
    unfold all_steps in *. simpl. rewrite map_app.
    split; [etransitivity; eassumption|]. split; [|split; [|split]].
    + apply NoDup_app. split; [assumption|]. split; [|assumption].
      intros key Hin1 Hin2.
      apply list_elem_of_fmap in Hin1 as (step1 & -> & Hin1).
      apply list_elem_of_fmap in Hin2 as (step2 & Hkey & Hin2).
      apply list_elem_of_lookup in Hin1 as (i & Hi).
      destruct (Hall1 i step1 Hi) as (operation & Hlook & _).
      specialize (Hfresh step2 Hin2). rewrite <- Hkey in Hfresh. congruence.
    + intros step Hin. apply elem_of_app in Hin as [Hin | Hin]; [now apply Hfresh1|].
      specialize (Hfresh step Hin).
      destruct (operations_to_register r !! step_operation_key step) eqn:Hlook;
        [|reflexivity].
      eapply lookup_weaken in Hlook; [|exact Hsub1]. congruence.
    + intros key Hkey. apply Hdom in Hkey as [Hkey | Hkey].
      * apply Hdom1 in Hkey as [Hkey | Hkey]; [now left|].
        right. apply elem_of_app. now left.
      * right. apply elem_of_app. now right.
    + intros [|j] phase' i step Hj Hi.
      * injection Hj as <-. destruct (Hall1 i step Hi) as (operation & Hlook & Has).
        exists operation. rewrite Nat.add_0_r. split; [|assumption].
        eapply lookup_weaken; eassumption.
      * simpl in Hj. destruct (Hall j phase' i step Hj Hi) as (operation & Hlook & Has).
        exists operation. split; [assumption|].
        now replace (k + S j) with (S k + j) by lia.
Qed.

End RegisterPhases.

Lemma all_steps_app (l1 l2 : list AssistancePhase) :
  all_steps (l1 ++ l2) = all_steps l1 ++ all_steps l2.
Proof. unfold all_steps. now rewrite map_app, concat_app. Qed.

Lemma all_steps_take_S (phases : list AssistancePhase) (i : nat) (phase : AssistancePhase) :
  phases !! i = Some phase ->
  all_steps (take (S i) phases) = all_steps (take i phases) ++ steps phase.
Proof.
  intros Hi. erewrite take_S_r by eassumption. rewrite all_steps_app.
  unfold all_steps at 2. simpl. now rewrite app_nil_r.
Qed.

Lemma lookup_all_steps (phases : list AssistancePhase) (phase_index step_index : nat)
    (phase : AssistancePhase) (step : AssistancePhaseStep) :
  phases !! phase_index = Some phase ->
  steps phase !! step_index = Some step ->
  all_steps phases !! position phases phase_index step_index = Some step.
Proof.
  intros Hphase Hstep. unfold position.
  assert (Hsplit : all_steps phases
                   = (all_steps (take phase_index phases) ++ steps phase)
                     ++ all_steps (drop (S phase_index) phases)).
  { rewrite <- (all_steps_take_S _ _ _ Hphase), <- all_steps_app.
    now rewrite take_drop. }
  rewrite Hsplit.
  apply lookup_lt_Some in Hstep as Hlt.
  rewrite lookup_app_l by (rewrite length_app; lia).
  rewrite lookup_app_r by lia.
  now replace (length (all_steps (take phase_index phases)) + step_index
               - length (all_steps (take phase_index phases))) with step_index by lia.
Qed.

Lemma index_inr {A : Type} (l : list A) (i : nat) (x : A) :
  index l i = inr x -> l !! i = Some x.
Proof. unfold index. destruct (l !! i); [intros [= <-]; reflexivity | discriminate]. Qed.

(** The step the code links to is the next step of the sequence. *)
Lemma code_next_step_is_next (phases : list AssistancePhase) (phase_index step_index : nat)
    (phase : AssistancePhase) (step next_step : AssistancePhaseStep) :
  phases !! phase_index = Some phase ->
  steps phase !! step_index = Some step ->
  code_next_step phases phase_index phase step_index = inr next_step ->
  all_steps phases !! S (position phases phase_index step_index) = Some next_step.
Proof.
  intros Hphase Hstep. unfold code_next_step.
  apply lookup_lt_Some in Hstep as Hlt.
  destruct (bool_decide (step_index = length (steps phase) - 1)) eqn:Hend; simpl.
  - apply bool_decide_eq_true_1 in Hend. unfold bindE.
    destruct (index phases (phase_index + 1)) as [e|next_phase] eqn:Hnext; [discriminate|].
    intros Hfirst. apply index_inr in Hnext, Hfirst.
    rewrite Nat.add_1_r in Hnext.
    rewrite <- (lookup_all_steps _ _ _ _ _ Hnext Hfirst). f_equal.
    unfold position. rewrite (all_steps_take_S _ _ _ Hphase), length_app. lia.
  - intros Hnext. apply index_inr in Hnext.
    rewrite <- (lookup_all_steps _ _ _ _ _ Hphase Hnext). f_equal.
    unfold position. lia.
Qed.

(** The step the code takes as last is the last step of the sequence. *)
Lemma code_last_step_is_last (phases : list AssistancePhase) (phase_index step_index : nat)
    (phase : AssistancePhase) (step : AssistancePhaseStep) :
  phases !! phase_index = Some phase ->
  steps phase !! step_index = Some step ->
  code_last_step phases phase_index phase step_index = true ->
  all_steps phases !! S (position phases phase_index step_index) = None.
Proof.
  intros Hphase Hstep. unfold code_last_step. intros Hlast.
  apply andb_true_iff in Hlast as [Hp Hs].
  apply bool_decide_eq_true_1 in Hp, Hs.
  apply lookup_lt_Some in Hstep as Hlt. apply lookup_lt_Some in Hphase as Hlt'.
  apply lookup_ge_None. unfold position.
  rewrite <- (firstn_all phases) at 1.
  replace (length phases) with (S phase_index) by lia.
  rewrite (all_steps_take_S _ _ _ Hphase), length_app. lia.
Qed.

Lemma link_to_spec (next_step : AssistancePhaseStep) :
  operation_key (link_to next_step) = step_operation_key next_step
  /\ match schedule next_step with
     | None => sub_type (link_to next_step) = TRIGGERED_OPERATION
     | Some s =>
         sub_type (link_to next_step) = SCHEDULED_OPERATION
         /\ time_to_invocation_in_s (link_to next_step)
            = Some (schedule_time_to_invocation_in_s s)
     end.
Proof. unfold link_to. destruct (schedule next_step); simpl; auto. Qed.

(** C5. When [_register_phases] returns, every step is registered under
    its key with an operation that requires an assistance in progress
    unless it is step 1 of phase 1; the operation of every step but the
    last has one more subsequent operation, appended after those the
    author declared, whose key is the key of the next step and whose
    type is TRIGGERED when the next step has no schedule and SCHEDULED
    with the delay of that schedule otherwise; the operation of the last
    step keeps its subsequent operations. A phase list in which an
    operation key occurs twice makes [_register_phases] raise. *)
Theorem register_phases_spec (process : AssistanceProcess) (phases : list AssistancePhase) :
  (forall process',
     _register_phases process phases = inr process' ->
     forall phase_index phase step_index step,
       phases !! phase_index = Some phase ->
       steps phase !! step_index = Some step ->
       exists operation,
         _registered_operations process' !! step_operation_key step = Some operation
         /\ (phase_index ≠ 0 \/ step_index ≠ 0 ->
             assistance_in_progress_required (self operation) = true)
         /\ match all_steps phases !! S (position phases phase_index step_index) with
            | None =>
                subsequent_operations (self operation)
                = subsequent_operations (self (step_operation step))
            | Some next_step =>
                exists link,
                  subsequent_operations (self operation)
                  = Some (default [] (subsequent_operations (self (step_operation step)))
                          ++ [link])
                  /\ operation_key link = step_operation_key next_step
                  /\ match schedule next_step with
                     | None => sub_type link = TRIGGERED_OPERATION
                     | Some s =>
                         sub_type link = SCHEDULED_OPERATION
                         /\ time_to_invocation_in_s link
                            = Some (schedule_time_to_invocation_in_s s)
                     end
            end)
  /\ (~ NoDup (map step_operation_key (all_steps phases)) ->
      exists e, _register_phases process phases = inl e).
Proof.
  unfold _register_phases, bindE.
  destruct (foldE (register_phase phases) (enumerate phases) _) as [e|r] eqn:Hrun.
  - split; [discriminate | eauto].
  - apply register_phases_inr in Hrun as (_ & Hnodup & _ & _ & Hall).
    split; [|intros Hdup; contradiction].
    intros process' [= <-] phase_index phase step_index step Hphase Hstep. simpl.
    destruct (Hall phase_index phase step_index step Hphase Hstep)
      as (operation & Hlook & Hmark & Hlink).
    exists operation. split; [|split; [exact Hmark|]].
    + apply lookup_union_Some_l. exact Hlook.
    + simpl in Hlink.
      destruct (code_last_step phases phase_index phase step_index) eqn:Hlast.
      * now rewrite (code_last_step_is_last _ _ _ _ _ Hphase Hstep Hlast).
      * destruct Hlink as (next_step & Hnext & Hsubs).
        rewrite (code_next_step_is_next _ _ _ _ _ _ Hphase Hstep Hnext).
        exists (link_to next_step). split; [exact Hsubs | apply link_to_spec].
Qed.

Lemma register_phases_spec_witness :
  (exists process',
     _register_phases (new_process "demo") example_phases = inr process'
     /\ exists operation,
          _registered_operations process' !! "b" = Some operation
          /\ assistance_in_progress_required (self operation) = true
          /\ subsequent_operations (self operation)
             = Some [ {| sub_type := SCHEDULED_OPERATION; operation_key := "c";
                         time_to_invocation_in_s := Some 30%Z |} ])
  /\ (exists e, _register_phases (new_process "demo") duplicate_phases = inl e).
Proof.
  split.
  - destruct (_register_phases (new_process "demo") example_phases) as [e|process'] eqn:Hrun.
    + vm_compute in Hrun. discriminate Hrun.
    + exists process'. split; [reflexivity|].
      destruct (proj1 (register_phases_spec (new_process "demo") example_phases)
                  process' Hrun 0 _ 1 _ eq_refl eq_refl)
        as (operation & Hlook & Hmark & Hlink).
      exists operation. split; [exact Hlook|]. split; [apply Hmark; right; discriminate|].
      simpl in Hlink. destruct Hlink as (link & -> & Hkey & Htype & Htime).
      destruct link as [ty k d]. simpl in *. now subst.
  - apply (proj2 (register_phases_spec (new_process "demo") duplicate_phases)).
    intros Hnodup. vm_compute in Hnodup.
    apply NoDup_cons in Hnodup as [Hnotin _].
    apply Hnotin. apply list_elem_of_further, list_elem_of_here.
Defined.

(** ** Frame properties of computations *)

Lemma bind_inr_inv {A B : Type} (m : M A) (f : A -> M B) (w w' : World) (b : B) :
  bind m f w = (inr b, w') ->
  exists a w1, m w = (inr a, w1) /\ f a w1 = (inr b, w').
Proof.
  unfold bind. destruct (m w) as [[e|a] w1]; [discriminate|]. eauto.
Qed.

Lemma preserves_ret {A X : Type} (f : World -> X) (a : A) : preserves f (ret a).
Proof. intros w r w' [= _ <-]. reflexivity. Qed.

Lemma preserves_raise {A X : Type} (f : World -> X) (e : Exn) : preserves f (@raise A e).
Proof. intros w r w' [= _ <-]. reflexivity. Qed.

Lemma preserves_gets {A X : Type} (f : World -> X) (g : World -> A) : preserves f (gets g).
Proof. intros w r w' [= _ <-]. reflexivity. Qed.

Lemma preserves_lift {A X : Type} (f : World -> X) (x : Exn + A) : preserves f (lift x).
Proof. intros w r w' [= _ <-]. reflexivity. Qed.

Lemma preserves_modify {X : Type} (f : World -> X) (g : World -> World) :
  (forall w, f (g w) = f w) -> preserves f (modify g).
Proof. intros Hg w r w' [= _ <-]. apply Hg. Qed.

Lemma preserves_bind {A B X : Type} (f : World -> X) (m : M A) (k : A -> M B) :
  preserves f m -> (forall a, preserves f (k a)) -> preserves f (bind m k).
Proof.
  intros Hm Hk w r w' H. unfold bind in H.
  destruct (m w) as [[e|a] w1] eqn:Hmw.
  - injection H as _ <-. eapply Hm, Hmw.
  - rewrite (Hk a _ _ _ H). eapply Hm, Hmw.
Qed.

Lemma preserves_for_each {A S X : Type} (f : World -> X) (l : list A)
    (body : A -> S -> M S) :
  (forall x acc, preserves f (body x acc)) ->
  forall acc, preserves f (for_each l body acc).
Proof.
  intros Hbody. induction l as [|x l IH]; intros acc; simpl.
  - apply preserves_ret.
  - apply preserves_bind; [apply Hbody | intros acc'; apply IH].
Qed.

Lemma preserves_try_except {A X : Type} (f : World -> X) (m : M A)
    (handles : Exn -> bool) (h : Exn -> M A) :
  preserves f m -> (forall e, preserves f (h e)) -> preserves f (try_except m handles h).
Proof.
  intros Hm Hh w r w' H. unfold try_except in H.
  destruct (m w) as [[e|a] w1] eqn:Hmw.
  - destruct (handles e).
    + rewrite (Hh e _ _ _ H). eapply Hm, Hmw.
    + injection H as _ <-. eapply Hm, Hmw.
  - injection H as _ <-. eapply Hm, Hmw.
Qed.

Lemma preserves_uuid4 {X : Type} (f : World -> X) :
  (forall n w, f (set_uuid_supply n w) = f w) -> preserves f uuid4.
Proof. intros Hf w r w' [= _ <-]. apply Hf. Qed.

Lemma preserves_fresh_oid {X : Type} (f : World -> X) :
  (forall n w, f (set_oid_supply n w) = f w) -> preserves f fresh_oid.
Proof. intros Hf w r w' [= _ <-]. apply Hf. Qed.

Ltac preserves_step :=
  first
    [ apply preserves_ret
    | apply preserves_raise
    | apply preserves_gets
    | apply preserves_lift
    | apply preserves_uuid4; reflexivity
    | apply preserves_fresh_oid; reflexivity
    | apply preserves_modify; reflexivity
    | apply preserves_bind; [|intros ?]
    | apply preserves_for_each; intros ? ?
    | apply preserves_try_except; [|intros ?] ].

Ltac preserves_auto :=
  repeat (preserves_step
          || match goal with
             | |- preserves _ (match ?x with _ => _ end) => destruct x
             | |- preserves _ (if ?b then _ else _) => destruct b
             | |- preserves _ (let (_, _) := ?x in _) => destruct x
             end).

Lemma debug_preserves {X : Type} (f : World -> X) : preserves f debug.
Proof. unfold debug, read_setting_by_key. preserves_auto. Qed.

Lemma create_assistance_objects_preserves_assistance (objects : list AssistanceObject)
    (a : option string) :
  preserves assistance_collection (create_assistance_objects objects a).
Proof.
  unfold create_assistance_objects, insert_many_assistance_objects, current_datetime.
  preserves_auto; unfold insert_assistance_object; preserves_auto.
Qed.

Lemma load_assistance_objects_preserves {X : Type} (f : World -> X) (d : Assistance) :
  preserves f (__load_assistance_objects d).
Proof. unfold __load_assistance_objects. preserves_auto. Qed.

Lemma schedule_operation_preserves_assistance (process : AssistanceProcess)
    (operation_key : string) (ctx : AssistanceContext) (t : option Z) (a : option string) :
  preserves assistance_collection (schedule_operation process operation_key ctx t a).
Proof.
  unfold schedule_operation, create_assistance_operation_for_scheduled_invocation,
    current_datetime, read_setting_by_key.
  preserves_auto; try apply debug_preserves; preserves_auto.
Qed.

(** ** What persisting does to [next_operation_keys] *)

Lemma find_replace_first {A : Type} (p : A -> bool) (y : A) (l : list A) :
  is_Some (find p l) -> p y = true -> find p (replace_first p (fun _ => y) l) = Some y.
Proof.
  intros [x Hx] Hy. induction l as [|z l IH]; [discriminate|]. simpl in *.
  destruct (p z) eqn:Hz; simpl.
  - now rewrite Hy.
  - rewrite Hz. auto.
Qed.

Lemma a_id_matches_own (o : option string) : a_id_matches (opt_str_value o) o = true.
Proof. destruct o; simpl; [now apply bool_decide_eq_true_2 | reflexivity]. Qed.

Lemma update_assistance_adding_assistance_objects_inr (assistance persisted : Assistance)
    (w w' : World) :
  update_assistance_adding_assistance_objects assistance w = (inr persisted, w') ->
  a_next_operation_keys persisted = a_next_operation_keys assistance
  /\ a_id persisted = a_id assistance
  /\ a_assistance_state persisted = a_assistance_state assistance
  /\ exists assistance_dict,
       a_next_operation_keys assistance_dict = a_next_operation_keys assistance
       /\ find (fun d => a_id_matches (opt_str_value (a_id assistance)) (a_id d))
            (assistance_collection w') = Some assistance_dict.
Proof.
  unfold update_assistance_adding_assistance_objects, find_one_assistance.
  intros Hrun. apply bind_inr_inv in Hrun as (found & w0 & Hfind & Hrun).
  injection Hfind as <- <-.
  destruct (find _ (assistance_collection w)) as [existing|] eqn:Hexisting;
    [|discriminate].
  apply bind_inr_inv in Hrun as (st & w0 & Hst & Hrun).
  unfold lift in Hst. injection Hst as Hst <-.
  destruct (is_terminal st); [discriminate|].
  apply bind_inr_inv in Hrun as (objects & w1 & Hobjects & Hrun).
  assert (Hsame : assistance_collection w1 = assistance_collection w).
  { destruct (is_empty (a_assistance_objects assistance)).
    - now injection Hobjects as _ <-.
    - apply bind_inr_inv in Hobjects as (created & w2 & Hcreated & Hret).
      injection Hret as _ <-.
      eapply create_assistance_objects_preserves_assistance, Hcreated. }
  apply bind_inr_inv in Hrun as ([] & w2 & Hreplace & Hload).
  unfold replace_one_assistance in Hreplace.
  destruct (parameters_encodable _); [|discriminate].
  injection Hreplace as <-.
  destruct (load_assistance_objects_state (with_assistance_objects objects assistance)
              (set_assistance_collection
                 (replace_first
                    (fun a => a_id_matches (opt_str_value (a_id assistance)) (a_id a))
                    (fun _ => with_assistance_objects objects assistance)
                    (assistance_collection w1)) w1))
    as (loaded & Hl & Hstate & Hid & Hkeys & _).
  rewrite Hl in Hload. injection Hload as <- <-.
  split; [exact Hkeys|]. split; [exact Hid|]. split; [exact Hstate|].
  exists (with_assistance_objects objects assistance). split; [reflexivity|].
  simpl. rewrite Hsame. apply find_replace_first.
  - rewrite Hexisting. eauto.
  - simpl. apply a_id_matches_own.
Qed.

Lemma create_assistance_inr (assistance persisted : Assistance) (w w' : World) :
  create_assistance assistance w = (inr persisted, w') ->
  a_next_operation_keys persisted = a_next_operation_keys assistance
  /\ a_assistance_state persisted = a_assistance_state assistance
  /\ a_id persisted = Some (uuid_str (uuid_supply w)).
Proof.
  unfold create_assistance. intros Hrun.
  apply bind_inr_inv in Hrun as (new_a_id & w1 & Hid & Hrun).
  injection Hid as <- <-.
  apply bind_inr_inv in Hrun as (now & w2 & _ & Hrun).
  apply bind_inr_inv in Hrun as (refs & w3 & _ & Hrun).
  apply bind_inr_inv in Hrun as ([] & w4 & _ & Hload).
  match type of Hload with
  | __load_assistance_objects ?d ?w = _ =>
      destruct (load_assistance_objects_state d w) as (loaded & Hl & Hstate & Hid & Hkeys & _)
  end.
  rewrite Hl in Hload. injection Hload as <- <-. auto.
Qed.

Lemma persist_inr (process : AssistanceProcess) (assistance persisted : Assistance)
    (w w' : World) :
  persist process assistance w = (inr persisted, w') ->
  a_next_operation_keys persisted = a_next_operation_keys assistance
  /\ a_assistance_state persisted = a_assistance_state assistance
  /\ forall s, a_id assistance = Some s ->
       a_id persisted = Some s
       /\ stored_next_operation_keys s w' = Some (a_next_operation_keys assistance).
Proof.
  unfold persist. destruct (a_id assistance) as [s|] eqn:Hid.
  - intros Hrun. apply bind_inr_inv in Hrun as (previous & w1 & Hprevious & Hrun).
    destruct previous as [previous_assistance|]; [|discriminate].
    apply bind_inr_inv in Hrun as (updated & w2 & Hupdate & Hret).
    injection Hret as <- <-.
    apply update_assistance_adding_assistance_objects_inr in Hupdate
      as (Hkeys & Hsame & Hstate & assistance_dict & Hdict & Hfind).
    simpl. split; [exact Hkeys|]. split; [exact Hstate|].
    intros s' [= <-]. split; [congruence|].
    unfold stored_next_operation_keys. rewrite Hid in Hfind.
    cbn [opt_str_value] in Hfind. rewrite Hfind. simpl. now rewrite Hdict.
  - intros Hrun. apply create_assistance_inr in Hrun as (Hkeys & Hstate & _).
    split; [exact Hkeys|]. split; [exact Hstate|]. discriminate.
Qed.

Lemma read_assistance_by_a_id_inr (q : Value) (w w' : World) (r : option Assistance) :
  read_assistance_by_a_id q w = (inr r, w') ->
  w' = w
  /\ match r with
     | None => find (fun d => a_id_matches q (a_id d)) (assistance_collection w) = None
     | Some a =>
         exists doc,
           find (fun d => a_id_matches q (a_id d)) (assistance_collection w) = Some doc
           /\ a_id a = a_id doc
           /\ a_next_operation_keys a = a_next_operation_keys doc
           /\ a_assistance_state a = a_assistance_state doc
     end.
Proof.
  unfold read_assistance_by_a_id, find_one_assistance. intros Hrun.
  apply bind_inr_inv in Hrun as (found & w0 & Hfind & Hrun).
  injection Hfind as <- <-.
  destruct (find _ _) as [doc|] eqn:Hdoc.
  - destruct (load_assistance_objects_state doc w) as (a & Hl & Hstate & Hid & Hkeys & _).
    apply bind_inr_inv in Hrun as (a' & w0 & Hload & Hret).
    rewrite Hl in Hload. injection Hload as <- <-. injection Hret as <- <-.
    split; [reflexivity|]. exists doc. auto.
  - injection Hrun as <- <-. auto.
Qed.

Lemma a_id_matches_VStr (s : string) (o : option string) :
  a_id_matches (VStr s) o = true -> o = Some s.
Proof.
  destruct o as [s'|]; simpl; [|discriminate].
  intros H. apply bool_decide_eq_true_1 in H. now subst.
Qed.

Lemma determine_state_update_inr (self self' : OperationAttributes)
    (assistance assistance' : Assistance) :
  determine_state_update self assistance = inr (self', assistance') ->
  a_next_operation_keys assistance' = a_next_operation_keys assistance
  /\ a_id assistance' = a_id assistance
  /\ a_assistance_state assistance' = a_assistance_state assistance
  /\ prevent_progress self' = prevent_progress self
  /\ subsequent_operations self' = subsequent_operations self
  /\ assistance_in_progress_required self' = assistance_in_progress_required self
  /\ target_status self' = target_status self
  /\ op_phase self' = op_phase self
  /\ op_step self' = op_step self.
Proof.
  unfold determine_state_update.
  destruct (target_status self) as [target|] eqn:Htarget.
  - destruct (op_phase self) as [ph|] eqn:Hphase;
      [destruct (op_step self) as [st|] eqn:Hstep|].
    + unfold bindE.
      destruct (_compute_state_update_assistance_objects _ _ _ _ _) as [e|objects];
        [discriminate|].
      destruct (is_empty objects).
      * intros [= <- <-]. simpl. tauto.
      * destruct (set_user_states _ _) as [e|states]; [discriminate|].
        intros [= <- <-]. simpl. tauto.
    + unfold bindE.
      destruct (_compute_state_update_assistance_objects _ _ _ _ _) as [e|objects];
        [discriminate|].
      intros [= <- <-]. simpl.
      destruct (state_update_status_to_send self); simpl; tauto.
    + unfold bindE.
      destruct (_compute_state_update_assistance_objects _ _ _ _ _) as [e|objects];
        [discriminate|].
      intros [= <- <-]. simpl.
      destruct (state_update_status_to_send self); simpl; tauto.
  - intros [= <- <-]. tauto.
Qed.

Lemma for_each_schedule_preserves_assistance (process : AssistanceProcess)
    (scheduled : list SubsequentAssistanceOperation) (c : AssistanceContext)
    (a : option string) :
  preserves assistance_collection
    (for_each scheduled
       (fun subsequent_scheduled_operation _ =>
          schedule_operation process (operation_key subsequent_scheduled_operation) c
            (time_to_invocation_in_s subsequent_scheduled_operation) a) tt).
Proof.
  apply preserves_for_each. intros x acc. apply schedule_operation_preserves_assistance.
Qed.

(** One instance through [_process_assistance_result]. *)
Lemma process_assistance_result_inr (process : AssistanceProcess)
    (self self' : OperationAttributes) (assistance : Assistance) (ctx : AssistanceContext)
    (scheduled triggered : list SubsequentAssistanceOperation)
    (processed : option Assistance) (w w' : World) :
  _process_assistance_result process self (Some assistance) ctx scheduled triggered w
  = (inr (self', processed), w') ->
  prevent_progress self' = prevent_progress self
  /\ subsequent_operations self' = subsequent_operations self
  /\ exists persisted,
       processed = Some persisted
       /\ a_next_operation_keys persisted
          = (if prevent_progress self then a_next_operation_keys assistance
             else map operation_key triggered)
       /\ forall s, a_id assistance = Some s ->
            a_id persisted = Some s
            /\ stored_next_operation_keys s w'
               = Some (a_next_operation_keys persisted).
Proof.
  unfold _process_assistance_result. rewrite bind_ret_l. intros Hrun.
  apply bind_inr_inv in Hrun as ([self1 assistance1] & w0 & Hupdate & Hrun).
  unfold lift in Hupdate. injection Hupdate as Hupdate <-.
  apply determine_state_update_inr in Hupdate
    as (Hkeys & Hid & _ & Hprevent & Hsubs & _).
  apply bind_inr_inv in Hrun as (persisted & w1 & Hpersist & Hrun).
  apply bind_inr_inv in Hrun as ([] & w2 & Hschedule & Hret).
  injection Hret as <- <- <-.
  apply for_each_schedule_preserves_assistance in Hschedule.
  apply persist_inr in Hpersist as (Hpkeys & _ & Hstored).
  simpl in Hpkeys, Hstored.
  assert (Hexpected : a_next_operation_keys persisted
                      = if prevent_progress self then a_next_operation_keys assistance
                        else map operation_key triggered).
  { rewrite Hpkeys. unfold set_assistance_properties. rewrite Hprevent.
    destruct (prevent_progress self); [exact Hkeys | reflexivity]. }
  split; [exact Hprevent|]. split; [exact Hsubs|].
  exists persisted. split; [reflexivity|]. split; [exact Hexpected|].
  intros s Hs.
  assert (Hs1 : a_id (set_assistance_properties self1 triggered assistance1) = Some s).
  { unfold set_assistance_properties. destruct (prevent_progress self1); simpl; congruence. }
  destruct (Hstored s Hs1) as (Hpid & Hst). split; [exact Hpid|].
  unfold stored_next_operation_keys in *. rewrite Hschedule, Hst. now rewrite Hpkeys.
Qed.

(** The loop of [execute] over the produced instances. *)
Lemma execute_loop_inr (process : AssistanceProcess) (ctx : AssistanceContext)
    (scheduled triggered : list SubsequentAssistanceOperation)
    (produced : list Assistance) :
  forall (self0 selfn : OperationAttributes) (acc0 accn : list Assistance) (w w' : World),
    for_each produced
      (fun assistance '(self, assistance_to_return) =>
         let* (self, processed_assistance_result) :=
           _process_assistance_result process self (Some assistance) ctx
             scheduled triggered in
         match processed_assistance_result with
         | None => ret (self, assistance_to_return)
         | Some processed => ret (self, assistance_to_return ++ [processed])
         end)
      (self0, acc0) w = (inr (selfn, accn), w') ->
    prevent_progress selfn = prevent_progress self0
    /\ subsequent_operations selfn = subsequent_operations self0
    /\ exists new,
         accn = acc0 ++ new
         /\ Forall2 (fun assistance persisted =>
                       a_next_operation_keys persisted
                       = if prevent_progress self0 then a_next_operation_keys assistance
                         else map operation_key triggered)
              produced new.
Proof.
  induction produced as [|assistance produced IH];
    intros self0 selfn acc0 accn w w' Hrun.
  - injection Hrun as <- <- <-. split; [reflexivity|]. split; [reflexivity|].
    exists []. split; [now rewrite app_nil_r | constructor].
  - simpl in Hrun. apply bind_inr_inv in Hrun as ([self1 acc1] & w1 & Hbody & Hrest).
    apply bind_inr_inv in Hbody as ([self1' processed] & w0 & Hprocess & Hret).
    apply process_assistance_result_inr in Hprocess
      as (Hprevent & Hsubs & persisted & -> & Hkeys & _).
    injection Hret as <- <- <-.
    apply IH in Hrest as (Hprevent' & Hsubs' & new & -> & Hall).
    split; [congruence|]. split; [congruence|].
    exists (persisted :: new). split; [now rewrite <- app_assoc|].
    constructor; [exact Hkeys|]. now rewrite Hprevent in Hall.
Qed.

Lemma process_loaded_inr (process : AssistanceProcess) (self self' : OperationAttributes)
    (ctx : AssistanceContext) (scheduled triggered : list SubsequentAssistanceOperation)
    (processed : option Assistance) (w w' : World) (s : string) :
  _process_assistance_result process self None ctx scheduled triggered w
  = (inr (self', processed), w') ->
  assistance_in_progress_required self = true ->
  get_parameter ctx ASSISTANCE_CONTEXT_PARAMETER_KEY_A_ID = inr (VStr s) ->
  stored_next_operation_keys s w'
  = if prevent_progress self then stored_next_operation_keys s w
    else Some (map operation_key triggered).
Proof.
  intros Hrun Hrequired Hq.
  assert (Hload : exists a0,
            read_assistance_by_a_id (VStr s) w = (inr (Some a0), w)
            /\ _process_assistance_result process self
                 (Some (with_assistance_objects [] a0)) ctx scheduled triggered w
               = (inr (self', processed), w')).
  { unfold _process_assistance_result in Hrun. rewrite Hrequired, Hq in Hrun.
    rewrite bind_assoc, bind_lift_inr, bind_assoc in Hrun.
    destruct (read_assistance_by_a_id_pure (VStr s) w) as [[a0|] Hread].
    - rewrite (bind_inr _ _ _ _ _ Hread) in Hrun. rewrite bind_ret_l in Hrun.
      exists a0. split; [exact Hread|].
      unfold _process_assistance_result. rewrite bind_ret_l. exact Hrun.
    - rewrite (bind_inr _ _ _ _ _ Hread) in Hrun. discriminate Hrun. }
  destruct Hload as (a0 & Hread & Hprocess).
  apply read_assistance_by_a_id_inr in Hread as (_ & doc & Hfind & Hid & Hkeys & _).
  assert (Hs : a_id (with_assistance_objects [] a0) = Some s).
  { simpl. rewrite Hid. apply a_id_matches_VStr.
    apply find_some in Hfind as [_ Hmatch]. exact Hmatch. }
  apply process_assistance_result_inr in Hprocess
    as (_ & _ & persisted & _ & Hexpected & Hstored).
  destruct (Hstored s Hs) as (_ & ->). rewrite Hexpected. simpl.
  destruct (prevent_progress self); [|reflexivity].
  unfold stored_next_operation_keys. rewrite Hfind. simpl. now rewrite Hkeys.
Qed.

(** ** The store of instances under the engine *)

Lemma uuid_str_inj (n m : nat) : uuid_str n = uuid_str m -> n = m.
Proof.
  revert m. induction n as [|n IH]; intros [|m] H; try reflexivity; try discriminate.
  cbn in H. injection H as H. f_equal. now apply IH.
Qed.

Lemma find_Some_holds {A : Type} (p : A -> bool) (l : list A) (x : A) :
  find p l = Some x -> p x = true /\ x ∈ l.
Proof.
  intros H. apply find_some in H as [Hin Hp]. split; [assumption|].
  now apply list_elem_of_In.
Qed.

Lemma find_none_fresh (new_a_id : string) (l : list Assistance) :
  Forall (fun d => a_id d ≠ Some new_a_id) l ->
  find (fun d => a_id_matches (VStr new_a_id) (a_id d)) l = None.
Proof.
  induction 1 as [|d l Hd _ IH]; [reflexivity|]. cbn [find].
  destruct (a_id_matches (VStr new_a_id) (a_id d)) eqn:Hm; [|exact IH].
  apply a_id_matches_VStr in Hm. contradiction.
Qed.

Lemma grows_ret {A : Type} (a : A) : grows (ret a).
Proof. intros w r w' [= _ <-]. lia. Qed.

Lemma grows_raise {A : Type} (e : Exn) : grows (@raise A e).
Proof. intros w r w' [= _ <-]. lia. Qed.

Lemma grows_gets {A : Type} (g : World -> A) : grows (gets g).
Proof. intros w r w' [= _ <-]. lia. Qed.

Lemma grows_lift {A : Type} (x : Exn + A) : grows (lift x).
Proof. intros w r w' [= _ <-]. lia. Qed.

Lemma grows_modify (g : World -> World) :
  (forall w, uuid_supply (g w) = uuid_supply w) -> grows (modify g).
Proof. intros Hg w r w' [= _ <-]. rewrite Hg. lia. Qed.

Lemma grows_uuid4 : grows uuid4.
Proof. intros w r w' [= _ <-]. simpl. lia. Qed.

Lemma grows_fresh_oid : grows fresh_oid.
Proof. intros w r w' [= _ <-]. simpl. lia. Qed.

Lemma grows_bind {A B : Type} (m : M A) (k : A -> M B) :
  grows m -> (forall a, grows (k a)) -> grows (bind m k).
Proof.
  intros Hm Hk w r w' H. unfold bind in H.
  destruct (m w) as [[e|a] w1] eqn:Hmw.
  - injection H as _ <-. eapply Hm, Hmw.
  - pose proof (Hm _ _ _ Hmw). pose proof (Hk a _ _ _ H). lia.
Qed.

Lemma grows_for_each {A S : Type} (l : list A) (body : A -> S -> M S) :
  (forall x acc, grows (body x acc)) -> forall acc, grows (for_each l body acc).
Proof.
  intros Hbody. induction l as [|x l IH]; intros acc; simpl.
  - apply grows_ret.
  - apply grows_bind; [apply Hbody | intros acc'; apply IH].
Qed.

Ltac grows_step :=
  first
    [ apply grows_ret
    | apply grows_raise
    | apply grows_gets
    | apply grows_lift
    | apply grows_uuid4
    | apply grows_fresh_oid
    | apply grows_modify; reflexivity
    | apply grows_bind; [|intros ?]
    | apply grows_for_each; intros ? ? ].

Ltac grows_auto :=
  repeat (grows_step
          || match goal with
             | |- grows (match ?x with _ => _ end) => destruct x
             | |- grows (if ?b then _ else _) => destruct b
             | |- grows (let (_, _) := ?x in _) => destruct x
             end).

Lemma create_assistance_objects_grows (objects : list AssistanceObject)
    (a : option string) :
  grows (create_assistance_objects objects a).
Proof.
  unfold create_assistance_objects, insert_many_assistance_objects, current_datetime.
  grows_auto; unfold insert_assistance_object; grows_auto.
Qed.

Lemma schedule_operation_preserves_supply (process : AssistanceProcess)
    (operation_key : string) (ctx : AssistanceContext) (t : option Z) (a : option string) :
  preserves uuid_supply (schedule_operation process operation_key ctx t a).
Proof.
  unfold schedule_operation, create_assistance_operation_for_scheduled_invocation,
    current_datetime, read_setting_by_key.
  preserves_auto; try apply debug_preserves; preserves_auto.
Qed.

Lemma find_id_app_other (t : string) (l : list Assistance) (d : Assistance) :
  a_id d ≠ Some t ->
  find (fun x => a_id_matches (VStr t) (a_id x)) (l ++ [d])
  = find (fun x => a_id_matches (VStr t) (a_id x)) l.
Proof.
  intros Hd. induction l as [|y l IH]; cbn [app find].
  - destruct (a_id_matches (VStr t) (a_id d)) eqn:Hm; [|reflexivity].
    apply a_id_matches_VStr in Hm. contradiction.
  - destruct (a_id_matches (VStr t) (a_id y)); [reflexivity | exact IH].
Qed.

Lemma find_id_app_fresh (s : string) (l : list Assistance) (d : Assistance) :
  a_id d = Some s ->
  Forall (fun x => a_id x ≠ Some s) l ->
  find (fun x => a_id_matches (VStr s) (a_id x)) (l ++ [d]) = Some d.
Proof.
  intros Hd Hfresh. induction Hfresh as [|y l Hy _ IH]; cbn [app find].
  - rewrite Hd. cbn. now rewrite bool_decide_eq_true_2.
  - destruct (a_id_matches (VStr s) (a_id y)) eqn:Hm; [|exact IH].
    apply a_id_matches_VStr in Hm. contradiction.
Qed.

Lemma find_id_replace_other (s t : string) (x : Assistance) (l : list Assistance) :
  a_id x = Some s -> t ≠ s ->
  find (fun y => a_id_matches (VStr t) (a_id y))
    (replace_first (fun y => a_id_matches (VStr s) (a_id y)) (fun _ => x) l)
  = find (fun y => a_id_matches (VStr t) (a_id y)) l.
Proof.
  intros Hx Hne. induction l as [|y l IH]; [reflexivity|]. cbn [replace_first].
  destruct (a_id_matches (VStr s) (a_id y)) eqn:Hs; cbn [find].
  - apply a_id_matches_VStr in Hs. rewrite Hx, Hs. cbn.
    now rewrite !bool_decide_eq_false_2 by congruence.
  - destruct (a_id_matches (VStr t) (a_id y)); [reflexivity | exact IH].
Qed.

Lemma elem_of_replace_first {A : Type} (p : A -> bool) (f : A -> A) (l : list A) (y : A) :
  y ∈ replace_first p f l -> y ∈ l \/ exists z, z ∈ l /\ p z = true /\ y = f z.
Proof.
  induction l as [|z l IH]; cbn [replace_first]; [intros H; inversion H|].
  destruct (p z) eqn:Hz; intros Hy; apply elem_of_cons in Hy as [-> | Hy].
  - right. exists z. split; [apply list_elem_of_here | auto].
  - left. now apply list_elem_of_further.
  - left. apply list_elem_of_here.
  - destruct (IH Hy) as [Hin | (z' & Hin & Hp & ->)].
    + left. now apply list_elem_of_further.
    + right. exists z'. split; [now apply list_elem_of_further | auto].
Qed.

(** A step of the engine that leaves the ids of the stored instances as
    they are and does not lower the supply keeps the store well
    formed. *)
Lemma instances_well_formed_frame (w w' : World) :
  instances_well_formed w ->
  a_id <$> assistance_collection w' = a_id <$> assistance_collection w ->
  uuid_supply w <= uuid_supply w' ->
  instances_well_formed w'.
Proof.
  intros Hwf Hids Hsupply d u Hd Hu.
  apply (list_elem_of_fmap_2 a_id) in Hd. rewrite Hids in Hd.
  apply list_elem_of_fmap in Hd as (d0 & -> & Hd0). apply (Hwf d0 u Hd0). lia.
Qed.

Lemma create_assistance_store (assistance persisted : Assistance) (w w' : World) :
  create_assistance assistance w = (inr persisted, w') ->
  exists assistance_dict,
    assistance_collection w' = assistance_collection w ++ [assistance_dict]
    /\ a_id assistance_dict = Some (uuid_str (uuid_supply w))
    /\ a_next_operation_keys assistance_dict = a_next_operation_keys assistance
    /\ uuid_supply w < uuid_supply w'.
Proof.
  unfold create_assistance. intros Hrun.
  apply bind_inr_inv in Hrun as (new_a_id & w1 & Hid & Hrun).
  injection Hid as <- <-.
  apply bind_inr_inv in Hrun as (now & w2 & Hnow & Hrun).
  injection Hnow as <- <-.
  apply bind_inr_inv in Hrun as (refs & w3 & Hrefs & Hrun).
  assert (Hsame : assistance_collection w3 = assistance_collection w
                  /\ S (uuid_supply w) <= uuid_supply w3).
  { destruct (is_empty (a_assistance_objects assistance)).
    - injection Hrefs as _ <-. split; [reflexivity | simpl; lia].
    - apply bind_inr_inv in Hrefs as (created & w4 & Hcreated & Hret).
      injection Hret as _ <-. split.
      + apply (create_assistance_objects_preserves_assistance _ _ _ _ _ Hcreated).
      + apply (create_assistance_objects_grows _ _ _ _ _ Hcreated). }
  destruct Hsame as [Hsame Hsupply].
  apply bind_inr_inv in Hrun as ([] & w4 & Hinsert & Hload).
  unfold insert_one_assistance in Hinsert.
  destruct (parameters_encodable _); [|discriminate].
  injection Hinsert as <-.
  pose proof (load_assistance_objects_preserves assistance_collection _ _ _ _ Hload) as Hc.
  pose proof (load_assistance_objects_preserves uuid_supply _ _ _ _ Hload) as Hu.
  eexists. split; [rewrite Hc; cbn; rewrite Hsame; reflexivity|].
  split; [reflexivity|]. split; [reflexivity|]. rewrite Hu. cbn. lia.
Qed.

Lemma update_adding_store (assistance persisted : Assistance) (w w' : World) (s : string) :
  a_id assistance = Some s ->
  update_assistance_adding_assistance_objects assistance w = (inr persisted, w') ->
  exists assistance_dict existing,
    assistance_collection w'
    = replace_first (fun d => a_id_matches (VStr s) (a_id d)) (fun _ => assistance_dict)
        (assistance_collection w)
    /\ find (fun d => a_id_matches (VStr s) (a_id d)) (assistance_collection w)
       = Some existing
    /\ a_id assistance_dict = Some s
    /\ a_next_operation_keys assistance_dict = a_next_operation_keys assistance
    /\ uuid_supply w <= uuid_supply w'.
Proof.
  intros Hid. unfold update_assistance_adding_assistance_objects, find_one_assistance.
  rewrite Hid. cbn [opt_str_value].
  intros Hrun. apply bind_inr_inv in Hrun as (found & w0 & Hfind & Hrun).
  injection Hfind as <- <-.
  destruct (find _ (assistance_collection w)) as [existing|] eqn:Hexisting;
    [|discriminate].
  apply bind_inr_inv in Hrun as (st & w0 & Hst & Hrun).
  unfold lift in Hst. injection Hst as Hst <-.
  destruct (is_terminal st); [discriminate|].
  apply bind_inr_inv in Hrun as (objects & w1 & Hobjects & Hrun).
  assert (Hsame : assistance_collection w1 = assistance_collection w
                  /\ uuid_supply w <= uuid_supply w1).
  { destruct (is_empty (a_assistance_objects assistance)).
    - injection Hobjects as _ <-. split; [reflexivity | lia].
    - apply bind_inr_inv in Hobjects as (created & w2 & Hcreated & Hret).
      injection Hret as _ <-. split.
      + apply (create_assistance_objects_preserves_assistance _ _ _ _ _ Hcreated).
      + apply (create_assistance_objects_grows _ _ _ _ _ Hcreated). }
  destruct Hsame as [Hsame Hsupply].
  apply bind_inr_inv in Hrun as ([] & w2 & Hreplace & Hload).
  unfold replace_one_assistance in Hreplace.
  destruct (parameters_encodable _); [|discriminate].
  injection Hreplace as <-.
  pose proof (load_assistance_objects_preserves assistance_collection _ _ _ _ Hload) as Hc.
  pose proof (load_assistance_objects_preserves uuid_supply _ _ _ _ Hload) as Hu.
  exists (with_assistance_objects objects assistance), existing.
  split; [rewrite Hc; cbn; now rewrite Hsame|].
  split; [reflexivity|]. split; [exact Hid|]. split; [reflexivity|].
  rewrite Hu. cbn. exact Hsupply.
Qed.

(** What [persist] does to the store of instances: the instance is
    stored under its id with the keys it had, the documents under the
    other ids are as before, and the store stays well formed. *)
Lemma persist_store (process : AssistanceProcess) (assistance persisted : Assistance)
    (w w' : World) :
  persist process assistance w = (inr persisted, w') ->
  instances_well_formed w ->
  instances_well_formed w'
  /\ a_next_operation_keys persisted = a_next_operation_keys assistance
  /\ exists s,
       a_id persisted = Some s
       /\ stored_next_operation_keys s w' = Some (a_next_operation_keys assistance)
       /\ forall t, t ≠ s ->
            stored_next_operation_keys t w' = stored_next_operation_keys t w.
Proof.
  intros Hrun Hwf.
  pose proof (persist_inr _ _ _ _ _ Hrun) as (Hkeys & _ & Hupdated).
  split; [|split; [exact Hkeys|]]; unfold persist in Hrun;
    destruct (a_id assistance) as [s|] eqn:Hid.
  - apply bind_inr_inv in Hrun as (previous & w1 & Hprevious & Hrun).
    destruct (read_assistance_by_a_id_pure (opt_str_value (Some s)) w) as [r Hr].
    rewrite Hr in Hprevious. injection Hprevious as <- <-.
    destruct r as [previous_assistance|]; [|discriminate].
    apply bind_inr_inv in Hrun as (updated & w2 & Hupdate & Hret).
    injection Hret as _ <-.
    apply (update_adding_store _ _ _ _ s Hid) in Hupdate
      as (assistance_dict & existing & Hc & Hfind & Hdict & _ & Hsupply).
    intros d u Hd Hu. rewrite Hc in Hd.
    apply find_Some_holds in Hfind as [Hmatch Hexisting].
    apply a_id_matches_VStr in Hmatch.
    apply elem_of_replace_first in Hd as [Hd | (z & _ & _ & ->)].
    + apply (Hwf d u Hd). lia.
    + rewrite Hdict, <- Hmatch. apply (Hwf existing u Hexisting). lia.
  - apply create_assistance_store in Hrun as (assistance_dict & Hc & Hdict & _ & Hsupply).
    intros d u Hd Hu. rewrite Hc in Hd. apply elem_of_app in Hd as [Hd | Hd].
    + apply (Hwf d u Hd). lia.
    + apply list_elem_of_singleton in Hd as ->. rewrite Hdict.
      intros [= Heq]. apply uuid_str_inj in Heq. lia.
  - destruct (Hupdated s eq_refl) as [Hpid Hstored].
    exists s. split; [exact Hpid|]. split; [exact Hstored|].
    intros t Hne.
    apply bind_inr_inv in Hrun as (previous & w1 & Hprevious & Hrun).
    destruct (read_assistance_by_a_id_pure (opt_str_value (Some s)) w) as [r Hr].
    rewrite Hr in Hprevious. injection Hprevious as <- <-.
    destruct r as [previous_assistance|]; [|discriminate].
    apply bind_inr_inv in Hrun as (updated & w2 & Hupdate & Hret).
    injection Hret as _ <-.
    apply (update_adding_store _ _ _ _ s Hid) in Hupdate
      as (assistance_dict & existing & Hc & _ & Hdict & _ & _).
    unfold stored_next_operation_keys. rewrite Hc.
    now rewrite (find_id_replace_other s t assistance_dict _ Hdict Hne).
  - pose proof (create_assistance_inr _ _ _ _ Hrun) as (_ & _ & Hpid).
    apply create_assistance_store in Hrun as (assistance_dict & Hc & Hdict & Hdkeys & _).
    exists (uuid_str (uuid_supply w)). split; [exact Hpid|]. split.
    + unfold stored_next_operation_keys. rewrite Hc.
      rewrite (find_id_app_fresh _ _ _ Hdict).
      * cbn. now rewrite Hdkeys.
      * apply Forall_forall. intros x Hx. apply (Hwf x _ Hx). lia.
    + intros t Hne. unfold stored_next_operation_keys. rewrite Hc.
      rewrite find_id_app_other; [reflexivity|]. rewrite Hdict. congruence.
Qed.

Lemma for_each_schedule_preserves_supply (process : AssistanceProcess)
    (scheduled : list SubsequentAssistanceOperation) (c : AssistanceContext)
    (a : option string) :
  preserves uuid_supply
    (for_each scheduled
       (fun subsequent_scheduled_operation _ =>
          schedule_operation process (operation_key subsequent_scheduled_operation) c
            (time_to_invocation_in_s subsequent_scheduled_operation) a) tt).
Proof.
  apply preserves_for_each. intros x acc. apply schedule_operation_preserves_supply.
Qed.

(** One instance through [_process_assistance_result], and the store. *)
Lemma process_assistance_result_store (process : AssistanceProcess)
    (self self' : OperationAttributes) (assistance : Assistance) (ctx : AssistanceContext)
    (scheduled triggered : list SubsequentAssistanceOperation)
    (processed : option Assistance) (w w' : World) :
  _process_assistance_result process self (Some assistance) ctx scheduled triggered w
  = (inr (self', processed), w') ->
  instances_well_formed w ->
  instances_well_formed w'
  /\ exists persisted s,
       processed = Some persisted
       /\ a_id persisted = Some s
       /\ stored_next_operation_keys s w' = Some (a_next_operation_keys persisted)
       /\ forall t, t ≠ s ->
            stored_next_operation_keys t w' = stored_next_operation_keys t w.
Proof.
  unfold _process_assistance_result. rewrite bind_ret_l. intros Hrun Hwf.
  apply bind_inr_inv in Hrun as ([self1 assistance1] & w0 & Hupdate & Hrun).
  unfold lift in Hupdate. injection Hupdate as Hupdate <-.
  apply bind_inr_inv in Hrun as (persisted & w1 & Hpersist & Hrun).
  apply bind_inr_inv in Hrun as ([] & w2 & Hschedule & Hret).
  injection Hret as <- <- <-.
  pose proof (for_each_schedule_preserves_assistance _ _ _ _ _ _ _ Hschedule) as Hc.
  pose proof (for_each_schedule_preserves_supply _ _ _ _ _ _ _ Hschedule) as Hu.
  apply persist_store in Hpersist as (Hwf1 & Hkeys & s & Hpid & Hstored & Hframe);
    [|exact Hwf].
  split.
  - apply (instances_well_formed_frame w1); [exact Hwf1 | now rewrite Hc | lia].
  - exists persisted, s. split; [reflexivity|]. split; [exact Hpid|].
    unfold stored_next_operation_keys in *. rewrite Hc. split.
    + rewrite Hstored. now rewrite Hkeys.
    + exact Hframe.
Qed.

Lemma last_with_id_snoc (s : string) (l : list Assistance) (p : Assistance) :
  last_with_id s (l ++ [p])
  = if bool_decide (a_id p = Some s) then Some p else last_with_id s l.
Proof.
  unfold last_with_id. rewrite List.filter_app. cbn [List.filter].
  destruct (bool_decide (a_id p = Some s)); [apply last_snoc | now rewrite app_nil_r].
Qed.

(** The loop of [execute] over the produced instances, and the store:
    under the id of every instance returned so far the store holds the
    keys of the last of them with that id. *)
Lemma execute_loop_store (process : AssistanceProcess) (ctx : AssistanceContext)
    (scheduled triggered : list SubsequentAssistanceOperation)
    (produced : list Assistance) :
  forall (self0 selfn : OperationAttributes) (acc0 accn : list Assistance) (w w' : World),
    for_each produced
      (fun assistance '(self, assistance_to_return) =>
         let* (self, processed_assistance_result) :=
           _process_assistance_result process self (Some assistance) ctx
             scheduled triggered in
         match processed_assistance_result with
         | None => ret (self, assistance_to_return)
         | Some processed => ret (self, assistance_to_return ++ [processed])
         end)
      (self0, acc0) w = (inr (selfn, accn), w') ->
    instances_well_formed w ->
    (forall persisted, persisted ∈ acc0 ->
       exists s, a_id persisted = Some s
                 /\ stored_next_operation_keys s w
                    = a_next_operation_keys <$> last_with_id s acc0) ->
    forall persisted, persisted ∈ accn ->
      exists s, a_id persisted = Some s
                /\ stored_next_operation_keys s w'
                   = a_next_operation_keys <$> last_with_id s accn.
Proof.
  induction produced as [|assistance produced IH];
    intros self0 selfn acc0 accn w w' Hrun Hwf Hinv.
  - injection Hrun as <- <- <-. exact Hinv.
  - simpl in Hrun. apply bind_inr_inv in Hrun as ([self1 acc1] & w1 & Hbody & Hrest).
    apply bind_inr_inv in Hbody as ([self1' processed] & w0 & Hprocess & Hret).
    apply process_assistance_result_store in Hprocess
      as (Hwf1 & persisted & s & -> & Hpid & Hstored & Hframe); [|exact Hwf].
    injection Hret as <- <- <-.
    apply (IH _ _ _ _ _ _ Hrest Hwf1).
    intros q Hq. apply elem_of_app in Hq as [Hq | Hq].
    + destruct (Hinv q Hq) as (t & Ht & Hkeys). exists t. split; [exact Ht|].
      rewrite last_with_id_snoc. destruct (decide (t = s)) as [-> | Hne].
      * rewrite bool_decide_eq_true_2 by exact Hpid. exact Hstored.
      * rewrite bool_decide_eq_false_2 by congruence.
        now rewrite (Hframe t Hne).
    + apply list_elem_of_singleton in Hq as ->. exists s. split; [exact Hpid|].
      rewrite last_with_id_snoc, bool_decide_eq_true_2 by exact Hpid. exact Hstored.
Qed.

(** ** [next_operation_keys] after an execution *)

(** C3, as stated, fails in its second half: an operation with
    [prevent_progress] set leaves the [next_operation_keys] of the
    instance as they are; it does not clear them. Here the parked
    instance still has the continuation [next]. *)
Lemma prevent_progress_keeps_keys_counterexample :
  ~ (forall (process : AssistanceProcess) (operation : AssistanceOperation)
            (ctx : AssistanceContext) (phase : option Z) (step : option string)
            (w w' : World) (self' : OperationAttributes)
            (result : option AssistanceResult) (s : string),
       execute process operation ctx phase step w = (inr (self', result), w') ->
       prevent_progress self' = true ->
       get_parameter ctx ASSISTANCE_CONTEXT_PARAMETER_KEY_A_ID = inr (VStr s) ->
       stored_next_operation_keys s w' = Some []).
Proof.
  intros H.
  specialize (H parking_process parking_operation ctx_a1 None (Some "forward")
                (world_with_instance IN_PROGRESS)).
  specialize (H (snd (execute parking_process parking_operation ctx_a1 None (Some "forward")
                        (world_with_instance IN_PROGRESS)))
                (entering None (Some "forward") parking_attributes) None "a1").
  vm_compute in H. specialize (H eq_refl eq_refl eq_refl). discriminate H.
Qed.

Lemma fmap_replace_first_same {A B : Type} (g : A -> B) (p : A -> bool) (f : A -> A)
    (l : list A) :
  (forall x, g (f x) = g x) -> g <$> replace_first p f l = g <$> l.
Proof.
  intros Hg. induction l as [|x l IH]; [reflexivity|]. cbn [replace_first].
  destruct (p x); cbn; [now rewrite Hg | now rewrite IH].
Qed.

(** The two steps of [execute] before the produced instances are
    processed leave the ids of the stored instances and the supply as
    they are. *)
Lemma reset_step_ids (b : bool) (ctx : AssistanceContext) (w w' : World) :
  when b
    (let* q := lift (get_parameter ctx ASSISTANCE_CONTEXT_PARAMETER_KEY_A_ID) in
     update_assistance_by_a_id_reset_next_operation_keys q) w = (inr tt, w') ->
  a_id <$> assistance_collection w' = a_id <$> assistance_collection w
  /\ uuid_supply w' = uuid_supply w.
Proof.
  destruct b; cbn [when]; [|intros [= <-]; now split].
  intros Hrun. apply bind_inr_inv in Hrun as (q & w0 & Hq & Hrun).
  unfold lift in Hq. injection Hq as _ <-. injection Hrun as <-. cbn.
  split; [|reflexivity]. now apply fmap_replace_first_same.
Qed.

Lemma delete_step_ids (b : bool) (ctx : AssistanceContext) (w w' : World) :
  when b
    (let* q := lift (get_parameter ctx ASSISTANCE_CONTEXT_PARAMETER_KEY_A_ID) in
     delete_assistance_operations_by_a_id q) w = (inr tt, w') ->
  assistance_collection w' = assistance_collection w
  /\ uuid_supply w' = uuid_supply w.
Proof.
  destruct b; cbn [when]; [|intros [= <-]; now split].
  intros Hrun. apply bind_inr_inv in Hrun as (q & w0 & Hq & Hrun).
  unfold lift in Hq. injection Hq as _ <-. injection Hrun as <-. now split.
Qed.

Lemma last_with_id_elem (s : string) (l : list Assistance) (p : Assistance) :
  p ∈ l -> a_id p = Some s -> exists q, last_with_id s l = Some q /\ q ∈ l.
Proof.
  intros Hp Hs. unfold last_with_id.
  destruct (last (List.filter (fun p => bool_decide (a_id p = Some s)) l)) as [q|] eqn:Hlast.
  - exists q. split; [reflexivity|]. apply last_Some_elem_of in Hlast.
    apply list_elem_of_In, filter_In in Hlast as [Hin _]. now apply list_elem_of_In.
  - apply last_None in Hlast.
    assert (Hin : In p (List.filter (fun p => bool_decide (a_id p = Some s)) l)).
    { apply filter_In. split; [now apply list_elem_of_In|].
      now apply bool_decide_eq_true_2. }
    rewrite Hlast in Hin. destruct Hin.
Qed.

Lemma Forall2_Forall_right {A B : Type} (P : B -> Prop) (l : list A) (k : list B) :
  Forall2 (fun _ y => P y) l k -> Forall P k.
Proof. induction 1; constructor; assumption. Qed.

(** C3, amended. Let [_execute] return the attributes [self1] and the
    result [result1], and let [execute] return. When the operation
    produced instances, [execute] returns them persisted, in order, and
    each has as [next_operation_keys] the keys of the TRIGGERED
    subsequent operations of [self1] when [prevent_progress] is not
    set, and the keys the produced instance carried when it is set;
    and in a store whose ids were drawn from the supply, every returned
    instance has an id under which the store ends with the TRIGGERED
    keys when [prevent_progress] is not set, and with the keys of the
    last returned instance of that id when it is set. When the
    operation produced no instance and requires an assistance in
    progress, the instance stored under the [a_id] of the context ends
    with the TRIGGERED keys, respectively with the keys it had after
    [_execute]. *)
Theorem execute_next_operation_keys (process : AssistanceProcess)
    (operation : AssistanceOperation) (ctx : AssistanceContext) (phase : option Z)
    (step : option string) (w w1 w2 : World) (self1 self2 : OperationAttributes)
    (result1 result2 : option AssistanceResult) :
  _execute operation (entering phase step (self operation)) ctx w
  = (inr (self1, result1), w1) ->
  execute process operation ctx phase step w = (inr (self2, result2), w2) ->
  match result1 with
  | Some {| assistance := (_ :: _) as produced |} =>
      exists r2,
        result2 = Some r2
        /\ Forall2 (fun produced_assistance persisted =>
                      a_next_operation_keys persisted
                      = if prevent_progress self1
                        then a_next_operation_keys produced_assistance
                        else triggered_keys self1)
             produced (assistance r2)
        /\ (instances_well_formed w1 ->
            forall persisted, persisted ∈ assistance r2 ->
              exists s,
                a_id persisted = Some s
                /\ stored_next_operation_keys s w2
                   = if prevent_progress self1
                     then a_next_operation_keys <$> last_with_id s (assistance r2)
                     else Some (triggered_keys self1))
  | _ =>
      assistance_in_progress_required self1 = true ->
      forall s,
        get_parameter ctx ASSISTANCE_CONTEXT_PARAMETER_KEY_A_ID = inr (VStr s) ->
        stored_next_operation_keys s w2
        = if prevent_progress self1 then stored_next_operation_keys s w1
          else Some (triggered_keys self1)
  end.
Proof.
  intros Hexecute Hrun. unfold execute in Hrun.
  rewrite (bind_inr _ _ _ _ _ Hexecute) in Hrun.
  apply bind_inr_inv in Hrun as ([] & wa & Hreset & Hrun).
  apply bind_inr_inv in Hrun as ([] & wb & Hdelete & Hrun).
  apply bind_inr_inv in Hrun as ([self3 returned] & wc & Hloop & Hret).
  assert (Hparked : prevent_progress self1 = true -> wb = w1).
  { intros Hp. rewrite Hp, !andb_false_r in Hreset, Hdelete. simpl in Hreset, Hdelete.
    injection Hreset as <-. now injection Hdelete as <-. }
  assert (Hnone : forall self' processed,
            _process_assistance_result process self1 None ctx
              (if prevent_progress self1 then []
               else _filter_subsequent_operations_by_type (subsequent_operations self1)
                      SCHEDULED_OPERATION)
              (if prevent_progress self1 then []
               else _filter_subsequent_operations_by_type (subsequent_operations self1)
                      TRIGGERED_OPERATION) wb = (inr (self', processed), wc) ->
            wc = w2 ->
            assistance_in_progress_required self1 = true ->
            forall s,
              get_parameter ctx ASSISTANCE_CONTEXT_PARAMETER_KEY_A_ID = inr (VStr s) ->
              stored_next_operation_keys s w2
              = if prevent_progress self1 then stored_next_operation_keys s w1
                else Some (triggered_keys self1)).
  { intros self' processed Hprocess -> Hrequired s Hs.
    rewrite (process_loaded_inr _ _ _ _ _ _ _ _ _ _ Hprocess Hrequired Hs).
    destruct (prevent_progress self1) eqn:Hp; [|reflexivity].
    now rewrite (Hparked eq_refl). }
  destruct result1 as [[produced requests prepend]|].
  - destruct produced as [|assistance produced].
    + apply bind_inr_inv in Hloop as ([self' processed] & w0 & Hprocess & Hret').
      injection Hret' as <- <- <-. injection Hret as <- <- <-.
      eapply Hnone; [exact Hprocess | reflexivity].
    + pose proof (execute_loop_inr _ _ _ _ _ _ _ _ _ _ _ Hloop)
        as (Hprevent & Hsubs & new & -> & Hall).
      injection Hret as <- <- <-. eexists. split; [reflexivity|]. simpl.
      assert (Hkeys : Forall2 (fun produced_assistance persisted =>
                                 a_next_operation_keys persisted
                                 = if prevent_progress self1
                                   then a_next_operation_keys produced_assistance
                                   else triggered_keys self1)
                        (assistance :: produced) new).
      { eapply Forall2_impl; [exact Hall|]. intros a pa ->.
        destruct (prevent_progress self1); reflexivity. }
      split; [exact Hkeys|].
      intros Hwf persisted Hpersisted.
      apply reset_step_ids in Hreset as [Hids Hsupply].
      apply delete_step_ids in Hdelete as [Hsame Hsupply'].
      assert (Hwfb : instances_well_formed wb).
      { apply (instances_well_formed_frame w1); [exact Hwf | | lia].
        now rewrite Hsame, Hids. }
      destruct (execute_loop_store _ _ _ _ _ _ _ _ _ _ _ Hloop Hwfb) with persisted
        as (s & Hs & Hstored); [intros q Hq; inversion Hq | exact Hpersisted |].
      cbn [app] in Hstored. exists s. split; [exact Hs|]. rewrite Hstored.
      destruct (prevent_progress self1) eqn:Hp; [reflexivity|].
      destruct (last_with_id_elem s new persisted Hpersisted Hs) as (q & -> & Hq).
      cbn. f_equal.
      apply Forall2_Forall_right in Hkeys.
      rewrite Forall_forall in Hkeys. exact (Hkeys q Hq).
  - apply bind_inr_inv in Hloop as ([self' processed] & w0 & Hprocess & Hret').
    injection Hret' as <- <- <-. injection Hret as <- <- <-.
    eapply Hnone; [exact Hprocess | reflexivity].
Qed.

Lemma execute_next_operation_keys_witness :
  stored_next_operation_keys "a1"
    (snd (execute parking_process parking_operation ctx_a1 None (Some "forward")
            (world_with_instance IN_PROGRESS)))
  = stored_next_operation_keys "a1" (world_with_instance IN_PROGRESS)
  /\ exists self2 r2 w2,
       execute triggering_process triggering_operation ctx_empty None (Some "initiation")
         empty_world
       = (inr (self2, Some r2), w2)
       /\ Forall2 (fun produced_assistance persisted =>
                     a_next_operation_keys persisted = ["next"])
            [create_with_default_parameters_assistance (Some "u2") []] (assistance r2)
       /\ forall persisted, persisted ∈ assistance r2 ->
            exists s, a_id persisted = Some s
                      /\ stored_next_operation_keys s w2 = Some ["next"].
Proof.
  split.
  - apply (execute_next_operation_keys parking_process parking_operation ctx_a1 None
             (Some "forward") (world_with_instance IN_PROGRESS)
             (world_with_instance IN_PROGRESS) _
             (entering None (Some "forward") parking_attributes)
             (entering None (Some "forward") parking_attributes) None None).
    + reflexivity.
    + vm_compute. reflexivity.
    + reflexivity.
    + reflexivity.
  - match goal with
    | |- exists self2 r2 w2, execute ?p ?o ?c ?ph ?st ?w = _ /\ _ =>
        destruct (execute p o c ph st w) as [[e|[self2 result2]] w2] eqn:Hrun;
          [vm_compute in Hrun; discriminate Hrun|];
        pose proof (execute_next_operation_keys p o c ph st w w w2
                      (entering ph st (self o)) self2 _ result2 eq_refl Hrun) as Hspec
    end.
    simpl in Hspec. destruct Hspec as (r2 & -> & Hall & Hstore).
    exists self2, r2, w2. split; [reflexivity|]. split; [exact Hall|].
    apply Hstore. intros d u Hd. inversion Hd.
Defined.

(** ** Scheduling a follow-up *)

Lemma debug_run (w : World) : debug w = (inr (debug_enabled w), w).
Proof.
  unfold debug, debug_enabled, read_setting_by_key, bind, gets.
  destruct (env_debug w); [reflexivity|]. simpl.
  destruct (find _ _) as [s|]; [|reflexivity].
  destruct (truthy (stg_value s)); reflexivity.
Qed.

Lemma due_time_schedulable (now delay : Z) :
  schedulable now delay ->
  (let+ delta := timedelta delay in datetime_add now delta) = inr (now + delay)%Z.
Proof.
  intros [Hdays [Hmin Hmax]]. unfold timedelta, datetime_add, bindE.
  rewrite (proj2 (Z.leb_le _ _) Hdays).
  now rewrite (proj2 (Z.leb_le _ _) Hmin), (proj2 (Z.leb_le _ _) Hmax).
Qed.

Lemma due_time_overflow (now delay : Z) :
  ~ schedulable now delay ->
  (let+ delta := timedelta delay in datetime_add now delta) = inl OverflowError.
Proof.
  intros Hno. unfold timedelta, datetime_add, bindE.
  destruct (Z.leb_spec (Z.abs (delay / 86400)) TIMEDELTA_MAX_DAYS) as [Hdays|]; [|reflexivity].
  destruct (Z.leb_spec DATETIME_MIN (now + delay)) as [Hmin|]; [|reflexivity].
  destruct (Z.leb_spec (now + delay) DATETIME_MAX) as [Hmax|]; [|reflexivity].
  exfalso. apply Hno. repeat split; assumption.
Qed.

Lemma schedule_operation_run (process : AssistanceProcess) (operation_key : string)
    (ctx : AssistanceContext) (delay factor : Z) (a : option string) (w : World) :
  is_Some (_registered_operations process !! operation_key) ->
  context_can_be_persisted ctx = true ->
  context_encodable ctx = true ->
  as_number (debug_time_factor w) = inr factor ->
  schedulable (clock w) (delay * factor) ->
  schedule_operation process operation_key ctx (Some delay) a w
  = (inr tt,
     set_assistance_operations_collection
       (assistance_operations_collection w
        ++ [scheduled_document process operation_key ctx a
              (clock w + delay * factor) (oid_supply w)])
       (set_oid_supply (S (oid_supply w)) w)).
Proof.
  intros Hregistered Hflag Hencodable Hfactor Hrange.
  unfold schedule_operation, __is_operation_registered.
  rewrite bool_decide_eq_true_2 by assumption. rewrite Hflag. simpl.
  rewrite (bind_inr _ _ _ _ _ (debug_run w)).
  assert (Hread :
    (if debug_enabled w
     then let* stored :=
            read_setting_by_key SETTING_KEY_DEBUG_SCHEDULED_ASSISTANCE_TIME_FACTOR in
          match stored with
          | Some s => ret (stg_value s)
          | None => ret (VInt 1)
          end
     else ret (VInt 1)) w = (inr (debug_time_factor w), w)).
  { unfold debug_time_factor, read_setting_by_key, bind, gets.
    destruct (debug_enabled w); [|reflexivity].
    destruct (find _ _); reflexivity. }
  rewrite (bind_inr _ _ _ _ _ Hread). rewrite Hfactor.
  unfold bindE. rewrite bind_lift_inr.
  unfold create_assistance_operation_for_scheduled_invocation, current_datetime.
  unfold bind at 1. unfold bind at 1. unfold gets at 1.
  rewrite (due_time_schedulable _ _ Hrange), bind_lift_inr.
  unfold bind, gets. cbn [so_ctx so_oid]. rewrite Hencodable. reflexivity.
Qed.

(** ** Creating an instance with one produced object *)

Lemma filter_fresh_oid (n : nat) (l : list AssistanceObject) (o : AssistanceObject) :
  Forall (fun x => ao_oid x ≠ Some n) l ->
  ao_oid o = Some n ->
  List.filter (fun x => match ao_oid x with
                        | Some i => bool_decide (i ∈ [n])
                        | None => false
                        end) (l ++ [o]) = [o].
Proof.
  intros Hfresh Ho. induction Hfresh as [|x l Hx Hl IH]; simpl.
  - rewrite Ho. rewrite bool_decide_eq_true_2 by apply list_elem_of_here. reflexivity.
  - destruct (ao_oid x) as [i|] eqn:Hi; [|exact IH].
    rewrite bool_decide_eq_false_2; [exact IH|].
    intros Hin. apply list_elem_of_singleton in Hin. congruence.
Qed.

Lemma create_assistance_one_object (assistance : Assistance) (o : AssistanceObject)
    (w : World) :
  a_assistance_objects assistance = [o] ->
  ao_oid o = None ->
  parameters_encodable (ao_parameters o) = true ->
  parameters_encodable (a_parameters assistance) = true ->
  Forall (fun x => ao_oid x ≠ Some (oid_supply w)) (assistance_objects_collection w) ->
  let created :=
    {| ao_a_id := Some (uuid_str (uuid_supply w));
       ao_assistance_type := ao_assistance_type o;
       ao_id := Some (uuid_str (S (uuid_supply w)));
       ao_user_id := ao_user_id o; ao_timestamp := Some (clock w);
       ao_parameters := ao_parameters o; ao_type := ao_type o;
       ao_oid := Some (oid_supply w) |} in
  let document (objects : list AssistanceObject) :=
    {| a_id := Some (uuid_str (uuid_supply w)); a_user_id := a_user_id assistance;
       a_type_key := a_type_key assistance; a_timestamp := Some (clock w);
       a_assistance_state := a_assistance_state assistance;
       a_parameters := a_parameters assistance; a_assistance_objects := objects;
       a_next_operation_keys := a_next_operation_keys assistance |} in
  create_assistance assistance w
  = (inr (document [created]),
     set_assistance_collection
       (assistance_collection w ++ [document [ref_object (Some (oid_supply w))]])
       (set_assistance_objects_collection
          (assistance_objects_collection w ++ [created])
          (set_oid_supply (S (oid_supply w))
             (set_uuid_supply (S (S (uuid_supply w))) w)))).
Proof.
  intros Ho Hoid Hencodable Hencodable' Hfresh created document.
  pose proof (filter_fresh_oid _ _ created Hfresh eq_refl) as Hfilter.
  subst created document.
  destruct o as [oa ot oi ou otime oparameters otype ooid].
  destruct assistance as [aa au ak atime astate aparameters aobjects akeys].
  simpl in *. subst.
  unfold parameters_encodable in *.
  unfold create_assistance, create_assistance_objects, insert_many_assistance_objects,
    insert_assistance_object, insert_one_assistance, __load_assistance_objects,
    uuid4, current_datetime, fresh_oid, parameters_encodable.
  unfold bind, gets, ret, modify. cbn. rewrite Hencodable. cbn.
  rewrite Hencodable'. cbn. cbn in Hfilter. rewrite Hfilter. reflexivity.
Qed.

(** ** The greeting process on a login *)

Section GreetingScenario.

Variable t : string -> string -> string.

Lemma greeting_is_applicable_run (self : OperationAttributes) (w : World) (sid : string)
    (st : Statement) :
  find (fun statement => bool_decide (st_id statement = sid)) (statements_collection w)
  = Some st ->
  st_verb_id st = Some StatementVerbId_LOGGED_IN ->
  greeting_is_applicable self (ctx (login_request sid)) w = (inr true, w).
Proof.
  intros Hst Hverb. unfold greeting_is_applicable, try_except, read_statement_by_id.
  unfold login_request, get_parameter. cbn [ctx new_context parameter_dict].
  rewrite lookup_singleton_eq.
  unfold bind, lift, gets. rewrite Hst, Hverb. reflexivity.
Qed.

Lemma st_actor_stored (st : Statement) (user : string) :
  st_actor_account_name st = Some user -> st_actor st = name_stored user.
Proof.
  unfold st_actor_account_name. destruct (st_actor st); [|discriminate..]. now intros [= ->].
Qed.

Lemma greeting_execute_run (self : OperationAttributes) (w : World) (sid user : string)
    (st : Statement) (model : StudentModel) :
  find (fun statement => bool_decide (st_id statement = sid)) (statements_collection w)
  = Some st ->
  st_actor_account_name st = Some user ->
  find (fun m => bool_decide (sm_user_id m = user)) (student_models_collection w)
  = Some model ->
  greeting_execute t self (ctx (login_request sid)) w
  = (inr (if first_login model
          then with_subsequent_operations
                 (Some [ {| sub_type := SCHEDULED_OPERATION;
                            operation_key := TOOLCHECK_SCREENCAST_HINT_OPERATION_KEY;
                            time_to_invocation_in_s := Some 5%Z |} ])
                 (with_target_status (Some IN_PROGRESS) self)
          else self,
          Some (new_result
                  (Some [ create_with_default_parameters_assistance (Some user)
                            [ create_with_default_parameters_object (Some user)
                                [ {| key := ASSISTANCE_OBJECT_PARAMETER_KEY_MESSAGE;
                                     value :=
                                       VStr (t LOCALE_IDENTIFIER_DE
                                               (if first_login model
                                                then "assistance.greeting.operation.greeting"
                                                else "assistance.greeting.operation.welcome_back"))
                                  |} ] ] ])
                  None false)), w).
Proof.
  intros Hst Hactor Hmodel. apply st_actor_stored in Hactor.
  unfold greeting_execute, read_statement_by_id, read_student_model_by_user_id, get_user_id.
  unfold login_request, get_parameter. cbn [ctx new_context parameter_dict].
  rewrite lookup_singleton_eq.
  unfold bind, lift, gets. rewrite Hst, Hactor, Hmodel.
  unfold first_login. destruct (sm_experiences model) as [experiences|]; [|reflexivity].
  destruct (bool_decide (length experiences <= 1)); reflexivity.
Qed.

Lemma determine_state_update_new (self : OperationAttributes) (a : Assistance)
    (target : AssistanceStateStatus) :
  target_status self = Some target ->
  op_phase self = None ->
  state_update_status_to_send self = None ->
  a_assistance_state a = None ->
  determine_state_update self a
  = inr (with_state_update_status_to_send (Some [ABORTED; COMPLETED]) self, a).
Proof.
  intros Htarget Hphase Hsend Hstate. unfold determine_state_update.
  rewrite Htarget, Hphase, Hsend, Hstate. cbn.
  destruct a; reflexivity.
Qed.

Lemma process_new_instance (process : AssistanceProcess) (self : OperationAttributes)
    (a : Assistance) (o : AssistanceObject) (c : AssistanceContext)
    (scheduled triggered : list SubsequentAssistanceOperation) (w : World)
    (target : AssistanceStateStatus) :
  target_status self = Some target ->
  op_phase self = None ->
  state_update_status_to_send self = None ->
  prevent_progress self = false ->
  a_id a = None ->
  a_assistance_state a = None ->
  a_assistance_objects a = [o] ->
  ao_oid o = None ->
  parameters_encodable (ao_parameters o) = true ->
  parameters_encodable (a_parameters a) = true ->
  Forall (fun x => ao_oid x ≠ Some (oid_supply w)) (assistance_objects_collection w) ->
  let new_a_id := uuid_str (uuid_supply w) in
  let created :=
    {| ao_a_id := Some new_a_id;
       ao_assistance_type := Some (get_key process);
       ao_id := Some (uuid_str (S (uuid_supply w)));
       ao_user_id := ao_user_id o; ao_timestamp := Some (clock w);
       ao_parameters := ao_parameters o;
       ao_type := Some (default ASSISTANCE_OBJECT (ao_type o));
       ao_oid := Some (oid_supply w) |} in
  let document (objects : list AssistanceObject) :=
    {| a_id := Some new_a_id; a_user_id := a_user_id a;
       a_type_key := Some (get_key process); a_timestamp := Some (clock w);
       a_assistance_state :=
         Some {| status := Some target; phase := None; step := op_step self |};
       a_parameters := a_parameters a; a_assistance_objects := objects;
       a_next_operation_keys := map operation_key triggered |} in
  _process_assistance_result process self (Some a) c scheduled triggered w
  = (let* _ :=
       for_each scheduled
         (fun subsequent_scheduled_operation _ =>
            schedule_operation process (operation_key subsequent_scheduled_operation)
              (new_context {[ ASSISTANCE_CONTEXT_PARAMETER_KEY_A_ID := VStr new_a_id ]})
              (time_to_invocation_in_s subsequent_scheduled_operation)
              (Some new_a_id)) tt in
     ret (with_state_update_status_to_send (Some [ABORTED; COMPLETED]) self,
          Some (document [created])))
      (set_assistance_collection
         (assistance_collection w ++ [document [ref_object (Some (oid_supply w))]])
         (set_assistance_objects_collection
            (assistance_objects_collection w ++ [created])
            (set_oid_supply (S (oid_supply w))
               (set_uuid_supply (S (S (uuid_supply w))) w)))).
Proof.
  intros Htarget Hphase Hsend Hprevent Hid Hstate Hobjects Hoid Hencodable Hencodable'
    Hfresh new_a_id created document.
  unfold _process_assistance_result. rewrite bind_ret_l.
  rewrite (determine_state_update_new _ _ _ Htarget Hphase Hsend Hstate).
  rewrite bind_lift_inr.
  unfold set_assistance_properties. cbn [prevent_progress with_state_update_status_to_send].
  rewrite Hprevent. 
  unfold persist. cbn [a_id with_assistance_objects with_next_operation_keys with_assistance_state].
  rewrite Hid.
  erewrite bind_inr; cycle 1.
  { apply create_assistance_one_object with (o := set_object_type (get_key process) o).
    - cbn. rewrite Hobjects. reflexivity.
    - exact Hoid.
    - exact Hencodable.
    - exact Hencodable'.
    - exact Hfresh. }
  cbn [a_id]. subst created document new_a_id. cbn.
  rewrite Htarget, Hphase.
  destruct (ao_type o); reflexivity.
Qed.

Lemma greeting_initiation_registered :
  _registered_operations (GreetingAssistance t) !! ASSISTANCE_OPERATION_KEY_INITIATION
  = Some (GreetingAssistanceInitiationOperation t).
Proof.
  unfold GreetingAssistance. cbn [_registered_operations with_registered_operations].
  rewrite lookup_insert_ne by discriminate. apply lookup_insert_eq.
Qed.

Lemma greeting_hint_registered :
  is_Some (_registered_operations (GreetingAssistance t)
             !! TOOLCHECK_SCREENCAST_HINT_OPERATION_KEY).
Proof.
  unfold GreetingAssistance. cbn [_registered_operations with_registered_operations].
  rewrite lookup_insert_eq. eauto.
Qed.


Lemma greeting_execute_engine (w : World) (sid user : string) (st : Statement)
    (model : StudentModel) (factor : Z) :
  find (fun statement => bool_decide (st_id statement = sid)) (statements_collection w)
  = Some st ->
  st_actor_account_name st = Some user ->
  find (fun m => bool_decide (sm_user_id m = user)) (student_models_collection w)
  = Some model ->
  Forall (fun x => ao_oid x ≠ Some (oid_supply w)) (assistance_objects_collection w) ->
  as_number (debug_time_factor w) = inr factor ->
  (first_login model = true -> schedulable (clock w) (5 * factor)) ->
  exists self' instance object w',
    execute (GreetingAssistance t) (GreetingAssistanceInitiationOperation t)
      (ctx (login_request sid)) None (Some ASSISTANCE_OPERATION_KEY_INITIATION) w
    = (inr (self', Some {| assistance := [instance]; assistance_requests := [];
                           prepend_assistance_from_requests := false |}), w')
    /\ a_id instance = Some (uuid_str (uuid_supply w))
    /\ a_user_id instance = Some user
    /\ a_type_key instance = Some "greeting"
    /\ a_assistance_state instance
       = Some {| status := Some (if first_login model then IN_PROGRESS else COMPLETED);
                 phase := None; step := Some ASSISTANCE_OPERATION_KEY_INITIATION |}
    /\ a_next_operation_keys instance = []
    /\ a_assistance_objects instance = [object]
    /\ ao_user_id object = Some user
    /\ ao_type object = Some ASSISTANCE_OBJECT
    /\ ao_parameters object
       = [ {| key := ASSISTANCE_OBJECT_PARAMETER_KEY_MESSAGE;
              value := VStr (t LOCALE_IDENTIFIER_DE
                               (if first_login model
                                then "assistance.greeting.operation.greeting"
                                else "assistance.greeting.operation.welcome_back")) |} ]
    /\ assistance_collection w'
       = assistance_collection w
         ++ [with_assistance_objects [ref_object (ao_oid object)] instance]
    /\ assistance_objects_collection w' = assistance_objects_collection w ++ [object]
    /\ assistance_operations_collection w'
       = assistance_operations_collection w
         ++ (if first_login model
             then [scheduled_document (GreetingAssistance t)
                     TOOLCHECK_SCREENCAST_HINT_OPERATION_KEY
                     (new_context {[ ASSISTANCE_CONTEXT_PARAMETER_KEY_A_ID :=
                                       VStr (uuid_str (uuid_supply w)) ]})
                     (Some (uuid_str (uuid_supply w)))
                     (clock w + 5 * factor) (S (oid_supply w))]
             else []).
Proof.
  intros Hst Hactor Hmodel Hfresh Hfactor Hrange.
  unfold execute.
  cbn [_execute GreetingAssistanceInitiationOperation self].
  rewrite (bind_inr _ _ _ _ _ (greeting_execute_run _ w sid user st model Hst Hactor Hmodel)).
  destruct (first_login model).
  - cbn [prevent_progress with_subsequent_operations with_target_status entering
         default_attributes subsequent_operations assistance_in_progress_required
         reset_next_operation_keys delete_scheduled_operations
         _filter_subsequent_operations_by_type List.filter sub_type andb negb when
         new_result assistance default from_option id].
    rewrite (bool_decide_eq_true_2 (SCHEDULED_OPERATION = SCHEDULED_OPERATION) eq_refl).
    rewrite (bool_decide_eq_false_2 (SCHEDULED_OPERATION = TRIGGERED_OPERATION))
      by discriminate.
    rewrite !bind_ret_l. cbn [for_each]. rewrite ?bind_assoc.
    erewrite bind_inr; cycle 1.
    { erewrite process_new_instance; try reflexivity; try exact Hfresh.
      cbn [for_each operation_key time_to_invocation_in_s]. rewrite ?bind_assoc.
      erewrite bind_inr; cycle 1.
      { apply schedule_operation_run with (factor := factor).
        - apply greeting_hint_registered.
        - reflexivity.
        - reflexivity.
        - exact Hfactor.
        - exact (Hrange eq_refl). }
      rewrite ?bind_ret_l. reflexivity. }
    cbn.
    do 4 eexists. split; [reflexivity|]. cbn. repeat split; reflexivity.
  - cbn [prevent_progress with_subsequent_operations with_target_status entering
         default_attributes subsequent_operations assistance_in_progress_required
         reset_next_operation_keys delete_scheduled_operations
         _filter_subsequent_operations_by_type List.filter sub_type andb negb when
         new_result assistance default from_option id].
    rewrite !bind_ret_l. cbn [for_each]. rewrite ?bind_assoc.
    erewrite bind_inr; cycle 1.
    { erewrite process_new_instance; try reflexivity. exact Hfresh. }
    cbn.
    do 4 eexists. split; [reflexivity|]. cbn. rewrite app_nil_r. repeat split; reflexivity.
Qed.

(** C8, amended. For a statement with the verb "logged in" of a user
    who has a student model, the initiation of the greeting process, run
    by the engine, returns one new process instance of that user with
    one produced object that carries one message, and adds the instance
    to the store. When the user has at most one prior experience and
    Python can compute the due time now + 5 * factor, the status is
    IN_PROGRESS, the message is the greeting, and exactly one scheduled
    operation is written, for the screencast hint, due at
    now + 5 * factor (the factor is 1 outside debug mode: 5 seconds
    later). When the user has more than one prior experience, the status
    is COMPLETED, the message is the "welcome back" message, and no
    scheduled operation is written. *)
Theorem greeting_login_scenarios (ASSISTANCE_TYPES : gmap string AssistanceProcess)
    (depth : nat) (supported : list string) (w : World) (sid user : string)
    (st : Statement) (model : StudentModel) (factor : Z) :
  ASSISTANCE_TYPES !! "greeting" = Some (GreetingAssistance t) ->
  "greeting" ∉ disabled_assistance_type_keys w ->
  "greeting" ∈ supported ->
  find (fun statement => bool_decide (st_id statement = sid)) (statements_collection w)
  = Some st ->
  st_verb_id st = Some StatementVerbId_LOGGED_IN ->
  st_actor_account_name st = Some user ->
  find (fun m => bool_decide (sm_user_id m = user)) (student_models_collection w)
  = Some model ->
  Forall (fun x => ao_oid x ≠ Some (oid_supply w)) (assistance_objects_collection w) ->
  as_number (debug_time_factor w) = inr factor ->
  (first_login model = true -> schedulable (clock w) (5 * factor)) ->
  exists result instance object w',
    __handle_assistance_request ASSISTANCE_TYPES (S depth) (login_request sid) supported w
    = (inr (Some result), w')
    /\ assistance result = [instance]
    /\ a_user_id instance = Some user
    /\ assistance_collection w'
       = assistance_collection w
         ++ [with_assistance_objects [ref_object (ao_oid object)] instance]
    /\ a_assistance_objects instance = [object]
    /\ ao_user_id object = Some user
    /\ (debug_enabled w = false -> factor = 1%Z)
    /\ if first_login model
       then (a_assistance_state instance ≫= status) = Some IN_PROGRESS
            /\ ao_parameters object
               = [ {| key := ASSISTANCE_OBJECT_PARAMETER_KEY_MESSAGE;
                      value := VStr (t LOCALE_IDENTIFIER_DE
                                       "assistance.greeting.operation.greeting") |} ]
            /\ exists scheduled,
                 assistance_operations_collection w'
                 = assistance_operations_collection w ++ [scheduled]
                 /\ so_assistance_type_key scheduled = "greeting"
                 /\ so_assistance_operation_key scheduled
                    = TOOLCHECK_SCREENCAST_HINT_OPERATION_KEY
                 /\ so_a_id scheduled = a_id instance
                 /\ so_time_of_invocation scheduled = Some (clock w + 5 * factor)%Z
       else (a_assistance_state instance ≫= status) = Some COMPLETED
            /\ ao_parameters object
               = [ {| key := ASSISTANCE_OBJECT_PARAMETER_KEY_MESSAGE;
                      value := VStr (t LOCALE_IDENTIFIER_DE
                                       "assistance.greeting.operation.welcome_back") |} ]
            /\ assistance_operations_collection w' = assistance_operations_collection w.
Proof.
  intros HTYPES Hdisabled Hsupported Hst Hverb Hactor Hmodel Hfresh Hfactor Hrange.
  destruct (greeting_execute_engine w sid user st model factor Hst Hactor Hmodel Hfresh
              Hfactor Hrange)
    as (self' & instance & object & w' & Hexecute & Hid & Huser & Htype & Hstate & Hkeys
        & Hobjects & Hobject_user & Hobject_type & Hparameters & Hstore & Hstore_objects
        & Hoperations).
  exists {| assistance := [instance]; assistance_requests := [];
            prepend_assistance_from_requests := false |}, instance, object, w'.
  split.
  { cbn [__handle_assistance_request].
    unfold bind at 1. unfold gets at 1.
    cbn [assistance_type_key login_request].
    rewrite bool_decide_eq_false_2 by assumption.
    rewrite bool_decide_eq_true_2 by assumption. cbn [negb orb].
    rewrite HTYPES.
    unfold check_applicability_and_execute_operation.
    cbn [assistance_operation_key login_request].
    rewrite greeting_initiation_registered.
    cbn [is_applicable_override GreetingAssistanceInitiationOperation self].
    fold (login_request sid).
    rewrite !bind_assoc.
    rewrite (bind_inr _ _ _ _ _ (greeting_is_applicable_run _ w sid st Hst Hverb)).
    cbn [negb]. rewrite bind_assoc.
    replace (_registered_operation_keys_to_phase_number (GreetingAssistance t)
               !! ASSISTANCE_OPERATION_KEY_INITIATION) with (@None Z) by reflexivity.
    rewrite (bind_inr _ _ _ _ _ Hexecute). reflexivity. }
  split; [reflexivity|]. split; [exact Huser|]. split; [exact Hstore|].
  split; [exact Hobjects|]. split; [exact Hobject_user|].
  split.
  { intros Hdebug. unfold debug_time_factor in Hfactor. rewrite Hdebug in Hfactor.
    now injection Hfactor as <-. }
  rewrite Hstate, Hparameters, Hoperations.
  destruct (first_login model).
  - split; [reflexivity|]. split; [reflexivity|].
    eexists. split; [reflexivity|]. cbn. rewrite Hid. repeat split; reflexivity.
  - split; [reflexivity|]. split; [reflexivity|]. now rewrite app_nil_r.
Qed.

End GreetingScenario.

(** C8, as stated, fails at the end of the range of [datetime]: three
    seconds before the end of the year 9999 the first login of a user
    does not give a follow-up due 5 seconds later. The instance is
    written, then [current_datetime() + timedelta(seconds=5)] raises
    [OverflowError], which leaves the engine; no scheduled operation is
    written. *)
Lemma greeting_login_due_time_counterexample :
  ~ (forall (t : string -> string -> string)
            (ASSISTANCE_TYPES : gmap string AssistanceProcess) (depth : nat)
            (supported : list string) (w : World) (sid user : string) (st : Statement)
            (model : StudentModel) (factor : Z),
       ASSISTANCE_TYPES !! "greeting" = Some (GreetingAssistance t) ->
       "greeting" ∉ disabled_assistance_type_keys w ->
       "greeting" ∈ supported ->
       find (fun statement => bool_decide (st_id statement = sid)) (statements_collection w)
       = Some st ->
       st_verb_id st = Some StatementVerbId_LOGGED_IN ->
       st_actor_account_name st = Some user ->
       find (fun m => bool_decide (sm_user_id m = user)) (student_models_collection w)
       = Some model ->
       Forall (fun x => ao_oid x ≠ Some (oid_supply w)) (assistance_objects_collection w) ->
       as_number (debug_time_factor w) = inr factor ->
       first_login model = true ->
       exists result w' scheduled,
         __handle_assistance_request ASSISTANCE_TYPES (S depth) (login_request sid)
           supported w
         = (inr (Some result), w')
         /\ assistance_operations_collection w'
            = assistance_operations_collection w ++ [scheduled]
         /\ so_time_of_invocation scheduled = Some (clock w + 5 * factor)%Z).
Proof.
  intros H.
  destruct (H example_t (greeting_only example_t) 1 ["greeting"]
              (set_clock (DATETIME_MAX - 2) (login_world [VStr "first visit"])) "s1" "u1"
              {| st_id := "s1"; st_verb_id := Some StatementVerbId_LOGGED_IN;
                 st_actor := name_stored "u1" |}
              {| sm_user_id := "u1"; sm_experiences := Some [VStr "first visit"] |} 1%Z)
    as (result & w' & scheduled & Hrun & _).
  - reflexivity.
  - apply not_elem_of_nil.
  - apply list_elem_of_here.
  - reflexivity.
  - reflexivity.
  - reflexivity.
  - reflexivity.
  - constructor.
  - reflexivity.
  - reflexivity.
  - vm_compute in Hrun. discriminate Hrun.
Qed.

(** What the engine leaves behind at that input: the call raises
    [OverflowError] after the new instance and its object were written,
    and no scheduled operation exists. *)
Example greeting_login_due_time_overflow :
  let w := set_clock (DATETIME_MAX - 2) (login_world [VStr "first visit"]) in
  let run := __handle_assistance_request (greeting_only example_t) 2 (login_request "s1")
               ["greeting"] w in
  fst run = inl OverflowError
  /\ length (assistance_collection (snd run)) = 1
  /\ length (assistance_objects_collection (snd run)) = 1
  /\ assistance_operations_collection (snd run) = [].
Proof. vm_compute. repeat split; reflexivity. Qed.

Lemma greeting_login_scenarios_witness :
  (exists result w',
     __handle_assistance_request (greeting_only example_t) 2 (login_request "s1")
       ["greeting"] (login_world [VStr "first visit"])
     = (inr (Some result), w')
     /\ map (fun a => a_assistance_state a ≫= status) (assistance result)
        = [Some IN_PROGRESS]
     /\ map so_time_of_invocation (assistance_operations_collection w') = [Some 1005%Z])
  /\ (exists result w',
        __handle_assistance_request (greeting_only example_t) 2 (login_request "s1")
          ["greeting"] (login_world [VStr "first visit"; VStr "second visit"])
        = (inr (Some result), w')
        /\ map (fun a => a_assistance_state a ≫= status) (assistance result)
           = [Some COMPLETED]
        /\ assistance_operations_collection w' = []).
Proof.
  split.
  - destruct (greeting_login_scenarios example_t (greeting_only example_t) 1 ["greeting"]
                (login_world [VStr "first visit"]) "s1" "u1"
                {| st_id := "s1"; st_verb_id := Some StatementVerbId_LOGGED_IN;
                   st_actor := name_stored "u1" |}
                {| sm_user_id := "u1"; sm_experiences := Some [VStr "first visit"] |} 1%Z)
      as (result & instance & object & w' & Hrun & Hresult & _ & _ & _ & _ & _ & Hfirst).
    + reflexivity.
    + apply not_elem_of_nil.
    + apply list_elem_of_here.
    + reflexivity.
    + reflexivity.
    + reflexivity.
    + reflexivity.
    + constructor.
    + reflexivity.
    + intros _. repeat split; vm_compute; discriminate.
    + exists result, w'. split; [exact Hrun|].
      cbn in Hfirst. destruct Hfirst as (Hstatus & _ & scheduled & Hoperations & _ & _ & _
                                         & Htime).
      rewrite Hresult, Hoperations. cbn. rewrite Hstatus, Htime. split; reflexivity.
  - destruct (greeting_login_scenarios example_t (greeting_only example_t) 1 ["greeting"]
                (login_world [VStr "first visit"; VStr "second visit"]) "s1" "u1"
                {| st_id := "s1"; st_verb_id := Some StatementVerbId_LOGGED_IN;
                   st_actor := name_stored "u1" |}
                {| sm_user_id := "u1";
                   sm_experiences := Some [VStr "first visit"; VStr "second visit"] |} 1%Z)
      as (result & instance & object & w' & Hrun & Hresult & _ & _ & _ & _ & _ & Hagain).
    + reflexivity.
    + apply not_elem_of_nil.
    + apply list_elem_of_here.
    + reflexivity.
    + reflexivity.
    + reflexivity.
    + reflexivity.
    + constructor.
    + reflexivity.
    + intros _. repeat split; vm_compute; discriminate.
    + exists result, w'. split; [exact Hrun|].
      cbn in Hagain. destruct Hagain as (Hstatus & _ & Hoperations).
      rewrite Hresult, Hoperations. cbn. rewrite Hstatus. split; reflexivity.
Defined.

(** ** The store of scheduled operations under the engine *)

Lemma operations_step_refl (w : World) : operations_step w w.
Proof. intros Hwf. split; [exact Hwf|]. split; [lia|]. split; [tauto | reflexivity]. Qed.

Lemma operations_step_trans (w1 w2 w3 : World) :
  operations_step w1 w2 -> operations_step w2 w3 -> operations_step w1 w3.
Proof.
  intros H12 H23 Hwf. destruct (H12 Hwf) as (Hwf2 & Hle2 & Hin2 & Hlog2).
  destruct (H23 Hwf2) as (Hwf3 & Hle3 & Hin3 & Hlog3).
  split; [exact Hwf3|]. split; [lia|]. split; [|congruence].
  intros o Ho. apply Hin3 in Ho as [Ho | (i & Hi & Hge)].
  - apply Hin2 in Ho as [Ho | (i & Hi & Hge)]; [now left|].
    right. exists i. split; [exact Hi | lia].
  - right. exists i. split; [exact Hi | lia].
Qed.

(** A step that leaves the store of scheduled operations and the log
    alone and does not lower the supply. *)
Lemma operations_step_frame (w w' : World) :
  assistance_operations_collection w' = assistance_operations_collection w ->
  oid_supply w <= oid_supply w' ->
  sweep_log w' = sweep_log w ->
  operations_step w w'.
Proof.
  intros Hops Hsupply Hlog [Hnodup Hbelow].
  split; [|split; [exact Hsupply|split; [|exact Hlog]]].
  - unfold operations_well_formed. rewrite Hops. split; [exact Hnodup|].
    eapply Forall_impl; [exact Hbelow|]. intros o (i & Hi & Hlt). exists i. split; [exact Hi|lia].
  - intros o Ho. left. now rewrite <- Hops.
Qed.

Lemma operations_safe_ret {A : Type} (a : A) : operations_safe (ret a).
Proof. intros w r w' [= _ <-]. apply operations_step_refl. Qed.

Lemma operations_safe_raise {A : Type} (e : Exn) : operations_safe (@raise A e).
Proof. intros w r w' [= _ <-]. apply operations_step_refl. Qed.

Lemma operations_safe_gets {A : Type} (f : World -> A) : operations_safe (gets f).
Proof. intros w r w' [= _ <-]. apply operations_step_refl. Qed.

Lemma operations_safe_lift {A : Type} (x : Exn + A) : operations_safe (lift x).
Proof. intros w r w' [= _ <-]. apply operations_step_refl. Qed.

Lemma operations_safe_bind {A B : Type} (m : M A) (k : A -> M B) :
  operations_safe m -> (forall a, operations_safe (k a)) -> operations_safe (bind m k).
Proof.
  intros Hm Hk w r w' H. unfold bind in H.
  destruct (m w) as [[e|a] w1] eqn:Hmw.
  - injection H as _ <-. eapply Hm, Hmw.
  - eapply operations_step_trans; [eapply Hm, Hmw | eapply Hk, H].
Qed.

Lemma operations_safe_for_each {A S : Type} (l : list A) (body : A -> S -> M S) :
  (forall x acc, operations_safe (body x acc)) ->
  forall acc, operations_safe (for_each l body acc).
Proof.
  intros Hbody. induction l as [|x l IH]; intros acc; simpl.
  - apply operations_safe_ret.
  - apply operations_safe_bind; [apply Hbody | intros acc'; apply IH].
Qed.

Lemma operations_safe_try_except {A : Type} (m : M A) (handles : Exn -> bool)
    (h : Exn -> M A) :
  operations_safe m -> (forall e, operations_safe (h e)) ->
  operations_safe (try_except m handles h).
Proof.
  intros Hm Hh w r w' H. unfold try_except in H.
  destruct (m w) as [[e|a] w1] eqn:Hmw.
  - destruct (handles e).
    + eapply operations_step_trans; [eapply Hm, Hmw | eapply Hh, H].
    + injection H as _ <-. eapply Hm, Hmw.
  - injection H as _ <-. eapply Hm, Hmw.
Qed.

Lemma operations_safe_modify (f : World -> World) :
  (forall w, assistance_operations_collection (f w) = assistance_operations_collection w) ->
  (forall w, oid_supply (f w) = oid_supply w) ->
  (forall w, sweep_log (f w) = sweep_log w) ->
  operations_safe (modify f).
Proof.
  intros Hops Hsupply Hlog w r w' [= _ <-].
  apply operations_step_frame; [apply Hops | rewrite Hsupply; lia | apply Hlog].
Qed.

Lemma operations_safe_uuid4 : operations_safe uuid4.
Proof.
  intros w r w' [= _ <-]. apply operations_step_frame; [reflexivity | simpl; lia | reflexivity].
Qed.

Lemma operations_safe_fresh_oid : operations_safe fresh_oid.
Proof.
  intros w r w' [= _ <-]. apply operations_step_frame; [reflexivity | simpl; lia | reflexivity].
Qed.

Ltac operations_safe_step :=
  first
    [ apply operations_safe_ret
    | apply operations_safe_raise
    | apply operations_safe_gets
    | apply operations_safe_lift
    | apply operations_safe_uuid4
    | apply operations_safe_fresh_oid
    | apply operations_safe_modify; reflexivity
    | apply operations_safe_bind; [|intros ?]
    | apply operations_safe_for_each; intros ? ?
    | apply operations_safe_try_except; [|intros ?] ].

Ltac operations_safe_auto :=
  repeat (operations_safe_step
          || match goal with
             | |- operations_safe (match ?x with _ => _ end) => destruct x
             | |- operations_safe (if ?b then _ else _) => destruct b
             | |- operations_safe (let (_, _) := ?x in _) => destruct x
             | |- operations_safe (when ?b _) => unfold when
             end).

Create HintDb operations_safe.

Ltac operations_safe_known :=
  repeat (solve [auto with operations_safe nocore]
          || operations_safe_step
          || match goal with
             | |- operations_safe (match ?x with _ => _ end) => destruct x
             | |- operations_safe (if ?b then _ else _) => destruct b
             | |- operations_safe (let (_, _) := ?x in _) => destruct x
             | |- operations_safe (when ?b _) => unfold when
             end).

Lemma debug_safe : operations_safe debug.
Proof. unfold debug, read_setting_by_key. operations_safe_auto. Qed.

Lemma insert_assistance_object_safe (d : AssistanceObject) (l : list AssistanceObject) :
  operations_safe (insert_assistance_object d l).
Proof. unfold insert_assistance_object. operations_safe_auto. Qed.

#[local] Hint Resolve debug_safe insert_assistance_object_safe : operations_safe.

Lemma insert_many_assistance_objects_safe (docs : list AssistanceObject) :
  operations_safe (insert_many_assistance_objects docs).
Proof. unfold insert_many_assistance_objects. operations_safe_known. Qed.

#[local] Hint Resolve insert_many_assistance_objects_safe : operations_safe.

Lemma create_assistance_objects_safe (objects : list AssistanceObject) (a : option string) :
  operations_safe (create_assistance_objects objects a).
Proof. unfold create_assistance_objects, current_datetime. operations_safe_known. Qed.

Lemma load_assistance_objects_safe (d : Assistance) :
  operations_safe (__load_assistance_objects d).
Proof. unfold __load_assistance_objects. operations_safe_auto. Qed.

#[local] Hint Resolve create_assistance_objects_safe load_assistance_objects_safe
  : operations_safe.

Lemma read_assistance_by_a_id_safe (q : Value) : operations_safe (read_assistance_by_a_id q).
Proof. unfold read_assistance_by_a_id, find_one_assistance. operations_safe_known. Qed.

Lemma create_assistance_safe (a : Assistance) : operations_safe (create_assistance a).
Proof.
  unfold create_assistance, insert_one_assistance, current_datetime.
  operations_safe_known.
Qed.

Lemma update_assistance_adding_assistance_objects_safe (a : Assistance) :
  operations_safe (update_assistance_adding_assistance_objects a).
Proof.
  unfold update_assistance_adding_assistance_objects, find_one_assistance,
    replace_one_assistance.
  operations_safe_known.
Qed.

Lemma update_assistance_by_a_id_adding_assistance_objects_safe (s : string)
    (objects : list AssistanceObject) :
  operations_safe (update_assistance_by_a_id_adding_assistance_objects s objects).
Proof.
  unfold update_assistance_by_a_id_adding_assistance_objects, find_one_assistance,
    replace_one_assistance.
  operations_safe_known.
Qed.

#[local] Hint Resolve read_assistance_by_a_id_safe create_assistance_safe
  update_assistance_adding_assistance_objects_safe
  update_assistance_by_a_id_adding_assistance_objects_safe : operations_safe.

Lemma persist_safe (process : AssistanceProcess) (a : Assistance) :
  operations_safe (persist process a).
Proof. unfold persist. operations_safe_known. Qed.

#[local] Hint Resolve persist_safe : operations_safe.

(** Inserting a new scheduled operation. *)
Lemma create_assistance_operation_safe (o : AssistanceOperationModel) (delay : Z) :
  so_oid o = None ->
  operations_safe (create_assistance_operation_for_scheduled_invocation o delay).
Proof.
  intros Hnone w r w' Hrun.
  unfold create_assistance_operation_for_scheduled_invocation, current_datetime in Hrun.
  rewrite Hnone in Hrun. unfold bind, gets, fresh_oid, modify, ret, lift in Hrun.
  destruct (let+ delta := timedelta delay in datetime_add (clock w) delta) as [e|due];
    [injection Hrun as _ <-; apply operations_step_refl|].
  destruct (context_encodable (so_ctx o)).
  - injection Hrun as _ <-. intros [Hnodup Hbelow].
    unfold operations_well_formed.
    cbn [assistance_operations_collection set_assistance_operations_collection
         set_oid_supply oid_supply sweep_log].
    split; [|split; [lia|split; [|reflexivity]]].
    + split.
      * rewrite map_app. simpl. apply NoDup_app. split; [exact Hnodup|].
        split; [|apply NoDup_singleton].
        intros x Hx Hx'. apply list_elem_of_singleton in Hx'. subst x.
        apply list_elem_of_fmap in Hx as (o' & Hoid & Ho').
        rewrite Forall_forall in Hbelow. destruct (Hbelow o' Ho') as (i & Hi & Hlt).
        rewrite Hi in Hoid. simpl in Hoid. injection Hoid as Heq. lia.
      * apply Forall_app. split.
        -- eapply Forall_impl; [exact Hbelow|]. intros o' (i & Hi & Hlt).
           exists i. split; [exact Hi | simpl; lia].
        -- constructor; [|constructor]. eexists. split; [reflexivity | simpl; lia].
    + intros o' Ho'. apply elem_of_app in Ho' as [Ho' | Ho']; [now left|].
      apply list_elem_of_singleton in Ho'. subst o'. right.
      eexists. split; [reflexivity | lia].
  - injection Hrun as _ <-. apply operations_step_refl.
Qed.

#[local] Hint Extern 1
  (operations_safe (create_assistance_operation_for_scheduled_invocation _ _)) =>
  apply create_assistance_operation_safe; reflexivity : operations_safe.

Lemma schedule_operation_safe (process : AssistanceProcess) (operation_key : string)
    (c : AssistanceContext) (delay : option Z) (a : option string) :
  operations_safe (schedule_operation process operation_key c delay a).
Proof. unfold schedule_operation, read_setting_by_key. operations_safe_known. Qed.

#[local] Hint Resolve schedule_operation_safe : operations_safe.

(** Deleting keeps a sub-list of the store. *)
Lemma operations_step_sublist (w : World) (kept : list AssistanceOperationModel) :
  sublist kept (assistance_operations_collection w) ->
  operations_step w (set_assistance_operations_collection kept w).
Proof.
  intros Hsub [Hnodup Hbelow]. simpl.
  split; [|split; [lia|split; [|reflexivity]]].
  - split.
    + apply (sublist_NoDup _ (map so_oid (assistance_operations_collection w)));
        [exact Hnodup|].
      simpl. apply (fmap_sublist so_oid). exact Hsub.
    + rewrite Forall_forall in Hbelow |- *. intros o Ho. apply Hbelow.
      eapply sublist_subseteq; eassumption.
  - intros o Ho. left. eapply sublist_subseteq; eassumption.
Qed.

Lemma remove_first_sublist {A : Type} (p : A -> bool) (l : list A) :
  sublist (remove_first p l) l.
Proof.
  induction l as [|x l IH]; simpl; [constructor|].
  destruct (p x); [now apply sublist_cons | now apply sublist_skip].
Qed.

Lemma filter_sublist {A : Type} (p : A -> bool) (l : list A) : sublist (List.filter p l) l.
Proof.
  induction l as [|x l IH]; simpl; [constructor|].
  destruct (p x); [now apply sublist_skip | now apply sublist_cons].
Qed.

Lemma delete_assistance_operation_safe (o : AssistanceOperationModel) :
  operations_safe (delete_assistance_operation o).
Proof.
  intros w r w' [= _ <-]. apply operations_step_sublist, remove_first_sublist.
Qed.

Lemma delete_assistance_operations_by_a_id_safe (q : Value) :
  operations_safe (delete_assistance_operations_by_a_id q).
Proof.
  intros w r w' [= _ <-]. apply operations_step_sublist, filter_sublist.
Qed.

Lemma send_assistance_safe (model_validate : Assistance -> bool) (l : list Assistance) :
  operations_safe (send_assistance model_validate l).
Proof. unfold send_assistance. operations_safe_auto. Qed.

#[local] Hint Resolve delete_assistance_operation_safe
  delete_assistance_operations_by_a_id_safe send_assistance_safe : operations_safe.

Lemma update_assistance_by_a_id_reset_next_operation_keys_safe (q : Value) :
  operations_safe (update_assistance_by_a_id_reset_next_operation_keys q).
Proof. unfold update_assistance_by_a_id_reset_next_operation_keys. operations_safe_auto. Qed.

#[local] Hint Resolve update_assistance_by_a_id_reset_next_operation_keys_safe
  : operations_safe.

Lemma process_assistance_result_safe (process : AssistanceProcess)
    (self : OperationAttributes) (to_process : option Assistance) (c : AssistanceContext)
    (scheduled triggered : list SubsequentAssistanceOperation) :
  operations_safe
    (_process_assistance_result process self to_process c scheduled triggered).
Proof. unfold _process_assistance_result. operations_safe_known. Qed.

#[local] Hint Resolve process_assistance_result_safe : operations_safe.

Lemma is_applicable_safe (self : OperationAttributes) (c : AssistanceContext) :
  operations_safe (is_applicable self c).
Proof. unfold is_applicable. operations_safe_known. Qed.

#[local] Hint Resolve is_applicable_safe : operations_safe.

Lemma execute_safe (process : AssistanceProcess) (operation : AssistanceOperation)
    (c : AssistanceContext) (phase : option Z) (step : option string) :
  (forall s c', operations_safe (_execute operation s c')) ->
  operations_safe (execute process operation c phase step).
Proof.
  intros Hexecute. unfold execute.
  apply operations_safe_bind; [apply Hexecute|]. intros [self1 result].
  operations_safe_known.
Qed.

Section SafeTypes.

Variable ASSISTANCE_TYPES : gmap string AssistanceProcess.

Hypothesis Hsafe : types_safe ASSISTANCE_TYPES.

Lemma check_applicability_and_execute_operation_safe (type_key : string)
    (process : AssistanceProcess) (operation_key : string) (c : AssistanceContext) :
  ASSISTANCE_TYPES !! type_key = Some process ->
  operations_safe (check_applicability_and_execute_operation process operation_key c).
Proof.
  intros Hprocess. unfold check_applicability_and_execute_operation.
  destruct (_registered_operations process !! operation_key) as [operation|] eqn:Hoperation;
    [|apply operations_safe_raise].
  destruct (Hsafe _ _ _ _ Hprocess Hoperation) as [Hexecute Hoverride].
  apply operations_safe_bind.
  - destruct (is_applicable_override operation) as [override|] eqn:Ho.
    + apply (Hoverride override eq_refl).
    + apply is_applicable_safe.
  - intros applicable. destruct (negb applicable); [apply operations_safe_ret|].
    apply operations_safe_bind; [now apply execute_safe|].
    intros [self' result]. apply operations_safe_ret.
Qed.

Lemma handle_assistance_request_safe (depth : nat) :
  forall (request : AssistanceRequest) (supported : list string),
    operations_safe (__handle_assistance_request ASSISTANCE_TYPES depth request supported).
Proof.
  induction depth as [|depth IH]; intros request supported; simpl.
  - apply operations_safe_raise.
  - apply operations_safe_bind; [apply operations_safe_gets|]. intros disabled.
    destruct (_ || _); [apply operations_safe_ret|].
    destruct (ASSISTANCE_TYPES !! assistance_type_key request) as [process|] eqn:Hprocess;
      [|apply operations_safe_raise].
    apply operations_safe_bind;
      [eapply check_applicability_and_execute_operation_safe, Hprocess|].
    intros [result|]; [|apply operations_safe_ret].
    destruct (is_empty _); [apply operations_safe_ret|].
    apply operations_safe_bind; [|intros ?; apply operations_safe_ret].
    apply operations_safe_for_each. intros chained_request acc.
    apply operations_safe_bind; [apply IH|].
    intros [chained|]; [apply operations_safe_ret | apply operations_safe_raise].
Qed.

End SafeTypes.

(** ** The sweep *)

Lemma remove_first_gone {A B : Type} `{EqDecision B} (f : A -> B) (v : B) (l : list A) :
  NoDup (map f l) ->
  forall x, x ∈ remove_first (fun y => bool_decide (f y = v)) l -> f x ≠ v.
Proof.
  induction l as [|y l IH]; simpl; intros Hnodup x Hx; [inversion Hx|].
  apply NoDup_cons in Hnodup as [Hnotin Hnodup].
  destruct (bool_decide (f y = v)) eqn:Hy.
  - apply bool_decide_eq_true_1 in Hy. subst v. intros Heq. apply Hnotin.
    rewrite <- Heq. apply list_elem_of_fmap. eauto.
  - apply elem_of_cons in Hx as [-> | Hx]; [|now apply IH].
    now apply bool_decide_eq_false_1 in Hy.
Qed.

Lemma entries_of_app (i : nat) (l1 l2 : list (option nat * bool)) :
  entries_of i (l1 ++ l2) = entries_of i l1 ++ entries_of i l2.
Proof. unfold entries_of. apply List.filter_app. Qed.

Lemma entries_of_absent (i : nat) (oids : list (option nat)) (oks : list bool) :
  Some i ∉ oids -> entries_of i (zip oids oks) = [].
Proof.
  revert oks. induction oids as [|x oids IH]; intros oks Hnotin; [reflexivity|].
  destruct oks as [|ok oks]; [reflexivity|]. simpl.
  apply not_elem_of_cons in Hnotin as [Hne Hnotin].
  rewrite bool_decide_eq_false_2 by congruence. now apply IH.
Qed.

(** In a log segment written for documents with distinct ids, the
    document at place [j] has exactly one entry. *)
Lemma entries_of_zip (i : nat) (oids : list (option nat)) :
  forall (oks : list bool) (j : nat) (ok : bool),
    NoDup oids ->
    oids !! j = Some (Some i) ->
    oks !! j = Some ok ->
    entries_of i (zip oids oks) = [(Some i, ok)].
Proof.
  induction oids as [|x oids IH]; intros oks j ok Hnodup Hj Hok; [discriminate|].
  apply NoDup_cons in Hnodup as [Hnotin Hnodup].
  destruct oks as [|ok0 oks]; [destruct j; discriminate|].
  destruct j as [|j]; simpl in *.
  - injection Hj as ->. injection Hok as ->.
    rewrite bool_decide_eq_true_2 by reflexivity.
    fold (entries_of i (zip oids oks)). now rewrite entries_of_absent.
  - rewrite bool_decide_eq_false_2.
    + eapply IH; eassumption.
    + intros ->. apply Hnotin. eapply list_elem_of_lookup_2, Hj.
Qed.

Section Sweep.

Variable ASSISTANCE_TYPES : gmap string AssistanceProcess.

Variable model_validate : Assistance -> bool.

Hypothesis Hsafe : types_safe ASSISTANCE_TYPES.

Variable depth : nat.

(** One document of the sweep: one engine call, then what [settled]
    says. The sweep itself never raises. *)
Lemma sweep_one_run (r : AssistanceOperationModel) (w : World) :
  sweep_one ASSISTANCE_TYPES model_validate depth r w
  = (inr tt,
     settled model_validate r
       (fst (__handle_assistance_request ASSISTANCE_TYPES depth (request_of r)
               (all_type_keys ASSISTANCE_TYPES) w))
       (snd (__handle_assistance_request ASSISTANCE_TYPES depth (request_of r)
               (all_type_keys ASSISTANCE_TYPES) w))).
Proof.
  unfold sweep_one, try_except, noting, settled, delivered, returned.
  fold (request_of r).
  unfold bind at 1.
  destruct (__handle_assistance_request ASSISTANCE_TYPES depth (request_of r)
              (all_type_keys ASSISTANCE_TYPES) w) as [[e|[result|]] w1];
    cbn [fst snd]; [reflexivity| |reflexivity].
  unfold send_assistance, result_assistance.
  destruct (forallb model_validate (assistance result)); reflexivity.
Qed.

Lemma sweep_one_spec (r : AssistanceOperationModel) (w : World) :
  operations_well_formed w ->
  exists outcome w1,
    __handle_assistance_request ASSISTANCE_TYPES depth (request_of r)
      (all_type_keys ASSISTANCE_TYPES) w = (outcome, w1)
    /\ sweep_one ASSISTANCE_TYPES model_validate depth r w
       = (inr tt, settled model_validate r outcome w1)
    /\ sweep_log (settled model_validate r outcome w1)
       = sweep_log w ++ [(so_oid r, returned outcome)]
    /\ operations_well_formed (settled model_validate r outcome w1)
    /\ oid_supply w <= oid_supply (settled model_validate r outcome w1)
    /\ (forall o, o ∈ assistance_operations_collection (settled model_validate r outcome w1) ->
          o ∈ assistance_operations_collection w
          \/ exists i, so_oid o = Some i /\ oid_supply w <= i)
    /\ (delivered model_validate outcome = true ->
        forall o, o ∈ assistance_operations_collection (settled model_validate r outcome w1) ->
                  so_oid o ≠ so_oid r).
Proof.
  intros Hwf.
  destruct (__handle_assistance_request ASSISTANCE_TYPES depth (request_of r)
              (all_type_keys ASSISTANCE_TYPES) w) as [outcome w1] eqn:Hhandle.
  pose proof (handle_assistance_request_safe ASSISTANCE_TYPES Hsafe depth _ _ _ _ _
                Hhandle Hwf) as (Hwf1 & Hsupply1 & Hin1 & Hlog1).
  exists outcome, w1. split; [reflexivity|].
  split; [now rewrite sweep_one_run, Hhandle|].
  assert (Hlog : sweep_log (settled model_validate r outcome w1)
                 = sweep_log w1 ++ [(so_oid r, returned outcome)]).
  { unfold settled. destruct (delivered model_validate outcome); [|reflexivity].
    destruct outcome as [e|[result|]]; reflexivity. }
  assert (Hsupply : oid_supply (settled model_validate r outcome w1) = oid_supply w1).
  { unfold settled. destruct (delivered model_validate outcome); [|reflexivity].
    destruct outcome as [e|[result|]]; reflexivity. }
  assert (Hops : assistance_operations_collection (settled model_validate r outcome w1)
                 = if delivered model_validate outcome
                   then remove_first (fun d => bool_decide (so_oid d = so_oid r))
                          (assistance_operations_collection w1)
                   else assistance_operations_collection w1).
  { unfold settled. destruct (delivered model_validate outcome); reflexivity. }
  assert (Hsub : sublist (assistance_operations_collection (settled model_validate r outcome w1))
                   (assistance_operations_collection w1)).
  { rewrite Hops. destruct (delivered model_validate outcome);
      [apply remove_first_sublist | reflexivity]. }
  destruct Hwf1 as [Hnodup1 Hbelow1].
  split; [now rewrite Hlog, Hlog1|]. split; [|split; [lia|split]].
  - split.
    + apply (sublist_NoDup _ (map so_oid (assistance_operations_collection w1)));
        [exact Hnodup1|].
      apply (fmap_sublist so_oid). exact Hsub.
    + rewrite Forall_forall in Hbelow1 |- *. intros o Ho. rewrite Hsupply.
      apply Hbelow1. eapply sublist_subseteq; eassumption.
  - intros o Ho. apply Hin1. eapply sublist_subseteq; eassumption.
  - intros Hdelivered o Ho. rewrite Hops, Hdelivered in Ho.
    eapply (remove_first_gone so_oid); eassumption.
Qed.

(** The loop of the sweep over the documents it read. *)
Lemma sweep_loop_spec (snapshot : list AssistanceOperationModel) :
  forall w : World,
    operations_well_formed w ->
    exists oks w',
      for_each snapshot
        (fun assistance_operation _ =>
           sweep_one ASSISTANCE_TYPES model_validate depth assistance_operation) tt w
      = (inr tt, w')
      /\ length oks = length snapshot
      /\ sweep_log w' = sweep_log w ++ zip (map so_oid snapshot) oks
      /\ operations_well_formed w'
      /\ oid_supply w <= oid_supply w'
      /\ (forall o, o ∈ assistance_operations_collection w' ->
            o ∈ assistance_operations_collection w
            \/ exists i, so_oid o = Some i /\ oid_supply w <= i).
Proof.
  induction snapshot as [|r snapshot IH]; intros w Hwf.
  - exists [], w. split; [reflexivity|]. split; [reflexivity|].
    split; [now rewrite app_nil_r|]. split; [exact Hwf|]. split; [lia|]. tauto.
  - destruct (sweep_one_spec r w Hwf)
      as (outcome & w1 & _ & Hone & Hlog1 & Hwf1 & Hsupply1 & Hin1 & _).
    destruct (IH _ Hwf1) as (oks & w' & Hrest & Hlen & Hlog & Hwf' & Hsupply & Hin).
    exists (returned outcome :: oks), w'. split; [|split; [|split; [|split; [|split]]]].
    + simpl. rewrite (bind_inr _ _ _ _ _ Hone). exact Hrest.
    + simpl. now rewrite Hlen.
    + rewrite Hlog, Hlog1. simpl. now rewrite <- app_assoc.
    + exact Hwf'.
    + lia.
    + intros o Ho. apply Hin in Ho as [Ho | (i & Hi & Hge)].
      * apply Hin1 in Ho. exact Ho.
      * right. exists i. split; [exact Hi | lia].
Qed.

Lemma check_scheduled_assistance_operations_run (w : World) :
  check_scheduled_assistance_operations ASSISTANCE_TYPES model_validate depth w
  = if sweep_disabled w then (inr tt, w)
    else for_each
           (List.filter (due_before (clock w)) (assistance_operations_collection w))
           (fun assistance_operation _ =>
              sweep_one ASSISTANCE_TYPES model_validate depth assistance_operation) tt w.
Proof.
  unfold check_scheduled_assistance_operations, sweep_disabled.
  rewrite (bind_inr _ _ _ _ _ (debug_run w)).
  destruct (debug_enabled w); simpl.
  - unfold read_setting_by_key. unfold bind at 1. unfold bind at 1. unfold gets at 1.
    destruct (find _ _) as [s|]; simpl; [destruct (truthy (stg_value s))|]; reflexivity.
  - reflexivity.
Qed.

Lemma for_each_app {A S : Type} (l1 l2 : list A) (body : A -> S -> M S) (acc : S)
    (w : World) :
  for_each (l1 ++ l2) body acc w
  = (let* acc1 := for_each l1 body acc in for_each l2 body acc1) w.
Proof.
  revert acc w. induction l1 as [|x l1 IH]; intros acc w; cbn [for_each app].
  - now rewrite bind_ret_l.
  - rewrite bind_assoc. destruct (body x acc w) as [[e|acc1] w1] eqn:Hbody.
    + now rewrite !(bind_inl _ _ _ _ _ Hbody).
    + rewrite !(bind_inr _ _ _ _ _ Hbody). apply IH.
Qed.

(** A sweep and one of the documents that are due: the sweep takes the
    documents it read in order, and the document is among them once;
    the documents before it are handled, then the engine is called for
    the document and the outcome settled, then the documents after it
    are handled. *)
Lemma sweep_spec (w : World) (r : AssistanceOperationModel) (i : nat) :
  operations_well_formed w ->
  sweep_disabled w = false ->
  r ∈ assistance_operations_collection w ->
  so_oid r = Some i ->
  due_before (clock w) r = true ->
  exists before after wb outcome we w',
    List.filter (due_before (clock w)) (assistance_operations_collection w)
    = before ++ r :: after
    /\ Forall (fun o => so_oid o ≠ Some i) (before ++ after)
    /\ for_each before
         (fun assistance_operation _ =>
            sweep_one ASSISTANCE_TYPES model_validate depth assistance_operation) tt w
       = (inr tt, wb)
    /\ __handle_assistance_request ASSISTANCE_TYPES depth (request_of r)
         (all_type_keys ASSISTANCE_TYPES) wb = (outcome, we)
    /\ for_each after
         (fun assistance_operation _ =>
            sweep_one ASSISTANCE_TYPES model_validate depth assistance_operation) tt
         (settled model_validate r outcome we)
       = (inr tt, w')
    /\ check_scheduled_assistance_operations ASSISTANCE_TYPES model_validate depth w
       = (inr tt, w')
    /\ (delivered model_validate outcome = true ->
        forall o, o ∈ assistance_operations_collection w' -> so_oid o ≠ Some i).
Proof.
  intros Hwf Henabled Hr Hi Hdue.
  rewrite check_scheduled_assistance_operations_run, Henabled.
  set (snapshot := List.filter (due_before (clock w)) (assistance_operations_collection w)).
  assert (Hin : r ∈ snapshot).
  { apply list_elem_of_In, List.filter_In. split; [now apply list_elem_of_In | exact Hdue]. }
  assert (Hnodup : NoDup (map so_oid snapshot)).
  { destruct Hwf as [Hnodup _].
    apply (sublist_NoDup _ (map so_oid (assistance_operations_collection w)));
      [exact Hnodup|].
    apply (fmap_sublist so_oid), filter_sublist. }
  apply list_elem_of_split in Hin as (before & after & Hsplit).
  destruct (sweep_loop_spec before w Hwf)
    as (oks & wb & Hbefore & _ & _ & Hwfb & Hsupplyb & _).
  destruct (sweep_one_spec r wb Hwfb)
    as (outcome & we & Hengine & Hone & _ & Hwfs & Hsupplys & _ & Hgone).
  destruct (sweep_loop_spec after _ Hwfs)
    as (oks' & w' & Hafter & _ & _ & _ & _ & Hin').
  exists before, after, wb, outcome, we, w'.
  split; [exact Hsplit|]. split; [|split; [exact Hbefore|split; [exact Hengine|
    split; [exact Hafter|split]]]].
  - rewrite Hsplit, map_app in Hnodup. cbn [map] in Hnodup.
    apply NoDup_app in Hnodup as (_ & Hdisjoint & Hrest).
    apply NoDup_cons in Hrest as [Hnotin _].
    apply Forall_app. split; apply Forall_forall; intros o Ho Hoid.
    + apply (Hdisjoint (so_oid o)); [now apply (list_elem_of_fmap_2 so_oid)|].
      rewrite Hoid, <- Hi. apply list_elem_of_here.
    + apply Hnotin. rewrite Hi, <- Hoid. now apply (list_elem_of_fmap_2 so_oid).
  - rewrite Hsplit, for_each_app, (bind_inr _ _ _ _ _ Hbefore).
    cbn [for_each]. now rewrite (bind_inr _ _ _ _ _ Hone).
  - intros Hdelivered o Ho. apply Hin' in Ho as [Ho | (j & Hj & Hge)].
    + rewrite <- Hi. now apply Hgone.
    + rewrite Hj. intros [= ->].
      destruct Hwf as [_ Hbelow]. rewrite Forall_forall in Hbelow.
      destruct (Hbelow r Hr) as (i' & Hi' & Hlt). rewrite Hi in Hi'. injection Hi' as <-. lia.
Qed.

End Sweep.

Lemma demo_types_safe : types_safe demo_types.
Proof.
  intros type_key process operation_key operation Hprocess Hoperation.
  unfold demo_types in Hprocess.
  apply lookup_singleton_Some in Hprocess as [_ <-].
  unfold demo_process in Hoperation.
  cbn [_registered_operations with_registered_operations] in Hoperation.
  apply lookup_insert_Some in Hoperation as [[_ <-] | [_ Hoperation]].
  - split; [intros s c; apply operations_safe_ret | discriminate].
  - apply lookup_insert_Some in Hoperation as [[_ <-] | [_ Hoperation]].
    + split; [intros s c; apply operations_safe_ret | discriminate].
    + rewrite lookup_empty in Hoperation. discriminate.
Qed.

(** C4, as stated, fails in its last part: the sweep deletes a document
    only when the engine call returned. Here the follow-up [next] was
    scheduled for an instance that is COMPLETED when the sweep runs; the
    engine raises [CompletedAssistanceModifyException], the sweep logs
    it, and the document stays in the store. *)
Lemma sweep_keeps_failing_operation_counterexample :
  ~ (forall (types : gmap string AssistanceProcess) (model_validate : Assistance -> bool)
            (depth : nat) (process : AssistanceProcess) (operation_key : string)
            (c : AssistanceContext) (delay factor : Z) (a : option string)
            (w w1 w3 : World) (later : Z),
       types_safe types ->
       operations_well_formed w ->
       as_number (debug_time_factor w) = inr factor ->
       schedulable (clock w) (delay * factor) ->
       schedule_operation process operation_key c (Some delay) a w = (inr tt, w1) ->
       (clock w + delay * factor <= later)%Z ->
       check_scheduled_assistance_operations types model_validate depth (set_clock later w1)
       = (inr tt, w3) ->
       forall o, o ∈ assistance_operations_collection w3 -> so_oid o ≠ Some (oid_supply w)).
Proof.
  intros H.
  pose (w := world_with_instance COMPLETED).
  pose (w1 := snd (schedule_operation demo_process "next" ctx_a1 (Some 5%Z) (Some "a1") w)).
  pose (w3 := snd (check_scheduled_assistance_operations demo_types (fun _ => true) 3
                     (set_clock 1005 w1))).
  specialize (H demo_types (fun _ => true) 3 demo_process "next" ctx_a1 5%Z 1%Z (Some "a1")
                w w1 w3 1005%Z demo_types_safe).
  assert (Hwf : operations_well_formed w) by (split; constructor).
  specialize (H Hwf eq_refl).
  assert (Hrange : schedulable (clock w) (5 * 1)) by (repeat split; vm_compute; discriminate).
  specialize (H Hrange eq_refl).
  assert (Hle : (clock w + 5 * 1 <= 1005)%Z) by (vm_compute; discriminate).
  specialize (H Hle).
  assert (Hrun : check_scheduled_assistance_operations demo_types (fun _ => true) 3
                   (set_clock 1005 w1)
                 = (inr tt, w3)) by (vm_compute; reflexivity).
  specialize (H Hrun
                (scheduled_document demo_process "next" ctx_a1 (Some "a1") 1005 0)).
  apply H; [|reflexivity].
  vm_compute. apply list_elem_of_here.
Qed.

Section ScheduleAndSweep.

Variable ASSISTANCE_TYPES : gmap string AssistanceProcess.

Variable model_validate : Assistance -> bool.

(** C4, amended. Scheduling a follow-up with delay D in the world [w],
    when Python can compute the due time, writes exactly one
    scheduled-operation document, with [time_of_invocation]
    = now + D * factor and a new id. A sweep that is not switched off
    and runs in a later world [w2] that still holds the document, at a
    time at or after that due time, never raises and takes the document
    up exactly once: the document is once in the list of due documents
    the sweep read; the sweep handles the documents before it, makes
    one engine call for the request of the document, settles the
    outcome, and handles the documents after it. When the engine call
    returned and its result, if it has one, passed the validation of
    the delivery, the document is no longer in the store after the
    sweep. When the call or the validation raised, the sweep sends and
    deletes nothing: the store of scheduled operations is, when the
    outcome is settled, as the engine call left it. *)
Theorem scheduled_operation_is_swept_once (depth : nat) (process : AssistanceProcess)
    (operation_key : string) (c : AssistanceContext) (delay factor : Z)
    (a : option string) (w : World) :
  types_safe ASSISTANCE_TYPES ->
  operations_well_formed w ->
  is_Some (_registered_operations process !! operation_key) ->
  context_can_be_persisted c = true ->
  context_encodable c = true ->
  as_number (debug_time_factor w) = inr factor ->
  schedulable (clock w) (delay * factor) ->
  let due := (clock w + delay * factor)%Z in
  let document := scheduled_document process operation_key c a due (oid_supply w) in
  let sweep_each :=
    fun (assistance_operation : AssistanceOperationModel) (_ : unit) =>
      sweep_one ASSISTANCE_TYPES model_validate depth assistance_operation in
  exists w1,
    schedule_operation process operation_key c (Some delay) a w = (inr tt, w1)
    /\ assistance_operations_collection w1
       = assistance_operations_collection w ++ [document]
    /\ operations_well_formed w1
    /\ forall w2,
         operations_well_formed w2 ->
         document ∈ assistance_operations_collection w2 ->
         (due <= clock w2)%Z ->
         sweep_disabled w2 = false ->
         exists before after wb outcome we w3,
           List.filter (due_before (clock w2)) (assistance_operations_collection w2)
           = before ++ document :: after
           /\ Forall (fun o => so_oid o ≠ Some (oid_supply w)) (before ++ after)
           /\ for_each before sweep_each tt w2 = (inr tt, wb)
           /\ __handle_assistance_request ASSISTANCE_TYPES depth (request_of document)
                (all_type_keys ASSISTANCE_TYPES) wb = (outcome, we)
           /\ for_each after sweep_each tt (settled model_validate document outcome we)
              = (inr tt, w3)
           /\ check_scheduled_assistance_operations ASSISTANCE_TYPES model_validate depth w2
              = (inr tt, w3)
           /\ (delivered model_validate outcome = true ->
               forall o, o ∈ assistance_operations_collection w3 ->
                         so_oid o ≠ Some (oid_supply w))
           /\ (delivered model_validate outcome = false ->
               assistance_operations_collection (settled model_validate document outcome we)
               = assistance_operations_collection we
               /\ sent (settled model_validate document outcome we) = sent we).
Proof.
  intros Hsafe Hwf Hregistered Hflag Hencodable Hfactor Hrange due document sweep_each.
  pose proof (schedule_operation_run process operation_key c delay factor a w
                Hregistered Hflag Hencodable Hfactor Hrange) as Hrun.
  eexists. split; [exact Hrun|]. split; [reflexivity|]. split.
  - pose proof (schedule_operation_safe process operation_key c (Some delay) a
                  _ _ _ Hrun Hwf) as (Hwf1 & _). exact Hwf1.
  - intros w2 Hwf2 Hin Hdue Henabled.
    destruct (sweep_spec ASSISTANCE_TYPES model_validate Hsafe depth w2 document
                (oid_supply w) Hwf2 Henabled Hin eq_refl)
      as (before & after & wb & outcome & we & w3 & Hsplit & Hothers & Hbefore & Hengine
          & Hafter & Hsweep & Hgone).
    { unfold due_before. simpl. now apply Z.leb_le. }
    exists before, after, wb, outcome, we, w3.
    repeat (split; [assumption|]).
    intros Hnot. unfold settled. rewrite Hnot. split; reflexivity.
Qed.

End ScheduleAndSweep.

Lemma scheduled_operation_is_swept_once_witness :
  (exists w1 w3,
     schedule_operation demo_process "next" ctx_a1 (Some 5%Z) (Some "a1")
       (world_with_instance IN_PROGRESS) = (inr tt, w1)
     /\ map so_time_of_invocation (assistance_operations_collection w1) = [Some 1005%Z]
     /\ check_scheduled_assistance_operations demo_types (fun _ => true) 3
          (set_clock 1005 w1) = (inr tt, w3)
     /\ sweep_log w3 = [(Some 0, true)]
     /\ assistance_operations_collection w3 = [])
  /\ (exists w1 w3,
        schedule_operation demo_process "next" ctx_a1 (Some 5%Z) (Some "a1")
          (world_with_instance COMPLETED) = (inr tt, w1)
        /\ check_scheduled_assistance_operations demo_types (fun _ => true) 3
             (set_clock 1005 w1) = (inr tt, w3)
        /\ sweep_log w3 = [(Some 0, false)]
        /\ assistance_operations_collection w3 = assistance_operations_collection w1).
Proof.
  split.
  - destruct (scheduled_operation_is_swept_once demo_types (fun _ => true) 3 demo_process
                "next" ctx_a1 5%Z 1%Z (Some "a1") (world_with_instance IN_PROGRESS))
      as (w1 & Hschedule & Hoperations & Hwf1 & Hsweep).
    + exact demo_types_safe.
    + split; constructor.
    + vm_compute. eauto.
    + reflexivity.
    + reflexivity.
    + reflexivity.
    + repeat split; vm_compute; discriminate.
    + vm_compute in Hschedule. injection Hschedule as <-.
      match type of Hwf1 with
      | operations_well_formed ?w1 =>
          destruct (Hsweep (set_clock 1005 w1) Hwf1)
            as (before & after & wb & outcome & we & w3 & _ & _ & _ & _ & _ & Hrun & _)
      end.
      * apply list_elem_of_here.
      * vm_compute. discriminate.
      * reflexivity.
      * eexists. exists w3. split; [reflexivity|]. split; [reflexivity|].
        split; [exact Hrun|].
        vm_compute in Hrun. injection Hrun as <-. split; reflexivity.
  - destruct (scheduled_operation_is_swept_once demo_types (fun _ => true) 3 demo_process
                "next" ctx_a1 5%Z 1%Z (Some "a1") (world_with_instance COMPLETED))
      as (w1 & Hschedule & Hoperations & Hwf1 & Hsweep).
    + exact demo_types_safe.
    + split; constructor.
    + vm_compute. eauto.
    + reflexivity.
    + reflexivity.
    + reflexivity.
    + repeat split; vm_compute; discriminate.
    + vm_compute in Hschedule. injection Hschedule as <-.
      match type of Hwf1 with
      | operations_well_formed ?w1 =>
          destruct (Hsweep (set_clock 1005 w1) Hwf1)
            as (before & after & wb & outcome & we & w3 & _ & _ & _ & _ & _ & Hrun & _)
      end.
      * apply list_elem_of_here.
      * vm_compute. discriminate.
      * reflexivity.
      * eexists. exists w3. split; [reflexivity|].
        split; [exact Hrun|].
        vm_compute in Hrun. injection Hrun as <-. split; reflexivity.
Defined.

(** The same runs, evaluated. On the running instance the engine call
    returned, the log has the one entry, and the store of scheduled
    operations is empty again. On the COMPLETED instance the engine call
    raised [CompletedAssistanceModifyException] and the document is
    still in the store; a second sweep makes the same call again. *)
Example scheduled_operation_swept :
  let w1 := snd (schedule_operation demo_process "next" ctx_a1 (Some 5%Z) (Some "a1")
                   (world_with_instance IN_PROGRESS)) in
  let w3 := snd (check_scheduled_assistance_operations demo_types (fun _ => true) 3
                   (set_clock 1005 w1)) in
  map so_time_of_invocation (assistance_operations_collection w1) = [Some 1005%Z]
  /\ sweep_log w3 = [(Some 0, true)]
  /\ assistance_operations_collection w3 = [].
Proof. vm_compute. repeat split; reflexivity. Qed.

Example failing_operation_swept_again :
  let w1 := snd (schedule_operation demo_process "next" ctx_a1 (Some 5%Z) (Some "a1")
                   (world_with_instance COMPLETED)) in
  let w3 := snd (check_scheduled_assistance_operations demo_types (fun _ => true) 3
                   (set_clock 1005 w1)) in
  let w4 := snd (check_scheduled_assistance_operations demo_types (fun _ => true) 3 w3) in
  fst (__handle_assistance_request demo_types 3
         (request_of (scheduled_document demo_process "next" ctx_a1 (Some "a1") 1005 0))
         (all_type_keys demo_types) (set_clock 1005 w1))
  = inl CompletedAssistanceModifyException
  /\ assistance_operations_collection w3 = assistance_operations_collection w1
  /\ sweep_log w4 = [(Some 0, false); (Some 0, false)].
Proof. vm_compute. repeat split; reflexivity. Qed.

(** An engine call that raises may itself have removed the document:
    the screencast hint deletes the scheduled operations of its
    instance before the write to the COMPLETED instance is refused. The
    sweep deletes nothing, and the next sweep finds nothing due. *)
Example late_hint_removes_itself :
  let w3 := snd (check_scheduled_assistance_operations (greeting_only example_t)
                   (fun _ => true) 3 (set_clock 1005 world_with_late_hint)) in
  fst (__handle_assistance_request (greeting_only example_t) 3 (request_of late_hint)
         (all_type_keys (greeting_only example_t)) (set_clock 1005 world_with_late_hint))
  = inl CompletedAssistanceModifyException
  /\ sweep_log w3 = [(Some 0, false)]
  /\ assistance_operations_collection w3 = [].
Proof. vm_compute. repeat split; reflexivity. Qed.

(** * Further properties of the code

    ** Parameter lists and contexts *)

Lemma foldl_append_filter {A : Type} (p : A -> bool) (l : list A) :
  forall acc,
    foldl (fun acc x => if p x then acc ++ [x] else acc) acc l = acc ++ List.filter p l.
Proof.
  induction l as [|x l IH]; intros acc; simpl.
  - now rewrite app_nil_r.
  - rewrite IH. destruct (p x); [now rewrite <- app_assoc | reflexivity].
Qed.

Lemma find_filter_other {A : Type} (p q : A -> bool) (l : list A) :
  (forall x, p x = true -> q x = true) ->
  find p (List.filter q l) = find p l.
Proof.
  intros Hpq. induction l as [|x l IH]; simpl; [reflexivity|].
  destruct (q x) eqn:Hq; simpl.
  - destruct (p x); [reflexivity | exact IH].
  - destruct (p x) eqn:Hp; [|exact IH]. apply Hpq in Hp. congruence.
Qed.

Lemma find_app {A : Type} (p : A -> bool) (l1 l2 : list A) :
  find p (l1 ++ l2) = match find p l1 with Some x => Some x | None => find p l2 end.
Proof.
  induction l1 as [|x l1 IH]; simpl; [reflexivity|]. destruct (p x); [reflexivity | exact IH].
Qed.

Lemma find_filter_none {A : Type} (p q : A -> bool) (l : list A) :
  (forall x, p x = true -> q x = false) ->
  find p (List.filter q l) = None.
Proof.
  intros Hpq. induction l as [|x l IH]; simpl; [reflexivity|].
  destruct (q x) eqn:Hq; simpl; [|exact IH].
  destruct (p x) eqn:Hp; [|exact IH]. apply Hpq in Hp. congruence.
Qed.

Lemma stdpp_filter_eq {A : Type} (P : A -> Prop) `{forall x, Decision (P x)} (l : list A) :
  filter P l = List.filter (fun x => bool_decide (P x)) l.
Proof.
  induction l as [|x l IH]; [reflexivity|]. simpl. rewrite filter_cons, IH.
  destruct (decide (P x)).
  - now rewrite bool_decide_eq_true_2.
  - now rewrite bool_decide_eq_false_2.
Qed.

(** X1. Looking a key up after [replace_or_add_assistance_parameters_by_key]:
    the key of the replacement gives the replacement, every other key
    gives what it gave in the list before (the same parameter, or the
    same [AssistanceParameterException]). *)
Theorem get_first_after_replace_or_add (replacement : AssistanceParameter)
    (parameters : list AssistanceParameter) (parameter_key : string) :
  get_first_assistance_parameter_by_key
    (replace_or_add_assistance_parameters_by_key replacement (Some parameters))
    parameter_key
  = if bool_decide (parameter_key = key replacement) then inr replacement
    else get_first_assistance_parameter_by_key parameters parameter_key.
Proof.
  unfold get_first_assistance_parameter_by_key, replace_or_add_assistance_parameters_by_key.
  rewrite stdpp_filter_eq, find_app.
  destruct (decide (parameter_key = key replacement)) as [-> | Hne].
  - rewrite bool_decide_eq_true_2 by reflexivity.
    rewrite find_filter_none.
    + simpl. now rewrite bool_decide_eq_true_2.
    + intros x Hx. apply bool_decide_eq_true_1 in Hx.
      apply bool_decide_eq_false_2. intros Hk. now apply Hk.
  - rewrite bool_decide_eq_false_2 by assumption.
    rewrite find_filter_other.
    + destruct (find _ parameters); [reflexivity|]. simpl.
      rewrite bool_decide_eq_false_2 by congruence. reflexivity.
    + intros x Hx. apply bool_decide_eq_true_1 in Hx.
      apply bool_decide_eq_true_2. congruence.
Qed.

Lemma get_assistance_parameters_by_key_filter (parameters : list AssistanceParameter)
    (parameter_key : string) :
  get_assistance_parameters_by_key parameters parameter_key
  = match List.filter (fun parameter => bool_decide (key parameter = parameter_key))
            parameters with
    | [] => inl AssistanceParameterException
    | l => inr l
    end.
Proof.
  unfold get_assistance_parameters_by_key.
  rewrite (foldl_append_filter (fun parameter => bool_decide (key parameter = parameter_key))).
  simpl. destruct (List.filter _ _); reflexivity.
Qed.

Lemma get_assistance_parameters_by_keys_filter (parameters : list AssistanceParameter)
    (parameter_keys : list string) :
  get_assistance_parameters_by_keys parameters parameter_keys
  = match List.filter (fun parameter => bool_decide (key parameter ∈ parameter_keys))
            parameters with
    | [] => inl AssistanceParameterException
    | l => inr l
    end.
Proof.
  unfold get_assistance_parameters_by_keys.
  rewrite (foldl_append_filter
             (fun parameter => bool_decide (key parameter ∈ parameter_keys))).
  simpl. destruct (List.filter _ _); reflexivity.
Qed.

Lemma head_filter_find {A : Type} (p : A -> bool) (l : list A) :
  head (List.filter p l) = find p l.
Proof.
  induction l as [|x l IH]; simpl; [reflexivity|]. destruct (p x); [reflexivity | exact IH].
Qed.

Lemma elem_of_List_filter {A : Type} (p : A -> bool) (l : list A) (x : A) :
  x ∈ List.filter p l <-> x ∈ l /\ p x = true.
Proof. rewrite !list_elem_of_In. apply List.filter_In. Qed.

(** X2. [get_assistance_parameters_by_key] raises
    [AssistanceParameterException] exactly when no parameter has the
    key, and then [get_first_assistance_parameter_by_key] raises it too;
    otherwise it returns the parameters with the key in their order, a
    list that is not empty and starts with the parameter that
    [get_first_assistance_parameter_by_key] returns. *)
Theorem get_assistance_parameters_by_key_spec (parameters : list AssistanceParameter)
    (parameter_key : string) :
  match get_assistance_parameters_by_key parameters parameter_key with
  | inl e =>
      e = AssistanceParameterException
      /\ (forall parameter, parameter ∈ parameters -> key parameter ≠ parameter_key)
      /\ get_first_assistance_parameter_by_key parameters parameter_key
         = inl AssistanceParameterException
  | inr found =>
      found = filter (fun parameter => key parameter = parameter_key) parameters
      /\ (exists first rest,
            found = first :: rest
            /\ get_first_assistance_parameter_by_key parameters parameter_key = inr first)
  end.
Proof.
  rewrite get_assistance_parameters_by_key_filter.
  unfold get_first_assistance_parameter_by_key.
  rewrite <- head_filter_find, stdpp_filter_eq.
  destruct (List.filter _ parameters) as [|first rest] eqn:Hfilter.
  - split; [reflexivity|]. split; [|reflexivity].
    intros parameter Hin Hkey.
    assert (Hmem : parameter ∈ List.filter
                     (fun parameter => bool_decide (key parameter = parameter_key))
                     parameters).
    { apply elem_of_List_filter. split; [assumption|]. now apply bool_decide_eq_true_2. }
    rewrite Hfilter in Hmem. inversion Hmem.
  - split; [reflexivity|]. exists first, rest. split; reflexivity.
Qed.

(** X3. After [replace_or_add_assistance_parameters_by_key] the key of
    the replacement occurs once: [get_assistance_parameters_by_key]
    returns the replacement alone, however many parameters had the key
    before. *)
Theorem get_assistance_parameters_by_key_after_replace_or_add
    (replacement : AssistanceParameter) (parameters : list AssistanceParameter) :
  get_assistance_parameters_by_key
    (replace_or_add_assistance_parameters_by_key replacement (Some parameters))
    (key replacement)
  = inr [replacement].
Proof.
  rewrite get_assistance_parameters_by_key_filter.
  unfold replace_or_add_assistance_parameters_by_key.
  rewrite stdpp_filter_eq, List.filter_app. simpl.
  rewrite bool_decide_eq_true_2 by reflexivity.
  replace (List.filter _ (List.filter _ parameters)) with (@nil AssistanceParameter);
    [reflexivity|].
  symmetry. induction parameters as [|x l IH]; simpl; [reflexivity|].
  destruct (decide (key x = key replacement)) as [Heq | Hne].
  - rewrite (bool_decide_eq_false_2 (key x ≠ key replacement)) by tauto. exact IH.
  - rewrite (bool_decide_eq_true_2 (key x ≠ key replacement)) by assumption. simpl.
    rewrite bool_decide_eq_false_2 by assumption. exact IH.
Qed.

(** X4. [get_assistance_parameters_by_keys]: with no key it raises
    [AssistanceParameterException] for every list; with one key it is
    [get_assistance_parameters_by_key]; a list it returns is never
    empty and holds the parameters whose key is among the keys, in their
    order; it raises exactly when no parameter has one of the keys. *)
Theorem get_assistance_parameters_by_keys_spec (parameters : list AssistanceParameter) :
  get_assistance_parameters_by_keys parameters [] = inl AssistanceParameterException
  /\ (forall parameter_key,
        get_assistance_parameters_by_keys parameters [parameter_key]
        = get_assistance_parameters_by_key parameters parameter_key)
  /\ (forall parameter_keys found,
        get_assistance_parameters_by_keys parameters parameter_keys = inr found ->
        found ≠ []
        /\ found = filter (fun parameter => key parameter ∈ parameter_keys) parameters)
  /\ (forall parameter_keys,
        get_assistance_parameters_by_keys parameters parameter_keys
        = inl AssistanceParameterException
        <-> forall parameter, parameter ∈ parameters -> key parameter ∉ parameter_keys).
Proof.
  split; [|split; [|split]].
  - rewrite get_assistance_parameters_by_keys_filter.
    replace (List.filter _ parameters) with (@nil AssistanceParameter); [reflexivity|].
    symmetry. induction parameters as [|x l IH]; cbn [List.filter]; [reflexivity|].
    rewrite bool_decide_eq_false_2 by apply not_elem_of_nil. exact IH.
  - intros parameter_key.
    rewrite get_assistance_parameters_by_keys_filter, get_assistance_parameters_by_key_filter.
    replace (List.filter (fun parameter => bool_decide (key parameter ∈ [parameter_key]))
               parameters)
      with (List.filter (fun parameter => bool_decide (key parameter = parameter_key))
              parameters); [reflexivity|].
    apply List.filter_ext. intros x. apply bool_decide_ext.
    rewrite list_elem_of_singleton. reflexivity.
  - intros parameter_keys found. rewrite get_assistance_parameters_by_keys_filter.
    rewrite stdpp_filter_eq.
    destruct (List.filter _ parameters) as [|first rest]; [discriminate|].
    intros [= <-]. split; [discriminate | reflexivity].
  - intros parameter_keys. rewrite get_assistance_parameters_by_keys_filter.
    destruct (List.filter _ parameters) as [|first rest] eqn:Hfilter.
    + split; [|reflexivity]. intros _ parameter Hin Hkey.
      assert (Hmem : parameter ∈ List.filter
                       (fun parameter => bool_decide (key parameter ∈ parameter_keys))
                       parameters).
      { apply elem_of_List_filter. split; [assumption|]. now apply bool_decide_eq_true_2. }
      rewrite Hfilter in Hmem. inversion Hmem.
    + split; [discriminate|]. intros Hnone. exfalso.
      assert (Hmem : first ∈ List.filter
                       (fun parameter => bool_decide (key parameter ∈ parameter_keys))
                       parameters).
      { rewrite Hfilter. apply list_elem_of_here. }
      apply elem_of_List_filter in Hmem as [Hin Hkey].
      apply bool_decide_eq_true_1 in Hkey.
      apply (Hnone first); assumption.
Qed.

(** X5. [AssistanceContext.add_parameter] never overwrites: it raises
    [AssistanceParameterException] exactly when the key is present;
    when it returns, the key was absent, [get_parameter] now returns the
    value, every other key reads as before, and adding the key a second
    time raises. *)
Theorem add_parameter_get_parameter (ctx : AssistanceContext) (parameter_key : string)
    (parameter_value : Value) :
  match add_parameter ctx parameter_key parameter_value with
  | inl e =>
      e = AssistanceParameterException
      /\ exists v, get_parameter ctx parameter_key = inr v
  | inr ctx' =>
      get_parameter ctx parameter_key = inl AssistanceParameterException
      /\ get_parameter ctx' parameter_key = inr parameter_value
      /\ (forall other_key, other_key ≠ parameter_key ->
            get_parameter ctx' other_key = get_parameter ctx other_key)
      /\ (forall other_value,
            add_parameter ctx' parameter_key other_value = inl AssistanceParameterException)
  end.
Proof.
  unfold add_parameter, get_parameter.
  destruct (parameter_dict ctx !! parameter_key) as [v|] eqn:Hlook.
  - split; [reflexivity | eauto].
  - cbn [parameter_dict]. split; [reflexivity|]. rewrite lookup_insert_eq.
    split; [reflexivity|]. split; [|reflexivity].
    intros other_key Hne. now rewrite lookup_insert_ne by congruence.
Qed.

Lemma initiation_parameters_dict_snoc (parameters : list AssistanceParameter)
    (parameter : AssistanceParameter) :
  get_assistance_initiation_parameters_dict (parameters ++ [parameter])
  = <[key parameter := value parameter]>
      (get_assistance_initiation_parameters_dict parameters).
Proof. unfold get_assistance_initiation_parameters_dict. now rewrite foldl_app. Qed.

(** X6. The context built from initiation parameters: reading a key
    gives the value of the last parameter with that key, and raises
    [AssistanceParameterException] when no parameter has it. *)
Theorem initiation_parameters_dict_lookup (parameters : list AssistanceParameter)
    (parameter_key : string) :
  get_parameter (new_context (get_assistance_initiation_parameters_dict parameters))
    parameter_key
  = match last (filter (fun parameter => key parameter = parameter_key) parameters) with
    | Some parameter => inr (value parameter)
    | None => inl AssistanceParameterException
    end.
Proof.
  unfold get_parameter, new_context. cbn [parameter_dict].
  induction parameters as [|parameter parameters IH] using rev_ind.
  - reflexivity.
  - rewrite initiation_parameters_dict_snoc, filter_app.
    destruct (decide (key parameter = parameter_key)) as [<- | Hne].
    + rewrite lookup_insert_eq, filter_cons_True by reflexivity.
      rewrite filter_nil, last_snoc. reflexivity.
    + rewrite lookup_insert_ne by assumption.
      rewrite filter_cons_False by assumption. rewrite filter_nil, app_nil_r. exact IH.
Qed.

(** ** The sweep: what it leaves, drops and keeps *)

Lemma NoDup_map_elem_inj {A B : Type} (f : A -> B) (l : list A) (x y : A) :
  NoDup (map f l) -> x ∈ l -> y ∈ l -> f x = f y -> x = y.
Proof.
  induction l as [|z l IH]; intros Hnodup Hx Hy Hf; [inversion Hx|].
  simpl in Hnodup. apply NoDup_cons in Hnodup as [Hz Hnodup].
  apply elem_of_cons in Hx as [-> | Hx]; apply elem_of_cons in Hy as [-> | Hy].
  - reflexivity.
  - exfalso. apply Hz. rewrite Hf. now apply (list_elem_of_fmap_2 f).
  - exfalso. apply Hz. rewrite <- Hf. now apply (list_elem_of_fmap_2 f).
  - now apply IH.
Qed.

Lemma filter_nothing {A : Type} (p : A -> bool) (l : list A) :
  Forall (fun x => p x = false) l -> List.filter p l = [].
Proof.
  induction 1 as [|x l Hx _ IH]; [reflexivity|]. cbn [List.filter]. now rewrite Hx.
Qed.

Section SweepEdges.

Variable ASSISTANCE_TYPES : gmap string AssistanceProcess.

Variable model_validate : Assistance -> bool.

Variable depth : nat.

(** X7. A sweep does not hand a scheduled operation to the engine
    before it is due: the ghost log has no new entry for it, whatever
    the due operations of the same sweep do; and when no stored
    operation is due, the sweep leaves the whole world as it is. *)
Theorem sweep_leaves_operations_not_due (w : World) (r : AssistanceOperationModel)
    (i : nat) :
  types_safe ASSISTANCE_TYPES ->
  operations_well_formed w ->
  r ∈ assistance_operations_collection w ->
  so_oid r = Some i ->
  due_before (clock w) r = false ->
  exists w',
    check_scheduled_assistance_operations ASSISTANCE_TYPES model_validate depth w = (inr tt, w')
    /\ entries_of i (sweep_log w') = entries_of i (sweep_log w)
    /\ (Forall (fun o => due_before (clock w) o = false)
          (assistance_operations_collection w) -> w' = w).
Proof.
  intros Hsafe Hwf Hin Hoid Hdue.
  rewrite check_scheduled_assistance_operations_run.
  destruct (sweep_disabled w).
  { exists w. split; [reflexivity|]. split; [reflexivity | intros _; reflexivity]. }
  destruct (sweep_loop_spec ASSISTANCE_TYPES model_validate Hsafe depth
              (List.filter (due_before (clock w)) (assistance_operations_collection w))
              w Hwf)
    as (oks & w' & Hrun & _ & Hlog & _).
  exists w'. split; [exact Hrun|]. split.
  - rewrite Hlog, entries_of_app, entries_of_absent; [apply app_nil_r|].
    intros Hmem. apply list_elem_of_fmap in Hmem as (r' & Hoid' & Hin').
    apply elem_of_List_filter in Hin' as [Hin' Hdue'].
    assert (r' = r) as ->.
    { apply (NoDup_map_elem_inj so_oid (assistance_operations_collection w));
        [apply Hwf | assumption | assumption | congruence]. }
    congruence.
  - intros Hnone.
    replace (List.filter (due_before (clock w)) (assistance_operations_collection w))
      with (@nil AssistanceOperationModel) in Hrun.
    + now injection Hrun as <-.
    + symmetry. now apply filter_nothing.
Qed.

(** One turn of the loop on a record whose type is disabled or not in
    the table: the resolver returns [None] and the record is deleted. *)
Lemma sweep_one_unsupported (r : AssistanceOperationModel) (w : World) :
  so_assistance_type_key r ∈ disabled_assistance_type_keys w
  \/ so_assistance_type_key r ∉ all_type_keys ASSISTANCE_TYPES ->
  sweep_one ASSISTANCE_TYPES model_validate (S depth) r w
  = (inr tt,
     set_assistance_operations_collection
       (remove_first (fun o => bool_decide (so_oid o = so_oid r))
          (assistance_operations_collection w))
       (set_sweep_log (sweep_log w ++ [(so_oid r, true)]) w)).
Proof.
  intros Hunsupported. rewrite sweep_one_run.
  assert (Hhandle :
    __handle_assistance_request ASSISTANCE_TYPES (S depth) (request_of r)
      (all_type_keys ASSISTANCE_TYPES) w = (inr None, w)).
  { cbn [__handle_assistance_request].
    unfold bind at 1, gets at 1. cbn [assistance_type_key request_of].
    replace (bool_decide (so_assistance_type_key r ∈ disabled_assistance_type_keys w)
             || negb (bool_decide (so_assistance_type_key r
                                   ∈ all_type_keys ASSISTANCE_TYPES)))
      with true; [reflexivity|].
    symmetry. destruct Hunsupported as [Hdisabled | Hunknown].
    - now rewrite bool_decide_eq_true_2.
    - rewrite (bool_decide_eq_false_2 _ Hunknown). apply orb_true_r. }
  rewrite Hhandle. reflexivity.
Qed.

Lemma remove_others_keeps_head {A B : Type} `{EqDecision B} (f : A -> B) (x : A)
    (l : list A) (removed : list A) :
  Forall (fun r => f r ≠ f x) removed ->
  foldl (fun c r => remove_first (fun o => bool_decide (f o = f r)) c) (x :: l) removed
  = x :: foldl (fun c r => remove_first (fun o => bool_decide (f o = f r)) c) l removed.
Proof.
  intros Hothers. revert l. induction Hothers as [|r removed Hr _ IH]; intros l.
  - reflexivity.
  - cbn [foldl remove_first]. rewrite bool_decide_eq_false_2 by congruence. apply IH.
Qed.

Lemma remove_each_filtered {A B : Type} `{EqDecision B} (f : A -> B) (p : A -> bool)
    (l : list A) :
  NoDup (map f l) ->
  foldl (fun c r => remove_first (fun o => bool_decide (f o = f r)) c) l (List.filter p l)
  = List.filter (fun o => negb (p o)) l.
Proof.
  induction l as [|x l IH]; intros Hnodup; [reflexivity|].
  simpl in Hnodup. apply NoDup_cons in Hnodup as [Hx Hnodup].
  cbn [List.filter]. destruct (p x); cbn [negb].
  - cbn [foldl remove_first]. rewrite bool_decide_eq_true_2 by reflexivity. now apply IH.
  - rewrite remove_others_keeps_head.
    + f_equal. now apply IH.
    + apply Forall_forall. intros r Hr Heq. apply elem_of_List_filter in Hr as [Hr _].
      apply Hx. rewrite <- Heq. now apply (list_elem_of_fmap_2 f).
Qed.

Lemma sweep_loop_unsupported (snapshot : list AssistanceOperationModel) :
  forall w : World,
    Forall (fun r => so_assistance_type_key r ∈ disabled_assistance_type_keys w
                     \/ so_assistance_type_key r ∉ all_type_keys ASSISTANCE_TYPES)
      snapshot ->
    for_each snapshot
      (fun assistance_operation _ =>
         sweep_one ASSISTANCE_TYPES model_validate (S depth) assistance_operation) tt w
    = (inr tt,
       set_assistance_operations_collection
         (foldl (fun c r => remove_first (fun o => bool_decide (so_oid o = so_oid r)) c)
            (assistance_operations_collection w) snapshot)
         (set_sweep_log (sweep_log w ++ map (fun r => (so_oid r, true)) snapshot) w)).
Proof.
  induction snapshot as [|r snapshot IH]; intros w Hall.
  - cbn [for_each foldl map]. rewrite app_nil_r. unfold ret. f_equal.
    destruct w; reflexivity.
  - apply Forall_cons in Hall as [Hr Hall]. cbn [for_each].
    rewrite (bind_inr _ _ _ _ _ (sweep_one_unsupported r w Hr)).
    rewrite IH by exact Hall. cbn [foldl map]. f_equal.
    unfold set_assistance_operations_collection, set_sweep_log. cbn.
    now rewrite <- app_assoc.
Qed.

(** X8. A due operation whose type is disabled, or is not in the table
    of types, is dropped without being executed: when every due
    operation is of that kind, the sweep deletes exactly the due
    operations and leaves the instances, the objects and the delivery
    sink untouched. *)
Theorem sweep_drops_operations_of_unsupported_types (w : World) :
  NoDup (map so_oid (assistance_operations_collection w)) ->
  sweep_disabled w = false ->
  (forall r, r ∈ assistance_operations_collection w ->
             due_before (clock w) r = true ->
             so_assistance_type_key r ∈ disabled_assistance_type_keys w
             \/ so_assistance_type_key r ∉ all_type_keys ASSISTANCE_TYPES) ->
  exists w',
    check_scheduled_assistance_operations ASSISTANCE_TYPES model_validate (S depth) w = (inr tt, w')
    /\ assistance_operations_collection w'
       = List.filter (fun o => negb (due_before (clock w) o))
           (assistance_operations_collection w)
    /\ assistance_collection w' = assistance_collection w
    /\ assistance_objects_collection w' = assistance_objects_collection w
    /\ sent w' = sent w.
Proof.
  intros Hnodup Henabled Hdue.
  rewrite check_scheduled_assistance_operations_run, Henabled.
  rewrite sweep_loop_unsupported.
  - eexists. split; [reflexivity|]. cbn.
    split; [|auto]. now apply remove_each_filtered.
  - apply Forall_forall. intros r Hr. apply elem_of_List_filter in Hr as [Hr Hd]. auto.
Qed.

(** One turn of the loop on a record that names an operation its
    process does not register: the resolver raises, the exception is
    caught and the record stays. *)
Lemma sweep_one_unregistered (r : AssistanceOperationModel) (w : World)
    (process : AssistanceProcess) :
  so_assistance_type_key r ∉ disabled_assistance_type_keys w ->
  so_assistance_type_key r ∈ all_type_keys ASSISTANCE_TYPES ->
  ASSISTANCE_TYPES !! so_assistance_type_key r = Some process ->
  _registered_operations process !! so_assistance_operation_key r = None ->
  sweep_one ASSISTANCE_TYPES model_validate (S depth) r w
  = (inr tt, set_sweep_log (sweep_log w ++ [(so_oid r, false)]) w).
Proof.
  intros Henabled Hsupported Hprocess Hoperation. rewrite sweep_one_run.
  assert (Hhandle :
    __handle_assistance_request ASSISTANCE_TYPES (S depth) (request_of r)
      (all_type_keys ASSISTANCE_TYPES) w = (inl AssistanceOperationException, w)).
  { cbn [__handle_assistance_request].
    unfold bind at 1, gets at 1. cbn [assistance_type_key request_of].
    rewrite (bool_decide_eq_false_2 _ Henabled), (bool_decide_eq_true_2 _ Hsupported).
    cbn [orb negb]. rewrite Hprocess.
    unfold check_applicability_and_execute_operation.
    cbn [assistance_operation_key request_of].
    rewrite Hoperation. reflexivity. }
  rewrite Hhandle. reflexivity.
Qed.

(** X9. A due operation that names an operation key its process does
    not register is never deleted: the resolver raises
    [AssistanceOperationException], the sweep catches it, and when every
    due operation is of that kind the store is the same after the sweep
    (only the ghost log grew), so the next sweep finds them due again. *)
Theorem sweep_keeps_operations_not_registered (w : World) :
  sweep_disabled w = false ->
  (forall r, r ∈ assistance_operations_collection w ->
             due_before (clock w) r = true ->
             (so_assistance_type_key r ∉ disabled_assistance_type_keys w)
             /\ so_assistance_type_key r ∈ all_type_keys ASSISTANCE_TYPES
             /\ exists process,
                  ASSISTANCE_TYPES !! so_assistance_type_key r = Some process
                  /\ _registered_operations process !! so_assistance_operation_key r
                     = None) ->
  check_scheduled_assistance_operations ASSISTANCE_TYPES model_validate (S depth) w
  = (inr tt,
     set_sweep_log
       (sweep_log w
        ++ map (fun r => (so_oid r, false))
             (List.filter (due_before (clock w)) (assistance_operations_collection w)))
       w).
Proof.
  intros Henabled Hdue.
  rewrite check_scheduled_assistance_operations_run, Henabled.
  assert (Hloop : forall snapshot w0,
    disabled_assistance_type_keys w0 = disabled_assistance_type_keys w ->
    Forall (fun r => r ∈ assistance_operations_collection w
                     /\ due_before (clock w) r = true) snapshot ->
    for_each snapshot
      (fun assistance_operation _ =>
         sweep_one ASSISTANCE_TYPES model_validate (S depth) assistance_operation) tt w0
    = (inr tt,
       set_sweep_log (sweep_log w0 ++ map (fun r => (so_oid r, false)) snapshot) w0)).
  { induction snapshot as [|r snapshot IH]; intros w0 Hsame Hall.
    - cbn [for_each map]. rewrite app_nil_r. unfold ret. f_equal. destruct w0; reflexivity.
    - apply Forall_cons in Hall as [[Hr Hd] Hall]. cbn [for_each].
      destruct (Hdue r Hr Hd) as (Hen & Hsup & process & Hprocess & Hoperation).
      rewrite <- Hsame in Hen.
      rewrite (bind_inr _ _ _ _ _
                 (sweep_one_unregistered r w0 process Hen Hsup Hprocess Hoperation)).
      rewrite IH; [|exact Hsame | exact Hall]. cbn [map]. f_equal.
      unfold set_sweep_log. cbn. now rewrite <- app_assoc. }
  apply Hloop; [reflexivity|].
  apply Forall_forall. intros r Hr. now apply elem_of_List_filter in Hr.
Qed.

End SweepEdges.

Lemma sweep_leaves_operations_not_due_witness :
  exists w',
    check_scheduled_assistance_operations demo_types (fun _ => true) 5 world_with_waiting_operation
    = (inr tt, w')
    /\ entries_of 0 (sweep_log w') = entries_of 0 (sweep_log world_with_waiting_operation)
    /\ (Forall (fun o => due_before (clock world_with_waiting_operation) o = false)
          (assistance_operations_collection world_with_waiting_operation) ->
        w' = world_with_waiting_operation).
Proof.
  apply (sweep_leaves_operations_not_due demo_types (fun _ => true) 5 world_with_waiting_operation
           waiting_operation 0).
  - exact demo_types_safe.
  - split.
    + apply NoDup_singleton.
    + repeat constructor. exists 0. split; [reflexivity|]. simpl. lia.
  - apply list_elem_of_here.
  - reflexivity.
  - reflexivity.
Defined.

Lemma sweep_drops_operations_of_unsupported_types_witness :
  exists w',
    check_scheduled_assistance_operations demo_types (fun _ => true) 5 world_with_disabled_type
    = (inr tt, w')
    /\ assistance_operations_collection w' = []
    /\ assistance_collection w' = [stored_instance IN_PROGRESS]
    /\ assistance_objects_collection w' = []
    /\ sent w' = [].
Proof.
  apply (sweep_drops_operations_of_unsupported_types demo_types (fun _ => true) 4 world_with_disabled_type).
  - apply NoDup_singleton.
  - reflexivity.
  - intros r Hr _. apply list_elem_of_singleton in Hr as ->. left. apply list_elem_of_here.
Defined.

Lemma sweep_keeps_operations_not_registered_witness :
  check_scheduled_assistance_operations demo_types (fun _ => true) 5 world_with_unregistered_operation
  = (inr tt, set_sweep_log [(Some 0, false)] world_with_unregistered_operation).
Proof.
  apply (sweep_keeps_operations_not_registered demo_types (fun _ => true) 4
           world_with_unregistered_operation).
  - reflexivity.
  - intros r Hr _. apply list_elem_of_singleton in Hr as ->.
    split; [apply not_elem_of_nil|]. split.
    + vm_compute. apply list_elem_of_here.
    + exists demo_process. split; reflexivity.
Defined.

(** ** Writing objects and responses *)

Lemma world_eta (w : World) :
  {| assistance_collection := assistance_collection w;
     assistance_objects_collection := assistance_objects_collection w;
     assistance_operations_collection := assistance_operations_collection w;
     settings_collection := settings_collection w;
     statements_collection := statements_collection w;
     student_models_collection := student_models_collection w;
     env_debug := env_debug w;
     disabled_assistance_type_keys := disabled_assistance_type_keys w;
     clock := clock w; uuid_supply := uuid_supply w; oid_supply := oid_supply w;
     sent := sent w; sweep_log := sweep_log w |} = w.
Proof. destruct w; reflexivity. Qed.

(** The first loop of [create_assistance_objects]. *)
Lemma create_assistance_objects_dicts (a : option string)
    (objects : list AssistanceObject) :
  forall (dicts : list AssistanceObject) (w : World),
    for_each objects (fun assistance_object dicts =>
      let* new_ao_id := uuid4 in
      let* now := current_datetime in
      ret (dicts ++ [ {| ao_a_id := a;
                         ao_assistance_type := ao_assistance_type assistance_object;
                         ao_id := Some new_ao_id;
                         ao_user_id := ao_user_id assistance_object;
                         ao_timestamp := Some now;
                         ao_parameters := ao_parameters assistance_object;
                         ao_type := ao_type assistance_object;
                         ao_oid := ao_oid assistance_object |} ])) dicts w
    = (inr (dicts
            ++ imap (fun j o =>
                       {| ao_a_id := a; ao_assistance_type := ao_assistance_type o;
                          ao_id := Some (uuid_str (uuid_supply w + j));
                          ao_user_id := ao_user_id o; ao_timestamp := Some (clock w);
                          ao_parameters := ao_parameters o; ao_type := ao_type o;
                          ao_oid := ao_oid o |}) objects),
       set_uuid_supply (uuid_supply w + length objects) w).
Proof.
  induction objects as [|o objects IH]; intros dicts w.
  - cbn. rewrite app_nil_r, Nat.add_0_r. unfold ret, set_uuid_supply.
    now rewrite world_eta.
  - cbn [for_each]. unfold bind at 1. unfold bind at 1. unfold uuid4 at 1.
    unfold bind at 1. unfold current_datetime at 1, gets at 1. unfold ret at 1.
    rewrite IH. cbn [imap length]. f_equal.
    + f_equal. rewrite <- app_assoc. cbn. rewrite Nat.add_0_r. do 2 f_equal.
      apply imap_ext. intros j x _. unfold compose. cbn [uuid_supply set_uuid_supply clock].
      replace (uuid_supply w + S j) with (S (uuid_supply w + j)) by lia. reflexivity.
    + unfold set_uuid_supply. cbn. f_equal. lia.
Qed.

(** The loop of [insert_many] on documents without [_id]. *)
Lemma insert_assistance_objects_run (docs : list AssistanceObject) :
  Forall (fun d => ao_oid d = None) docs ->
  forall (inserted : list AssistanceObject) (w : World),
    for_each docs insert_assistance_object inserted w
    = (inr (inserted ++ imap (fun j d => with_oid (oid_supply w + j) d) docs),
       set_assistance_objects_collection
         (assistance_objects_collection w
          ++ imap (fun j d => with_oid (oid_supply w + j) d) docs)
         (set_oid_supply (oid_supply w + length docs) w)).
Proof.
  induction 1 as [|d docs Hd _ IH]; intros inserted w.
  - cbn. rewrite !app_nil_r, Nat.add_0_r.
    unfold ret, set_assistance_objects_collection, set_oid_supply. cbn.
    now rewrite world_eta.
  - cbn [for_each]. unfold insert_assistance_object at 1. rewrite Hd.
    unfold bind at 1. unfold bind at 1. unfold fresh_oid at 1.
    unfold bind at 1. unfold modify at 1. unfold ret at 1.
    rewrite IH. cbn [imap length]. unfold compose.
    cbn [oid_supply set_oid_supply set_assistance_objects_collection
         assistance_objects_collection].
    rewrite Nat.add_0_r.
    assert (Hshift : imap (fun j d0 => with_oid (S (oid_supply w) + j) d0) docs
                     = imap (fun j d0 => with_oid (oid_supply w + S j) d0) docs).
    { apply imap_ext. intros j x _. f_equal. lia. }
    rewrite Hshift. f_equal.
    + f_equal. now rewrite <- app_assoc.
    + unfold set_assistance_objects_collection, set_oid_supply. cbn.
      rewrite <- app_assoc. f_equal. lia.
Qed.

Lemma created_objects_imap (a : option string) (now : Z) (objects : list AssistanceObject) :
  forall u i,
    created_objects a now u i objects
    = imap (fun j o => created_object a now (u + j) (i + j) o) objects.
Proof.
  induction objects as [|o objects IH]; intros u i; [reflexivity|].
  cbn [created_objects imap]. rewrite !Nat.add_0_r, IH. f_equal.
  apply imap_ext. intros j x _. unfold compose. f_equal; lia.
Qed.

Lemma created_objects_length (a : option string) (now : Z) (objects : list AssistanceObject) :
  forall u i, length (created_objects a now u i objects) = length objects.
Proof. induction objects as [|o objects IH]; intros u i; cbn; [|rewrite IH]; reflexivity. Qed.

Lemma created_objects_lookup (a : option string) (now : Z) (objects : list AssistanceObject)
    (u i j : nat) (c : AssistanceObject) :
  created_objects a now u i objects !! j = Some c ->
  exists o, objects !! j = Some o /\ c = created_object a now (u + j) (i + j) o.
Proof.
  rewrite created_objects_imap, list_lookup_imap.
  destruct (objects !! j) as [o|]; [|discriminate]. intros [= <-]. eauto.
Qed.

Lemma created_objects_NoDup (a : option string) (now : Z) (objects : list AssistanceObject)
    (u i : nat) :
  NoDup (map ao_id (created_objects a now u i objects))
  /\ NoDup (map ao_oid (created_objects a now u i objects)).
Proof.
  split; apply NoDup_alt; intros j1 j2 x H1 H2;
    rewrite list_lookup_fmap in H1, H2;
    destruct (created_objects a now u i objects !! j1) as [c1|] eqn:Hc1; try discriminate;
    destruct (created_objects a now u i objects !! j2) as [c2|] eqn:Hc2; try discriminate;
    apply created_objects_lookup in Hc1 as (o1 & _ & ->);
    apply created_objects_lookup in Hc2 as (o2 & _ & ->);
    cbn in H1, H2; rewrite <- H2 in H1.
  - injection H1 as H1. apply uuid_str_inj in H1. lia.
  - injection H1 as H1. lia.
Qed.

(** [create_assistance_objects] on objects the driver accepts. *)
Lemma create_assistance_objects_written (objects : list AssistanceObject)
    (a : option string) (w : World) :
  objects ≠ [] ->
  Forall (fun o => ao_oid o = None) objects ->
  Forall (fun o => parameters_encodable (ao_parameters o) = true) objects ->
  create_assistance_objects objects a w
  = (inr (created_objects a (clock w) (uuid_supply w) (oid_supply w) objects),
     with_created_objects
       (created_objects a (clock w) (uuid_supply w) (oid_supply w) objects) w).
Proof.
  intros Hnonempty Hnew Hencodable.
  set (created := created_objects a (clock w) (uuid_supply w) (oid_supply w) objects).
  unfold create_assistance_objects.
  rewrite (bind_inr _ _ _ _ _ (create_assistance_objects_dicts a objects [] w)).
  cbn [app]. unfold insert_many_assistance_objects.
  set (dicts := imap _ objects).
  assert (Hlookup : forall j d, dicts !! j = Some d ->
            exists o, objects !! j = Some o
                      /\ d = {| ao_a_id := a; ao_assistance_type := ao_assistance_type o;
                                ao_id := Some (uuid_str (uuid_supply w + j));
                                ao_user_id := ao_user_id o;
                                ao_timestamp := Some (clock w);
                                ao_parameters := ao_parameters o; ao_type := ao_type o;
                                ao_oid := ao_oid o |}).
  { intros j d Hj. subst dicts. rewrite list_lookup_imap in Hj.
    destruct (objects !! j) as [o|]; [|discriminate]. injection Hj as <-. eauto. }
  assert (Hoids : Forall (fun d => ao_oid d = None) dicts).
  { apply Forall_lookup. intros j d Hj. destruct (Hlookup j d Hj) as (o & Ho & ->). cbn.
    eapply Forall_lookup_1 in Hnew; eauto. }
  assert (Henc : forallb (fun d => parameters_encodable (ao_parameters d)) dicts = true).
  { apply forallb_forall. intros d Hd. apply list_elem_of_In in Hd.
    apply list_elem_of_lookup in Hd as (j & Hj).
    destruct (Hlookup j d Hj) as (o & Ho & ->). cbn.
    eapply Forall_lookup_1 in Hencodable; eauto. }
  assert (Hlen : length dicts = length objects) by (subst dicts; apply length_imap).
  assert (Hsame : imap (fun j d => with_oid (oid_supply w + j) d) dicts = created).
  { subst created. rewrite created_objects_imap. apply list_eq. intros j.
    rewrite !list_lookup_imap.
    destruct (dicts !! j) as [d|] eqn:Hd.
    - destruct (Hlookup j d Hd) as (o & -> & ->). reflexivity.
    - apply lookup_ge_None in Hd. rewrite Hlen in Hd.
      apply lookup_ge_None in Hd. now rewrite Hd. }
  destruct dicts as [|d dicts'] eqn:Hd.
  { destruct objects; [contradiction | discriminate Hlen]. }
  rewrite Henc, <- Hd. rewrite <- Hd in Hoids, Hsame, Hlen.
  rewrite (insert_assistance_objects_run dicts Hoids).
  cbn [app oid_supply set_uuid_supply assistance_objects_collection].
  rewrite Hsame. f_equal. unfold with_created_objects.
  rewrite Hlen, <- (created_objects_length a (clock w) objects (uuid_supply w) (oid_supply w)).
  reflexivity.
Qed.

(** X10. [create_assistance_objects] on a list that is not empty, of
    objects without [_id] whose parameters can be encoded: it writes
    one document per object, in order, at the end of the collection,
    each with the given instance id, the time of the call, an [ao_id]
    and an [_id] of its own, and returns the documents it wrote; no two
    of them share an [ao_id] or an [_id]. *)
Theorem create_assistance_objects_run (objects : list AssistanceObject)
    (a : option string) (w : World) :
  objects ≠ [] ->
  Forall (fun o => ao_oid o = None) objects ->
  Forall (fun o => parameters_encodable (ao_parameters o) = true) objects ->
  let created :=
    created_objects a (clock w) (uuid_supply w) (oid_supply w) objects in
  create_assistance_objects objects a w = (inr created, with_created_objects created w)
  /\ length created = length objects
  /\ NoDup (map ao_id created)
  /\ NoDup (map ao_oid created).
Proof.
  intros Hnonempty Hnew Hencodable created.
  split; [|split; [apply created_objects_length | apply created_objects_NoDup]].
  now apply create_assistance_objects_written.
Qed.

(** [update_assistance_by_a_id_adding_assistance_objects] on an instance
    that is not terminal. *)
Lemma update_by_a_id_run (a_id_arg : string) (objects : list AssistanceObject)
    (w : World) (doc : Assistance) (st : AssistanceState) :
  find (fun d => a_id_matches (VStr a_id_arg) (a_id d)) (assistance_collection w) = Some doc ->
  a_assistance_state doc = Some st ->
  is_terminal (status st) = false ->
  objects ≠ [] ->
  Forall (fun o => ao_oid o = None) objects ->
  Forall (fun o => parameters_encodable (ao_parameters o) = true) objects ->
  parameters_encodable (a_parameters doc) = true ->
  let created :=
    created_objects (Some a_id_arg) (clock w) (uuid_supply w) (oid_supply w) objects in
  let assistance_dict :=
    with_assistance_objects
      (a_assistance_objects doc ++ map (fun created_ao => ref_object (ao_oid created_ao)) created)
      doc in
  exists loaded,
    update_assistance_by_a_id_adding_assistance_objects a_id_arg objects w
    = (inr loaded,
       set_assistance_collection
         (replace_first (fun d => a_id_matches (VStr a_id_arg) (a_id d))
            (fun _ => assistance_dict) (assistance_collection w))
         (with_created_objects created w))
    /\ a_next_operation_keys loaded = a_next_operation_keys doc
    /\ a_type_key loaded = a_type_key doc.
Proof.
  intros Hfind Hstate Hrunning Hnonempty Hnew Hencodable Hparameters created assistance_dict.
  assert (Hid : a_id doc = Some a_id_arg).
  { apply find_Some_holds in Hfind as [Hmatch _]. now apply a_id_matches_VStr. }
  unfold update_assistance_by_a_id_adding_assistance_objects, find_one_assistance.
  unfold bind at 1. unfold gets at 1. rewrite Hfind.
  unfold existing_status. rewrite Hstate. rewrite bind_lift_inr, Hrunning, Hid.
  pose proof (create_assistance_objects_written objects (Some a_id_arg) w Hnonempty Hnew
                Hencodable) as Hcreate.
  rewrite (bind_inr _ _ _ _ _ Hcreate). fold created.
  unfold replace_one_assistance. cbn [with_assistance_objects a_parameters opt_str_value].
  rewrite Hparameters. unfold bind at 1. unfold modify at 1.
  match goal with
  | |- context [__load_assistance_objects ?d ?w1] =>
      destruct (load_assistance_objects_state d w1) as (loaded & Hload & _ & _ & Hkeys & Htype & _)
  end.
  exists loaded. split; [|split; [exact Hkeys | exact Htype]].
  rewrite Hload. reflexivity.
Qed.

Section Responses.

Variable ASSISTANCE_TYPES : gmap string AssistanceProcess.

Variable depth : nat.

(** A continuation that the resolver skips: the type is disabled, or
    the process does not register the operation key, in which case the
    [AssistanceOperationException] is caught by the loop of
    [update_assistance]. *)
Lemma continuation_skipped (type_key next_operation_key : string) (c : AssistanceContext)
    (supported : list string) (acc : list Assistance) (w : World) :
  type_key ∈ disabled_assistance_type_keys w
  \/ (exists process,
        ASSISTANCE_TYPES !! type_key = Some process
        /\ _registered_operations process !! next_operation_key = None) ->
  try_except
    (let* assistance_result :=
       __handle_assistance_request ASSISTANCE_TYPES (S depth)
         {| assistance_type_key := type_key;
            assistance_operation_key := next_operation_key;
            ctx := c |}
         supported in
     match assistance_result with
     | None => ret acc
     | Some r => ret (acc ++ result_assistance r)
     end)
    (fun e => bool_decide (e = AssistanceOperationException))
    (fun _ => ret acc) w
  = (inr acc, w).
Proof.
  intros Hskip. unfold try_except. cbn [__handle_assistance_request].
  rewrite bind_assoc. unfold bind at 1, gets at 1. cbn [assistance_type_key].
  destruct (bool_decide (type_key ∈ disabled_assistance_type_keys w)) eqn:Hdisabled;
    [reflexivity|].
  destruct (bool_decide (type_key ∈ supported)); cbn [orb negb]; [|reflexivity].
  destruct Hskip as [Hd | (process & Hprocess & Hoperation)].
  - apply bool_decide_eq_false_1 in Hdisabled. contradiction.
  - rewrite Hprocess. unfold check_applicability_and_execute_operation.
    cbn [assistance_operation_key]. rewrite Hoperation. reflexivity.
Qed.

(** X11. A response to a running instance is stored and otherwise
    ignored when nothing can continue: every response object is written
    with the type ASSISTANCE_RESPONSE_OBJECT, whatever type it came
    with, and the id of the instance; the document of the instance gets
    the references appended after those it had; and when the type of the
    instance is disabled, or its process registers none of the stored
    continuation keys (also when there are none), [update_assistance]
    returns [None] and writes nothing else. *)
Theorem update_assistance_stores_responses (a_id_arg : string)
    (assistance_response_objects : list AssistanceObject) (w : World)
    (doc : Assistance) (st : AssistanceState) :
  find (fun d => a_id_matches (VStr a_id_arg) (a_id d)) (assistance_collection w) = Some doc ->
  a_assistance_state doc = Some st ->
  is_terminal (status st) = false ->
  assistance_response_objects ≠ [] ->
  Forall (fun o => ao_oid o = None) assistance_response_objects ->
  Forall (fun o => parameters_encodable (ao_parameters o) = true)
    assistance_response_objects ->
  parameters_encodable (a_parameters doc) = true ->
  (forall type_key next_operation_key,
     a_type_key doc = Some type_key ->
     next_operation_key ∈ a_next_operation_keys doc ->
     type_key ∈ disabled_assistance_type_keys w
     \/ (exists process,
           ASSISTANCE_TYPES !! type_key = Some process
           /\ _registered_operations process !! next_operation_key = None)) ->
  let created :=
    created_objects (Some a_id_arg) (clock w) (uuid_supply w) (oid_supply w)
      (map (with_object_type (Some ASSISTANCE_RESPONSE_OBJECT))
         assistance_response_objects) in
  update_assistance ASSISTANCE_TYPES (S depth) a_id_arg assistance_response_objects w
  = (inr None,
     set_assistance_collection
       (replace_first (fun d => a_id_matches (VStr a_id_arg) (a_id d))
          (fun _ =>
             with_assistance_objects
               (a_assistance_objects doc
                ++ map (fun created_ao => ref_object (ao_oid created_ao)) created)
               doc)
          (assistance_collection w))
       (with_created_objects created w))
  /\ Forall (fun o => ao_type o = Some ASSISTANCE_RESPONSE_OBJECT
                      /\ ao_a_id o = Some a_id_arg) created.
Proof.
  intros Hfind Hstate Hrunning Hnonempty Hnew Hencodable Hparameters Hskip created.
  split.
  - unfold update_assistance.
    destruct (update_by_a_id_run a_id_arg
                (map (with_object_type (Some ASSISTANCE_RESPONSE_OBJECT))
                   assistance_response_objects) w doc st Hfind Hstate Hrunning)
      as (loaded & Hrun & Hkeys & Htype).
    + destruct assistance_response_objects; [contradiction | discriminate].
    + apply Forall_fmap. eapply Forall_impl; [exact Hnew | intros o Ho; exact Ho].
    + apply Forall_fmap. eapply Forall_impl; [exact Hencodable | intros o Ho; exact Ho].
    + exact Hparameters.
    + rewrite (bind_inr _ _ _ _ _ Hrun). fold created.
      unfold supported_type_keys. rewrite bind_assoc.
      unfold bind at 1, gets at 1. rewrite bind_ret_l.
      rewrite Hkeys, Htype.
      match goal with
      | |- bind (for_each _ ?body []) _ ?w1 = _ =>
          assert (Hloop : forall keys,
                    (forall k, k ∈ keys -> k ∈ a_next_operation_keys doc) ->
                    for_each keys body [] w1 = (inr [], w1))
      end.
      { induction keys as [|k keys IH]; intros Hkeysin; [reflexivity|].
        cbn [for_each].
        destruct (a_type_key doc) as [type_key|] eqn:Hty.
        - erewrite bind_inr; [apply IH|].
          + intros k' Hk'. apply Hkeysin. now apply list_elem_of_further.
          + apply continuation_skipped. apply (Hskip type_key k eq_refl).
            apply Hkeysin, list_elem_of_here.
        - rewrite bind_ret_l. apply IH.
          intros k' Hk'. apply Hkeysin. now apply list_elem_of_further. }
      rewrite (bind_inr _ _ _ _ _ (Hloop _ (fun k Hk => Hk))). reflexivity.
  - apply Forall_lookup. intros j c Hj. subst created.
    apply created_objects_lookup in Hj as (o & Ho & ->).
    rewrite list_lookup_fmap in Ho.
    destruct (assistance_response_objects !! j); [|discriminate].
    injection Ho as <-. split; reflexivity.
Qed.

(** X12. [update_assistance] with an empty list of response objects on
    an instance that is not terminal raises [TypeError], the error of
    the driver for an empty [insert_many], and leaves the world as it
    is. *)
Theorem update_assistance_without_responses (a_id_arg : string) (w : World)
    (doc : Assistance) (st : AssistanceState) :
  find (fun d => a_id_matches (VStr a_id_arg) (a_id d)) (assistance_collection w) = Some doc ->
  a_assistance_state doc = Some st ->
  is_terminal (status st) = false ->
  update_assistance ASSISTANCE_TYPES depth a_id_arg [] w = (inl TypeError, w).
Proof.
  intros Hfind Hstate Hrunning. unfold update_assistance. apply bind_inl. cbn [map].
  unfold update_assistance_by_a_id_adding_assistance_objects, find_one_assistance.
  unfold bind at 1. unfold gets at 1. rewrite Hfind.
  unfold existing_status. rewrite Hstate. rewrite bind_lift_inr, Hrunning.
  reflexivity.
Qed.

End Responses.

Lemma create_assistance_objects_run_witness :
  let created := created_objects (Some "a1") 1000 0 0 [response_object] in
  create_assistance_objects [response_object] (Some "a1") empty_world
  = (inr created, with_created_objects created empty_world)
  /\ length created = 1
  /\ NoDup (map ao_id created)
  /\ NoDup (map ao_oid created).
Proof.
  apply (create_assistance_objects_run [response_object] (Some "a1") empty_world).
  - discriminate.
  - repeat constructor.
  - repeat constructor.
Defined.

Lemma update_assistance_stores_responses_witness :
  let created :=
    created_objects (Some "a1") 1000 0 0
      [with_object_type (Some ASSISTANCE_RESPONSE_OBJECT) response_object] in
  update_assistance {[ "demo" := parking_process ]} 3 "a1" [response_object]
    (world_with_instance IN_PROGRESS)
  = (inr None,
     set_assistance_collection
       [with_assistance_objects [ref_object (Some 0)] (stored_instance IN_PROGRESS)]
       (with_created_objects created (world_with_instance IN_PROGRESS)))
  /\ Forall (fun o => ao_type o = Some ASSISTANCE_RESPONSE_OBJECT
                      /\ ao_a_id o = Some "a1") created.
Proof.
  apply (update_assistance_stores_responses {[ "demo" := parking_process ]} 2 "a1"
           [response_object] (world_with_instance IN_PROGRESS)
           (stored_instance IN_PROGRESS)
           {| status := Some IN_PROGRESS; phase := None; step := Some "initiation" |}).
  - reflexivity.
  - reflexivity.
  - reflexivity.
  - discriminate.
  - repeat constructor.
  - repeat constructor.
  - reflexivity.
  - intros type_key next_operation_key Htype Hkey. right.
    injection Htype as <-. apply list_elem_of_singleton in Hkey as ->.
    exists parking_process. split; reflexivity.
Defined.

Lemma update_assistance_without_responses_witness :
  update_assistance ∅ 3 "a1" [] (world_with_instance IN_PROGRESS)
  = (inl TypeError, world_with_instance IN_PROGRESS).
Proof.
  apply (update_assistance_without_responses ∅ 3 "a1" (world_with_instance IN_PROGRESS)
           (stored_instance IN_PROGRESS)
           {| status := Some IN_PROGRESS; phase := None; step := Some "initiation" |}).
  - reflexivity.
  - reflexivity.
  - reflexivity.
Defined.

(** ** Instances the engine refuses to write *)

Lemma read_assistance_by_a_id_run (q : Value) (w : World) :
  exists r,
    read_assistance_by_a_id q w = (inr r, w)
    /\ (r = None <-> find (fun d => a_id_matches q (a_id d)) (assistance_collection w) = None).
Proof.
  destruct (read_assistance_by_a_id_pure q w) as [r Hr]. exists r. split; [exact Hr|].
  apply read_assistance_by_a_id_inr in Hr as [_ Hr]. destruct r as [a|].
  - destruct Hr as (doc & Hfind & _). rewrite Hfind. split; discriminate.
  - tauto.
Qed.

(** [persist] on an instance whose id is not in the store, and on one
    whose stored document is terminal. *)
Lemma persist_refused (process : AssistanceProcess) (assistance : Assistance) (w : World)
    (s : string) :
  a_id assistance = Some s ->
  match find (fun d => a_id_matches (VStr s) (a_id d)) (assistance_collection w) with
  | None => persist process assistance w = (inl AttributeError, w)
  | Some doc =>
      forall st, a_assistance_state doc = Some st -> is_terminal (status st) = true ->
                 persist process assistance w = (inl CompletedAssistanceModifyException, w)
  end.
Proof.
  intros Hid. unfold persist. rewrite Hid. cbn [opt_str_value].
  destruct (read_assistance_by_a_id_run (VStr s) w) as (r & Hread & Hnone).
  rewrite (bind_inr _ _ _ _ _ Hread).
  destruct (find _ _) as [doc|] eqn:Hfind.
  - intros st Hstate Hterminal. destruct r as [previous|].
    + unfold update_assistance_adding_assistance_objects, find_one_assistance.
      rewrite Hid. cbn [opt_str_value]. rewrite bind_assoc.
      unfold bind at 1. unfold gets at 1. rewrite Hfind.
      unfold existing_status. rewrite Hstate. rewrite bind_assoc, bind_lift_inr, Hterminal.
      reflexivity.
    + destruct Hnone as [Hnone _]. specialize (Hnone eq_refl). discriminate.
  - destruct r as [previous|]; [|reflexivity].
    destruct Hnone as [_ Hnone]. specialize (Hnone eq_refl). discriminate.
Qed.

(** X13. The engine cannot write to an instance through a result that
    carries its id when the stored instance is terminal, or when no
    instance has the id: processing the result raises and leaves the
    world as it is. The exception is [CompletedAssistanceModifyException]
    in the first case and [AttributeError] in the second, unless the
    state update itself raised before. *)
Theorem process_assistance_result_refused (process : AssistanceProcess)
    (self : OperationAttributes) (assistance : Assistance) (c : AssistanceContext)
    (scheduled triggered : list SubsequentAssistanceOperation) (w : World) (s : string) :
  a_id assistance = Some s ->
  match find (fun d => a_id_matches (VStr s) (a_id d)) (assistance_collection w) with
  | None =>
      exists e,
        _process_assistance_result process self (Some assistance) c scheduled triggered w
        = (inl e, w)
        /\ (e = AttributeError \/ determine_state_update self assistance = inl e)
  | Some doc =>
      forall st, a_assistance_state doc = Some st -> is_terminal (status st) = true ->
        exists e,
          _process_assistance_result process self (Some assistance) c scheduled triggered w
          = (inl e, w)
          /\ (e = CompletedAssistanceModifyException
              \/ determine_state_update self assistance = inl e)
  end.
Proof.
  intros Hid. unfold _process_assistance_result. rewrite bind_ret_l.
  destruct (determine_state_update self assistance) as [e|[self' assistance']] eqn:Hupdate.
  { rewrite bind_lift_inl.
    destruct (find _ _); [intros st _ _|]; exists e; split; auto. }
  rewrite bind_lift_inr.
  apply determine_state_update_inr in Hupdate as (_ & Hid' & _).
  match goal with
  | |- context [persist process ?a] =>
      assert (Hpid : a_id a = Some s)
  end.
  { cbn [with_assistance_objects a_id]. unfold set_assistance_properties.
    destruct (prevent_progress self'); cbn; congruence. }
  pose proof (persist_refused process _ w s Hpid) as Hpersist.
  destruct (find _ _) as [doc|].
  - intros st Hstate Hterminal. exists CompletedAssistanceModifyException.
    split; [|now left]. apply bind_inl. now apply (Hpersist st).
  - exists AttributeError. split; [|now left]. apply bind_inl. exact Hpersist.
Qed.

Lemma process_assistance_result_refused_witness :
  exists e,
    _process_assistance_result demo_process default_attributes
      (Some (stored_instance IN_PROGRESS)) ctx_a1 [] [] (world_with_instance COMPLETED)
    = (inl e, world_with_instance COMPLETED)
    /\ (e = CompletedAssistanceModifyException
        \/ determine_state_update default_attributes (stored_instance IN_PROGRESS) = inl e).
Proof.
  exact (process_assistance_result_refused demo_process default_attributes
           (stored_instance IN_PROGRESS) ctx_a1 [] [] (world_with_instance COMPLETED) "a1"
           eq_refl
           {| status := Some COMPLETED; phase := None; step := Some "initiation" |}
           eq_refl eq_refl).
Defined.

(** ** Resetting the continuations *)

Lemma stored_keys_after_reset (q : Value) (s : string) (l : list Assistance) :
  a_next_operation_keys
    <$> find (fun d => a_id_matches (VStr s) (a_id d))
          (replace_first (fun a => a_id_matches q (a_id a)) (with_next_operation_keys []) l)
  = if a_id_matches q (Some s)
    then (fun _ => []) <$> find (fun d => a_id_matches (VStr s) (a_id d)) l
    else a_next_operation_keys <$> find (fun d => a_id_matches (VStr s) (a_id d)) l.
Proof.
  induction l as [|x l IH]; cbn [replace_first find].
  - destruct (a_id_matches q (Some s)); reflexivity.
  - destruct (a_id_matches q (a_id x)) eqn:Hq; cbn [find].
    + cbn [with_next_operation_keys a_id].
      destruct (a_id_matches (VStr s) (a_id x)) eqn:Hs.
      * apply a_id_matches_VStr in Hs. rewrite Hs in Hq. rewrite Hq. reflexivity.
      * destruct (a_id_matches q (Some s)) eqn:Hqs; [|reflexivity].
        exfalso. destruct q; try discriminate. cbn in Hqs.
        apply bool_decide_eq_true_1 in Hqs. subst s0.
        rewrite Hq in Hs. discriminate.
    + destruct (a_id_matches (VStr s) (a_id x)) eqn:Hs; [|exact IH].
      apply a_id_matches_VStr in Hs. rewrite Hs in Hq. rewrite Hq. reflexivity.
Qed.

Lemma replace_first_idempotent {A : Type} (p : A -> bool) (f : A -> A) (l : list A) :
  (forall x, p (f x) = p x) -> (forall x, f (f x) = f x) ->
  replace_first p f (replace_first p f l) = replace_first p f l.
Proof.
  intros Hp Hf. induction l as [|x l IH]; [reflexivity|]. cbn [replace_first].
  destruct (p x) eqn:Hx; cbn [replace_first].
  - now rewrite Hp, Hx, Hf.
  - now rewrite Hx, IH.
Qed.

Lemma replace_first_map {A B : Type} (p : A -> bool) (f : A -> A) (g : A -> B)
    (l : list A) :
  (forall x, g (f x) = g x) -> map g (replace_first p f l) = map g l.
Proof.
  intros Hg. induction l as [|x l IH]; [reflexivity|]. cbn [replace_first].
  destruct (p x); cbn [map]; [now rewrite Hg | now rewrite IH].
Qed.

(** X14. [update_assistance_by_a_id_reset_next_operation_keys] never
    raises; it empties the continuation keys of the instance with the
    id and changes nothing else: the keys stored under every other id,
    every other field of every document, the objects and the scheduled
    operations are as before. With an id that no instance has it
    changes nothing, and running it twice is the same as running it
    once. *)
Theorem reset_next_operation_keys_spec (q : Value) (w : World) :
  exists w',
    update_assistance_by_a_id_reset_next_operation_keys q w = (inr tt, w')
    /\ (forall s,
          stored_next_operation_keys s w'
          = if a_id_matches q (Some s)
            then (fun _ => []) <$> stored_next_operation_keys s w
            else stored_next_operation_keys s w)
    /\ map (with_next_operation_keys []) (assistance_collection w')
       = map (with_next_operation_keys []) (assistance_collection w)
    /\ assistance_objects_collection w' = assistance_objects_collection w
    /\ assistance_operations_collection w' = assistance_operations_collection w
    /\ update_assistance_by_a_id_reset_next_operation_keys q w' = (inr tt, w').
Proof.
  exists (set_assistance_collection
            (replace_first (fun a => a_id_matches q (a_id a)) (with_next_operation_keys [])
               (assistance_collection w)) w).
  split; [reflexivity|]. split; [|split; [|split; [|split]]].
  - intros s. unfold stored_next_operation_keys.
    cbn [assistance_collection set_assistance_collection].
    rewrite stored_keys_after_reset.
    destruct (a_id_matches q (Some s)); [|reflexivity].
    now destruct (find _ (assistance_collection w)).
  - apply replace_first_map. intros x. reflexivity.
  - reflexivity.
  - reflexivity.
  - unfold update_assistance_by_a_id_reset_next_operation_keys, modify. f_equal.
    unfold set_assistance_collection. cbn. f_equal.
    apply replace_first_idempotent; intros x; reflexivity.
Qed.

(** ** Round trips through the gateway *)

(** X15. An instance that [create_assistance] has written is read back
    by [read_assistance_by_a_id] under the id it was given: the read
    returns the instance that [create_assistance] returned. The id is
    the UUID drawn by the call, the timestamp the time of the call, and
    the collection has one document more. *)
Theorem create_assistance_then_read (assistance : Assistance) (w : World) :
  Forall (fun o => ao_oid o = None) (a_assistance_objects assistance) ->
  Forall (fun o => parameters_encodable (ao_parameters o) = true)
    (a_assistance_objects assistance) ->
  parameters_encodable (a_parameters assistance) = true ->
  Forall (fun d => a_id d ≠ Some (uuid_str (uuid_supply w))) (assistance_collection w) ->
  exists persisted w',
    create_assistance assistance w = (inr persisted, w')
    /\ a_id persisted = Some (uuid_str (uuid_supply w))
    /\ a_timestamp persisted = Some (clock w)
    /\ length (assistance_collection w') = S (length (assistance_collection w))
    /\ read_assistance_by_a_id (opt_str_value (a_id persisted)) w'
       = (inr (Some persisted), w').
Proof.
  intros Hnew Hencodable Hparameters Hfresh.
  unfold create_assistance.
  unfold bind at 1. unfold uuid4 at 1. unfold bind at 1.
  unfold current_datetime at 1, gets at 1.
  cbn [clock set_uuid_supply].
  set (w1 := set_uuid_supply (S (uuid_supply w)) w).
  assert (Hrefs : exists refs w2,
            (if is_empty (a_assistance_objects assistance) then ret []
             else
               let* created := create_assistance_objects (a_assistance_objects assistance)
                                 (Some (uuid_str (uuid_supply w))) in
               ret (map (fun created_ao => ref_object (ao_oid created_ao)) created)) w1
            = (inr refs, w2)
            /\ assistance_collection w2 = assistance_collection w).
  { destruct (a_assistance_objects assistance) as [|o objects] eqn:Hobjects.
    - exists [], w1. split; reflexivity.
    - cbn [is_empty].
      assert (Hsome : o :: objects ≠ []) by discriminate.
      pose proof (create_assistance_objects_written (o :: objects)
                    (Some (uuid_str (uuid_supply w))) w1 Hsome Hnew Hencodable) as Hcreate.
      eexists _, _. rewrite (bind_inr _ _ _ _ _ Hcreate). split; reflexivity. }
  destruct Hrefs as (refs & w2 & Hrefs & Hcollection).
  fold w1. rewrite (bind_inr _ _ _ _ _ Hrefs).
  unfold insert_one_assistance. cbn [a_parameters]. rewrite Hparameters.
  unfold bind at 1. unfold modify at 1.
  match goal with
  | |- context [__load_assistance_objects ?d ?w3] =>
      destruct (load_assistance_objects_state d w3)
        as (persisted & Hload & _ & Hid & _); set (w' := w3) in *; set (dict := d) in *
  end.
  exists persisted, w'. rewrite Hload.
  split; [reflexivity|]. split; [exact Hid|]. split; [|split].
  - unfold __load_assistance_objects in Hload. unfold dict in Hload.
    cbn [a_assistance_objects] in Hload. unfold bind, gets, ret in Hload.
    destruct refs; injection Hload as <-; reflexivity.
  - subst w'. cbn [assistance_collection set_assistance_collection].
    rewrite length_app, Hcollection. cbn. lia.
  - replace (a_id persisted) with (Some (uuid_str (uuid_supply w)))
      by (now rewrite Hid).
    cbn [opt_str_value].
    assert (Hc : assistance_collection w' = assistance_collection w ++ [dict]).
    { subst w'. cbn [assistance_collection set_assistance_collection].
      now rewrite Hcollection. }
    unfold read_assistance_by_a_id, find_one_assistance.
    unfold bind at 1. unfold gets at 1.
    rewrite Hc, find_app, (find_none_fresh _ _ Hfresh).
    cbn [find a_id_matches]. unfold dict at 1. cbn [a_id].
    rewrite (bool_decide_eq_true_2 _ eq_refl).
    rewrite (bind_inr _ _ _ _ _ Hload). reflexivity.
Qed.

Lemma create_assistance_then_read_witness :
  exists persisted w',
    create_assistance (create_with_default_parameters_assistance (Some "u1") [response_object])
      empty_world = (inr persisted, w')
    /\ a_id persisted = Some (uuid_str (uuid_supply empty_world))
    /\ a_timestamp persisted = Some (clock empty_world)
    /\ length (assistance_collection w') = S (length (assistance_collection empty_world))
    /\ read_assistance_by_a_id (opt_str_value (a_id persisted)) w'
       = (inr (Some persisted), w').
Proof.
  apply (create_assistance_then_read
           (create_with_default_parameters_assistance (Some "u1") [response_object])
           empty_world).
  - repeat constructor.
  - repeat constructor.
  - reflexivity.
  - constructor.
Defined.

Lemma remove_first_last_fresh {A B : Type} `{EqDecision B} (f : A -> B) (l : list A) (x : A) :
  Forall (fun y => f y ≠ f x) l ->
  remove_first (fun y => bool_decide (f y = f x)) (l ++ [x]) = l.
Proof.
  induction 1 as [|y l Hy _ IH]; cbn [app remove_first].
  - now rewrite bool_decide_eq_true_2.
  - rewrite bool_decide_eq_false_2 by assumption. now rewrite IH.
Qed.

(** X16. An operation scheduled with a delay for which Python can
    compute the due time is stored with the time of invocation
    now + delay and with its context rebuilt from the stored dictionary;
    [read_assistance_operation_by_time_of_invocation_before_date]
    returns it exactly for the dates from that time on; and deleting
    the stored document gives back the collection as it was before.
    With any other delay (a duration of more than 999999999 days, or a
    due time outside the years 1 to 9999) the call raises
    [OverflowError] and writes nothing. *)
Theorem scheduled_invocation_round_trip (assistance_operation : AssistanceOperationModel)
    (time_to_invocation_in_s : Z) (w : World) :
  operations_well_formed w ->
  so_oid assistance_operation = None ->
  context_encodable (so_ctx assistance_operation) = true ->
  (~ schedulable (clock w) time_to_invocation_in_s ->
   create_assistance_operation_for_scheduled_invocation assistance_operation
     time_to_invocation_in_s w = (inl OverflowError, w))
  /\ (schedulable (clock w) time_to_invocation_in_s ->
      exists document w',
        create_assistance_operation_for_scheduled_invocation assistance_operation
          time_to_invocation_in_s w = (inr document, w')
        /\ so_time_of_invocation document = Some (clock w + time_to_invocation_in_s)%Z
        /\ so_ctx document = new_context (parameter_dict (so_ctx assistance_operation))
        /\ (forall date found,
              read_assistance_operation_by_time_of_invocation_before_date date w'
              = (inr found, w') ->
              (document ∈ found <-> (clock w + time_to_invocation_in_s <= date)%Z))
        /\ exists w'',
             delete_assistance_operation document w' = (inr tt, w'')
             /\ assistance_operations_collection w'' = assistance_operations_collection w).
Proof.
  intros [Hnodup Hbelow] Hnew Hencodable.
  split; intros Hrange;
    unfold create_assistance_operation_for_scheduled_invocation;
    unfold bind at 1; unfold current_datetime at 1, gets at 1; cbv beta iota.
  { now rewrite (due_time_overflow _ _ Hrange), bind_lift_inl. }
  rewrite (due_time_schedulable _ _ Hrange), bind_lift_inr.
  rewrite Hencodable, Hnew.
  unfold bind at 1. unfold fresh_oid at 1.
  unfold bind at 1. unfold modify at 1. unfold ret at 1.
  eexists _, _. split; [reflexivity|].
  split; [reflexivity|]. split; [reflexivity|]. split.
  - intros date found Hread. injection Hread as <-.
    cbn [assistance_operations_collection set_assistance_operations_collection
         set_oid_supply].
    rewrite elem_of_List_filter. unfold due_before at 1.
    cbn [so_time_of_invocation stored_operation]. rewrite Z.leb_le.
    split; [tauto|]. intros Hdue. split; [|exact Hdue].
    apply elem_of_app. right. apply list_elem_of_here.
  - eexists. split; [reflexivity|].
    cbn [assistance_operations_collection set_assistance_operations_collection
         set_oid_supply].
    apply remove_first_last_fresh. cbn [so_oid stored_operation].
    eapply Forall_impl; [exact Hbelow|]. intros o (i & Hi & Hlt). rewrite Hi.
    intros [= ->]. lia.
Qed.

Lemma scheduled_invocation_round_trip_witness :
  create_assistance_operation_for_scheduled_invocation
    {| so_assistance_type_key := "demo"; so_assistance_operation_key := "next";
       so_a_id := Some "a1"; so_ctx := ctx_a1; so_time_of_invocation := None;
       so_oid := None |} (2 ^ 62) (world_with_instance IN_PROGRESS)
  = (inl OverflowError, world_with_instance IN_PROGRESS)
  /\ exists document w',
       create_assistance_operation_for_scheduled_invocation
         {| so_assistance_type_key := "demo"; so_assistance_operation_key := "next";
            so_a_id := Some "a1"; so_ctx := ctx_a1; so_time_of_invocation := None;
            so_oid := None |} 30 (world_with_instance IN_PROGRESS) = (inr document, w')
       /\ so_time_of_invocation document = Some 1030%Z
       /\ so_ctx document = new_context (parameter_dict ctx_a1)
       /\ (forall date found,
             read_assistance_operation_by_time_of_invocation_before_date date w'
             = (inr found, w') ->
             (document ∈ found <-> (1030 <= date)%Z))
       /\ exists w'',
            delete_assistance_operation document w' = (inr tt, w'')
            /\ assistance_operations_collection w'' = [].
Proof.
  split.
  - apply (scheduled_invocation_round_trip
             {| so_assistance_type_key := "demo"; so_assistance_operation_key := "next";
                so_a_id := Some "a1"; so_ctx := ctx_a1; so_time_of_invocation := None;
                so_oid := None |} (2 ^ 62) (world_with_instance IN_PROGRESS)).
    + split; constructor.
    + reflexivity.
    + reflexivity.
    + intros [Hdays _]. vm_compute in Hdays. now apply Hdays.
  - apply (scheduled_invocation_round_trip
             {| so_assistance_type_key := "demo"; so_assistance_operation_key := "next";
                so_a_id := Some "a1"; so_ctx := ctx_a1; so_time_of_invocation := None;
                so_oid := None |} 30 (world_with_instance IN_PROGRESS)).
    + split; constructor.
    + reflexivity.
    + reflexivity.
    + repeat split; vm_compute; discriminate.
Defined.

(** ** State updates *)

Lemma update_or_keep_eq {A : Type} `{EqDecision A} (new : A) (current : option A)
    (fallback : A) :
  update_or_keep new current fallback
  = match current with Some _ => new | None => fallback end.
Proof.
  unfold update_or_keep. destruct current as [c|]; [|reflexivity].
  destruct (decide (new = c)) as [-> | Hne].
  - now rewrite bool_decide_eq_false_2 by tauto.
  - now rewrite bool_decide_eq_true_2.
Qed.

Lemma compute_state_update_assistance_objects_inr (self : OperationAttributes)
    (assistance : Assistance) (status_update : AssistanceStateStatus)
    (phase_update : option Z) (step_update : option string)
    (objects : list AssistanceObject) :
  _compute_state_update_assistance_objects self assistance status_update phase_update
    step_update = inr objects ->
  Forall (fun o => ao_parameters o
                   = [ {| key := ASSISTANCE_OBJECT_PARAMETER_KEY_STATE_UPDATE;
                          value := state_to_dict status_update phase_update step_update |} ]
                   /\ ao_oid o = None /\ ao_type o = None /\ ao_a_id o = None) objects
  /\ (forall to_send, state_update_status_to_send self = Some to_send ->
        status_update ∉ to_send -> objects = []).
Proof.
  unfold _compute_state_update_assistance_objects.
  destruct (state_update_status_to_send self) as [to_send|] eqn:Hsend.
  - destruct (decide (status_update ∈ to_send)) as [Hin | Hnotin].
    + rewrite (bool_decide_eq_true_2 _ Hin). cbn [negb]. unfold bindE.
      destruct (if send_state_update_to_related_users self then _ else _) as [e|ids];
        [discriminate|].
      intros [= <-]. split.
      * apply Forall_fmap, Forall_forall. intros id _. cbn. auto.
      * intros to_send' [= <-] Hno. contradiction.
    + rewrite (bool_decide_eq_false_2 _ Hnotin). cbn [negb].
      intros [= <-]. split; [constructor | reflexivity].
  - unfold bindE.
    destruct (if send_state_update_to_related_users self then _ else _) as [e|ids];
      [discriminate|].
    intros [= <-]. split.
    + apply Forall_fmap, Forall_forall. intros id _. cbn. auto.
    + discriminate.
Qed.

(** X17. What the state-update objects of [_process_assistance_result]
    announce: when the instance has a status, the target status of the
    operation; when it has none, as an instance that was just produced,
    INITIATED (with phase 1 and step [initiation] for an operation of a
    phase), whatever the operation targets. Every object added in front
    of the produced ones carries exactly that state, and none is added
    when the announced status is not among the statuses the operation
    sends updates for, which are ABORTED and COMPLETED for an operation
    without phase that names none. *)
Theorem state_update_announcement (self self' : OperationAttributes)
    (assistance assistance' : Assistance) (target : AssistanceStateStatus) :
  target_status self = Some target ->
  determine_state_update self assistance = inr (self', assistance') ->
  exists status_update_assistance_objects,
    a_assistance_objects assistance'
    = status_update_assistance_objects ++ a_assistance_objects assistance
    /\ Forall (fun o => ao_parameters o
                        = [ {| key := ASSISTANCE_OBJECT_PARAMETER_KEY_STATE_UPDATE;
                               value := announced_state self target
                                          (a_assistance_state assistance) |} ]
                        /\ ao_oid o = None /\ ao_type o = None /\ ao_a_id o = None)
         status_update_assistance_objects
    /\ (forall to_send,
          effective_status_to_send self = Some to_send ->
          match a_assistance_state assistance ≫= status with
          | Some _ => target
          | None => INITIATED
          end ∉ to_send ->
          status_update_assistance_objects = []).
Proof.
  intros Htarget. unfold determine_state_update, announced_state, effective_status_to_send.
  rewrite Htarget, !update_or_keep_eq.
  destruct (op_phase self) as [ph|]; [destruct (op_step self) as [st|]|].
  - rewrite !update_or_keep_eq. unfold bindE at 1.
    destruct (_compute_state_update_assistance_objects _ _ _ _ _) as [e|objects] eqn:Hcompute;
      [discriminate|].
    apply compute_state_update_assistance_objects_inr in Hcompute as [Hall Hnone].
    destruct (is_empty objects) eqn:Hempty.
    + intros [= <- <-]. exists objects. cbn. auto.
    + unfold bindE. destruct (set_user_states _ _) as [e|states]; [discriminate|].
      intros [= <- <-]. exists objects. cbn. auto.
  - unfold bindE.
    destruct (_compute_state_update_assistance_objects _ _ _ _ _) as [e|objects] eqn:Hcompute;
      [discriminate|].
    apply compute_state_update_assistance_objects_inr in Hcompute as [Hall Hnone].
    intros [= <- <-]. exists objects. cbn. split; [reflexivity|]. split; [exact Hall|].
    intros to_send [= <-]. apply Hnone.
    destruct (state_update_status_to_send self) eqn:Hsend; [exact Hsend | reflexivity].
  - unfold bindE.
    destruct (_compute_state_update_assistance_objects _ _ _ _ _) as [e|objects] eqn:Hcompute;
      [discriminate|].
    apply compute_state_update_assistance_objects_inr in Hcompute as [Hall Hnone].
    intros [= <- <-]. exists objects. cbn. split; [reflexivity|]. split; [exact Hall|].
    intros to_send [= <-]. apply Hnone.
    destruct (state_update_status_to_send self) eqn:Hsend; [exact Hsend | reflexivity].
Qed.

Lemma state_update_announcement_witness :
  exists status_update_assistance_objects,
    length status_update_assistance_objects = 1
    /\ Forall (fun o => ao_parameters o
                        = [ {| key := "state_update";
                               value := VDict [(Some "status", VStr "initiated");
                                               (Some "phase", VInt 1);
                                               (Some "step", VStr "initiation")] |} ])
         status_update_assistance_objects.
Proof.
  destruct (determine_state_update phase_two_attributes produced_instance)
    as [e|[self' assistance']] eqn:Hrun; [discriminate Hrun|].
  destruct (state_update_announcement phase_two_attributes self' produced_instance
              assistance' COMPLETED eq_refl Hrun)
    as (objects & Hobjects & Hall & _).
  exists objects. split.
  - vm_compute in Hrun. injection Hrun as _ <-. cbn in Hobjects.
    rewrite app_nil_r in Hobjects. now rewrite <- Hobjects.
  - eapply Forall_impl; [exact Hall|]. intros o (Hparameters & _). exact Hparameters.
Defined.

(** ** The greeting process on other requests *)

Section GreetingEdges.

Variable t : string -> string -> string.

Variable ASSISTANCE_TYPES : gmap string AssistanceProcess.

Hypothesis greeting_in_table : ASSISTANCE_TYPES !! "greeting" = Some (GreetingAssistance t).

(** The resolver on a request for the initiation of the greeting
    process: applicability, then execution. *)
Lemma handle_greeting_initiation (depth : nat) (c : AssistanceContext)
    (supported : list string) (w : World) :
  "greeting" ∉ disabled_assistance_type_keys w ->
  "greeting" ∈ supported ->
  __handle_assistance_request ASSISTANCE_TYPES (S depth)
    {| assistance_type_key := "greeting";
       assistance_operation_key := ASSISTANCE_OPERATION_KEY_INITIATION; ctx := c |}
    supported w
  = (let* executed :=
       let* applicable :=
         greeting_is_applicable (self (GreetingAssistanceInitiationOperation t)) c in
       if negb applicable then ret None
       else
         let* (_, result) :=
           execute (GreetingAssistance t) (GreetingAssistanceInitiationOperation t) c None
             (Some ASSISTANCE_OPERATION_KEY_INITIATION) in
         ret result in
     match executed with
     | None => ret None
     | Some assistance_result =>
         if is_empty (assistance_requests assistance_result)
         then ret (Some assistance_result)
         else
           let assistance :=
             if prepend_assistance_from_requests assistance_result then []
             else result_assistance assistance_result in
           let* assistance :=
             for_each (assistance_requests assistance_result)
               (fun chained_request assistance =>
                  let* chained :=
                    __handle_assistance_request ASSISTANCE_TYPES depth chained_request
                      supported in
                  match chained with
                  | None => raise AttributeError
                  | Some chained_result =>
                      ret (assistance ++ result_assistance chained_result)
                  end)
               assistance in
           let assistance :=
             if prepend_assistance_from_requests assistance_result
             then assistance ++ result_assistance assistance_result
             else assistance in
           ret (Some (new_result (Some assistance) None false))
     end) w.
Proof.
  intros Henabled Hsupported. cbn [__handle_assistance_request].
  unfold bind at 1. unfold gets at 1. cbn [assistance_type_key].
  rewrite (bool_decide_eq_false_2 _ Henabled), (bool_decide_eq_true_2 _ Hsupported).
  cbn [orb negb]. rewrite greeting_in_table.
  unfold check_applicability_and_execute_operation. cbn [assistance_operation_key ctx].
  rewrite greeting_initiation_registered.
  cbn [is_applicable_override GreetingAssistanceInitiationOperation].
  reflexivity.
Qed.

Lemma greeting_is_applicable_value (s : OperationAttributes) (c : AssistanceContext)
    (w : World) :
  greeting_is_applicable s c w
  = (match get_parameter c ASSISTANCE_CONTEXT_PARAMETER_KEY_STATEMENT_ID with
     | inl _ => inl TypeError
     | inr q =>
         match find (fun statement => match q with
                                      | VStr s => bool_decide (st_id statement = s)
                                      | _ => false
                                      end) (statements_collection w) with
         | None => inr false
         | Some found =>
             match st_verb_id found with
             | None => inl TypeError
             | Some verb_id => inr (bool_decide (verb_id = StatementVerbId_LOGGED_IN))
             end
         end
     end, w).
Proof.
  unfold greeting_is_applicable, try_except, read_statement_by_id.
  unfold bind, lift, gets, ret, raise.
  destruct (get_parameter c ASSISTANCE_CONTEXT_PARAMETER_KEY_STATEMENT_ID) as [e|q];
    [reflexivity|].
  destruct (find _ (statements_collection w)) as [found|]; [|reflexivity].
  destruct (st_verb_id found); reflexivity.
Qed.

(** X18. The greeting process answers a request for its initiation
    with [None], leaving the world as it is, when the statement of the
    context is not stored or has another verb than "logged in"; when
    the context has no statement id, or the statement has no verb, the
    request raises [TypeError], because the handler of
    [is_applicable] names a union of exception classes. *)
Theorem greeting_only_on_login (depth : nat) (c : AssistanceContext)
    (supported : list string) (w : World) :
  "greeting" ∉ disabled_assistance_type_keys w ->
  "greeting" ∈ supported ->
  let answer :=
    __handle_assistance_request ASSISTANCE_TYPES (S depth) (greeting_initiation_request c)
      supported w in
  (forall e,
     get_parameter c ASSISTANCE_CONTEXT_PARAMETER_KEY_STATEMENT_ID = inl e ->
     answer = (inl TypeError, w))
  /\ (forall q,
        get_parameter c ASSISTANCE_CONTEXT_PARAMETER_KEY_STATEMENT_ID = inr q ->
        read_statement_by_id q w = (inr None, w) ->
        answer = (inr None, w))
  /\ (forall q statement verb_id,
        get_parameter c ASSISTANCE_CONTEXT_PARAMETER_KEY_STATEMENT_ID = inr q ->
        read_statement_by_id q w = (inr (Some statement), w) ->
        st_verb_id statement = Some verb_id ->
        verb_id ≠ StatementVerbId_LOGGED_IN ->
        answer = (inr None, w))
  /\ (forall q statement,
        get_parameter c ASSISTANCE_CONTEXT_PARAMETER_KEY_STATEMENT_ID = inr q ->
        read_statement_by_id q w = (inr (Some statement), w) ->
        st_verb_id statement = None ->
        answer = (inl TypeError, w)).
Proof.
  intros Henabled Hsupported answer. subst answer. unfold greeting_initiation_request.
  rewrite (handle_greeting_initiation depth c supported w Henabled Hsupported).
  pose proof (greeting_is_applicable_value
                (self (GreetingAssistanceInitiationOperation t)) c w) as Happ.
  rewrite bind_assoc.
  split; [|split; [|split]].
  - intros e He. rewrite He in Happ. now rewrite (bind_inl _ _ _ _ _ Happ).
  - intros q Hq Hread. rewrite Hq in Happ.
    unfold read_statement_by_id, gets in Hread. injection Hread as Hread.
    rewrite Hread in Happ. now rewrite (bind_inr _ _ _ _ _ Happ).
  - intros q statement verb_id Hq Hread Hverb Hother. rewrite Hq in Happ.
    unfold read_statement_by_id, gets in Hread. injection Hread as Hread.
    rewrite Hread, Hverb, (bool_decide_eq_false_2 _ Hother) in Happ.
    now rewrite (bind_inr _ _ _ _ _ Happ).
  - intros q statement Hq Hread Hverb. rewrite Hq in Happ.
    unfold read_statement_by_id, gets in Hread. injection Hread as Hread.
    rewrite Hread, Hverb in Happ. now rewrite (bind_inl _ _ _ _ _ Happ).
Qed.

(** X19. A login of a user who has no student model makes the
    initiation of the greeting process raise
    [StudentModelNotExistsError]. So does a login statement whose actor
    has no account, or whose account has no name: [get_user_id] returns
    the empty [DotDict] that the attribute path created, and no student
    model is stored under it. A login statement without actor, or with
    [account] or [name] stored as null, raises [AttributeError]. The
    exception reaches the caller of the resolver and the world is as
    before. *)
Theorem greeting_without_student_model (depth : nat) (supported : list string)
    (w : World) (sid : string) (statement : Statement) :
  "greeting" ∉ disabled_assistance_type_keys w ->
  "greeting" ∈ supported ->
  find (fun s => bool_decide (st_id s = sid)) (statements_collection w) = Some statement ->
  st_verb_id statement = Some StatementVerbId_LOGGED_IN ->
  match st_actor statement with
  | name_null =>
      __handle_assistance_request ASSISTANCE_TYPES (S depth) (login_request sid) supported w
      = (inl AttributeError, w)
  | name_absent =>
      __handle_assistance_request ASSISTANCE_TYPES (S depth) (login_request sid) supported w
      = (inl StudentModelNotExistsError, w)
  | name_stored user =>
      find (fun m => bool_decide (sm_user_id m = user)) (student_models_collection w) = None ->
      __handle_assistance_request ASSISTANCE_TYPES (S depth) (login_request sid) supported w
      = (inl StudentModelNotExistsError, w)
  end.
Proof.
  intros Henabled Hsupported Hstatement Hverb. unfold login_request.
  rewrite (handle_greeting_initiation depth _ supported w Henabled Hsupported).
  pose proof (greeting_is_applicable_value
                (self (GreetingAssistanceInitiationOperation t))
                (new_context
                   {[ ASSISTANCE_CONTEXT_PARAMETER_KEY_STATEMENT_ID := VStr sid ]}) w)
    as Happ.
  unfold get_parameter in Happ. cbn [parameter_dict new_context] in Happ.
  rewrite lookup_singleton_eq, Hstatement, Hverb in Happ.
  rewrite (bool_decide_eq_true_2 _ eq_refl) in Happ.
  rewrite bind_assoc. rewrite (bind_inr _ _ _ _ _ Happ). cbn [negb].
  unfold execute. cbn [_execute GreetingAssistanceInitiationOperation].
  assert (Hexecute : forall s,
    greeting_execute t s
      (new_context {[ ASSISTANCE_CONTEXT_PARAMETER_KEY_STATEMENT_ID := VStr sid ]}) w
    = match st_actor statement with
      | name_null => (inl AttributeError, w)
      | name_absent => (inl StudentModelNotExistsError, w)
      | name_stored user =>
          match find (fun m => bool_decide (sm_user_id m = user))
                  (student_models_collection w) with
          | None => (inl StudentModelNotExistsError, w)
          | Some student_model =>
              greeting_execute t s
                (new_context
                   {[ ASSISTANCE_CONTEXT_PARAMETER_KEY_STATEMENT_ID := VStr sid ]}) w
          end
      end).
  { intros s. unfold greeting_execute at 1, get_parameter.
    cbn [parameter_dict new_context]. rewrite lookup_singleton_eq.
    rewrite bind_lift_inr. unfold read_statement_by_id.
    unfold bind at 1. unfold gets at 1. rewrite Hstatement.
    unfold get_user_id. destruct (st_actor statement) as [user| |] eqn:Huser;
      [|reflexivity|].
    - rewrite bind_lift_inr. unfold read_student_model_by_user_id.
      unfold bind at 1. unfold gets at 1.
      destruct (find _ (student_models_collection w)) as [student_model|] eqn:Hmodel;
        [|reflexivity].
      unfold greeting_execute, get_parameter.
      cbn [parameter_dict new_context]. rewrite lookup_singleton_eq.
      rewrite bind_lift_inr. unfold read_statement_by_id.
      unfold bind at 1. unfold gets at 1. rewrite Hstatement.
      unfold get_user_id. rewrite Huser.
      rewrite bind_lift_inr. unfold read_student_model_by_user_id.
      unfold bind at 1. unfold gets at 1. rewrite Hmodel. reflexivity.
    - rewrite bind_lift_inr. unfold read_student_model_by_user_id.
      unfold bind at 1. unfold gets at 1.
      replace (find (fun _ : StudentModel => false) (student_models_collection w))
        with (@None StudentModel); [reflexivity|].
      induction (student_models_collection w); [reflexivity | assumption]. }
  destruct (st_actor statement) as [user| |].
  - intros Hmodel.
    rewrite !bind_assoc. erewrite bind_inl; [reflexivity|].
    rewrite Hexecute, Hmodel. reflexivity.
  - rewrite !bind_assoc. erewrite bind_inl; [reflexivity|].
    rewrite Hexecute. reflexivity.
  - rewrite !bind_assoc. erewrite bind_inl; [reflexivity|].
    rewrite Hexecute. reflexivity.
Qed.

End GreetingEdges.

Lemma greeting_only_on_login_witness :
  __handle_assistance_request (greeting_only example_t) 2
    (greeting_initiation_request ctx_empty) ["greeting"] world_without_student_model
  = (inl TypeError, world_without_student_model)
  /\ __handle_assistance_request (greeting_only example_t) 2
       (greeting_initiation_request
          (new_context {[ ASSISTANCE_CONTEXT_PARAMETER_KEY_STATEMENT_ID := VStr "s2" ]}))
       ["greeting"] world_without_student_model
     = (inr None, world_without_student_model).
Proof.
  split.
  - destruct (greeting_only_on_login example_t (greeting_only example_t) eq_refl 1
                ctx_empty ["greeting"] world_without_student_model)
      as (Hmissing & _).
    + apply not_elem_of_nil.
    + apply list_elem_of_here.
    + exact (Hmissing AssistanceParameterException eq_refl).
  - destruct (greeting_only_on_login example_t (greeting_only example_t) eq_refl 1
                (new_context
                   {[ ASSISTANCE_CONTEXT_PARAMETER_KEY_STATEMENT_ID := VStr "s2" ]})
                ["greeting"] world_without_student_model)
      as (_ & _ & Hother & _).
    + apply not_elem_of_nil.
    + apply list_elem_of_here.
    + apply (Hother (VStr "s2")
               {| st_id := "s2";
                  st_verb_id := Some "http://adlnet.gov/expapi/verbs/experienced";
                  st_actor := name_stored "u1" |}
               "http://adlnet.gov/expapi/verbs/experienced").
      * reflexivity.
      * reflexivity.
      * reflexivity.
      * discriminate.
Defined.

Lemma greeting_without_student_model_witness :
  __handle_assistance_request (greeting_only example_t) 2 (login_request "s1") ["greeting"]
    world_without_student_model
  = (inl StudentModelNotExistsError, world_without_student_model)
  /\ __handle_assistance_request (greeting_only example_t) 2 (login_request "s3")
       ["greeting"] world_without_student_model
     = (inl StudentModelNotExistsError, world_without_student_model)
  /\ __handle_assistance_request (greeting_only example_t) 2 (login_request "s4")
       ["greeting"] world_without_student_model
     = (inl AttributeError, world_without_student_model).
Proof.
  split; [|split].
  - apply (greeting_without_student_model example_t (greeting_only example_t) eq_refl 1
             ["greeting"] world_without_student_model "s1"
             {| st_id := "s1"; st_verb_id := Some StatementVerbId_LOGGED_IN;
                st_actor := name_stored "u1" |}).
    + apply not_elem_of_nil.
    + apply list_elem_of_here.
    + reflexivity.
    + reflexivity.
    + reflexivity.
  - apply (greeting_without_student_model example_t (greeting_only example_t) eq_refl 1
             ["greeting"] world_without_student_model "s3"
             {| st_id := "s3"; st_verb_id := Some StatementVerbId_LOGGED_IN;
                st_actor := name_absent |}).
    + apply not_elem_of_nil.
    + apply list_elem_of_here.
    + reflexivity.
    + reflexivity.
  - apply (greeting_without_student_model example_t (greeting_only example_t) eq_refl 1
             ["greeting"] world_without_student_model "s4"
             {| st_id := "s4"; st_verb_id := Some StatementVerbId_LOGGED_IN;
                st_actor := name_null |}).
    + apply not_elem_of_nil.
    + apply list_elem_of_here.
    + reflexivity.
    + reflexivity.
Defined.

(** ** Scheduling: what a call leaves behind *)

Lemma schedulable_dec (now delay : Z) : Decision (schedulable now delay).
Proof. unfold schedulable. apply _. Qed.

(** X20. [schedule_operation], for a delay and a time factor that are
    whole numbers, writes all or nothing. When it raises, the world is
    as before; it raises [AssistanceOperationException] exactly when
    the operation key is not registered,
    [AssistanceOperationCanNotBeScheduledException] exactly when the key
    is registered and the flag of the context is off, [OverflowError]
    exactly when it got that far with a delay and a factor whose
    product Python cannot turn into a due time, and otherwise only
    [TypeError] (no delay, or a time factor that is not a number) or
    [InvalidDocument]. When it returns, it has appended one document
    due at now + delay * factor and drawn one [_id]. *)
Theorem schedule_operation_outcome (process : AssistanceProcess) (operation_key : string)
    (c : AssistanceContext) (time_to_invocation_in_s : option Z) (a : option string)
    (w : World) :
  match schedule_operation process operation_key c time_to_invocation_in_s a w with
  | (inl e, w') =>
      w' = w
      /\ (e = AssistanceOperationException
          <-> _registered_operations process !! operation_key = None)
      /\ (e = AssistanceOperationCanNotBeScheduledException
          <-> is_Some (_registered_operations process !! operation_key)
              /\ context_can_be_persisted c = false)
      /\ (e = OverflowError
          <-> is_Some (_registered_operations process !! operation_key)
              /\ context_can_be_persisted c = true
              /\ exists delay factor,
                   time_to_invocation_in_s = Some delay
                   /\ as_number (debug_time_factor w) = inr factor
                   /\ ~ schedulable (clock w) (delay * factor))
      /\ (e = AssistanceOperationException
          \/ e = AssistanceOperationCanNotBeScheduledException
          \/ e = OverflowError
          \/ e = TypeError \/ e = InvalidDocument)
  | (inr _, w') =>
      is_Some (_registered_operations process !! operation_key)
      /\ context_can_be_persisted c = true
      /\ exists delay factor,
           time_to_invocation_in_s = Some delay
           /\ as_number (debug_time_factor w) = inr factor
           /\ schedulable (clock w) (delay * factor)
           /\ w' = set_assistance_operations_collection
                     (assistance_operations_collection w
                      ++ [scheduled_document process operation_key c a
                            (clock w + delay * factor) (oid_supply w)])
                     (set_oid_supply (S (oid_supply w)) w)
  end.
Proof.
  unfold schedule_operation, __is_operation_registered.
  destruct (_registered_operations process !! operation_key) as [operation|] eqn:Hregistered.
  2: { rewrite bool_decide_eq_false_2 by (intros [? ?]; discriminate). cbn [negb].
       unfold raise. split; [reflexivity|]. split; [tauto|].
       split; [|split; [|tauto]].
       - split; [discriminate|]. intros [[? ?] _]. discriminate.
       - split; [discriminate|]. intros [[? ?] _]. discriminate. }
  rewrite bool_decide_eq_true_2 by eauto. cbn [negb].
  destruct (context_can_be_persisted c) eqn:Hflag; cbn [negb].
  2: { unfold raise. split; [reflexivity|]. split; [|split; [|split; [|tauto]]].
       - split; discriminate.
       - split; [eauto | reflexivity].
       - split; [discriminate|]. intros (_ & ? & _). discriminate. }
  rewrite (bind_inr _ _ _ _ _ (debug_run w)).
  match goal with
  | |- context [bind ?m ?k w] =>
      assert (Hm : m w = (inr (debug_time_factor w), w))
  end.
  { unfold debug_time_factor, read_setting_by_key, bind, gets, ret.
    destruct (debug_enabled w); [|reflexivity]. now destruct (find _ _). }
  rewrite (bind_inr _ _ _ _ _ Hm).
  destruct time_to_invocation_in_s as [delay|].
  2: { rewrite bind_lift_inl. split; [reflexivity|]. split; [|split; [|split; [|tauto]]].
       - split; discriminate.
       - split; [discriminate | intros [_ ?]; discriminate].
       - split; [discriminate|]. intros (_ & _ & ? & ? & ? & _). discriminate. }
  destruct (as_number (debug_time_factor w)) as [e|factor] eqn:Hnumber.
  { assert (e = TypeError) as ->.
    { unfold as_number in Hnumber. destruct (debug_time_factor w); congruence. }
    cbn [bindE]. rewrite bind_lift_inl. split; [reflexivity|].
    split; [|split; [|split; [|tauto]]].
    - split; discriminate.
    - split; [discriminate | intros [_ ?]; discriminate].
    - split; [discriminate|]. intros (_ & _ & ? & ? & _ & ? & _). discriminate. }
  cbn [bindE]. rewrite bind_lift_inr.
  unfold create_assistance_operation_for_scheduled_invocation.
  rewrite bind_assoc. unfold bind at 1. unfold current_datetime at 1, gets at 1.
  cbv beta iota. cbn [so_ctx so_oid].
  destruct (schedulable_dec (clock w) (delay * factor)) as [Hrange | Hrange].
  2: { rewrite (due_time_overflow _ _ Hrange), !bind_assoc, bind_lift_inl.
       split; [reflexivity|]. split; [|split; [|split; [|tauto]]].
       - split; discriminate.
       - split; [discriminate | intros [_ ?]; discriminate].
       - split; [|reflexivity]. intros _. split; [eauto|]. split; [reflexivity|].
         exists delay, factor. auto. }
  rewrite (due_time_schedulable _ _ Hrange), !bind_assoc, bind_lift_inr.
  destruct (context_encodable c) eqn:Hencodable.
  2: { rewrite bind_raise. split; [reflexivity|]. split; [|split; [|split; [|tauto]]].
       - split; discriminate.
       - split; [discriminate | intros [_ ?]; discriminate].
       - split; [discriminate|]. intros (_ & _ & d & f & [= <-] & Hf & Hno).
         injection Hf as <-. contradiction. }
  cbn. split; [eauto|]. split; [reflexivity|].
  exists delay, factor. split; [reflexivity|]. split; [reflexivity|]. split; [exact Hrange|].
  reflexivity.
Qed.

(** ** Process definitions: registration and description *)

Lemma register_phases_well_linked (process process' : AssistanceProcess)
    (phases : list AssistancePhase) :
  _register_phases process phases = inr process' -> well_linked phases.
Proof.
  unfold _register_phases, bindE.
  destruct (foldE (register_phase phases) (enumerate phases) _) as [e|r] eqn:Hrun;
    [discriminate|].
  intros _. apply register_phases_inr in Hrun as (_ & _ & _ & _ & Hall).
  intros phase_index phase step_index step Hphase Hstep Hlast.
  destruct (Hall phase_index phase step_index step Hphase Hstep)
    as (operation & _ & _ & Hlink).
  cbn [Nat.add] in Hlink. rewrite Hlast in Hlink.
  destruct Hlink as (next_step & Hnext & _). eauto.
Qed.

Lemma nonempty_phases_well_linked (phases : list AssistancePhase) :
  Forall (fun phase => steps phase ≠ []) phases -> well_linked phases.
Proof.
  intros Hnonempty phase_index phase step_index step Hphase Hstep Hlast.
  unfold code_next_step. unfold code_last_step in Hlast.
  apply lookup_lt_Some in Hstep as Hlt. apply lookup_lt_Some in Hphase as Hlt'.
  destruct (decide (step_index = length (steps phase) - 1)) as [Hend | Hmore].
  - rewrite (bool_decide_eq_true_2 _ Hend) in *. cbn [negb]. rewrite andb_true_r in Hlast.
    apply bool_decide_eq_false_1 in Hlast.
    destruct (phases !! (phase_index + 1)) as [next_phase|] eqn:Hnext.
    + unfold index at 1. rewrite Hnext. cbn [bindE].
      eapply Forall_lookup_1 in Hnonempty; [|exact Hnext].
      destruct (steps next_phase) as [|first rest] eqn:Hsteps; [contradiction|].
      exists first. reflexivity.
    + apply lookup_ge_None in Hnext. lia.
  - rewrite (bool_decide_eq_false_2 _ Hmore). cbn [negb].
    destruct (steps phase !! (step_index + 1)) as [next_step|] eqn:Hnext.
    + exists next_step. unfold index. now rewrite Hnext.
    + apply lookup_ge_None in Hnext. lia.
Qed.

Lemma get_type_step_run (phases : list AssistancePhase) (phase_index step_index : nat)
    (phase : AssistancePhase) (step : AssistancePhaseStep)
    (acc : list AssistancePhaseStepModel * Z) :
  well_linked phases ->
  phases !! phase_index = Some phase ->
  steps phase !! step_index = Some step ->
  get_type_step phases phase_index phase (step_index, step) acc
  = inr (fst acc ++ [step_description phases phase_index step_index step],
         (snd acc + default 0 (step_duration phases phase_index step_index))%Z).
Proof.
  intros Hlinked Hphase Hstep. unfold get_type_step. cbn [fst snd].
  rewrite andb_comm. fold (code_last_step phases phase_index phase step_index).
  fold (code_next_step phases phase_index phase step_index).
  unfold step_description, step_duration.
  destruct (code_last_step phases phase_index phase step_index) eqn:Hlast.
  - rewrite (code_last_step_is_last _ _ _ _ _ Hphase Hstep Hlast). cbn.
    now rewrite Z.add_0_r.
  - destruct (Hlinked _ _ _ _ Hphase Hstep Hlast) as (next_step & Hnext).
    rewrite Hnext. cbn [bindE].
    rewrite (code_next_step_is_next _ _ _ _ _ _ Hphase Hstep Hnext). cbn.
    destruct (schedule next_step); cbn; [reflexivity | now rewrite Z.add_0_r].
Qed.

Lemma durations_sum_snoc (step_specs : list AssistancePhaseStepModel)
    (step_spec : AssistancePhaseStepModel) :
  durations_sum (step_specs ++ [step_spec])
  = (durations_sum step_specs + default 0 (psm_duration step_spec))%Z.
Proof. unfold durations_sum. now rewrite foldl_app. Qed.

(** The inner loop of [get_type], started at step [k] of the phase. *)
Lemma get_type_steps_run (phases : list AssistancePhase) (phase_index : nat)
    (phase : AssistancePhase) (remaining : list AssistancePhaseStep) :
  well_linked phases ->
  phases !! phase_index = Some phase ->
  forall (k : nat) (done : list AssistancePhaseStepModel),
    (forall j step, remaining !! j = Some step -> steps phase !! (k + j) = Some step) ->
    foldE (get_type_step phases phase_index phase) (enumerate_from k remaining)
      (done, durations_sum done)
    = inr (done ++ imap (fun j step => step_description phases phase_index (k + j) step)
                     remaining,
           durations_sum
             (done ++ imap (fun j step => step_description phases phase_index (k + j) step)
                        remaining)).
Proof.
  intros Hlinked Hphase. induction remaining as [|step remaining IH]; intros k done Hplace.
  - cbn. now rewrite app_nil_r.
  - cbn [enumerate_from foldE].
    rewrite (get_type_step_run phases phase_index k phase step _ Hlinked Hphase).
    2: { specialize (Hplace 0 step eq_refl). now rewrite Nat.add_0_r in Hplace. }
    cbn [bindE fst snd].
    replace (durations_sum done + default 0 (step_duration phases phase_index k))%Z
      with (durations_sum (done ++ [step_description phases phase_index k step]))
      by apply durations_sum_snoc.
    rewrite IH.
    2: { intros j step' Hj. specialize (Hplace (S j) step' Hj).
         now replace (S k + j) with (k + S j) by lia. }
    cbn [imap]. rewrite Nat.add_0_r, <- !app_assoc. cbn [app].
    assert (Hshift : imap (fun j step0 => step_description phases phase_index (S k + j) step0)
                       remaining
                     = imap ((fun j step0 => step_description phases phase_index (k + j) step0)
                             ∘ S) remaining).
    { apply imap_ext. intros j x _. unfold compose. f_equal. lia. }
    now rewrite Hshift.
Qed.

Lemma get_type_phase_run (phases : list AssistancePhase) (phase_index : nat)
    (phase : AssistancePhase) (done : list AssistancePhaseModel) :
  well_linked phases ->
  phases !! phase_index = Some phase ->
  get_type_phase phases (phase_index, phase) done
  = inr (done
         ++ [ let step_specs :=
                imap (fun step_index step =>
                        step_description phases phase_index step_index step)
                  (steps phase) in
              {| pm_phase_number := (Z.of_nat phase_index + 1)%Z;
                 pm_parameters := phase_parameters phase;
                 pm_duration :=
                   if bool_decide (durations_sum step_specs ≠ 0%Z)
                   then Some (durations_sum step_specs) else None;
                 pm_steps := step_specs |} ]).
Proof.
  intros Hlinked Hphase. unfold get_type_phase, enumerate. cbn [fst snd].
  change ([], 0%Z) with (@nil AssistancePhaseStepModel, durations_sum []).
  rewrite (get_type_steps_run phases phase_index phase (steps phase) Hlinked Hphase 0 []).
  - reflexivity.
  - intros j step Hj. exact Hj.
Qed.

(** The outer loop, started at phase [k]. *)
Lemma get_type_phases_run (phases : list AssistancePhase) (remaining : list AssistancePhase) :
  well_linked phases ->
  forall (k : nat) (done : list AssistancePhaseModel),
    (forall j phase, remaining !! j = Some phase -> phases !! (k + j) = Some phase) ->
    exists described,
      foldE (get_type_phase phases) (enumerate_from k remaining) done
      = inr (done ++ described)
      /\ length described = length remaining
      /\ forall j phase,
           remaining !! j = Some phase ->
           described !! j
           = Some (let step_specs :=
                     imap (fun step_index step =>
                             step_description phases (k + j) step_index step)
                       (steps phase) in
                   {| pm_phase_number := (Z.of_nat (k + j) + 1)%Z;
                      pm_parameters := phase_parameters phase;
                      pm_duration :=
                        if bool_decide (durations_sum step_specs ≠ 0%Z)
                        then Some (durations_sum step_specs) else None;
                      pm_steps := step_specs |}).
Proof.
  intros Hlinked. induction remaining as [|phase remaining IH]; intros k done Hplace.
  - exists []. cbn. rewrite app_nil_r. split; [reflexivity|]. split; [reflexivity|].
    intros j phase Hj. discriminate Hj.
  - cbn [enumerate_from foldE].
    rewrite (get_type_phase_run phases k phase done Hlinked).
    2: { specialize (Hplace 0 phase eq_refl). now rewrite Nat.add_0_r in Hplace. }
    cbn [bindE].
    match goal with
    | |- context [foldE _ _ ?acc] =>
        destruct (IH (S k) acc) as (described & Hrun & Hlength & Hall)
    end.
    { intros j phase' Hj. specialize (Hplace (S j) phase' Hj).
      now replace (S k + j) with (k + S j) by lia. }
    rewrite Hrun. eexists (_ :: described). rewrite <- app_assoc. cbn [app].
    split; [reflexivity|]. split; [cbn; now rewrite Hlength|].
    intros [|j] phase' Hj.
    + injection Hj as <-. cbn. now rewrite Nat.add_0_r.
    + cbn in Hj. change ((?x :: described) !! S j) with (described !! j).
      rewrite (Hall j phase' Hj).
      now replace (S k + j) with (k + S j) by lia.
Qed.

(** X21. [get_type] never raises on a process whose phases
    [_register_phases] accepted. It describes every phase under its
    number, counted from 1, with its parameters and one description per
    step in order; the duration of a step is the delay of the schedule
    of the step that follows it in the whole sequence, and absent when
    that step is triggered or there is none; the duration of a phase is
    the sum of the durations of its steps, and absent when the sum is
    0. *)
Theorem get_type_of_registered_phases (t : string -> string -> string)
    (class : ProcessClass) (process process' : AssistanceProcess)
    (phases : list AssistancePhase) :
  _register_phases process phases = inr process' ->
  exists assistance_type,
    get_type t class process' = inr assistance_type
    /\ at_key assistance_type = get_key process
    /\ length (at_phases assistance_type) = length phases
    /\ forall phase_index phase,
         phases !! phase_index = Some phase ->
         exists phase_spec,
           at_phases assistance_type !! phase_index = Some phase_spec
           /\ pm_phase_number phase_spec = (Z.of_nat phase_index + 1)%Z
           /\ pm_parameters phase_spec = phase_parameters phase
           /\ pm_steps phase_spec
              = imap (fun step_index step =>
                        step_description phases phase_index step_index step)
                  (steps phase)
           /\ pm_duration phase_spec
              = if bool_decide (durations_sum (pm_steps phase_spec) ≠ 0%Z)
                then Some (durations_sum (pm_steps phase_spec)) else None.
Proof.
  intros Hregister.
  pose proof (register_phases_well_linked _ _ _ Hregister) as Hlinked.
  assert (Hphases : _registered_phases process' = phases
                    /\ get_key process' = get_key process).
  { unfold _register_phases, bindE in Hregister.
    destruct (foldE _ _ _); [discriminate|]. injection Hregister as <-. split; reflexivity. }
  destruct Hphases as [Hphases Hkey].
  destruct (get_type_phases_run phases phases Hlinked 0 []) as (described & Hrun & Hlength & Hall).
  { intros j phase Hj. exact Hj. }
  unfold get_type, enumerate. rewrite Hphases, Hrun. cbn [bindE app].
  eexists. split; [reflexivity|]. cbn [at_key at_phases].
  split; [exact Hkey|]. split; [exact Hlength|].
  intros phase_index phase Hphase. eexists. split; [apply (Hall _ _ Hphase)|].
  cbn. auto.
Qed.

Lemma get_type_of_registered_phases_witness :
  exists process' assistance_type,
    _register_phases (new_process "demo") example_phases = inr process'
    /\ get_type example_t demo_class process' = inr assistance_type
    /\ length (at_phases assistance_type) = 2
    /\ exists phase_spec,
         at_phases assistance_type !! 0 = Some phase_spec
         /\ pm_phase_number phase_spec = 1%Z
         /\ map psm_duration (pm_steps phase_spec) = [None; Some 30%Z]
         /\ pm_duration phase_spec = Some 30%Z.
Proof.
  destruct (_register_phases (new_process "demo") example_phases) as [e|process'] eqn:Hrun.
  - vm_compute in Hrun. discriminate Hrun.
  - destruct (get_type_of_registered_phases example_t demo_class (new_process "demo")
                process' example_phases Hrun)
      as (assistance_type & Hget & _ & Hlength & Hall).
    exists process', assistance_type. split; [reflexivity|]. split; [exact Hget|].
    split; [exact Hlength|].
    destruct (Hall 0 _ eq_refl) as (phase_spec & Hlook & Hnumber & _ & Hsteps & Hduration).
    exists phase_spec. split; [exact Hlook|]. split; [exact Hnumber|].
    rewrite Hduration, Hsteps. split; reflexivity.
Defined.

Lemma register_step_run (phases : list AssistancePhase) (phase_index step_index : nat)
    (phase : AssistancePhase) (step : AssistancePhaseStep) (r : Registration) :
  well_linked phases ->
  phases !! phase_index = Some phase ->
  steps phase !! step_index = Some step ->
  operations_to_register r !! step_operation_key step = None ->
  exists operation,
    register_step phases phase_index phase step_index step r
    = inr {| operations_to_register :=
               <[step_operation_key step := operation]> (operations_to_register r);
             keys_of_operations_to_register_to_phase_number :=
               <[step_operation_key step := (Z.of_nat phase_index + 1)%Z]>
                 (keys_of_operations_to_register_to_phase_number r);
             keys_of_operations_to_register_to_step_number :=
               <[step_operation_key step := (step_number r + 1)%Z]>
                 (keys_of_operations_to_register_to_step_number r);
             step_number := (step_number r + 1)%Z |}.
Proof.
  intros Hlinked Hphase Hstep Hfree. unfold register_step. rewrite Hfree.
  rewrite bool_decide_eq_false_2 by (intros [? ?]; discriminate).
  fold (code_last_step phases phase_index phase step_index).
  fold (code_next_step phases phase_index phase step_index).
  destruct (code_last_step phases phase_index phase step_index) eqn:Hlast.
  - eexists. reflexivity.
  - destruct (Hlinked _ _ _ _ Hphase Hstep Hlast) as (next_step & Hnext).
    rewrite Hnext. cbn [bindE]. eexists. reflexivity.
Qed.

(** The inner loop of [_register_phases] on steps with new keys. *)
Lemma register_steps_run (phases : list AssistancePhase) (phase_index : nat)
    (phase : AssistancePhase) (remaining : list AssistancePhaseStep) :
  well_linked phases ->
  phases !! phase_index = Some phase ->
  forall (k : nat) (r : Registration),
    (forall j step, remaining !! j = Some step -> steps phase !! (k + j) = Some step) ->
    NoDup (map step_operation_key remaining) ->
    (forall step, step ∈ remaining ->
                  operations_to_register r !! step_operation_key step = None) ->
    exists r',
      foldE (fun indexed_step =>
               register_step phases phase_index phase (fst indexed_step) (snd indexed_step))
            (enumerate_from k remaining) r = inr r'
      /\ step_number r' = (step_number r + Z.of_nat (length remaining))%Z
      /\ (forall j step,
            remaining !! j = Some step ->
            keys_of_operations_to_register_to_phase_number r' !! step_operation_key step
            = Some (Z.of_nat phase_index + 1)%Z
            /\ keys_of_operations_to_register_to_step_number r' !! step_operation_key step
               = Some (step_number r + Z.of_nat j + 1)%Z)
      /\ (forall key,
            key ∉ map step_operation_key remaining ->
            operations_to_register r' !! key = operations_to_register r !! key
            /\ keys_of_operations_to_register_to_phase_number r' !! key
               = keys_of_operations_to_register_to_phase_number r !! key
            /\ keys_of_operations_to_register_to_step_number r' !! key
               = keys_of_operations_to_register_to_step_number r !! key).
Proof.
  intros Hlinked Hphase.
  induction remaining as [|step remaining IH]; intros k r Hplace Hnodup Hfree.
  - exists r. cbn. split; [reflexivity|]. split; [lia|].
    split; [intros j step Hj; discriminate Hj | auto].
  - cbn [enumerate_from foldE fst snd].
    cbn [map] in Hnodup. apply NoDup_cons in Hnodup as [Hnew Hnodup].
    destruct (register_step_run phases phase_index k phase step r Hlinked Hphase)
      as (operation & Hstep).
    { specialize (Hplace 0 step eq_refl). now rewrite Nat.add_0_r in Hplace. }
    { apply Hfree, list_elem_of_here. }
    rewrite Hstep. cbn [bindE].
    match goal with
    | |- context [foldE _ _ ?r1] =>
        destruct (IH (S k) r1) as (r' & Hrun & Hnumber & Hall & Hother)
    end.
    { intros j step' Hj. specialize (Hplace (S j) step' Hj).
      now replace (S k + j) with (k + S j) by lia. }
    { exact Hnodup. }
    { intros step' Hin. cbn [operations_to_register].
      rewrite lookup_insert_ne.
      - apply Hfree. now apply list_elem_of_further.
      - intros Heq. apply Hnew. rewrite Heq. now apply (list_elem_of_fmap_2 step_operation_key). }
    exists r'. split; [exact Hrun|]. cbn [step_number] in Hnumber.
    split; [rewrite Hnumber; cbn [length]; lia|]. split.
    + intros [|j] step' Hj.
      * injection Hj as <-. destruct (Hother (step_operation_key step) Hnew) as (_ & Hp & Hs).
        rewrite Hp, Hs. cbn. rewrite !lookup_insert_eq. split; [reflexivity|].
        f_equal. lia.
      * cbn in Hj. destruct (Hall j step' Hj) as [Hp Hs]. split; [exact Hp|].
        rewrite Hs. cbn [step_number]. f_equal. lia.
    + intros key Hkey. cbn [map] in Hkey. apply not_elem_of_cons in Hkey as [Hne Hkey].
      destruct (Hother key Hkey) as (Ho & Hp & Hs). rewrite Ho, Hp, Hs. cbn.
      rewrite !lookup_insert_ne by congruence. auto.
Qed.

Lemma all_steps_cons (phase : AssistancePhase) (phases : list AssistancePhase) :
  all_steps (phase :: phases) = steps phase ++ all_steps phases.
Proof. reflexivity. Qed.

(** The outer loop of [_register_phases] on steps with new keys. *)
Lemma register_phases_run (phases : list AssistancePhase)
    (remaining : list AssistancePhase) :
  well_linked phases ->
  forall (k : nat) (r : Registration),
    (forall j phase, remaining !! j = Some phase -> phases !! (k + j) = Some phase) ->
    NoDup (map step_operation_key (all_steps remaining)) ->
    (forall step, step ∈ all_steps remaining ->
                  operations_to_register r !! step_operation_key step = None) ->
    exists r',
      foldE (register_phase phases) (enumerate_from k remaining) r = inr r'
      /\ (forall j phase i step,
            remaining !! j = Some phase -> steps phase !! i = Some step ->
            keys_of_operations_to_register_to_phase_number r' !! step_operation_key step
            = Some (Z.of_nat (k + j) + 1)%Z
            /\ keys_of_operations_to_register_to_step_number r' !! step_operation_key step
               = Some (step_number r
                       + Z.of_nat (length (all_steps (take j remaining)) + i) + 1)%Z)
      /\ (forall key,
            key ∉ map step_operation_key (all_steps remaining) ->
            operations_to_register r' !! key = operations_to_register r !! key
            /\ keys_of_operations_to_register_to_phase_number r' !! key
               = keys_of_operations_to_register_to_phase_number r !! key
            /\ keys_of_operations_to_register_to_step_number r' !! key
               = keys_of_operations_to_register_to_step_number r !! key).
Proof.
  intros Hlinked.
  induction remaining as [|phase remaining IH]; intros k r Hplace Hnodup Hfree.
  - exists r. cbn. split; [reflexivity|].
    split; [intros j phase i step Hj; discriminate Hj | auto].
  - cbn [enumerate_from foldE]. unfold register_phase at 1, enumerate. cbn [fst snd].
    rewrite all_steps_cons, map_app in Hnodup.
    apply NoDup_app in Hnodup as (Hnodup1 & Hdisjoint & Hnodup2).
    destruct (register_steps_run phases k phase (steps phase) Hlinked) with (k := 0) (r := r)
      as (r1 & Hrun1 & Hnumber1 & Hall1 & Hother1).
    { specialize (Hplace 0 phase eq_refl). now rewrite Nat.add_0_r in Hplace. }
    { intros j step Hj. exact Hj. }
    { exact Hnodup1. }
    { intros step Hin. apply Hfree. rewrite all_steps_cons. apply elem_of_app. now left. }
    rewrite Hrun1. cbn [bindE].
    destruct (IH (S k) r1) as (r' & Hrun & Hall & Hother).
    { intros j phase' Hj. specialize (Hplace (S j) phase' Hj).
      now replace (S k + j) with (k + S j) by lia. }
    { exact Hnodup2. }
    { intros step Hin.
      assert (Hkey : step_operation_key step ∉ map step_operation_key (steps phase)).
      { intros Hin1. apply (Hdisjoint _ Hin1).
        now apply (list_elem_of_fmap_2 step_operation_key). }
      destruct (Hother1 _ Hkey) as (-> & _). apply Hfree.
      rewrite all_steps_cons. apply elem_of_app. now right. }
    exists r'. split; [exact Hrun|]. split.
    + intros [|j] phase' i step Hj Hi.
      * injection Hj as <-. destruct (Hall1 i step Hi) as [Hp Hs].
        assert (Hkey : step_operation_key step ∉ map step_operation_key (all_steps remaining)).
        { intros Hin2. eapply Hdisjoint; [|exact Hin2].
          apply (list_elem_of_fmap_2 step_operation_key).
          eapply list_elem_of_lookup_2. exact Hi. }
        destruct (Hother _ Hkey) as (_ & Hp' & Hs'). rewrite Hp', Hs', Hp, Hs.
        rewrite Nat.add_0_r. cbn [take all_steps concat map length]. split; reflexivity.
      * cbn in Hj. destruct (Hall j phase' i step Hj Hi) as [Hp Hs].
        rewrite Hp, Hs, Hnumber1. cbn [take]. rewrite all_steps_cons, length_app.
        split; f_equal; lia.
    + intros key Hkey. rewrite all_steps_cons, map_app in Hkey.
      apply not_elem_of_app in Hkey as [Hkey1 Hkey2].
      destruct (Hother key Hkey2) as (Ho & Hp & Hs).
      destruct (Hother1 key Hkey1) as (Ho1 & Hp1 & Hs1).
      rewrite Ho, Hp, Hs, Ho1, Hp1, Hs1. auto.
Qed.

(** X22. [_register_phases] returns for every list of phases in which
    no operation key occurs twice and no phase is without steps. It
    stores the phases, gives every step the number of its phase,
    counted from 1, and its number in the whole sequence, counted from
    1; an operation registered before under a key of no step stays
    registered and has no phase number. *)
Theorem register_phases_total (process : AssistanceProcess)
    (phases : list AssistancePhase) :
  NoDup (map step_operation_key (all_steps phases)) ->
  Forall (fun phase => steps phase ≠ []) phases ->
  exists process',
    _register_phases process phases = inr process'
    /\ _registered_phases process' = phases
    /\ (forall phase_index phase step_index step,
          phases !! phase_index = Some phase ->
          steps phase !! step_index = Some step ->
          _registered_operation_keys_to_phase_number process' !! step_operation_key step
          = Some (Z.of_nat phase_index + 1)%Z
          /\ registered_operation_keys_to_step_number process' !! step_operation_key step
             = Some (Z.of_nat (position phases phase_index step_index) + 1)%Z)
    /\ (forall key,
          key ∉ map step_operation_key (all_steps phases) ->
          _registered_operations process' !! key = _registered_operations process !! key
          /\ _registered_operation_keys_to_phase_number process' !! key = None
          /\ registered_operation_keys_to_step_number process' !! key = None).
Proof.
  intros Hnodup Hnonempty.
  pose proof (nonempty_phases_well_linked phases Hnonempty) as Hlinked.
  destruct (register_phases_run phases phases Hlinked 0
              {| operations_to_register := ∅;
                 keys_of_operations_to_register_to_phase_number := ∅;
                 keys_of_operations_to_register_to_step_number := ∅;
                 step_number := 0 |})
    as (r & Hrun & Hall & Hother).
  { intros j phase Hj. exact Hj. }
  { exact Hnodup. }
  { intros step _. apply lookup_empty. }
  unfold _register_phases, enumerate. rewrite Hrun. cbn [bindE].
  eexists. split; [reflexivity|]. cbn.
  split; [reflexivity|]. split.
  - intros phase_index phase step_index step Hphase Hstep.
    destruct (Hall phase_index phase step_index step Hphase Hstep) as [Hp Hs].
    rewrite Hp, Hs. cbn. unfold position. split; f_equal; lia.
  - intros key Hkey. destruct (Hother key Hkey) as (Ho & Hp & Hs).
    rewrite Hp, Hs. cbn. rewrite !lookup_empty. split; [|auto].
    rewrite lookup_union_r; [reflexivity|]. rewrite Ho. apply lookup_empty.
Qed.

Lemma register_phases_total_witness :
  exists process',
    _register_phases (new_process "demo") example_phases = inr process'
    /\ _registered_operation_keys_to_phase_number process' !! "c" = Some 2%Z
    /\ registered_operation_keys_to_step_number process' !! "c" = Some 3%Z.
Proof.
  destruct (register_phases_total (new_process "demo") example_phases)
    as (process' & Hrun & _ & Hnumbers & _).
  - apply (bool_decide_unpack _). vm_compute. exact I.
  - repeat constructor; discriminate.
  - exists process'. split; [exact Hrun|].
    exact (Hnumbers 1 _ 0 (plain_step "c" (Some {| schedule_time_to_invocation_in_s := 30 |}))
             eq_refl eq_refl).
Defined.

Lemma elem_of_all_steps (phases : list AssistancePhase) (step : AssistancePhaseStep) :
  step ∈ all_steps phases ->
  exists phase_index phase step_index,
    phases !! phase_index = Some phase /\ steps phase !! step_index = Some step.
Proof.
  induction phases as [|phase phases IH]; [intros H; inversion H|].
  rewrite all_steps_cons. intros [Hin | Hin]%elem_of_app.
  - apply list_elem_of_lookup in Hin as (i & Hi). exists 0, phase, i. auto.
  - destruct (IH Hin) as (j & phase' & i & Hj & Hi). exists (S j), phase', i. auto.
Qed.

(** X23. The order of registrations matters. After [_register_phases]
    the key of every step is taken: [_register_operation] with it
    raises [AssistanceOperationException]. The other way round nothing
    is checked: an operation registered before under the key of a step
    is replaced by the operation of the step without an error. *)
Theorem registration_order (process process' : AssistanceProcess)
    (phases : list AssistancePhase) (key : string) :
  _register_phases process phases = inr process' ->
  key ∈ map step_operation_key (all_steps phases) ->
  (forall operation,
     _register_operation process' key operation = inl AssistanceOperationException)
  /\ (forall earlier,
        exists later,
          _register_phases
            (with_registered_operations
               (<[key := earlier]> (_registered_operations process)) process) phases
          = inr later
          /\ _registered_operations later !! key = _registered_operations process' !! key
          /\ is_Some (_registered_operations later !! key)).
Proof.
  intros Hregister Hkey. unfold _register_phases, bindE in *.
  destruct (foldE (register_phase phases) (enumerate phases) _) as [e|r] eqn:Hrun;
    [discriminate|].
  injection Hregister as <-.
  apply register_phases_inr in Hrun as (_ & _ & _ & _ & Hall).
  apply list_elem_of_fmap in Hkey as (step & -> & Hstep).
  apply elem_of_all_steps in Hstep as (phase_index & phase & step_index & Hphase & Hstep).
  destruct (Hall phase_index phase step_index step Hphase Hstep) as (operation & Hlook & _).
  split.
  - intros operation'. unfold _register_operation, __is_operation_registered.
    cbn [_registered_operations].
    rewrite bool_decide_eq_true_2; [reflexivity|].
    exists operation. now apply lookup_union_Some_l.
  - intros earlier. eexists. split; [reflexivity|]. cbn [_registered_operations].
    rewrite !(lookup_union_Some_l _ _ _ _ Hlook). eauto.
Qed.

Lemma registration_order_witness :
  exists process',
    _register_phases (new_process "demo") example_phases = inr process'
    /\ (forall operation,
          _register_operation process' "b" operation = inl AssistanceOperationException)
    /\ forall earlier,
         exists later,
           _register_phases
             (with_registered_operations
                (<["b" := earlier]> (_registered_operations (new_process "demo")))
                (new_process "demo")) example_phases
           = inr later
           /\ _registered_operations later !! "b" = _registered_operations process' !! "b"
           /\ is_Some (_registered_operations later !! "b").
Proof.
  destruct (_register_phases (new_process "demo") example_phases) as [e|process'] eqn:Hrun.
  - vm_compute in Hrun. discriminate Hrun.
  - exists process'. split; [reflexivity|].
    apply (registration_order (new_process "demo") process' example_phases "b" Hrun).
    vm_compute. apply list_elem_of_further, list_elem_of_here.
Defined.

(** ** The provisioning functions *)

Lemma get_type_total (t : string -> string -> string) (class : ProcessClass)
    (process : AssistanceProcess) :
  well_linked (_registered_phases process) ->
  exists assistance_type,
    get_type t class process = inr assistance_type
    /\ at_key assistance_type = get_key process.
Proof.
  intros Hlinked.
  destruct (get_type_phases_run (_registered_phases process) (_registered_phases process)
              Hlinked 0 []) as (described & Hrun & _).
  { intros j phase Hj. exact Hj. }
  unfold get_type, enumerate. rewrite Hrun. cbn [bindE]. eexists. split; reflexivity.
Qed.

Section ProvisioningProperties.

Variable t : string -> string -> string.

Variable ASSISTANCE_TYPES : gmap string AssistanceProcess.

Variable class_of : AssistanceProcess -> ProcessClass.

Lemma describe_types_run (w : World) (entries : list (string * AssistanceProcess)) :
  (forall key process, (key, process) ∈ entries ->
     ASSISTANCE_TYPES !! key = Some process /\ well_linked (_registered_phases process)) ->
  forall described,
    exists more,
      for_each (map fst entries)
        (fun supported_assistance_type_key described =>
           match ASSISTANCE_TYPES !! supported_assistance_type_key with
           | None => raise KeyError
           | Some process =>
               let* assistance_type := lift (get_type t (class_of process) process) in
               ret (described ++ [assistance_type])
           end) described w
      = (inr (described ++ more), w)
      /\ map at_key more = map (fun kp => get_key (snd kp)) entries.
Proof.
  induction entries as [|[key process] entries IH]; intros Hentries described.
  - exists []. cbn. now rewrite app_nil_r.
  - destruct (Hentries key process (list_elem_of_here _ _)) as [Hlook Hlinked].
    destruct (get_type_total t (class_of process) process Hlinked)
      as (assistance_type & Hget & Hkey).
    cbn [map fst for_each]. rewrite Hlook, Hget, bind_assoc, bind_lift_inr, bind_ret_l.
    destruct (IH (fun k p Hin => Hentries k p (list_elem_of_further _ _ _ Hin))
                (described ++ [assistance_type])) as (more & Hrun & Hkeys).
    exists (assistance_type :: more). rewrite Hrun, <- app_assoc.
    split; [reflexivity|]. cbn. now rewrite Hkey, Hkeys.
Qed.

(** X24. [get_assistance_types] with a kind always raises
    [AttributeError]: the types of a kind are kept in a list, and the
    function asks the list for its keys. Without a kind, and with
    registered phases that [get_type] can follow, it returns one
    description for every type that is not disabled, under the key of
    its process; [get_assistance_type_keys] returns these keys, the
    supported keys that [update_assistance] hands to the resolver; and
    [get_assistance_type] returns the description with the key asked
    for, and [None] exactly when no such type is enabled. *)
Theorem get_assistance_types_spec (w : World) :
  (forall kind,
     get_assistance_types t ASSISTANCE_TYPES class_of (Some kind) w = (inl AttributeError, w))
  /\ ((forall key process,
         ASSISTANCE_TYPES !! key = Some process ->
         well_linked (_registered_phases process)) ->
      exists assistance_types,
        get_assistance_types t ASSISTANCE_TYPES class_of None w = (inr assistance_types, w)
        /\ supported_type_keys ASSISTANCE_TYPES w = (inr (map at_key assistance_types), w)
        /\ get_assistance_type_keys t ASSISTANCE_TYPES class_of w
           = supported_type_keys ASSISTANCE_TYPES w
        /\ forall key,
             exists found,
               get_assistance_type t ASSISTANCE_TYPES class_of key w = (inr found, w)
               /\ (found = None <-> key ∉ map at_key assistance_types)
               /\ (forall assistance_type,
                     found = Some assistance_type -> at_key assistance_type = key)).
Proof.
  split; [reflexivity|]. intros Hlinked.
  set (entries := List.filter
                    (fun kp => negb (bool_decide (fst kp ∈ disabled_assistance_type_keys w)))
                    (map_to_list ASSISTANCE_TYPES)).
  assert (Hkeys : List.filter
                    (fun k => negb (bool_decide (k ∈ disabled_assistance_type_keys w)))
                    (map fst (map_to_list ASSISTANCE_TYPES))
                  = map fst entries).
  { subst entries. induction (map_to_list ASSISTANCE_TYPES) as [|kp l IH]; [reflexivity|].
    cbn [map List.filter]. destruct (negb _); cbn [map]; now rewrite IH. }
  destruct (describe_types_run w entries) with (described := @nil AssistanceType)
    as (assistance_types & Hrun & Hat).
  { intros key process Hin. subst entries. apply elem_of_List_filter in Hin as [Hin _].
    apply elem_of_map_to_list in Hin. split; [exact Hin | eapply Hlinked, Hin]. }
  cbn [app] in Hrun.
  assert (Hget : get_assistance_types t ASSISTANCE_TYPES class_of None w
                 = (inr assistance_types, w)).
  { unfold get_assistance_types. cbn [collection_keys]. rewrite bind_lift_inr.
    unfold bind at 1. unfold gets at 1. rewrite Hkeys. exact Hrun. }
  assert (Hsupported : supported_type_keys ASSISTANCE_TYPES w
                       = (inr (map at_key assistance_types), w)).
  { unfold supported_type_keys. unfold bind at 1. unfold gets at 1. unfold ret.
    fold entries. now rewrite Hat. }
  exists assistance_types. split; [exact Hget|]. split; [exact Hsupported|]. split.
  - unfold get_assistance_type_keys. rewrite (bind_inr _ _ _ _ _ Hget).
    now rewrite Hsupported.
  - intros key. unfold get_assistance_type. rewrite (bind_inr _ _ _ _ _ Hget).
    eexists. split; [reflexivity|]. split.
    + split.
      * intros Hnone Hin. apply list_elem_of_fmap in Hin as (ty & -> & Hin).
        apply list_elem_of_In in Hin.
        eapply find_none in Hnone; [|exact Hin]. cbn in Hnone.
        now rewrite bool_decide_eq_true_2 in Hnone.
      * intros Hnotin.
        destruct (find _ assistance_types) as [ty|] eqn:Hfind; [|reflexivity].
        apply find_some in Hfind as [Hin Hkey]. apply bool_decide_eq_true_1 in Hkey.
        exfalso. apply Hnotin. rewrite <- Hkey.
        apply (list_elem_of_fmap_2 at_key). now apply list_elem_of_In.
    + intros ty Hfind. apply find_some in Hfind as [_ Hkey].
      now apply bool_decide_eq_true_1 in Hkey.
Qed.

End ProvisioningProperties.

Lemma get_assistance_types_spec_witness :
  exists assistance_types,
    get_assistance_types example_t demo_types (fun _ => demo_class) None empty_world
    = (inr assistance_types, empty_world)
    /\ supported_type_keys demo_types empty_world
       = (inr (map at_key assistance_types), empty_world)
    /\ get_assistance_type_keys example_t demo_types (fun _ => demo_class) empty_world
       = supported_type_keys demo_types empty_world
    /\ forall key,
         exists found,
           get_assistance_type example_t demo_types (fun _ => demo_class) key empty_world
           = (inr found, empty_world)
           /\ (found = None <-> key ∉ map at_key assistance_types)
           /\ (forall assistance_type,
                 found = Some assistance_type -> at_key assistance_type = key).
Proof.
  apply (proj2 (get_assistance_types_spec example_t demo_types (fun _ => demo_class)
                  empty_world)).
  intros key process Hlook. unfold demo_types in Hlook.
  apply lookup_singleton_Some in Hlook as [_ <-].
  intros phase_index phase step_index step Hphase. discriminate Hphase.
Defined.

(** ** Updating a running instance *)

Lemma load_assistance_objects_value (doc : Assistance) (w : World) :
  __load_assistance_objects doc w
  = (inr (with_assistance_objects (loaded_objects doc w) doc), w).
Proof.
  unfold __load_assistance_objects, loaded_objects.
  destruct (a_assistance_objects doc) as [|ref refs] eqn:Hrefs.
  - unfold ret. f_equal. f_equal. cbn [omap].
    replace (List.filter _ (assistance_objects_collection w)) with (@nil AssistanceObject).
    + destruct doc. cbn in Hrefs. subst. reflexivity.
    + symmetry. apply filter_nothing. apply Forall_forall. intros o _.
      destruct (ao_oid o); [|reflexivity]. cbn. apply bool_decide_eq_false_2.
      apply not_elem_of_nil.
  - reflexivity.
Qed.

Lemma read_assistance_by_a_id_value (q : Value) (w : World) (doc : Assistance) :
  find (fun d => a_id_matches q (a_id d)) (assistance_collection w) = Some doc ->
  read_assistance_by_a_id q w
  = (inr (Some (with_assistance_objects (loaded_objects doc w) doc)), w).
Proof.
  intros Hfind. unfold read_assistance_by_a_id, find_one_assistance.
  unfold bind at 1. unfold gets at 1. rewrite Hfind.
  unfold bind. now rewrite load_assistance_objects_value.
Qed.

Lemma is_applicable_with_a_id (s : OperationAttributes) (c : AssistanceContext)
    (q : Value) (w : World) :
  get_parameter c ASSISTANCE_CONTEXT_PARAMETER_KEY_A_ID = inr q ->
  is_applicable s c w = (inr true, w).
Proof.
  intros Hq. unfold is_applicable.
  destruct (assistance_in_progress_required s); [|reflexivity]. cbn [negb].
  unfold try_except. rewrite Hq, !bind_lift_inr.
  destruct (read_assistance_by_a_id_pure q w) as [r Hr].
  now rewrite (bind_inr _ _ _ _ _ Hr).
Qed.

Lemma find_replace_first_fun {A : Type} (p : A -> bool) (f : A -> A) (l : list A) (x : A) :
  find p l = Some x -> p (f x) = true -> find p (replace_first p f l) = Some (f x).
Proof.
  intros Hfind Hp. induction l as [|y l IH]; [discriminate|].
  cbn [find replace_first] in *. destruct (p y) eqn:Hy.
  - injection Hfind as ->. cbn [find]. now rewrite Hp.
  - cbn [find]. rewrite Hy. now apply IH.
Qed.

(** [update_assistance_adding_assistance_objects] on a running instance
    with new objects. *)
Lemma update_adding_run (assistance : Assistance) (w : World) (doc : Assistance)
    (st : AssistanceState) (s : string) :
  a_id assistance = Some s ->
  find (fun d => a_id_matches (VStr s) (a_id d)) (assistance_collection w) = Some doc ->
  a_assistance_state doc = Some st ->
  is_terminal (status st) = false ->
  a_assistance_objects assistance ≠ [] ->
  Forall (fun o => ao_oid o = None) (a_assistance_objects assistance) ->
  Forall (fun o => parameters_encodable (ao_parameters o) = true)
    (a_assistance_objects assistance) ->
  parameters_encodable (a_parameters assistance) = true ->
  let created :=
    created_objects (Some s) (clock w) (uuid_supply w) (oid_supply w)
      (a_assistance_objects assistance) in
  let assistance_dict :=
    with_assistance_objects
      (a_assistance_objects doc ++ map (fun created_ao => ref_object (ao_oid created_ao)) created)
      assistance in
  let w' :=
    set_assistance_collection
      (replace_first (fun d => a_id_matches (VStr s) (a_id d)) (fun _ => assistance_dict)
         (assistance_collection w))
      (with_created_objects created w) in
  update_assistance_adding_assistance_objects assistance w
  = (inr (with_assistance_objects (loaded_objects assistance_dict w') assistance_dict), w').
Proof.
  intros Hid Hfind Hstate Hrunning Hnonempty Hnew Hencodable Hparameters
         created assistance_dict w'.
  assert (Hdoc : a_id doc = Some s).
  { apply find_Some_holds in Hfind as [Hmatch _]. now apply a_id_matches_VStr. }
  unfold update_assistance_adding_assistance_objects, find_one_assistance.
  rewrite Hid. cbn [opt_str_value].
  unfold bind at 1. unfold gets at 1. rewrite Hfind.
  unfold existing_status. rewrite Hstate, bind_lift_inr, Hrunning, Hdoc.
  destruct (a_assistance_objects assistance) as [|o objects] eqn:Hobjects; [contradiction|].
  cbn [is_empty].
  pose proof (create_assistance_objects_written (o :: objects) (Some s) w Hnonempty Hnew
                Hencodable) as Hcreate.
  rewrite bind_assoc, (bind_inr _ _ _ _ _ Hcreate), bind_ret_l.
  unfold replace_one_assistance. cbn [with_assistance_objects a_parameters].
  rewrite Hparameters. unfold bind at 1. unfold modify at 1.
  rewrite load_assistance_objects_value. reflexivity.
Qed.

Lemma filter_everything {A : Type} (p : A -> bool) (l : list A) :
  Forall (fun x => p x = true) l -> List.filter p l = l.
Proof.
  induction 1 as [|x l Hx _ IH]; [reflexivity|]. cbn [List.filter]. now rewrite Hx, IH.
Qed.

Lemma created_objects_ids (a : option string) (now : Z) (objects : list AssistanceObject)
    (u i : nat) (c : AssistanceObject) :
  c ∈ created_objects a now u i objects ->
  exists j, ao_oid c = Some (i + j) /\ ao_id c = Some (uuid_str (u + j)).
Proof.
  intros Hc. apply list_elem_of_lookup in Hc as [j Hj].
  apply created_objects_lookup in Hj as [o [_ ->]]. now exists j.
Qed.

Lemma loaded_objects_stored (doc : Assistance) (w : World) (o : AssistanceObject) :
  o ∈ loaded_objects doc w -> o ∈ assistance_objects_collection w.
Proof. unfold loaded_objects. rewrite elem_of_List_filter. tauto. Qed.

(** After new objects were written and their references appended, the
    document loads the objects it had and the new ones. *)
Lemma loaded_objects_after_update (assistance doc : Assistance) (w : World)
    (a : option string) (objects : list AssistanceObject) (c : list Assistance) :
  objects_well_formed w ->
  let created := created_objects a (clock w) (uuid_supply w) (oid_supply w) objects in
  loaded_objects
    (with_assistance_objects
       (a_assistance_objects doc ++ map (fun created_ao => ref_object (ao_oid created_ao)) created)
       assistance)
    (set_assistance_collection c (with_created_objects created w))
  = loaded_objects doc w ++ created.
Proof.
  intros Hwf created. unfold loaded_objects.
  cbn [a_assistance_objects with_assistance_objects assistance_objects_collection
       set_assistance_collection with_created_objects set_assistance_objects_collection].
  rewrite List.filter_app. f_equal.
  - apply List.filter_ext_in. intros o Ho.
    apply list_elem_of_In in Ho.
    pose proof (proj1 (Forall_forall _ _) Hwf o Ho) as [[i [Hi Hlt]] _].
    rewrite Hi. apply bool_decide_ext. rewrite omap_app, elem_of_app.
    split; [|tauto]. intros [H|H]; [exact H|]. exfalso.
    apply list_elem_of_omap in H as [r [Hr Hoid]].
    apply list_elem_of_fmap in Hr as [x [-> Hx]]. cbn in Hoid.
    apply created_objects_ids in Hx as [j [Hj _]]. rewrite Hj in Hoid.
    injection Hoid as <-. lia.
  - apply filter_everything. apply Forall_forall. intros x Hx.
    destruct (created_objects_ids _ _ _ _ _ _ Hx) as [j [Hj _]]. rewrite Hj.
    apply bool_decide_eq_true_2. rewrite omap_app, elem_of_app. right.
    apply list_elem_of_omap. exists (ref_object (ao_oid x)). split; [|exact Hj].
    apply list_elem_of_fmap. now exists x.
Qed.

(** Of the objects an updated document loads, those whose [ao_id] the
    document did not have before are the new ones. *)
Lemma new_objects_filter (doc : Assistance) (w : World) (a : option string)
    (objects : list AssistanceObject) :
  objects_well_formed w ->
  let created := created_objects a (clock w) (uuid_supply w) (oid_supply w) objects in
  List.filter
    (fun assistance_object =>
       negb (bool_decide (ao_id assistance_object ∈ map ao_id (loaded_objects doc w))))
    (loaded_objects doc w ++ created)
  = created.
Proof.
  intros Hwf created. rewrite List.filter_app.
  rewrite filter_nothing, filter_everything; [reflexivity| |].
  - apply Forall_forall. intros x Hx. apply negb_true_iff, bool_decide_eq_false_2.
    intros Hin. apply list_elem_of_fmap in Hin as [o [Hid Ho]].
    apply loaded_objects_stored in Ho.
    pose proof (proj1 (Forall_forall _ _) Hwf o Ho) as [_ [u [Hu Hlt]]].
    destruct (created_objects_ids _ _ _ _ _ _ Hx) as [j [_ Hj]].
    rewrite Hj, Hu in Hid. injection Hid as Hid. apply uuid_str_inj in Hid. lia.
  - apply Forall_forall. intros x Hx. apply negb_false_iff, bool_decide_eq_true_2.
    apply list_elem_of_fmap. now exists x.
Qed.

Lemma objects_well_formed_created (w : World) (a : option string)
    (objects : list AssistanceObject) (c : list Assistance) :
  objects_well_formed w ->
  objects_well_formed
    (set_assistance_collection c
       (with_created_objects
          (created_objects a (clock w) (uuid_supply w) (oid_supply w) objects) w)).
Proof.
  intros Hwf. unfold objects_well_formed.
  cbn [assistance_objects_collection set_assistance_collection with_created_objects
       set_assistance_objects_collection oid_supply uuid_supply set_oid_supply
       set_uuid_supply].
  rewrite created_objects_length. apply Forall_app. split.
  - eapply Forall_impl; [exact Hwf|]. cbn. intros o [[i [Hi Hlt]] [u [Hu Hlt']]].
    split; [exists i|exists u]; split; auto; lia.
  - apply Forall_forall. intros x Hx. apply list_elem_of_lookup in Hx as [j Hj].
    pose proof (lookup_lt_Some _ _ _ Hj) as Hlen. rewrite created_objects_length in Hlen.
    apply created_objects_lookup in Hj as [o [_ ->]]. cbn.
    split; [exists (oid_supply w + j)|exists (uuid_supply w + j)]; split; auto; lia.
Qed.

(** [persist] on a result that carries the id of a running instance and
    new objects. *)
Lemma persist_update_run (process : AssistanceProcess)
    (assistance : Assistance) (w : World) (doc : Assistance) (st : AssistanceState)
    (s : string) :
  a_id assistance = Some s ->
  find (fun d => a_id_matches (VStr s) (a_id d)) (assistance_collection w) = Some doc ->
  a_assistance_state doc = Some st ->
  is_terminal (status st) = false ->
  a_assistance_objects assistance ≠ [] ->
  Forall (fun o => ao_oid o = None) (a_assistance_objects assistance) ->
  Forall (fun o => parameters_encodable (ao_parameters o) = true)
    (a_assistance_objects assistance) ->
  parameters_encodable (a_parameters assistance) = true ->
  objects_well_formed w ->
  let created :=
    created_objects (Some s) (clock w) (uuid_supply w) (oid_supply w)
      (a_assistance_objects assistance) in
  let stored :=
    with_assistance_objects
      (a_assistance_objects doc ++ map (fun created_ao => ref_object (ao_oid created_ao)) created)
      assistance in
  let w' :=
    set_assistance_collection
      (replace_first (fun d => a_id_matches (VStr s) (a_id d)) (fun _ => stored)
         (assistance_collection w))
      (with_created_objects created w) in
  persist process assistance w = (inr (with_assistance_objects created assistance), w').
Proof.
  intros Hid Hfind Hstate Hrunning Hnonempty Hnew Hencodable Hparameters Hwf
         created stored w'.
  unfold persist. rewrite Hid. cbn [opt_str_value].
  rewrite (bind_inr _ _ _ _ _ (read_assistance_by_a_id_value _ _ _ Hfind)).
  rewrite (bind_inr _ _ _ _ _
             (update_adding_run assistance w doc st s Hid Hfind Hstate Hrunning Hnonempty
                Hnew Hencodable Hparameters)).
  unfold ret. f_equal. f_equal.
  cbn [a_assistance_objects with_assistance_objects].
  rewrite loaded_objects_after_update by exact Hwf.
  rewrite new_objects_filter by exact Hwf. reflexivity.
Qed.

(** X25. When the engine writes a result that carries the id of a
    running instance and new objects, in a store whose objects all got
    their ids from the supplies: the objects are written with fresh
    ids, the stored document becomes the result with the references it
    had followed by those of the new objects, and the instance handed
    back carries exactly the objects written by this call, none of the
    earlier ones. The store keeps its form. *)
Theorem persist_returns_created_objects (process : AssistanceProcess)
    (assistance : Assistance) (w : World) (doc : Assistance) (st : AssistanceState)
    (s : string) :
  a_id assistance = Some s ->
  find (fun d => a_id_matches (VStr s) (a_id d)) (assistance_collection w) = Some doc ->
  a_assistance_state doc = Some st ->
  is_terminal (status st) = false ->
  a_assistance_objects assistance ≠ [] ->
  Forall (fun o => ao_oid o = None) (a_assistance_objects assistance) ->
  Forall (fun o => parameters_encodable (ao_parameters o) = true)
    (a_assistance_objects assistance) ->
  parameters_encodable (a_parameters assistance) = true ->
  objects_well_formed w ->
  let created :=
    created_objects (Some s) (clock w) (uuid_supply w) (oid_supply w)
      (a_assistance_objects assistance) in
  let stored :=
    with_assistance_objects
      (a_assistance_objects doc ++ map (fun created_ao => ref_object (ao_oid created_ao)) created)
      assistance in
  let w' :=
    set_assistance_collection
      (replace_first (fun d => a_id_matches (VStr s) (a_id d)) (fun _ => stored)
         (assistance_collection w))
      (with_created_objects created w) in
  persist process assistance w = (inr (with_assistance_objects created assistance), w')
  /\ objects_well_formed w'.
Proof.
  intros Hid Hfind Hstate Hrunning Hnonempty Hnew Hencodable Hparameters Hwf
         created stored w'.
  split; [|now apply objects_well_formed_created].
  now apply (persist_update_run process assistance w doc st s).
Qed.

Lemma persist_returns_created_objects_witness :
  let assistance := with_assistance_objects [response_object] (stored_instance IN_PROGRESS) in
  let created := created_objects (Some "a1") 1000 1 1 [response_object] in
  persist demo_process assistance world_with_stored_object
  = (inr (with_assistance_objects created assistance),
     set_assistance_collection
       [with_assistance_objects [ref_object (Some 0); ref_object (Some 1)]
          (stored_instance IN_PROGRESS)]
       (with_created_objects created world_with_stored_object))
  /\ objects_well_formed
       (set_assistance_collection
          [with_assistance_objects [ref_object (Some 0); ref_object (Some 1)]
             (stored_instance IN_PROGRESS)]
          (with_created_objects created world_with_stored_object)).
Proof.
  apply (persist_returns_created_objects demo_process
           (with_assistance_objects [response_object] (stored_instance IN_PROGRESS))
           world_with_stored_object
           (with_assistance_objects [ref_object (Some 0)] (stored_instance IN_PROGRESS))
           {| status := Some IN_PROGRESS; phase := None; step := Some "initiation" |} "a1").
  - reflexivity.
  - reflexivity.
  - reflexivity.
  - reflexivity.
  - discriminate.
  - repeat constructor.
  - repeat constructor.
  - reflexivity.
  - repeat constructor.
    + exists 0. split; [reflexivity|]. cbn. lia.
    + exists 0. split; [reflexivity|]. cbn. lia.
Defined.

Lemma replace_first_twice {A : Type} (p : A -> bool) (f : A -> A) (x : A) (l : list A) :
  (forall y, p (f y) = p y) ->
  replace_first p (fun _ => x) (replace_first p f l) = replace_first p (fun _ => x) l.
Proof.
  intros Hp. induction l as [|y l IH]; [reflexivity|]. cbn [replace_first].
  destruct (p y) eqn:Hy; cbn [replace_first].
  - now rewrite Hp, Hy.
  - now rewrite Hy, IH.
Qed.

Section GreetingHint.

Variable t : string -> string -> string.

Lemma greeting_hint_operation :
  _registered_operations (GreetingAssistance t) !! TOOLCHECK_SCREENCAST_HINT_OPERATION_KEY
  = Some (ToolcheckScreencastHintOperation t).
Proof.
  unfold GreetingAssistance. cbn [_registered_operations with_registered_operations].
  apply lookup_insert_eq.
Qed.

(** X26. The second step of the greeting process, run by the engine
    for a context that names a stored instance whose status is neither
    COMPLETED nor ABORTED and whose parameters can be encoded, in a
    store whose objects all got their ids from the supplies: the
    operation is applicable; two objects are
    written for the user of the instance, first the announcement of
    the state COMPLETED, then the hint with its message and the
    address of the screencast, both of type ASSISTANCE_OBJECT and of
    assistance type [greeting]; the stored instance becomes COMPLETED
    at step [screencast_hint_operation] with no continuation keys and
    the references to the two objects after those it had; every
    scheduled operation of the instance is deleted and none is
    written; the result is the instance with exactly the two new
    objects. *)
Theorem screencast_hint_completes_instance (ctx : AssistanceContext) (w : World)
    (s : string) (doc : Assistance) (st : AssistanceState)
    (current : AssistanceStateStatus) :
  get_parameter ctx ASSISTANCE_CONTEXT_PARAMETER_KEY_A_ID = inr (VStr s) ->
  find (fun d => a_id_matches (VStr s) (a_id d)) (assistance_collection w) = Some doc ->
  a_assistance_state doc = Some st ->
  status st = Some current ->
  is_terminal (Some current) = false ->
  parameters_encodable (a_parameters doc) = true ->
  objects_well_formed w ->
  let produced :=
    map (set_object_type "greeting")
      [ create_with_default_parameters_object (a_user_id doc)
          [ {| key := ASSISTANCE_OBJECT_PARAMETER_KEY_STATE_UPDATE;
               value := state_to_dict COMPLETED None None |} ];
        create_with_default_parameters_object (a_user_id doc)
          [ {| key := ASSISTANCE_OBJECT_PARAMETER_KEY_MESSAGE;
               value := VStr (t LOCALE_IDENTIFIER_DE
                                "assistance.greeting.operation.toolcheck_screencast_hint") |};
            {| key := ASSISTANCE_OBJECT_PARAMETER_KEY_URI;
               value := VStr "https://youtu.be/AJPM0PD0kx4" |} ] ] in
  let created :=
    created_objects (Some s) (clock w) (uuid_supply w) (oid_supply w) produced in
  let completed :=
    with_next_operation_keys []
      (with_assistance_state
         (Some {| status := Some COMPLETED; phase := None;
                  step := Some TOOLCHECK_SCREENCAST_HINT_OPERATION_KEY |})
         doc) in
  let w' :=
    set_assistance_collection
      (replace_first (fun d => a_id_matches (VStr s) (a_id d))
         (fun _ =>
            with_assistance_objects
              (a_assistance_objects doc
               ++ map (fun created_ao => ref_object (ao_oid created_ao)) created)
              completed)
         (assistance_collection w))
      (with_created_objects created
         (set_assistance_operations_collection
            (List.filter (fun o => negb (a_id_matches (VStr s) (so_a_id o)))
               (assistance_operations_collection w)) w)) in
  check_applicability_and_execute_operation (GreetingAssistance t)
    TOOLCHECK_SCREENCAST_HINT_OPERATION_KEY ctx w
  = (inr (Some (new_result (Some [with_assistance_objects created completed]) None false)),
     w').
Proof.
  intros Hq Hfind Hstate Hstatus Hrunning Hparameters Hwf produced created completed w'.
  unfold check_applicability_and_execute_operation.
  rewrite greeting_hint_operation.
  cbn [is_applicable_override ToolcheckScreencastHintOperation self].
  rewrite (bind_inr _ _ _ _ _ (is_applicable_with_a_id _ ctx (VStr s) w Hq)).
  cbn [negb].
  replace (_registered_operation_keys_to_phase_number (GreetingAssistance t)
             !! TOOLCHECK_SCREENCAST_HINT_OPERATION_KEY) with (@None Z) by reflexivity.
  unfold execute. cbn [_execute ToolcheckScreencastHintOperation self].
  unfold screencast_hint_execute at 1. rewrite Hq, !bind_assoc, bind_lift_inr, !bind_assoc.
  rewrite (bind_inr _ _ _ _ _ (read_assistance_by_a_id_value _ _ _ Hfind)).
  rewrite bind_ret_l.
  cbn [prevent_progress entering with_assistance_in_progress_required
       subsequent_operations assistance_in_progress_required
       reset_next_operation_keys delete_scheduled_operations
       _filter_subsequent_operations_by_type List.filter andb negb orb
       new_result assistance default from_option id with_assistance_objects].
  rewrite bool_decide_eq_true_2 by eauto. cbn [andb when].
  rewrite !bind_assoc, bind_lift_inr.
  unfold update_assistance_by_a_id_reset_next_operation_keys.
  unfold bind at 1. unfold modify at 1.
  rewrite !bind_assoc, bind_lift_inr.
  unfold delete_assistance_operations_by_a_id.
  unfold bind at 1. unfold modify at 1.
  cbn [for_each]. rewrite !bind_assoc.
  match goal with
  | |- bind (_process_assistance_result _ ?self1 (Some ?a1) _ _ _) _ ?w1 = _ =>
      set (operation := self1); set (read := a1); set (w2 := w1)
  end.
  assert (Hmatch : a_id_matches (VStr s) (a_id doc) = true)
    by (now apply find_Some_holds in Hfind).
  assert (Hfind2 : find (fun d => a_id_matches (VStr s) (a_id d)) (assistance_collection w2)
                   = Some (with_next_operation_keys [] doc)).
  { apply (find_replace_first_fun _ (with_next_operation_keys []) _ doc Hfind). exact Hmatch. }
  assert (Hprocess :
    _process_assistance_result (GreetingAssistance t) operation (Some read) ctx [] [] w2
    = (inr (with_state_update_status_to_send (Some [ABORTED; COMPLETED]) operation,
            Some (with_assistance_objects created completed)), w')).
  { unfold _process_assistance_result. rewrite bind_ret_l.
    unfold determine_state_update.
    cbn [target_status operation entering with_assistance_in_progress_required op_phase
         op_step state_update_status_to_send read a_assistance_state
         with_assistance_objects].
    rewrite Hstate. cbn [mbind option_bind]. rewrite Hstatus, update_or_keep_eq.
    unfold _compute_state_update_assistance_objects.
    cbn [state_update_status_to_send with_state_update_status_to_send
         send_state_update_to_related_users operation entering
         with_assistance_in_progress_required].
    rewrite bool_decide_eq_true_2 by (apply list_elem_of_In; cbn; tauto).
    cbn [negb bindE map]. rewrite bind_lift_inr.
    unfold set_assistance_properties.
    cbn [prevent_progress with_state_update_status_to_send map operation_key get_key
         GreetingAssistance with_registered_operations new_process].
    match goal with
    | |- bind (persist _ ?a) _ _ = _ => set (result := a)
    end.
    assert (Hpersist :
      persist (GreetingAssistance t) result w2
      = (inr (with_assistance_objects created completed), w')).
    { assert (Hid : a_id result = Some s) by (now apply a_id_matches_VStr).
      assert (Hrunning' : is_terminal (status st) = false) by (now rewrite Hstatus).
      assert (Hnonempty : a_assistance_objects result ≠ []) by discriminate.
      assert (Hnew : Forall (fun o => ao_oid o = None) (a_assistance_objects result))
        by (repeat constructor).
      assert (Hencodable : Forall (fun o => parameters_encodable (ao_parameters o) = true)
                             (a_assistance_objects result))
        by (repeat constructor).
      pose proof (persist_update_run (GreetingAssistance t) result w2
                    (with_next_operation_keys [] doc) st s Hid Hfind2 Hstate Hrunning'
                    Hnonempty Hnew Hencodable Hparameters Hwf) as Hrun.
      cbn zeta in Hrun. rewrite Hrun. f_equal.
      unfold w', w2.
      cbn [assistance_collection set_assistance_operations_collection
           set_assistance_collection].
      rewrite replace_first_twice by reflexivity. reflexivity. }
    rewrite (bind_inr _ _ _ _ _ Hpersist). cbn [for_each]. now rewrite bind_ret_l. }
  rewrite (bind_inr _ _ _ _ _ Hprocess).
  rewrite !bind_ret_l. reflexivity.
Qed.

End GreetingHint.



Lemma screencast_hint_completes_instance_witness :
  let produced :=
    map (set_object_type "greeting")
      [ create_with_default_parameters_object (Some "u1")
          [ {| key := ASSISTANCE_OBJECT_PARAMETER_KEY_STATE_UPDATE;
               value := state_to_dict COMPLETED None None |} ];
        create_with_default_parameters_object (Some "u1")
          [ {| key := ASSISTANCE_OBJECT_PARAMETER_KEY_MESSAGE;
               value := VStr (example_t LOCALE_IDENTIFIER_DE
                                "assistance.greeting.operation.toolcheck_screencast_hint") |};
            {| key := ASSISTANCE_OBJECT_PARAMETER_KEY_URI;
               value := VStr "https://youtu.be/AJPM0PD0kx4" |} ] ] in
  let created := created_objects (Some "a1") 1000 1 1 produced in
  let completed :=
    with_next_operation_keys []
      (with_assistance_state
         (Some {| status := Some COMPLETED; phase := None;
                  step := Some TOOLCHECK_SCREENCAST_HINT_OPERATION_KEY |})
         (stored_instance IN_PROGRESS)) in
  check_applicability_and_execute_operation (GreetingAssistance example_t)
    TOOLCHECK_SCREENCAST_HINT_OPERATION_KEY ctx_a1 world_with_stored_object
  = (inr (Some (new_result (Some [with_assistance_objects created completed]) None false)),
     set_assistance_collection
       [with_assistance_objects
          [ref_object (Some 0); ref_object (Some 1); ref_object (Some 2)] completed]
       (with_created_objects created world_with_stored_object)).
Proof.
  apply (screencast_hint_completes_instance example_t ctx_a1 world_with_stored_object "a1"
           (with_assistance_objects [ref_object (Some 0)] (stored_instance IN_PROGRESS))
           {| status := Some IN_PROGRESS; phase := None; step := Some "initiation" |}
           IN_PROGRESS).
  - reflexivity.
  - reflexivity.
  - reflexivity.
  - reflexivity.
  - reflexivity.
  - reflexivity.
  - repeat constructor.
    + exists 0. split; [reflexivity|]. cbn. lia.
    + exists 0. split; [reflexivity|]. cbn. lia.
Defined.
